(* ===== verification/_CoqProject ===== *)
-Q . S2P
Prelude.v
Cpp.v
Signals.v
Path.v
Json.v
JsonRef.v
Prog.v
Logic.v
Sim.v
FileOps.v
Loader.v
Bundle.v
BundleProps.v
Config.v
Time.v
State.v
StateProps.v
SDBus.v
CGroup.v
CGroupRefs.v
Job.v
Container.v
Descriptors.v
Lifecycle.v
ContainerProps.v
Commands.v
CommandsProps.v
Platform.v
Fuel.v
Kernel.v
Roles.v
RolesInv.v
RolesStep.v
RolesProg.v
Concurrent.v
Observe.v
Starts.v
Fair.v
Isolation.v
Several.v
Deletes.v
Programs.v
Liveness.v
CreateStages.v
Tries.v
Ends.v
Schedule.v
Races.v
Examples.v
