(* ===== verification/Prelude.v ===== *)
(** * runw: a verification development

    runw is a container runtime in the OCI command line style that runs
    WebAssembly modules with WasmEdge.  Its commands (create, start, kill,
    delete, state) are short-lived processes that communicate through the files
    of a container directory: a JSON state file that is replaced atomically, and
    a FIFO through which start wakes up the process that create has left behind.

    ** The program and its model

    The sources are C++17 (the Linux build is modelled; Platform selects it).  A pure function is a
    Rocq function; a computation that can be undefined in C++ has a result in
    [cpp]; everything that leaves the memory of the process is a call of type
    [call], and a program is a tree of calls and answers ([prog]).  The
    environment ([Os]) answers the calls; theorems hold for every environment,
    and those about files assume [OsLaws], the documented effects of the calls
    on the file system.

    - Prelude: conventions, tactics, strings.
    - Cpp: integers, error numbers, [std::string], decimal output, undefined
      behaviour.
    - Path: [std::filesystem::path].
    - Json: simdjson as the class [Simdjson] with the laws [SimdjsonLaws], and
      the JSON texts these laws speak about.  JsonRef: a reference parser that
      satisfies the laws.
    - Prog: calls, programs, runs, traces of calls, effects on files.  Logic:
      the program logic [spec] (invariants at every step and postconditions) and
      the logic [accepts] (the calls of a program follow a transition system).
      Sim: an in-memory environment that satisfies the laws, in which the
      programs can be evaluated.
    - Signals: [parseNumeric], [parseSignal] of src/runw.cpp.
    - FileOps: [getTempFilename], [atomicCreateAndWriteFile],
      [atomicUpdateFile], [readAll] of src/runw.cpp.
    - Loader: member functions that load an object from JSON; record update.
      Bundle and BundleProps: [class Bundle] of include/bundle.h and
      src/bundle.cpp.  Config: the document that describes a bundle.
    - Time: [std::gmtime] and [std::strftime] with the format of the sources.
      State and StateProps: [class State] of include/state.h, src/state.cpp.
    - SDBus: include/sdbus.h, src/sdbus.cpp.  CGroup: include/cgroup.h,
      src/cgroup.cpp.  CGroupRefs: the references to messages in [enter].  Job:
      the wait for the systemd job, with the class [JobBus] for what sd-bus and
      systemd promise.
    - Container: [doRunInternal] and [doCreate] of src/runw.cpp, cut into one
      definition per stage.  Descriptors: which file descriptors its processes
      hold.  Lifecycle: the life cycle of a container as a
      transition system and the proof that [doCreate] follows it.
      ContainerProps: the other properties of the two functions.
    - Commands and CommandsProps: [doDelete], [doKill], [doStart], [doState]
      and [main]: the log file, the options it declares and its dispatch.
      Platform: include/defines.h, the code that depends on its macros, and what
      a compiler for Linux selects.  Fuel: the bounds of the loops do not matter.

    These programs run one process each.  Several processes at once:

    - Kernel: processes that share files, pipes and FIFOs; a step is one call of
      one process, a fork, a failing call, a kill, or a change by others.
    - Roles: what a process may do next depends on its role (owner of the
      container, waiter, starter, reader, ...); [wp] is the logic in which a
      program follows the roles.  RolesInv: the invariant of all processes
      together, with one token for the ownership of the container directory.
      RolesStep: every step keeps it.  RolesProg: [wp] of [doCreate] (with the
      processes it forks), [doStart], [doKill] and [doState].
    - Concurrent: any number of commands about one container, and the theorems
      that follow from the invariant.  Observe: what state prints.  Starts:
      counting successful starts.
    - Isolation: a logic [sp] for programs that leave the directory of another
      container alone.  Several: commands about any number of containers; the
      part of an execution that belongs to one of them.  Deletes: delete among
      the commands about a container; an owner of the directory that has ended
      gives up its token.  Programs: processes that start at the beginning of the
      program, with a command line, instead of at the beginning of a command.
    - Fair: infinite fair executions.  Liveness: a wake-up is not lost.
      CreateStages: the stages in which the processes of [doCreate] hold the
      ends of its pipe.  Tries: how often a command looks for the name of a
      temporary file.  Ends: every command ends.
    - Schedule: a scheduler that executes scripts of steps, sound for the step
      relation.  Races: scripts that lead to executions in which a command reports
      something that is not so.  Examples: an execution that witnesses the theorems.

    ** What the theorems show

    - Life cycle: whatever the environment does, the state files put in place by
      [doCreate] and the processes it forks are those of creating, created,
      running and stopped in this order, and the module runs at most once, after
      the wake-up and after the running state is in place.  The transition
      system [life_step] is the abstract specification; its consequences are
      proved by induction on its steps.
    - Concurrency: the same life cycle holds of the state file itself, at every
      moment of every interleaving of any number of create, start, kill and
      state commands and of the processes they fork, whichever calls other than
      the writing of a text to a file fail and whichever processes are killed
      ([concurrent_lifecycle]); the abstract
      specification is [life_path].  The module runs only after some start
      command opened the FIFO; signals reach only processes that put the state
      file in place; at most as many starts succeed as there are creations; what
      state prints begins a state that the file has held.
    - Progress: in a fair execution a container that waits while a start has
      opened its FIFO wakes up, and every command ends ([commands_end]), so
      create never waits for ever for the exit code in its pipe.  A create command
      must find a name for its temporary file after finitely many tries
      ([finds_name]); it tries for ever when there is none
      ([getTempFilename_diverges]).
    - Several containers: commands about other containers, delete included,
      change no file of a container ([isolation]), and what the processes of one
      container do in an execution with many is an execution of its commands
      alone ([several_containers]).  The theorems about one container so hold of
      each; [several_lifecycles] is the life cycle.  All of this is for ids that
      are single path components, which the program does not check.
    - Deletes: the life cycle holds with delete commands, of one container after
      the other in the same directory ([orderly_lifecycle]), in executions that
      are [orderly]: while a delete removes the directory, no process of a create
      command that has begun still runs.  [orderly_run] decides this of an
      execution.
    - Whole programs: what processes with any command lines do is an execution of
      the commands these select ([programs_run_commands], a refinement with the
      projection [settle]), so the life cycles hold of whole programs
      ([programs_lifecycles]).
    - Platforms: with the macros of a compiler for Linux, the code is the one of
      the other files ([linux_build]).
    - Files: at every step of an update the file holds the old text or what was
      written to the temporary file, which is the new text unless a write was cut
      short; creation does not overwrite a file whose status it can read; the
      search for a temporary name returns the first one that is free; what
      print writes, load reads back, through any conforming JSON parser, and a
      timestamp read as a Gregorian date and time gives the clock value back.
    - Commands: whom kill signals, what delete removes, with and without force,
      that start succeeds at most once, that state prints the file, what a failed
      create leaves, and that create succeeds exactly when the parent has read no
      failure from its pipe ([doCreate_success_iff]).
    - Bundle: a document with the members of a bundle is loaded to that bundle
      ([loadConfig_roundtrip]), unknown members are ignored, wrong types are
      errors, order is irrelevant.
    - cgroups: enter succeeds only after systemd has finished the job, releases
      the bus on every return, and releases every message reference once, apart
      from the messages it sends; when systemd reports the end of the job, it
      returns, with the result of the first report about the job.
    - Descriptors: the processes of create use and close only descriptors they
      have open, and a successful create leaves none open.
    - Switches on characters and tables are equal to plain comparisons.
    - Where the code does not do what it means to, the theorem says what it does.

    ** Bounds

    Loops whose number of rounds depends on the environment take [fuel]:
    [getTempFilename] (a round per name that is taken), [check_loop] (a round
    per bus event) and the block-wise [readAll] of src/cgroup.cpp.  Reaching the
    bound is the outcome [OutOfFuel], different from every result, so a theorem
    for all [fuel] covers every finite run of the loop.  Where a loop ends, this
    is a theorem ([getTempFilename_rounds], one round per name that was tried in
    vain and one more; [cgroup_readAll_spec], one round per 4096 bytes and one more;
    [check_ends], one round per message and per wait).
    A run that does not reach its bound is the same with every larger one
    ([program_fuel]).  In an interleaving, a process out of fuel makes no further
    step.

    ** Assumptions about the kernel

    [Kernel] gives every call any of its documented answers, with these
    restrictions, all in [local_answer] and [sys_step]: programs other than
    runw, WasmEdge and the module leave the container directory and the pipes
    of the processes alone ([others_answer]); texts are
    shorter than 4 GB and are written completely (what a failed write does is
    the theorem [atomicUpdateFile_ignores_write_errors]); a read from a pipe
    fails only with EINTR; process numbers are not reused; a process with
    undefined behaviour stops there.  A FIFO with no writer is ready for select
    only when a writer had been there before.  Fairness ([fair_run]) says that a
    process that can make a step from some time on makes one.  That every command
    ends is shown of executions in which no process is killed and no write to a
    pipe fails ([undisturbed]), for create commands that find a name for their
    temporary file: a daemon that dies before it reports leaves the
    write end of the pipe to the container process, and create waits.  The container
    does not exist at the beginning, and pid files are outside of its directory
    ([boot_ok]).  Where commands about several containers run, the ids of all of
    them are single path components ([plain_name] in [several_ok] and
    [elsewhere]); the program does not check this, and an absolute id names any
    directory, which delete then removes ([doDelete_absolute_id]).  The mount
    namespace that a container process joins shows the same files under the paths
    it uses afterwards, the state file among them ([posix_effect] of [Setns]).
    [isdigit] and [toupper] of a negative [char], which C leaves undefined, are
    those of glibc.  Delete is among the commands of [orderly_lifecycle] only, and
    without its condition the theorem fails: [delete_mixes_containers].  The
    theorems about whole programs are about command lines with one root directory
    ([one_root]).

    ** Not modelled

    The option parser of WasmEdge (a parameter of [main], which is given the
    declared options) and its help text, the log messages and spdlog (a parameter
    says whether it can open the log file), WasmEdge, simdjson, sd-bus and the
    operating system (calls and laws), the predefined macros of the compiler, the
    numbers of the signals of other platforms and what CMake fills in for the
    strings of include/config.h.in (parameters).  Of the code for other
    platforms, the whole program is not composed: it calls Linux functions
    outside of the branches, and does not compile for Solaris
    ([solaris_rejected]).  The declarations of the headers have no definition of
    their own.  CLONE_NEWCGROUP and CLONE_NEWTIME are taken as defined.

    ** Plan

    Next: the descriptors of all processes of an interleaving, which the kernel
    model already tracks, against the discipline of [Descriptors]; the theorems
    about progress for executions with delete commands. *)
From stdpp Require Export base gmap strings list list_monad fin_maps.
From stdpp Require Import options.
From Stdlib Require Export ZArith Lia.
From Stdlib Require Ascii String.
Export Stdlib.Strings.Ascii (ascii(..)).
Export (notations) Stdlib.Strings.Ascii.

(** ** Conventions *)

Declare Scope runw_scope.
Delimit Scope runw_scope with runw.
#[global] Open Scope runw_scope.
#[global] Open Scope Z_scope.

(** The double quote character; JSON texts are built from it. *)
Definition dq : ascii := "034"%char.
(** A one-character string. *)
Definition chr (c : ascii) : string := String c EmptyString.
(** The code of a character, as an unsigned byte. *)
Definition code (c : ascii) : Z := Z.of_N (Ascii.N_of_ascii c).

(** ** Tactics *)

(** Case split on every [match]/[if] scrutinee of the goal, keeping equations. *)
Ltac split_goal :=
  repeat match goal with
    | |- context [match ?x with _ => _ end] => destruct x eqn:?; simplify_eq/=
    end.

(** The same on one hypothesis. *)
Ltac split_in H :=
  repeat match type of H with
    | context [match ?x with _ => _ end] => destruct x eqn:?; simplify_eq/=
    end.

(** Close a goal about booleans by going to propositions and arithmetic. *)
Ltac bool_lia :=
  repeat first
    [ rewrite Z.eqb_eq in * | rewrite Z.eqb_neq in *
    | rewrite Z.ltb_lt in * | rewrite Z.ltb_ge in *
    | rewrite Z.leb_le in * | rewrite Z.leb_gt in *
    | rewrite andb_true_iff in * | rewrite orb_true_iff in *
    | rewrite andb_false_iff in * | rewrite orb_false_iff in * ];
  lia.

(** Linear arithmetic with division and remainder by constants. *)
Ltac div_lia := Z.to_euclidean_division_equations; lia.

Create HintDb runw.
Create Rewrite HintDb str.

(** ** Strings *)

Lemma sapp_nil_l (s : string) : EmptyString +:+ s = s.
Proof. done. Qed.

Lemma sapp_cons (c : ascii) (s t : string) :
  String c s +:+ t = String c (s +:+ t).
Proof. done. Qed.

Lemma sapp_nil_r (s : string) : s +:+ EmptyString = s.
Proof. induction s as [|c s IH]; [done|]. by rewrite sapp_cons, IH. Qed.

Lemma sapp_assoc (s t u : string) : (s +:+ t) +:+ u = s +:+ (t +:+ u).
Proof. induction s as [|c s IH]; [done|]. by rewrite !sapp_cons, IH. Qed.

#[export] Hint Rewrite sapp_nil_l sapp_cons sapp_nil_r sapp_assoc : str.

(** Normal form of string concatenations. *)
Ltac str_norm := autorewrite with str.

Lemma slength_app (s t : string) :
  String.length (s +:+ t) = (String.length s + String.length t)%nat.
Proof. induction s as [|c s IH]; [done|]. rewrite sapp_cons. simpl. by rewrite IH. Qed.

(** Compute the lengths of concatenations in a hypothesis. *)
Ltac str_len H :=
  repeat (progress (rewrite ?slength_app in H; cbn [String.length] in H)).

Lemma sapp_inj_l (s t u : string) : s +:+ t = s +:+ u -> t = u.
Proof. induction s as [|c s IH]; [done|]. rewrite !sapp_cons. intros [=]. auto. Qed.

Lemma sapp_ne_self (s t : string) : t <> EmptyString -> s +:+ t <> s.
Proof.
  intros Ht Heq. apply Ht.
  rewrite <- (sapp_nil_r s) in Heq at 2. by apply sapp_inj_l in Heq.
Qed.

(** Every character of [s] satisfies [P]. *)
Fixpoint str_all (P : ascii -> bool) (s : string) : bool :=
  match s with
  | EmptyString => true
  | String c s => P c && str_all P s
  end.

Lemma str_all_app P s t : str_all P (s +:+ t) = str_all P s && str_all P t.
Proof.
  induction s as [|c s IH]; [done|]. rewrite sapp_cons. simpl.
  by rewrite IH, andb_assoc.
Qed.

Lemma str_all_impl (P Q : ascii -> bool) s :
  (forall c, P c = true -> Q c = true) -> str_all P s = true -> str_all Q s = true.
Proof.
  intros HPQ. induction s as [|c s IH]; [done|]. simpl.
  rewrite !andb_true_iff. intros [? ?]. auto.
Qed.

Lemma code_range c : 0 <= code c < 256.
Proof.
  unfold code. pose proof (Ascii.N_ascii_bounded c). lia.
Qed.

Lemma code_inj c d : code c = code d -> c = d.
Proof.
  unfold code. intros H. apply N2Z.inj in H.
  rewrite <- (Ascii.ascii_N_embedding c), <- (Ascii.ascii_N_embedding d).
  by rewrite H.
Qed.

Lemma bool_decide_str_eq (s t : string) : String.eqb s t = bool_decide (s = t).
Proof.
  case_bool_decide; [by apply String.eqb_eq | by apply String.eqb_neq].
Qed.

#[export] Hint Resolve code_range : runw.
