(* ===== verification/Cpp.v ===== *)
(** The fragment of C++17 and its standard library that the sources of runw
    use: fixed-width integers and their conversions, [std::string] searches,
    the C-locale character classes, decimal output of integers, and the result
    type of computations that can run into undefined behaviour. *)
From S2P Require Import Prelude.
From Stdlib Require Import DecimalString DecimalZ DecimalFacts.

(** ** Integers *)

Definition INT32_MIN : Z := - 2 ^ 31.
Definition INT32_MAX : Z := 2 ^ 31 - 1.
Definition UINT32_MAX : Z := 2 ^ 32 - 1.
Definition INT64_MIN : Z := - 2 ^ 63.
Definition INT64_MAX : Z := 2 ^ 63 - 1.
Definition UINT64_MAX : Z := 2 ^ 64 - 1.

(** The integer types that appear as template arguments or members. *)
Inductive int_type := Int32 | UInt32 | Int64 | UInt64.

Definition is_signed (T : int_type) : bool :=
  match T with Int32 | Int64 => true | UInt32 | UInt64 => false end.

(** [std::numeric_limits<T>::min()] and [max()]. *)
Definition type_min (T : int_type) : Z :=
  match T with Int32 => INT32_MIN | Int64 => INT64_MIN | UInt32 | UInt64 => 0 end.
Definition type_max (T : int_type) : Z :=
  match T with
  | Int32 => INT32_MAX | Int64 => INT64_MAX
  | UInt32 => UINT32_MAX | UInt64 => UINT64_MAX
  end.

Definition in_type (T : int_type) (z : Z) : Prop := type_min T <= z <= type_max T.
#[global] Instance in_type_dec T z : Decision (in_type T z).
Proof. unfold in_type. apply _. Defined.

(** Conversion of an integer to [int]: the representative of its residue
    modulo [2^32] in the range of [int]. *)
Definition to_int32 (z : Z) : Z := (z + 2 ^ 31) mod 2 ^ 32 - 2 ^ 31.

Lemma to_int32_id z : in_type Int32 z -> to_int32 z = z.
Proof.
  unfold in_type, type_min, type_max, INT32_MIN, INT32_MAX, to_int32.
  intros ?. rewrite Z.mod_small; lia.
Qed.

Lemma to_int32_range z : in_type Int32 (to_int32 z).
Proof.
  unfold in_type, type_min, type_max, INT32_MIN, INT32_MAX, to_int32.
  pose proof (Z.mod_pos_bound (z + 2 ^ 31) (2 ^ 32)). lia.
Qed.

(** ** Error numbers (Linux) *)

Definition ENOENT : Z := 2.
Definition EINTR : Z := 4.
Definition EFAULT : Z := 14.
Definition EEXIST : Z := 17.
Definition EINVAL : Z := 22.
Definition EROFS : Z := 30.

(** ** Undefined behaviour *)

(** A pure computation either has a value or is undefined. *)
Inductive cpp (A : Type) : Type := Val (a : A) | UB.
Arguments Val {A} a.
Arguments UB {A}.

(** ** Characters in the C locale

    A negative [char] is no digit and no letter, as in glibc, whose tables go down to
    -128; the standard leaves [isdigit] and [toupper] of it undefined. *)

Definition isdigit (c : ascii) : bool := (48 <=? code c) && (code c <=? 57).
Definition isupper (c : ascii) : bool := (65 <=? code c) && (code c <=? 90).
Definition islower (c : ascii) : bool := (97 <=? code c) && (code c <=? 122).
Definition toupper (c : ascii) : ascii :=
  if islower c then Ascii.ascii_of_N (Z.to_N (code c - 32)) else c.

(** ** Strings *)

Fixpoint str_map (f : ascii -> ascii) (s : string) : string :=
  match s with
  | EmptyString => EmptyString
  | String c s => String (f c) (str_map f s)
  end.

(** [s.find(c, pos)] and [s.find(pat, pos)]; [npos] is [None]. *)
Definition find_char (c : ascii) (s : string) (pos : nat) : option nat :=
  String.index pos (chr c) s.
Definition find_str (pat s : string) (pos : nat) : option nat :=
  String.index pos pat s.

(** [s.substr(pos, n)] for [pos <= s.size()], and [s.substr(pos)]. *)
Definition substr (s : string) (pos n : nat) : string := String.substring pos n s.
Definition substr_from (s : string) (pos : nat) : string :=
  String.substring pos (String.length s - pos) s.

(** [s[i] = c] for [i < s.size()]. *)
Fixpoint str_set (s : string) (i : nat) (c : ascii) : string :=
  match s, i with
  | EmptyString, _ => EmptyString
  | String _ s, O => String c s
  | String d s, S i => String d (str_set s i c)
  end.

Definition is_empty (s : string) : bool :=
  match s with EmptyString => true | _ => false end.

(** [s[0]] of a NUL-terminated string. *)
Definition first_char (s : string) : ascii :=
  match s with EmptyString => "000"%char | String c _ => c end.

(** [switch (c) { case k1: e1; break; ... default: d }] *)
Fixpoint switch {A} (c : ascii) (cases : list (ascii * A)) (d : A) : A :=
  match cases with
  | [] => d
  | (k, e) :: cases => if Ascii.eqb c k then e else switch c cases d
  end.

(** ** Decimal output *)

(** [Stream << z], [std::to_string(z)]. *)
Definition print_Z (z : Z) : string := NilZero.string_of_int (Z.to_int z).
(** [Stream << std::boolalpha << b]. *)
Definition print_bool (b : bool) : string := if b then "true" else "false".

(** The number a sequence of decimal digits denotes, continuing from [acc]. *)
Fixpoint dec_value (acc : Z) (s : string) : Z :=
  match s with
  | EmptyString => acc
  | String c s => dec_value (acc * 10 + (code c - 48)) s
  end.

(** ** Bytes of an [int] *)

Definition byte_of (z : Z) : ascii := Ascii.ascii_of_N (Z.to_N (z mod 256)).

(** The four bytes of an [int] in memory (little endian). *)
Definition int_bytes (z : Z) : string :=
  String (byte_of z) (String (byte_of (z / 256)) (String (byte_of (z / 65536))
    (chr (byte_of (z / 16777216))))).

(** The [int] stored in the first four bytes of a buffer; fewer bytes leave
    part of it indeterminate. *)
Definition bytes_int (s : string) : cpp Z :=
  match s with
  | String a (String b (String c (String d _))) =>
      Val (to_int32 (code a + 256 * code b + 65536 * code c + 16777216 * code d))
  | _ => UB
  end.

(** ** Lemmas *)

Lemma code_ascii_of z : 0 <= z < 256 -> code (Ascii.ascii_of_N (Z.to_N z)) = z.
Proof.
  intros ?. unfold code. rewrite Ascii.N_ascii_embedding; lia.
Qed.

Lemma code_byte_of z : code (byte_of z) = z mod 256.
Proof.
  apply code_ascii_of. pose proof (Z.mod_pos_bound z 256). lia.
Qed.

Lemma mod_bytes z :
  z mod 256 + 256 * ((z / 256) mod 256) + 65536 * ((z / 65536) mod 256)
    + 16777216 * ((z / 16777216) mod 256) = z mod 2 ^ 32.
Proof.
  change (2 ^ 32) with (256 * (256 * (256 * 256))).
  rewrite !Z.rem_mul_r, !Z.div_div by lia. change (256 * 256) with 65536.
  change (65536 * 256) with 16777216. lia.
Qed.

(** Writing an [int] to a pipe and reading it back gives the same [int]. *)
Lemma bytes_int_bytes z : in_type Int32 z -> bytes_int (int_bytes z) = Val z.
Proof.
  intros Hz. unfold bytes_int, int_bytes, chr.
  rewrite !code_byte_of, mod_bytes. f_equal.
  rewrite <- (to_int32_id z) at 2 by done. unfold to_int32.
  by rewrite Zplus_mod_idemp_l.
Qed.

Lemma isdigit_code c : isdigit c = true <-> 48 <= code c <= 57.
Proof. unfold isdigit. rewrite andb_true_iff, !Z.leb_le. lia. Qed.

Lemma dec_value_app acc s t : dec_value acc (s +:+ t) = dec_value (dec_value acc s) t.
Proof. revert acc. induction s as [|c s IH]; intros acc; [done|]. apply IH. Qed.

Lemma dec_value_ge acc s :
  str_all isdigit s = true -> 0 <= acc -> acc <= dec_value acc s.
Proof.
  revert acc. induction s as [|c s IH]; intros acc; [simpl; lia|]. simpl.
  rewrite andb_true_iff, isdigit_code. intros [??] ?.
  etrans; [|apply IH; [done|lia]]. lia.
Qed.

Lemma switch_miss {A} c (cases : list (ascii * A)) d :
  c ∉ cases.*1 -> switch c cases d = d.
Proof.
  induction cases as [|[k e] cases IH]; [done|]. simpl. intros Hn.
  destruct (Ascii.eqb_spec c k); [set_solver|]. apply IH. set_solver.
Qed.

Lemma substring_all s : String.substring 0 (String.length s) s = s.
Proof. induction s as [|c s IH]; [done|]. cbn. by rewrite IH. Qed.

(** *** Decimal output *)

Lemma dec_value_uint_acc d p :
  Z.pos (Pos.of_uint_acc d p) = dec_value (Z.pos p) (NilEmpty.string_of_uint d).
Proof.
  revert p. induction d; intros p; cbn [Pos.of_uint_acc NilEmpty.string_of_uint dec_value];
    [done|..]; rewrite IHd; f_equal; unfold code; simpl; lia.
Qed.

Lemma dec_value_uint d :
  dec_value 0 (NilEmpty.string_of_uint d) = Z.of_uint d.
Proof.
  unfold Z.of_uint.
  induction d; cbn [Pos.of_uint NilEmpty.string_of_uint dec_value Z.of_N]; [done|..];
    rewrite ?dec_value_uint_acc; try done.
Qed.

Lemma str_all_isdigit_uint d : str_all isdigit (NilEmpty.string_of_uint d) = true.
Proof. by induction d. Qed.

(** The output of a non-negative number is a non-empty digit string that
    denotes it. *)
Lemma print_Z_nonneg z :
  0 <= z ->
  str_all isdigit (print_Z z) = true /\ print_Z z <> EmptyString /\
  dec_value 0 (print_Z z) = z.
Proof.
  intros Hz. pose proof (DecimalZ.of_to z) as Hof. unfold print_Z.
  destruct z as [|p|p]; [done| |lia].
  assert (Z.to_int (Z.pos p) = Decimal.Pos (Pos.to_uint p)) as E by done.
  rewrite E in *. cbn [NilZero.string_of_int Z.of_int] in *.
  assert (NilZero.string_of_uint (Pos.to_uint p) =
          NilEmpty.string_of_uint (Pos.to_uint p)) as ->.
  { unfold NilZero.string_of_uint. by destruct (Pos.to_uint p). }
  rewrite str_all_isdigit_uint, dec_value_uint, Hof. split_and!; [done| |done].
  by destruct (Pos.to_uint p).
Qed.

Lemma print_Z_neg z : z < 0 -> print_Z z = String "-" (print_Z (- z)).
Proof. intros Hz. by destruct z. Qed.
