(* ===== verification/Signals.v ===== *)
(** Signal names and numbers: [parseNumeric] and [parseSignal] of
    src/runw.cpp, the argument parsing of the [kill] command. *)
From S2P Require Import Prelude Cpp.

(** ** Definitions *)

(** The loop of [parseNumeric].  [Value * 10 + (C - '0')] is computed in
    [int]; a value outside its range is undefined behaviour. *)
Fixpoint parseNumeric_loop (Value : Z) (Name : string) : cpp Z :=
  match Name with
  | EmptyString => Val Value
  | String C Name =>
      if isdigit C then
        if decide (in_type Int32 (Value * 10)) then
          let Value' := Value * 10 + (code C - 48) in
          if decide (in_type Int32 Value') then parseNumeric_loop Value' Name
          else UB
        else UB
      else Val (-1)
  end.

Definition parseNumeric (Name : string) : cpp Z := parseNumeric_loop 0 Name.

(** The table for Linux; the numbers are those of signal(7) for x86 and ARM. *)
Definition kSignalNames : list (string * Z) :=
  [ ("SIGABRT", 6); ("SIGALRM", 14); ("SIGBUS", 7); ("SIGCHLD", 17);
    ("SIGCONT", 18); ("SIGFPE", 8); ("SIGHUP", 1); ("SIGILL", 4);
    ("SIGINT", 2); ("SIGIO", 29); ("SIGKILL", 9); ("SIGPIPE", 13);
    ("SIGPROF", 27); ("SIGPWR", 30); ("SIGQUIT", 3); ("SIGSEGV", 11);
    ("SIGSTKFLT", 16); ("SIGSTOP", 19); ("SIGSYS", 31); ("SIGTERM", 15);
    ("SIGTRAP", 5); ("SIGTSTP", 20); ("SIGTTIN", 21); ("SIGTTOU", 22);
    ("SIGURG", 23); ("SIGUSR1", 10); ("SIGUSR2", 12); ("SIGVTALRM", 26);
    ("SIGWINCH", 28); ("SIGXCPU", 24); ("SIGXFSZ", 25) ].

(** [kSignalNames.find(Upper)]. *)
Fixpoint findSignal (table : list (string * Z)) (Upper : string) : option Z :=
  match table with
  | [] => None
  | (k, v) :: table => if String.eqb Upper k then Some v else findSignal table Upper
  end.

(** [parseSignal] with the table of the platform. *)
Definition parseSignal_in (table : list (string * Z)) (Name : string) : cpp Z :=
  match parseNumeric Name with
  | UB => UB
  | Val Value =>
      if negb (Value =? -1) then Val Value
      else
        let Upper := str_map toupper Name in
        let Upper :=
          if String.eqb (substr Upper 0 3) "SIG" then Upper else "SIG" +:+ Upper in
        Val (default (-1) (findSignal table Upper))
  end.

Definition parseSignal (Name : string) : cpp Z := parseSignal_in kSignalNames Name.

(** ** Reference notions *)

(** The longest prefix of decimal digits. *)
Fixpoint digit_prefix (s : string) : string :=
  match s with
  | EmptyString => EmptyString
  | String c s => if isdigit c then String c (digit_prefix s) else EmptyString
  end.

Definition tolower (c : ascii) : ascii :=
  if isupper c then Ascii.ascii_of_N (Z.to_N (code c + 32)) else c.

(** ** Lemmas *)

Lemma digit_prefix_all s : str_all isdigit (digit_prefix s) = true.
Proof.
  induction s as [|c s IH]; [done|]. simpl.
  destruct (isdigit c) eqn:Hc; [|done]. simpl. by rewrite Hc.
Qed.

Lemma digit_prefix_id s : str_all isdigit s = true -> digit_prefix s = s.
Proof.
  induction s as [|c s IH]; [done|]. simpl.
  rewrite andb_true_iff. intros [-> ?]. f_equal. auto.
Qed.

Lemma parseNumeric_loop_spec acc s :
  0 <= acc <= INT32_MAX ->
  parseNumeric_loop acc s =
    if dec_value acc (digit_prefix s) <=? INT32_MAX
    then Val (if str_all isdigit s then dec_value acc s else -1)
    else UB.
Proof.
  revert acc. induction s as [|c s IH]; intros acc Hacc; simpl.
  { destruct (Z.leb_spec acc INT32_MAX); [done|lia]. }
  destruct (isdigit c) eqn:Hc; simpl;
    [|by destruct (Z.leb_spec acc INT32_MAX); [|lia]].
  apply isdigit_code in Hc.
  pose proof (dec_value_ge (acc * 10 + (code c - 48)) (digit_prefix s)
    (digit_prefix_all s)) as Hge.
  unfold in_type, type_min, type_max, INT32_MIN in *.
  repeat case_decide; [by apply IH; lia|..];
    (destruct (Z.leb_spec (dec_value (acc * 10 + (code c - 48)) (digit_prefix s))
      INT32_MAX); [lia|done]).
Qed.

Lemma parseNumeric_loop_range acc s v :
  0 <= acc -> parseNumeric_loop acc s = Val v -> v = -1 \/ 0 <= v.
Proof.
  revert acc. induction s as [|c s IH]; intros acc Hacc; simpl.
  { intros [= <-]. lia. }
  destruct (isdigit c) eqn:Hc; [|intros [= <-]; lia].
  apply isdigit_code in Hc.
  repeat case_decide; try done. apply IH. lia.
Qed.

Lemma toupper_cases c :
  (islower c = true /\ code (toupper c) = code c - 32) \/
  (islower c = false /\ toupper c = c).
Proof.
  unfold toupper. destruct (islower c) eqn:Hc; [left|right; done]. split; [done|].
  unfold islower in Hc. rewrite andb_true_iff, !Z.leb_le in Hc.
  apply code_ascii_of. lia.
Qed.

Lemma toupper_idem c : toupper (toupper c) = toupper c.
Proof.
  destruct (toupper_cases c) as [[Hc Hu]|[_ Hu]]; [|by rewrite !Hu].
  destruct (toupper_cases (toupper c)) as [[Hd _]|[_ ?]]; [|done].
  unfold islower in *. rewrite Hu in Hd. bool_lia.
Qed.

Lemma isdigit_toupper c : isdigit (toupper c) = isdigit c.
Proof.
  destruct (toupper_cases c) as [[Hc Hu]|[_ ->]]; [|done].
  unfold isdigit, islower in *. rewrite Hu. apply eq_bool_prop_intro.
  rewrite !Is_true_true. bool_lia.
Qed.

Lemma toupper_digit c : isdigit c = true -> toupper c = c.
Proof.
  intros Hd. destruct (toupper_cases c) as [[Hc _]|[_ ?]]; [|done].
  unfold isdigit, islower in *. bool_lia.
Qed.

Lemma str_map_toupper_idem s :
  str_map toupper (str_map toupper s) = str_map toupper s.
Proof. induction s as [|c s IH]; simpl; [done|]. by rewrite toupper_idem, IH. Qed.

Lemma parseNumeric_loop_toupper acc s :
  parseNumeric_loop acc (str_map toupper s) = parseNumeric_loop acc s.
Proof.
  revert acc. induction s as [|c s IH]; intros acc; [done|]. simpl.
  rewrite isdigit_toupper. destruct (isdigit c) eqn:Hc; [|done].
  rewrite toupper_digit by done. repeat case_decide; auto.
Qed.

Lemma findSignal_elem t u v : findSignal t u = Some v -> (u, v) ∈ t.
Proof.
  induction t as [|[k x] t IH]; [done|]. simpl.
  destruct (String.eqb_spec u k); set_solver.
Qed.

Lemma findSignal_range u :
  default (-1) (findSignal kSignalNames u) = -1 \/
  0 <= default (-1) (findSignal kSignalNames u).
Proof.
  destruct (findSignal kSignalNames u) as [v|] eqn:Hf; [right|by left].
  apply findSignal_elem in Hf. revert Hf.
  apply (Forall_forall (λ kv : string * Z, 0 <= kv.2)). by repeat constructor.
Qed.

(** ** Properties *)

(** C30: [parseNumeric] is decimal conversion with an overflow hole: when the
    leading digits denote a number that fits an [int], it returns the value of
    the whole string if every character is a digit and -1 otherwise; when they
    do not fit, the C++ expression is undefined. *)
Theorem parseNumeric_spec s :
  parseNumeric s =
    if dec_value 0 (digit_prefix s) <=? INT32_MAX
    then Val (if str_all isdigit s then dec_value 0 s else -1)
    else UB.
Proof. apply parseNumeric_loop_spec. unfold INT32_MAX. lia. Qed.

(** Signal names are case-insensitive. *)
Theorem parseSignal_case_insensitive s :
  parseSignal (str_map toupper s) = parseSignal s.
Proof.
  unfold parseSignal, parseSignal_in, parseNumeric.
  by rewrite parseNumeric_loop_toupper, str_map_toupper_idem.
Qed.

(** Every entry of the signal table is recognised by its name, by its
    lower-case name and by its name without the SIG prefix, with the same
    number. *)
Theorem parseSignal_table :
  Forall (λ '(n, v),
    parseSignal n = Val v /\ parseSignal (str_map tolower n) = Val v /\
    parseSignal (substr_from n 3) = Val v) kSignalNames.
Proof. repeat constructor. Qed.

(** Whenever [parseSignal] is defined it returns -1 or a non-negative
    number, so the test [Signal < 0] of [doKill] rejects exactly the
    unrecognised names. *)
Theorem parseSignal_range s v : parseSignal s = Val v -> v = -1 \/ 0 <= v.
Proof.
  unfold parseSignal, parseSignal_in. destruct (parseNumeric s) as [n|] eqn:Hn; [|done].
  apply parseNumeric_loop_range in Hn; [|done].
  destruct (Z.eqb_spec n (-1)); cbn [negb]; [|intros [= <-]; lia].
  intros [= <-]. apply findSignal_range.
Qed.

Lemma parseSignal_range_witness : parseSignal "kill" = Val 9 /\ (9 = -1 \/ 0 <= 9).
Proof. split; [reflexivity|]. apply (parseSignal_range "kill"). reflexivity. Defined.
