(* ===== verification/Path.v ===== *)
(** [std::filesystem::path] on POSIX, as far as runw uses it: a path is its
    native string; [operator/], [operator+=] and [concat], [parent_path],
    [replace_extension].  The lemmas describe where the container directory
    [Root / ContainerId] lies. *)
From S2P Require Import Prelude Cpp.

(** ** Operations *)

Definition slash : ascii := "/"%char.

Definition is_absolute (p : string) : bool := Ascii.eqb (first_char p) slash.

Fixpoint last_char (s : string) : option ascii :=
  match s with
  | EmptyString => None
  | String c EmptyString => Some c
  | String _ s => last_char s
  end.

(** [p.has_filename()]: the part after the last separator is not empty. *)
Definition has_filename (p : string) : bool :=
  match last_char p with
  | None => false
  | Some c => negb (Ascii.eqb c slash)
  end.

(** [p / q]: an absolute [q] replaces [p]. *)
Definition path_append (p q : string) : string :=
  if is_absolute q then q
  else if has_filename p then p +:+ String slash q
  else p +:+ q.

(** [p += q], [p.concat(q)]. *)
Definition path_concat (p q : string) : string := p +:+ q.

(** The characters after the last separator, and what precedes them. *)
Fixpoint split_last_slash (s : string) : option (string * string) :=
  match s with
  | EmptyString => None
  | String c s =>
      match split_last_slash s with
      | Some (d, f) => Some (String c d, f)
      | None => if Ascii.eqb c slash then Some (chr c, s) else None
      end
  end.

Definition filename (p : string) : string :=
  match split_last_slash p with Some (_, f) => f | None => p end.
Definition dirname_slash (p : string) : string :=
  match split_last_slash p with Some (d, _) => d | None => EmptyString end.

(** Remove the separators at the end. *)
Fixpoint strip_slashes (s : string) : string :=
  match s with
  | EmptyString => EmptyString
  | String c s =>
      match strip_slashes s with
      | EmptyString => if Ascii.eqb c slash then EmptyString else chr c
      | t => String c t
      end
  end.

(** [p.parent_path()]: everything before the filename, without the separators
    in front of it unless they are the root directory. *)
Definition parent_path (p : string) : string :=
  let d := dirname_slash p in
  if is_empty d then EmptyString
  else let t := strip_slashes d in
       if is_empty t then chr slash else t.

(** The position of the extension in a filename: its last dot, unless the
    filename starts with it or is dot-dot. *)
Fixpoint last_dot (s : string) : option nat :=
  match s with
  | EmptyString => None
  | String c s =>
      match last_dot s with
      | Some i => Some (S i)
      | None => if Ascii.eqb c "." then Some O else None
      end
  end.

Definition stem (f : string) : string :=
  if String.eqb f ".." then f
  else match last_dot f with
       | Some (S i) => substr f 0 (S i)
       | _ => f
       end.

(** [p.replace_extension(ext)] for an [ext] that starts with a dot. *)
Definition replace_extension (p ext : string) : string :=
  dirname_slash p +:+ stem (filename p) +:+ ext.

(** ** Location of a path *)

(** [q] is [p] or lies below the directory [p]. *)
Definition under (p q : string) : bool :=
  String.eqb p q || String.prefix (if has_filename p then p +:+ chr slash else p) q.

(** A single path component that names a directory entry. *)
Definition plain_name (s : string) : bool :=
  negb (is_empty s) && str_all (λ c, negb (Ascii.eqb c slash)) s
  && negb (String.eqb s ".") && negb (String.eqb s "..").

(** ** Lemmas *)

Lemma sprefix_cons c s d u :
  String.prefix (String c s) (String d u) =
    if Ascii.ascii_dec c d then String.prefix s u else false.
Proof. done. Qed.

Lemma sprefix_app s t : String.prefix s (s +:+ t) = true.
Proof.
  induction s as [|c s IH]; [by destruct t|]. rewrite sapp_cons, sprefix_cons.
  destruct (Ascii.ascii_dec c c); [done|congruence].
Qed.

Lemma sprefix_ex s u : String.prefix s u = true <-> exists t, u = s +:+ t.
Proof.
  revert u. induction s as [|c s IH]; intros u; simpl.
  { split; [by exists u|by destruct u]. }
  destruct u as [|d u]; [split; [done|by intros [t Ht]]|].
  rewrite sprefix_cons. destruct (Ascii.ascii_dec c d) as [<-|Hne].
  - etrans; [apply IH|]. split; intros [t Ht]; exists t; [by subst|].
    rewrite sapp_cons in Ht. by simplify_eq.
  - split; [done|]. intros [t Ht]. rewrite sapp_cons in Ht. by simplify_eq.
Qed.

Lemma plain_name_relative s : plain_name s = true -> is_absolute s = false.
Proof.
  unfold plain_name, is_absolute. destruct s as [|c s]; [done|]. simpl.
  rewrite !andb_true_iff. intros [[[? _] _] _]. by destruct (Ascii.eqb c slash).
Qed.

Lemma last_char_app_cons s c t :
  last_char (s +:+ String c t) = last_char (String c t).
Proof.
  induction s as [|d s IH]; [done|]. rewrite sapp_cons, <- IH.
  destruct s; [done|]. by rewrite sapp_cons.
Qed.

Lemma has_filename_append p q :
  is_absolute q = false -> has_filename (path_append p q) = has_filename q.
Proof.
  unfold path_append. intros ->. destruct (has_filename p) eqn:Hp; destruct q as [|c q].
  - unfold has_filename. by rewrite last_char_app_cons.
  - unfold has_filename. by rewrite last_char_app_cons.
  - by rewrite sapp_nil_r.
  - unfold has_filename. by rewrite last_char_app_cons.
Qed.

(** The text in front of the entries of a directory. *)
Definition dir_prefix (p : string) : string := if has_filename p then p +:+ chr slash else p.

Lemma path_append_prefix p q : is_absolute q = false -> path_append p q = dir_prefix p +:+ q.
Proof.
  intros Hq. unfold path_append, dir_prefix. rewrite Hq.
  destruct (has_filename p); [by rewrite sapp_assoc|done].
Qed.

Lemma under_prefix p t : under p (dir_prefix p +:+ t) = true.
Proof. unfold under. apply orb_true_iff. right. apply sprefix_app. Qed.

(** A directory below [p] stays below [p] when extended. *)
Lemma under_app p q : under p (path_append p q) = true \/ is_absolute q = true.
Proof.
  destruct (is_absolute q) eqn:Hq; [by right|left].
  unfold path_append. rewrite Hq. unfold under. destruct (has_filename p).
  - change (String slash q) with (chr slash +:+ q).
    rewrite <- sapp_assoc, sprefix_app. apply orb_true_r.
  - rewrite sprefix_app. apply orb_true_r.
Qed.

Lemma under_trans p q r : under p q = true -> under q r = true -> under p r = true.
Proof.
  unfold under. rewrite !orb_true_iff, !String.eqb_eq, !sprefix_ex.
  intros [->|[t Hq]]; [done|]. intros [<-|[u Hr]]; [eauto|]. right.
  subst r q. destruct (has_filename _); eexists; by rewrite !sapp_assoc.
Qed.

Lemma under_refl p : under p p = true.
Proof. unfold under. by rewrite String.eqb_refl. Qed.

Lemma under_antisym p q : under p q = true -> under q p = true -> p = q.
Proof.
  unfold under. fold (dir_prefix p) (dir_prefix q).
  rewrite !orb_true_iff, !String.eqb_eq, !sprefix_ex. intros [?|[t Ht]] [?|[u Hu]]; try done.
  assert (forall x, String.length x <= String.length (dir_prefix x))%nat as Hlen.
  { intros x. unfold dir_prefix. destruct (has_filename x); [|done]. rewrite slength_app. lia. }
  pose proof (Hlen p). pose proof (Hlen q).
  pose proof (f_equal String.length Ht) as H1. pose proof (f_equal String.length Hu) as H2.
  rewrite slength_app in H1, H2.
  assert (String.length t = 0)%nat as Ht0 by lia. assert (String.length u = 0)%nat as Hu0 by lia.
  destruct t, u; try done. rewrite sapp_nil_r in Ht, Hu. unfold dir_prefix in *.
  destruct (has_filename p), (has_filename q); rewrite ?slength_app in *; cbn in *; lia || congruence.
Qed.

Lemma under_starts p q : under p q = true -> exists t, q = p +:+ t.
Proof.
  unfold under. rewrite orb_true_iff, String.eqb_eq, sprefix_ex.
  intros [<-|[t ->]]; [exists EmptyString; by rewrite sapp_nil_r|].
  destruct (has_filename p); [rewrite sapp_assoc|]; eauto.
Qed.

Lemma under_inv p q : has_filename p = true -> under p q = true -> q = p \/ exists t, q = p +:+ String slash t.
Proof.
  unfold under. intros ->. rewrite orb_true_iff, String.eqb_eq, sprefix_ex.
  intros [<-|[t ->]]; [by left|right]. exists t. by rewrite sapp_assoc.
Qed.

#[export] Hint Resolve under_refl : runw.
