(* ===== verification/Json.v ===== *)
(** The JSON library simdjson as runw sees it: an interface of DOM operations
    (the library itself is not part of the sources), the JSON texts of
    RFC 8259 that the development needs, and the documented behaviour of the
    library on them. *)
From S2P Require Import Prelude Cpp.

(** ** The interface *)

(** Error codes other than [SUCCESS]. *)
Inductive error_code : Set :=
| NO_SUCH_FIELD | INCORRECT_TYPE | NUMBER_OUT_OF_RANGE | OTHER_ERROR (n : Z).

#[global] Instance error_code_eq_dec : EqDecision error_code.
Proof. solve_decision. Defined.

(** [simdjson_result<A>]: an error or a value. *)
Abbreviation sj_result A := (error_code + A)%type.

(** The DOM: [element::get<T>()] for the types runw asks for, iteration over
    objects (as the list of their members in document order) and arrays, and
    [object::at_key]. *)
Class Simdjson := {
  element : Set;
  parse : string -> sj_result element;
  get_object : element -> sj_result (list (string * element));
  get_array : element -> sj_result (list element);
  get_string : element -> sj_result string;
  get_bool : element -> sj_result bool;
  get_int64 : element -> sj_result Z;
  get_uint64 : element -> sj_result Z;
  at_key : list (string * element) -> string -> sj_result element;
}.

(** [simdjson_result<A>] chaining: [r.get(...)] on the value of [r]. *)
Definition sj_bind {A B} (r : sj_result A) (f : A -> sj_result B) : sj_result B :=
  match r with inl err => inl err | inr a => f a end.

(** [Element[Key]]. *)
Definition elem_at_key `{Simdjson} (e : element) (k : string) : sj_result element :=
  sj_bind (get_object e) (λ fs, at_key fs k).

(** ** JSON values and texts *)

Inductive json : Set :=
| JNull
| JBool (b : bool)
| JInt (z : Z)
| JString (s : string)
| JArray (l : list json)
| JObject (fs : list (string * json)).

Definition backslash : ascii := "\"%char.

(** A character that a JSON string contains as it is. *)
Definition plain_char (c : ascii) : bool :=
  (32 <=? code c) && negb (Ascii.eqb c dq) && negb (Ascii.eqb c backslash).

(** The two-character escapes of RFC 8259, section 7. *)
Definition escape_char (e : ascii) : option ascii :=
  switch e
    [ (dq, Some dq); (backslash, Some backslash); ("/"%char, Some "/"%char);
      ("b"%char, Some "008"%char); ("f"%char, Some "012"%char);
      ("n"%char, Some "010"%char); ("r"%char, Some "013"%char);
      ("t"%char, Some "009"%char) ] None.

(** [json_chars raw s]: [raw] between quotes denotes the string [s]. *)
Inductive json_chars : string -> string -> Prop :=
| jc_nil : json_chars EmptyString EmptyString
| jc_plain c raw s :
    plain_char c = true -> json_chars raw s ->
    json_chars (String c raw) (String c s)
| jc_escape e c raw s :
    escape_char e = Some c -> json_chars raw s ->
    json_chars (String backslash (String e raw)) (String c s).

Definition quoted (raw : string) : string := String dq (raw +:+ chr dq).

(** [json_value t v]: the text [t] denotes [v].  Integers are in canonical
    decimal form and within the range simdjson stores as an integer. *)
Inductive json_value : string -> json -> Prop :=
| jv_null : json_value "null" JNull
| jv_bool b : json_value (print_bool b) (JBool b)
| jv_int z : INT64_MIN <= z <= UINT64_MAX -> json_value (print_Z z) (JInt z)
| jv_string raw s : json_chars raw s -> json_value (quoted raw) (JString s)
| jv_array_nil : json_value "[]" (JArray [])
| jv_array t l : json_elements t l -> json_value ("[" +:+ t +:+ "]") (JArray l)
| jv_object_nil : json_value "{}" (JObject [])
| jv_object t fs : json_members t fs -> json_value ("{" +:+ t +:+ "}") (JObject fs)
with json_elements : string -> list json -> Prop :=
| je_one t v : json_value t v -> json_elements t [v]
| je_more t v u l :
    json_value t v -> json_elements u l -> json_elements (t +:+ "," +:+ u) (v :: l)
with json_members : string -> list (string * json) -> Prop :=
| jm_one raw k t v :
    json_chars raw k -> json_value t v ->
    json_members (quoted raw +:+ ":" +:+ t) [(k, v)]
| jm_more raw k t v u fs :
    json_chars raw k -> json_value t v -> json_members u fs ->
    json_members (quoted raw +:+ ":" +:+ t +:+ "," +:+ u) ((k, v) :: fs).

Scheme json_value_mut := Induction for json_value Sort Prop
  with json_elements_mut := Induction for json_elements Sort Prop
  with json_members_mut := Induction for json_members Sort Prop.
Combined Scheme json_text_ind from
  json_value_mut, json_elements_mut, json_members_mut.

Definition is_ws (c : ascii) : bool :=
  (code c =? 32) || (code c =? 9) || (code c =? 10) || (code c =? 13).

(** A document: a value with white space after it. *)
Inductive json_document : string -> json -> Prop :=
| json_doc t ws v :
    json_value t v -> str_all is_ws ws = true -> json_document (t +:+ ws) v.

(** Nesting depth of arrays and objects. *)
Fixpoint json_depth (v : json) : nat :=
  match v with
  | JArray l => S (foldr (λ v n, Nat.max (json_depth v) n) 0%nat l)
  | JObject fs => S (foldr (λ kv n, Nat.max (json_depth kv.2) n) 0%nat fs)
  | _ => 0%nat
  end.

(** ** UTF-8 *)

Definition cont_byte (c : ascii) : bool := (128 <=? code c) && (code c <=? 191).

(** Well-formed UTF-8 (Unicode, table 3-7). *)
Fixpoint valid_utf8 (s : string) : bool :=
  match s with
  | EmptyString => true
  | String a s1 =>
      if code a <=? 127 then valid_utf8 s1
      else match s1 with
      | EmptyString => false
      | String b s2 =>
          if (194 <=? code a) && (code a <=? 223) then cont_byte b && valid_utf8 s2
          else match s2 with
          | EmptyString => false
          | String c s3 =>
              if (224 <=? code a) && (code a <=? 239) then
                cont_byte b && cont_byte c
                && (if code a =? 224 then 160 <=? code b else true)
                && (if code a =? 237 then code b <=? 159 else true)
                && valid_utf8 s3
              else match s3 with
              | EmptyString => false
              | String d s4 =>
                  if (240 <=? code a) && (code a <=? 244) then
                    cont_byte b && cont_byte c && cont_byte d
                    && (if code a =? 240 then 144 <=? code b else true)
                    && (if code a =? 244 then code b <=? 143 else true)
                    && valid_utf8 s4
                  else false
              end
          end
      end
  end.

(** ** Documented behaviour of simdjson *)

(** A byte that may occur in a JSON text: no control characters other than
    white space. *)
Definition json_byte (c : ascii) : bool := (32 <=? code c) || is_ws c.

(** simdjson is a validating parser for RFC 8259: it accepts the texts above
    (up to its default capacity of 4 GB and depth of 1024) and rejects
    unescaped control characters; the accessors return the stored value,
    integers are range-checked, and [at_key] returns the first member with the
    given key. *)
Class SimdjsonLaws `{SJ : Simdjson} := {
  represents : element -> json -> Prop;
  parse_document t v :
    json_document t v -> valid_utf8 t = true ->
    Z.of_nat (String.length t) < 2 ^ 32 -> (json_depth v <= 1024)%nat ->
    exists e, parse t = inr e /\ represents e v;
  parse_bytes t e : parse t = inr e -> str_all json_byte t = true;
  represents_string e s : represents e (JString s) -> get_string e = inr s;
  represents_bool e b : represents e (JBool b) -> get_bool e = inr b;
  represents_int64 e z :
    represents e (JInt z) -> in_type Int64 z -> get_int64 e = inr z;
  represents_uint64 e z :
    represents e (JInt z) -> in_type UInt64 z -> get_uint64 e = inr z;
  represents_array e l :
    represents e (JArray l) -> exists es, get_array e = inr es /\ Forall2 represents es l;
  represents_object e fs :
    represents e (JObject fs) ->
    exists es, get_object e = inr es /\
      Forall2 (λ em jm, em.1 = jm.1 /\ represents em.2 jm.2) es fs;
  at_key_cons k e k' es :
    at_key ((k, e) :: es) k' = if String.eqb k k' then inr e else at_key es k';
  at_key_nil k : at_key [] k = inl NO_SUCH_FIELD;
  get_int64_range e z : get_int64 e = inr z -> in_type Int64 z;
  get_uint64_range e z : get_uint64 e = inr z -> in_type UInt64 z;
}.

(** ** Lemmas *)

Section Laws.
Context `{SJ : Simdjson} {LAWS : SimdjsonLaws}.

(** Looking up a key of a represented object. *)
Lemma at_key_represents es fs k v :
  Forall2 (λ em jm, em.1 = jm.1 /\ represents em.2 jm.2) es fs ->
  list_find (λ jm, jm.1 = k) fs = Some v ->
  exists e, at_key es k = inr e /\ represents e v.2.2.
Proof.
  intros Hall. revert v.
  induction Hall as [|[k1 e1] [k2 v2] es fs [Hk Hr] Hall IH]; intros v; [done|].
  simpl in *. subst k2. rewrite at_key_cons.
  destruct (String.eqb_spec k1 k) as [->|Hne]; case_decide; try done.
  - intros [= <-]. eauto.
  - intros (w & Hw & ->)%fmap_Some. destruct (IH w Hw) as (e & ? & ?). eauto.
Qed.
End Laws.

Lemma valid_utf8_app s t :
  valid_utf8 s = true -> valid_utf8 (s +:+ t) = valid_utf8 t.
Proof.
  remember (String.length s) as n eqn:Hn. revert s Hn.
  induction (lt_wf n) as [n _ IH]; intros s ->.
  destruct s as [|a s1]; [done|]. rewrite sapp_cons. simpl.
  destruct (code a <=? 127); [apply (IH (String.length s1)); simpl; lia|].
  destruct s1 as [|b s2]; [done|]. rewrite sapp_cons.
  destruct (_ && _).
  { rewrite andb_true_iff. intros [-> ?]. simpl.
    apply (IH (String.length s2)); simpl; [lia|done|done]. }
  destruct s2 as [|c s3]; [done|]. rewrite sapp_cons.
  destruct (_ && _).
  { rewrite !andb_true_iff. intros [[[[-> ->] ->] ->] ?]. simpl.
    apply (IH (String.length s3)); simpl; [lia|done|done]. }
  destruct s3 as [|d s4]; [done|]. rewrite sapp_cons.
  destruct (_ && _); [|done].
  rewrite !andb_true_iff. intros [[[[[-> ->] ->] ->] ->] ?]. simpl.
  apply (IH (String.length s4)); simpl; [lia|done|done].
Qed.

Lemma valid_utf8_ascii s :
  str_all (λ c, code c <=? 127) s = true -> valid_utf8 s = true.
Proof.
  induction s as [|c s IH]; [done|]. simpl.
  rewrite andb_true_iff. intros [-> ?]. auto.
Qed.

Lemma json_chars_plain s : str_all plain_char s = true -> json_chars s s.
Proof.
  induction s as [|c s IH]; simpl; [constructor|].
  rewrite andb_true_iff. intros [? ?]. constructor; auto.
Qed.
