(* ===== verification/JsonRef.v ===== *)
(** A reference implementation of the simdjson interface: elements are JSON
    trees and [parse] is a recursive-descent parser.  It satisfies the laws of
    [Json], which shows that they are consistent and lets the theorems that
    assume them be applied to concrete documents. *)
From S2P Require Import Prelude Cpp Json.

(** ** The parser *)

(** The contents of a string, up to the closing quote. *)
Fixpoint parse_chars (s : string) : option (string * string) :=
  match s with
  | EmptyString => None
  | String c s =>
      if Ascii.eqb c dq then Some (EmptyString, s)
      else if Ascii.eqb c backslash then
        match s with
        | EmptyString => None
        | String e s =>
            d ← escape_char e; '(t, rest) ← parse_chars s; Some (String d t, rest)
        end
      else if plain_char c then '(t, rest) ← parse_chars s; Some (String c t, rest)
      else None
  end.

Fixpoint span_digits (s : string) : string * string :=
  match s with
  | EmptyString => (EmptyString, EmptyString)
  | String c t =>
      if isdigit c then let '(d, rest) := span_digits t in (String c d, rest)
      else (EmptyString, s)
  end.

Definition parse_int (s : string) : option (json * string) :=
  let '(neg, s) :=
    match s with
    | String c t => if Ascii.eqb c "-" then (true, t) else (false, s)
    | EmptyString => (false, s)
    end in
  let '(d, rest) := span_digits s in
  let z := if neg : bool then - dec_value 0 d else dec_value 0 d in
  if is_empty d then None
  else if bool_decide (INT64_MIN <= z <= UINT64_MAX) then Some (JInt z, rest) else None.

(** Consume a fixed text. *)
Fixpoint expect (t s : string) : option string :=
  match t, s with
  | EmptyString, _ => Some s
  | String c t, String d s => if Ascii.eqb c d then expect t s else None
  | _, EmptyString => None
  end.

Fixpoint parse_value (fuel : nat) (s : string) : option (json * string) :=
  match fuel, s with
  | O, _ | _, EmptyString => None
  | S fuel, String c r =>
      if Ascii.eqb c dq then '(t, rest) ← parse_chars r; Some (JString t, rest)
      else if Ascii.eqb c "[" then
        match expect "]" r with
        | Some rest => Some (JArray [], rest)
        | None => '(l, rest) ← parse_elements fuel r; Some (JArray l, rest)
        end
      else if Ascii.eqb c "{" then
        match expect "}" r with
        | Some rest => Some (JObject [], rest)
        | None => '(fs, rest) ← parse_members fuel r; Some (JObject fs, rest)
        end
      else if Ascii.eqb c "n" then rest ← expect "null" s; Some (JNull, rest)
      else if Ascii.eqb c "t" then rest ← expect "true" s; Some (JBool true, rest)
      else if Ascii.eqb c "f" then rest ← expect "false" s; Some (JBool false, rest)
      else parse_int s
  end
with parse_elements (fuel : nat) (s : string) : option (list json * string) :=
  match fuel with
  | O => None
  | S fuel =>
      '(v, s) ← parse_value fuel s;
      match s with
      | String c r =>
          if Ascii.eqb c "," then '(l, rest) ← parse_elements fuel r; Some (v :: l, rest)
          else if Ascii.eqb c "]" then Some ([v], r)
          else None
      | EmptyString => None
      end
  end
with parse_members (fuel : nat) (s : string) : option (list (string * json) * string) :=
  match fuel with
  | O => None
  | S fuel =>
      s ← expect (chr dq) s;
      '(k, s) ← parse_chars s;
      s ← expect ":" s;
      '(v, s) ← parse_value fuel s;
      match s with
      | String c r =>
          if Ascii.eqb c "," then
            '(fs, rest) ← parse_members fuel r; Some ((k, v) :: fs, rest)
          else if Ascii.eqb c "}" then Some ([(k, v)], r)
          else None
      | EmptyString => None
      end
  end.

Definition parse_document_ref (t : string) : sj_result json :=
  if str_all json_byte t then
    match parse_value (S (String.length t)) t with
    | Some (v, rest) => if str_all is_ws rest then inr v else inl (OTHER_ERROR 1)
    | None => inl (OTHER_ERROR 1)
    end
  else inl (OTHER_ERROR 1).

(** ** The instance *)

Fixpoint at_key_ref (fs : list (string * json)) (k : string) : sj_result json :=
  match fs with
  | [] => inl NO_SUCH_FIELD
  | (k', v) :: fs => if String.eqb k' k then inr v else at_key_ref fs k
  end.

Definition get_int_ref (T : int_type) (v : json) : sj_result Z :=
  match v with
  | JInt z => if decide (in_type T z) then inr z else inl NUMBER_OUT_OF_RANGE
  | _ => inl INCORRECT_TYPE
  end.

#[global] Instance ref_simdjson : Simdjson := {|
  element := json;
  parse := parse_document_ref;
  get_object v := match v with JObject fs => inr fs | _ => inl INCORRECT_TYPE end;
  get_array v := match v with JArray l => inr l | _ => inl INCORRECT_TYPE end;
  get_string v := match v with JString s => inr s | _ => inl INCORRECT_TYPE end;
  get_bool v := match v with JBool b => inr b | _ => inl INCORRECT_TYPE end;
  get_int64 := get_int_ref Int64;
  get_uint64 := get_int_ref UInt64;
  at_key := at_key_ref;
|}.

(** ** Completeness of the parser *)

Lemma parse_chars_complete raw s rest :
  json_chars raw s -> parse_chars (raw +:+ String dq rest) = Some (s, rest).
Proof.
  induction 1 as [|c raw s Hc _ IH|e c raw s He _ IH]; [done|..]; rewrite !sapp_cons.
  - cbn [parse_chars]. rewrite Hc, IH. unfold plain_char in Hc.
    destruct (Ascii.eqb c dq), (Ascii.eqb c backslash);
      by rewrite ?andb_false_r in Hc.
  - cbn [parse_chars]. by rewrite He, IH.
Qed.

(** The text after a number does not continue it. *)
Definition no_digit (s : string) : bool := negb (isdigit (first_char s)).

Lemma span_digits_complete d rest :
  str_all isdigit d = true -> no_digit rest = true ->
  span_digits (d +:+ rest) = (d, rest).
Proof.
  intros Hd Hr. induction d as [|c d IH].
  - rewrite sapp_nil_l. destruct rest as [|c rest]; [done|]. cbn.
    unfold no_digit in Hr. cbn in Hr. by destruct (isdigit c).
  - rewrite sapp_cons. cbn in *. apply andb_true_iff in Hd as [-> Hd].
    by rewrite (IH Hd).
Qed.

Lemma is_empty_false s : s <> EmptyString -> is_empty s = false.
Proof. by destruct s. Qed.

Lemma parse_int_complete z rest :
  INT64_MIN <= z <= UINT64_MAX -> no_digit rest = true ->
  parse_int (print_Z z +:+ rest) = Some (JInt z, rest).
Proof.
  intros Hz Hr. unfold parse_int. destruct (Z.ltb_spec z 0) as [Hneg|Hpos].
  - rewrite print_Z_neg by done. rewrite sapp_cons. cbn [Ascii.eqb Bool.eqb].
    destruct (print_Z_nonneg (- z)) as (Hd & Hne & Hv); [lia|].
    rewrite span_digits_complete, Hv, is_empty_false by done.
    rewrite Z.opp_involutive. by rewrite bool_decide_true.
  - destruct (print_Z_nonneg z) as (Hd & Hne & Hv); [done|].
    pose proof (span_digits_complete _ _ Hd Hr) as Hs.
    destruct (print_Z z) as [|c d] eqn:Hp; [done|].
    rewrite sapp_cons in *. cbn in Hd. apply andb_true_iff in Hd as [Hc _].
    destruct (Ascii.eqb_spec c "-"); [by subst c|].
    rewrite Hs, Hv. cbn. by rewrite bool_decide_true.
Qed.

Lemma expect_complete t s : expect t (t +:+ s) = Some s.
Proof.
  induction t as [|c t IH]; [by destruct s|].
  rewrite sapp_cons. cbn. by rewrite Ascii.eqb_refl.
Qed.

(** The first character of the text of a value is none of the delimiters. *)
Lemma json_value_head t v :
  json_value t v -> exists c r, t = String c r /\
    Ascii.eqb c "]" = false /\ Ascii.eqb c "}" = false.
Proof.
  destruct 1 as [|[]|z Hz|raw s| | | |]; try (eexists _, _; by split_and!).
  destruct (Z.ltb_spec z 0) as [?|?].
  - rewrite print_Z_neg by done. eexists _, _. by split_and!.
  - destruct (print_Z_nonneg z) as (Hd & Hne & _); [done|].
    destruct (print_Z z) as [|c r]; [done|]. exists c, r. cbn in Hd.
    apply andb_true_iff in Hd as [Hc _].
    split_and!; [done|..]; apply Ascii.eqb_neq; by intros ->.
Qed.

Lemma expect_miss c t d s :
  Ascii.eqb d c = false -> expect (String c t) (String d s) = None.
Proof. intros H. cbn. rewrite Ascii.eqb_sym, H. done. Qed.

Lemma parse_value_int n z rest :
  INT64_MIN <= z <= UINT64_MAX -> no_digit rest = true ->
  parse_value (S n) (print_Z z +:+ rest) = Some (JInt z, rest).
Proof.
  intros Hz Hr. rewrite <- parse_int_complete by done.
  assert (exists c d, print_Z z = String c d /\ (isdigit c = true \/ c = "-"%char))
    as (c & d & -> & Hc).
  { destruct (Z.ltb_spec z 0) as [?|?].
    - rewrite print_Z_neg by done. eauto.
    - destruct (print_Z_nonneg z) as (Hd & Hne & _); [done|].
      destruct (print_Z z) as [|c d]; [done|]. cbn in Hd.
      apply andb_true_iff in Hd as [? _]. eauto. }
  rewrite sapp_cons. cbn [parse_value].
  repeat (match goal with |- context [Ascii.eqb c ?k] =>
    replace (Ascii.eqb c k) with false
      by (symmetry; apply Ascii.eqb_neq; intros ->; by destruct Hc) end).
  done.
Qed.

Definition value_ok (t : string) (v : json) : Prop :=
  forall n rest, (String.length t < n)%nat -> no_digit rest = true ->
    parse_value n (t +:+ rest) = Some (v, rest).
Definition elements_ok (t : string) (l : list json) : Prop :=
  forall n rest, (String.length t + 2 <= n)%nat ->
    parse_elements n (t +:+ String "]" rest) = Some (l, rest).
Definition members_ok (t : string) (fs : list (string * json)) : Prop :=
  forall n rest, (String.length t + 2 <= n)%nat ->
    parse_members n (t +:+ String "}" rest) = Some (fs, rest).

Lemma json_elements_head t l :
  json_elements t l -> exists c r, t = String c r /\ Ascii.eqb c "]" = false.
Proof.
  destruct 1 as [t v Hv|t v u l Hv _];
    destruct (json_value_head _ _ Hv) as (c & r & -> & ? & _); eauto.
Qed.

Lemma array_ok t l :
  json_elements t l -> elements_ok t l -> value_ok ("[" +:+ t +:+ "]") (JArray l).
Proof.
  intros Hl IH [|n] rest Hn _; [lia|].
  destruct (json_elements_head _ _ Hl) as (c & r & -> & Hc).
  rewrite !sapp_assoc, !sapp_cons, !sapp_nil_l. cbn [parse_value].
  change (Ascii.eqb "[" dq) with false. cbn [Ascii.eqb Bool.eqb].
  rewrite (expect_miss _ _ _ _ Hc).
  assert (parse_elements n (String c (r +:+ String "]" rest)) = Some (l, rest)) as ->; [|done].
  rewrite <- (IH n rest); [done|].
  str_len Hn. cbn in *. lia.
Qed.

Lemma object_ok t fs : members_ok t fs ->
  (exists r, t = String dq r) -> value_ok ("{" +:+ t +:+ "}") (JObject fs).
Proof.
  intros IH [r ->] [|n] rest Hn _; [lia|].
  rewrite !sapp_assoc, !sapp_cons, !sapp_nil_l. cbn [parse_value].
  change (Ascii.eqb "{" dq) with false. cbn [Ascii.eqb Bool.eqb].
  rewrite (expect_miss "}") by done.
  assert (parse_members n (String dq (r +:+ String "}" rest)) = Some (fs, rest)) as ->; [|done].
  rewrite <- (IH n rest); [done|].
  str_len Hn. cbn in *. lia.
Qed.

(** One member, followed by whatever [parse_members] finds next. *)
Lemma member_ok raw k t v n rest :
  json_chars raw k -> value_ok t v -> (String.length t < n)%nat -> no_digit rest = true ->
  parse_members (S n) (quoted raw +:+ ":" +:+ t +:+ rest) =
    match rest with
    | String c r =>
        if Ascii.eqb c "," then
          '(fs, rest) ← parse_members n r; Some ((k, v) :: fs, rest)
        else if Ascii.eqb c "}" then Some ([(k, v)], r)
        else None
    | EmptyString => None
    end.
Proof.
  intros Hk Hv Hn Hr. unfold quoted, chr. rewrite !sapp_cons, !sapp_assoc.
  cbn [parse_members].
  assert (forall s, expect (chr dq) (String dq s) = Some s) as -> by done.
  cbn [mbind option_bind]. rewrite !sapp_cons, !sapp_nil_l.
  rewrite (parse_chars_complete _ _ _ Hk). cbn [mbind option_bind].
  assert (forall s, expect ":" (String ":" s) = Some s) as -> by done.
  cbn [mbind option_bind]. by rewrite (Hv n rest Hn Hr).
Qed.

Lemma json_text_complete :
  (forall t v, json_value t v -> value_ok t v) /\
  (forall t l, json_elements t l -> elements_ok t l) /\
  (forall t fs, json_members t fs -> members_ok t fs).
Proof.
  apply json_text_ind.
  - intros [|n] rest Hn _; [lia|done].
  - intros [] [|n] rest Hn _; [lia|done|lia|done].
  - intros z Hz [|n] rest Hn Hr; [lia|]. by apply parse_value_int.
  - intros raw s Hs [|n] rest Hn Hr; [lia|]. unfold quoted, chr.
    rewrite sapp_cons, sapp_assoc. cbn [parse_value]. rewrite Ascii.eqb_refl.
    rewrite sapp_cons, sapp_nil_l. by rewrite (parse_chars_complete _ _ _ Hs).
  - intros [|n] rest Hn _; [lia|done].
  - intros t l Hl IH. by apply array_ok.
  - intros [|n] rest Hn _; [lia|done].
  - intros t fs Hfs IH. apply object_ok; [done|].
    destruct Hfs; unfold quoted; rewrite sapp_cons; eauto.
  - intros t v Hv IH [|n] rest Hn; [lia|]. cbn [parse_elements].
    rewrite IH by (done || lia). done.
  - intros t v u l Hv IHv Hl IHl [|n] rest Hn; [lia|].
    str_len Hn. cbn [parse_elements].
    rewrite !sapp_assoc, IHv by (done || lia).
    rewrite sapp_cons, sapp_nil_l. cbn. rewrite IHl by lia. done.
  - intros raw k t v Hk Hv IH [|n] rest Hn; [lia|]. unfold quoted, chr in Hn. str_len Hn.
    rewrite !sapp_assoc, (member_ok _ k _ v) by (done || lia). done.
  - intros raw k t v u fs Hk Hv IHv Hfs IHfs [|n] rest Hn; [lia|]. unfold quoted, chr in Hn. str_len Hn.
    rewrite !sapp_assoc, (member_ok _ k _ v) by (done || lia).
    rewrite sapp_cons, sapp_nil_l. cbn. rewrite IHfs by lia. done.
Qed.

(** ** Bytes of JSON texts *)

Lemma plain_char_byte c : plain_char c = true -> json_byte c = true.
Proof. unfold plain_char, json_byte. destruct (32 <=? code c); by cbn. Qed.

Lemma escape_char_byte e c : escape_char e = Some c -> json_byte e = true.
Proof.
  unfold escape_char. intros He. unfold json_byte.
  destruct (32 <=? code e) eqn:Hc; [done|]. exfalso. revert He.
  rewrite switch_miss; [done|]. cbn.
  intros Hin. repeat (apply elem_of_cons in Hin as [->|Hin]; [done|]). by apply elem_of_nil in Hin.
Qed.

Lemma json_chars_bytes raw s : json_chars raw s -> str_all json_byte raw = true.
Proof.
  induction 1 as [|c raw s Hc _ IH|e c raw s He _ IH]; [done|..]; cbn.
  - by rewrite (plain_char_byte _ Hc), IH.
  - by rewrite (escape_char_byte _ _ He), IH.
Qed.

Lemma print_Z_bytes z : str_all json_byte (print_Z z) = true.
Proof.
  assert (forall c, isdigit c = true -> json_byte c = true) as Hd.
  { intros c Hc. apply isdigit_code in Hc. unfold json_byte.
    apply orb_true_iff. left. apply Z.leb_le. lia. }
  destruct (Z.ltb_spec z 0).
  - rewrite print_Z_neg by done. cbn.
    destruct (print_Z_nonneg (- z)) as (? & _); [lia|]. by eapply str_all_impl.
  - destruct (print_Z_nonneg z) as (? & _); [done|]. by eapply str_all_impl.
Qed.

Lemma json_text_bytes :
  (forall t v, json_value t v -> str_all json_byte t = true) /\
  (forall t l, json_elements t l -> str_all json_byte t = true) /\
  (forall t fs, json_members t fs -> str_all json_byte t = true).
Proof.
  apply json_text_ind; try done; intros; unfold quoted;
    repeat (rewrite ?str_all_app; cbn);
    repeat match goal with
      | H : json_chars _ _ |- _ => apply json_chars_bytes in H
      | H : str_all json_byte _ = true |- _ => rewrite H; clear H
      end; try done.
  - by destruct b.
  - apply print_Z_bytes.
Qed.

Lemma ws_json_byte ws : str_all is_ws ws = true -> str_all json_byte ws = true.
Proof.
  apply str_all_impl. intros c Hc. unfold json_byte. rewrite Hc. apply orb_true_r.
Qed.

Lemma ws_no_digit ws : str_all is_ws ws = true -> no_digit ws = true.
Proof.
  destruct ws as [|c ws]; [done|]. cbn. rewrite andb_true_iff. intros [Hc _].
  unfold no_digit. cbn. destruct (isdigit c) eqn:Hd; [|done].
  apply isdigit_code in Hd. unfold is_ws in Hc. bool_lia.
Qed.

(** The laws hold. *)
#[global] Program Instance ref_simdjson_laws : SimdjsonLaws := {|
  represents := λ (e v : json), e = v
|}.
Next Obligation.
  intros t v Hdoc _ _ _. exists v. split; [|done].
  destruct Hdoc as [t ws v Hv Hws]. cbn. unfold parse_document_ref.
  rewrite str_all_app, (proj1 json_text_bytes _ _ Hv), ws_json_byte by done. cbn [andb].
  rewrite (proj1 json_text_complete _ _ Hv); [by rewrite Hws| |by apply ws_no_digit].
  rewrite slength_app. lia.
Qed.
Next Obligation.
  intros t e. cbn. unfold parse_document_ref. by destruct (str_all json_byte t).
Qed.
Next Obligation. by intros e s ->. Qed.
Next Obligation. by intros e b ->. Qed.
Next Obligation. intros e z -> Hz. cbn. by destruct (decide (in_type Int64 z)). Qed.
Next Obligation. intros e z -> Hz. cbn. by destruct (decide (in_type UInt64 z)). Qed.
Next Obligation. intros e l ->. exists l. split; [done|]. induction l; constructor; auto. Qed.
Next Obligation.
  intros e fs ->. exists fs. split; [done|].
  induction fs as [|[k v] fs IH]; constructor; auto.
Qed.
Next Obligation. done. Qed.
Next Obligation. done. Qed.
Next Obligation.
  intros e z. cbn. destruct e; cbn; try done. by destruct (decide _); intros; simplify_eq.
Qed.
Next Obligation.
  intros e z. cbn. destruct e; cbn; try done. by destruct (decide _); intros; simplify_eq.
Qed.
