(* ===== verification/Prog.v ===== *)
(** Programs as trees of external calls.

    Everything runw does outside its own memory goes through a call of the
    C++ library, the operating system, sd-bus, WasmEdge or simdjson.  A
    program is a tree whose nodes are these calls and whose branches are their
    possible answers; the answers are given by an arbitrary operating system
    [Os], so a theorem about [run] holds for every behaviour of the
    environment.  [OsLaws] states the documented effect of the calls on the
    file system. *)
From S2P Require Import Prelude Cpp Path Json.

(** ** Calls *)

(** [std::filesystem::file_type]. *)
Inductive file_type : Set :=
| FT_none | FT_not_found | FT_regular | FT_directory | FT_fifo | FT_unknown.

#[global] Instance file_type_eq_dec : EqDecision file_type.
Proof. solve_decision. Defined.

(** [std::filesystem], file streams, random numbers and [std::cout].  An
    [errc] is the value of the [std::error_code]; 0 is success. *)
Inductive fs_call : Set :=
| FsStatus (p : string)
| FsCreateDirectories (p : string)
| FsRemoveAll (p : string)
| FsRename (from to : string)
| FsRemove (p : string)
| FsFileSize (p : string)
| IfstreamRead (p : string) (n : Z)     (* open, then read up to n bytes *)
| OfstreamAppendTellp (p : string)      (* ofstream(p, app).tellp() *)
| OfstreamOpen (p : string)             (* ofstream(p): create or truncate *)
| OfstreamWrite (p s : string)          (* write s and close *)
| FilebufOpen (p : string)
| FilebufSgetn (p : string) (off n : Z)
| RandomLetter                          (* uniform_int_distribution('a','z') *)
| Cout (s : string).

(** POSIX. *)
Inductive posix_call : Set :=
| Getpid | Time | Geteuid | Fork | Setsid | Pipe | Socket
| Waitpid (pid : Z)
| Close (fd : Z)
| Open (p : string) (flags : Z)
| Mkfifo (p : string) (mode : Z)
| Unlink (p : string)
| Read (fd n : Z)
| Write (fd : Z) (s : string)
| Select (fd : Z)
| Connect (fd : Z) (p : string)
| Unshare (flags : Z)
| Setns (fd flag : Z)
| Kill (pid sig : Z)
| Statfs (p : string).

(** Values passed to sd_bus_message_append; [ANull] is a null pointer. *)
Inductive sd_arg : Set := AStr (s : string) | AInt (z : Z) | ANull.

(** sd-bus; buses and messages are pointers, 0 is [nullptr]. *)
Inductive sd_call : Set :=
| SdDefaultUser | SdDefaultSystem
| SdUnref (bus : Z)
| SdMatchSignalAsync (bus : Z) (sender path interface member : string)
| SdNewMethodCall (bus : Z) (dest path interface member : string)
| SdCall (bus msg usec : Z)
| SdProcess (bus : Z)
| SdWait (bus usec : Z)
| SdMsgUnref (msg : Z)
| SdMsgOpenContainer (msg : Z) (ty : ascii) (contents : string)
| SdMsgCloseContainer (msg : Z)
| SdMsgAppend (msg : Z) (types : string) (args : list sd_arg)
| SdMsgRead (msg : Z) (types : string)
| SdErrorFree.

(** WasmEdge. *)
Inductive wasm_call : Set :=
| WasiInit (dirs : list string) (prog : string) (args envs : list string)
| ProcAllowCmd (cmd : string)
| ProcAllowAll
| LoadFile (p : string)
| CacheGetPath (data id : string)
| CacheClear (id : string)
| ParseModule (data : string)
| ValidateModule (data : string)
| CompileModule (data so : string)
| VmLoadWasm (p : string)
| VmValidate | VmInstantiate
| VmExecute (f : string)
| WasiExitCode.

Inductive call : Set :=
| Fs (c : fs_call)
| Px (c : posix_call)
| Sd (c : sd_call)
| Wm (c : wasm_call)
| JsonLoad (p : string).      (* simdjson::dom::parser::load *)

#[global] Instance fs_call_eq_dec : EqDecision fs_call.
Proof. solve_decision. Defined.
#[global] Instance posix_call_eq_dec : EqDecision posix_call.
Proof. solve_decision. Defined.
#[global] Instance sd_arg_eq_dec : EqDecision sd_arg.
Proof. solve_decision. Defined.
#[global] Instance sd_call_eq_dec : EqDecision sd_call.
Proof. solve_decision. Defined.
#[global] Instance wasm_call_eq_dec : EqDecision wasm_call.
Proof. solve_decision. Defined.
#[global] Instance call_eq_dec : EqDecision call.
Proof. solve_decision. Defined.

Definition errc : Set := Z.

Definition fs_resp (c : fs_call) : Set :=
  match c with
  | FsStatus _ => file_type * errc
  | FsCreateDirectories _ => bool * errc
  | FsRemoveAll _ | FsRename _ _ | FsRemove _ => errc
  | FsFileSize _ => Z * errc
  | IfstreamRead _ _ => option string
  | OfstreamAppendTellp _ => Z
  | OfstreamOpen _ | OfstreamWrite _ _ => bool
  | FilebufOpen _ => errc               (* errno, 0 when opened *)
  | FilebufSgetn _ _ _ => string
  | RandomLetter => ascii
  | Cout _ => unit
  end.

(** The result of a system call and the value of [errno] after it. *)
Record sysret : Set := SysRet { ret : Z; errno : Z }.

Definition posix_resp (c : posix_call) : Set :=
  match c with
  | Pipe => sysret * (Z * Z)            (* with the two descriptors *)
  | Waitpid _ => sysret * Z             (* with the status *)
  | Read _ _ => sysret * string         (* with the bytes read *)
  | Statfs _ => sysret * Z              (* with f_type *)
  | _ => sysret
  end.

Definition sd_resp (c : sd_call) : Set :=
  match c with
  | SdDefaultUser | SdDefaultSystem | SdNewMethodCall _ _ _ _ _ => Z * Z
  | SdCall _ _ _ => Z * Z * Z           (* result, reply, errno of the error *)
  | SdProcess _ => Z * option Z         (* with the signal message dispatched *)
  | SdMsgRead _ _ => Z * list sd_arg
  | SdUnref _ | SdMsgUnref _ | SdErrorFree => unit
  | _ => Z
  end.

Definition wasm_resp (c : wasm_call) : Set :=
  match c with
  | LoadFile _ | CacheGetPath _ _ => option string
  | ParseModule _ | ValidateModule _ | CompileModule _ _
  | VmLoadWasm _ | VmValidate | VmInstantiate | VmExecute _ => bool
  | WasiExitCode => Z
  | WasiInit _ _ _ _ | ProcAllowCmd _ | ProcAllowAll | CacheClear _ => unit
  end.

(** ** The file system *)

Inductive node : Set := Reg (content : string) | Dir | Fifo | Other.

Definition type_of (o : option node) : file_type :=
  match o with
  | None => FT_not_found
  | Some (Reg _) => FT_regular
  | Some Dir => FT_directory
  | Some Fifo => FT_fifo
  | Some Other => FT_unknown
  end.

(** A file system maps the (absolute, lexically normal) names of the files
    that exist to what they are. *)
Abbreviation files := (gmap string node).

Section Programs.
Context `{SJ : Simdjson}.

Definition resp (c : call) : Set :=
  match c with
  | Fs c => fs_resp c
  | Px c => posix_resp c
  | Sd c => sd_resp c
  | Wm c => wasm_resp c
  | JsonLoad _ => sj_result element
  end.

(** ** Programs *)

Inductive prog (A : Type) : Type :=
| Ret (a : A)
| Call (c : call) (k : resp c -> prog A)
| Exit (status : Z)       (* exit(status), _Exit(status): nothing is unwound *)
| Undef                   (* undefined behaviour *)
| Terminate               (* an exception leaves main *)
| Fuel.                   (* the bound on a loop is reached *)

Fixpoint prog_bind {A B} (f : A -> prog B) (p : prog A) : prog B :=
  match p with
  | Ret _ a => f a
  | Call _ c k => Call B c (λ r, prog_bind f (k r))
  | Exit _ status => Exit B status
  | Undef _ => Undef B
  | Terminate _ => Terminate B
  | Fuel _ => Fuel B
  end.

#[global] Instance prog_mret : MRet prog := Ret.
#[global] Instance prog_mbind : MBind prog := @prog_bind.

Definition do_call (c : call) : prog (resp c) := Call _ c (Ret _).

(** A pure computation inside a program. *)
Definition lift_cpp {A} (x : cpp A) : prog A :=
  match x with Val a => Ret A a | UB => Undef A end.

(** BOOST_SCOPE_EXIT: [fin] runs when [body] returns (not when it exits). *)
Definition scope_exit {A} (body : prog A) (fin : A -> prog unit) : prog A :=
  r ← body; fin r;; mret r.

(** ** Execution *)

Inductive outcome (A : Type) : Type :=
| Done (a : A) | Exited (status : Z) | UBehaviour | Terminated | OutOfFuel.

(** The environment: how it answers a call in a state [W] and the next state. *)
Class Os (W : Type) := os_call : forall c : call, W -> resp c * W.

Section Run.
Context {W : Type} {OS : Os W}.

Fixpoint run {A} (p : prog A) (w : W) : outcome A * W :=
  match p with
  | Ret _ a => (Done A a, w)
  | Call _ c k => let '(r, w') := os_call c w in run (k r) w'
  | Exit _ status => (Exited A status, w)
  | Undef _ => (UBehaviour A, w)
  | Terminate _ => (Terminated A, w)
  | Fuel _ => (OutOfFuel A, w)
  end.

(** The calls a run makes, in order. *)
Fixpoint calls {A} (p : prog A) (w : W) : list call :=
  match p with
  | Call _ c k => let '(r, w') := os_call c w in c :: calls (k r) w'
  | _ => []
  end.

(** The states the environment goes through, the last one included. *)
Fixpoint worlds {A} (p : prog A) (w : W) : list W :=
  w :: match p with
       | Call _ c k => let '(r, w') := os_call c w in worlds (k r) w'
       | _ => []
       end.

(** The continuation of an outcome. *)
Definition run_cont {A B} (f : A -> prog B) (ow : outcome A * W) : outcome B * W :=
  match ow with
  | (Done _ a, w) => run (f a) w
  | (Exited _ s, w) => (Exited B s, w)
  | (UBehaviour _, w) => (UBehaviour B, w)
  | (Terminated _, w) => (Terminated B, w)
  | (OutOfFuel _, w) => (OutOfFuel B, w)
  end.

Lemma run_bind {A B} (p : prog A) (f : A -> prog B) w :
  run (p ≫= f) w = run_cont f (run p w).
Proof.
  revert w. induction p as [a|c k IH| | | |]; intros w; try done.
  cbn. destruct (os_call c w) as [r w']. apply IH.
Qed.

Lemma run_call c w : run (do_call c) w = (Done _ (os_call c w).1, (os_call c w).2).
Proof. cbn. by destruct (os_call c w). Qed.

Definition calls_cont {A B} (f : A -> prog B) (ow : outcome A * W) : list call :=
  match ow with (Done _ a, w) => calls (f a) w | _ => [] end.

Lemma calls_bind {A B} (p : prog A) (f : A -> prog B) w :
  calls (p ≫= f) w = calls p w ++ calls_cont f (run p w).
Proof.
  revert w. induction p as [a|c k IH| | | |]; intros w; try done.
  cbn. destruct (os_call c w) as [r w']. cbn. f_equal. apply IH.
Qed.

Definition worlds_cont {A B} (f : A -> prog B) (ow : outcome A * W) : list W :=
  match ow with (Done _ a, w) => tail (worlds (f a) w) | _ => [] end.

Lemma worlds_bind {A B} (p : prog A) (f : A -> prog B) w :
  worlds (p ≫= f) w = worlds p w ++ worlds_cont f (run p w).
Proof.
  revert w. induction p as [a|c k IH| | | |]; intros w; try done.
  - cbn. by destruct (f a).
  - cbn. destruct (os_call c w) as [r w']. cbn. f_equal. apply IH.
Qed.

(** ** Properties of the calls a program can make, whatever the answers *)

Fixpoint all_calls {A} (P : call -> Prop) (p : prog A) : Prop :=
  match p with
  | Call _ c k => P c /\ forall r, all_calls P (k r)
  | _ => True
  end.

Lemma all_calls_bind {A B} P (p : prog A) (f : A -> prog B) :
  all_calls P p -> (forall a, all_calls P (f a)) -> all_calls P (p ≫= f).
Proof.
  intros Hp Hf. induction p as [a|c k IH| | | |]; cbn in *; try done.
  destruct Hp as [? Hp]. split; [done|]. intros r. apply IH, Hp.
Qed.

Lemma all_calls_run {A} P (p : prog A) w :
  all_calls P p -> Forall P (calls p w).
Proof.
  revert w. induction p as [a|c k IH| | | |]; intros w; cbn; try constructor.
  intros [Hc Hk]. destruct (os_call c w) as [r w']. constructor; auto.
Qed.

End Run.

(** ** Effects on the file system *)

(** [t] is an initial part of [s]. *)
Definition initial_part (t s : string) : Prop := exists u, s = t +:+ u.

(** The effect of a library call on the files [f], with answer [r].  Calls
    about other things, and calls during which other programs run, are not
    constrained. *)
Definition fs_effect (c : fs_call) (f : files) : fs_resp c -> files -> Prop :=
  match c with
  | FsStatus p => λ '(ty, _) f',
      f' = f /\ (ty = type_of (f !! p) \/ ty = FT_none)
  | FsCreateDirectories p => λ '(created, err) f',
      f ⊆ f' /\ (forall q n, f' !! q = Some n -> f !! q = None -> n = Dir /\ under q p = true)
      /\ (created = true -> f !! p = None /\ f' !! p = Some Dir)
      /\ (created = false -> f' !! p = f !! p)
      /\ (err = 0 -> f' !! p = Some Dir)
      /\ (f !! p <> None -> created = false /\ f' = f)
  | FsRemoveAll p => λ err f',
      f' ⊆ f /\ (forall q, under p q = false -> f' !! q = f !! q)
      /\ (err = 0 -> forall q, under p q = true -> f' !! q = None)
  | FsRename a b => λ err f',
      (err = 0 -> forall s, f !! a = Some (Reg s) -> a <> b ->
         f' = <[b := Reg s]> (delete a f))
      /\ (err = 0 -> f !! a <> None)
      /\ (err <> 0 -> f' = f)
  | FsRemove p => λ err f',
      (err = 0 -> f' = delete p f) /\ (err <> 0 -> f' = f)
  | FsFileSize p => λ '(n, err) f',
      f' = f /\ (err = 0 -> forall s, f !! p = Some (Reg s) -> n = Z.of_nat (String.length s))
  | IfstreamRead p n => λ o f',
      f' = f /\ (o <> None -> f !! p <> None) /\
      forall s t, f !! p = Some (Reg s) -> o = Some t -> t = String.substring 0 (Z.to_nat n) s
  | OfstreamAppendTellp p => λ pos f',
      (pos < 0 -> f' = f)
      /\ (0 <= pos -> match f !! p with
           | None => pos = 0 /\ f' = <[p := Reg EmptyString]> f
           | Some (Reg s) => pos = Z.of_nat (String.length s) /\ f' = f
           | Some Other => f' = f
           | Some _ => False      (* a directory or a pipe has no position *)
           end)
  | OfstreamOpen p => λ ok f',
      (ok = false -> f' = f)
      /\ (ok = true -> match f !! p with
           | None | Some (Reg _) => f' = <[p := Reg EmptyString]> f
           | Some _ => f' = f
           end)
  | OfstreamWrite p s => λ ok f',
      exists t, initial_part t s /\ (ok = true -> t = s)
        /\ match f !! p with
           | Some (Reg old) => f' = <[p := Reg (old +:+ t)]> f
           | _ => f' = f
           end
  | FilebufOpen p => λ err f', f' = f /\ (err = 0 -> f !! p <> None)
  | FilebufSgetn p off n => λ t f',
      f' = f /\ forall s, f !! p = Some (Reg s) ->
        t = String.substring (Z.to_nat off) (Z.to_nat n) s
  | RandomLetter => λ c f', f' = f /\ 97 <= code c <= 122
  | Cout _ => λ _ f', f' = f
  end.

(** [Setns] and [Unshare] leave the files as they are: in the mount namespace that a
    container process joins, the paths that it uses afterwards name the same files. *)
Definition posix_effect (c : posix_call) (f : files) : posix_resp c -> files -> Prop :=
  match c with
  | Mkfifo p _ => λ r f',
      (0 <= ret r -> f !! p = None /\ f' = <[p := Fifo]> f) /\ (ret r < 0 -> f' = f)
  | Unlink p => λ r f',
      (0 <= ret r -> f !! p <> None /\ f' = delete p f) /\ (ret r < 0 -> f' = f)
  | Open p _ => λ r f', f' = f /\ (0 <= ret r -> f !! p <> None)
  | Getpid | Time | Geteuid | Fork | Setsid | Pipe | Socket => λ _ f', f' = f
  | Close _ | Write _ _ | Unshare _ | Setns _ _ | Statfs _ => λ _ f', f' = f
  | _ => λ _ _, True
  end.

(** simdjson reads the file and parses it; it reports an error when it cannot
    read it. *)
Definition json_effect (p : string) (f : files) (r : sj_result element) (f' : files) : Prop :=
  f' = f /\ match r with
            | inr _ => exists s, f !! p = Some (Reg s) /\ r = parse s
            | inl _ => True
            end.

Definition call_effect (c : call) (f : files) : resp c -> files -> Prop :=
  match c with
  | Fs c => fs_effect c f
  | Px c => posix_effect c f
  | JsonLoad p => json_effect p f
  | Sd _ | Wm _ => λ _ _, True
  end.

(** The files of a state of the environment, and the documented effects. *)
Class OsLaws (W : Type) {OS : Os W} := {
  files_of : W -> files;
  os_effect c w : call_effect c (files_of w) (os_call c w).1 (files_of (os_call c w).2);
}.

End Programs.

Arguments Ret {_ A} a.
Arguments Call {_ A} c k.
Arguments Exit {_ A} status.
Arguments Undef {_ A}.
Arguments Terminate {_ A}.
Arguments Fuel {_ A}.
Arguments Done {A} a.
Arguments Exited {A} status.
Arguments UBehaviour {A}.
Arguments Terminated {A}.
Arguments OutOfFuel {A}.
Arguments lift_cpp {_ A} !x /.

(** Break the definition of a call into its answer, its next state and its
    effect on the files. *)
Lemma os_step `{SJ : Simdjson} `{OS : Os W} {L : OsLaws W} c w r w' :
  os_call c w = (r, w') -> call_effect c (files_of w) r (files_of w').
Proof. intros H. pose proof (os_effect c w) as E. by rewrite H in E. Qed.
