(* ===== verification/Logic.v ===== *)
(** A small program logic for [Prog]: [spec I w p Q] says that the program [p],
    started in the environment [w], keeps [I] true at every step and ends in
    an outcome and an environment that satisfy [Q].  The second half is a logic
    for the order of the calls: [accepts step st p Q] says that an automaton
    that watches the calls of [p] and their answers never gets stuck. *)
From S2P Require Import Prelude Cpp Path Json Prog.

Section Logic.
Context `{SJ : Simdjson} {W : Type} {OS : Os W}.

Definition spec {A} (I : W -> Prop) (w : W) (p : prog A)
    (Q : outcome A -> W -> Prop) : Prop :=
  Forall I (worlds p w) /\ Q (run p w).1 (run p w).2.

(** The postcondition of the first half of a sequence. *)
Definition then_post {A B} (I : W -> Prop) (f : A -> prog B)
    (Q : outcome B -> W -> Prop) (o : outcome A) (w : W) : Prop :=
  match o with
  | Done a => spec I w (f a) Q
  | Exited s => Q (Exited s) w
  | UBehaviour => Q UBehaviour w
  | Terminated => Q Terminated w
  | OutOfFuel => Q OutOfFuel w
  end.

Lemma spec_ret {A} I w (a : A) Q : I w -> Q (Done a) w -> spec I w (Ret a) Q.
Proof. intros ??. split; [by repeat constructor|done]. Qed.

Lemma spec_bind {A B} I w (p : prog A) (f : A -> prog B) Q :
  spec I w p (then_post I f Q) -> spec I w (p ≫= f) Q.
Proof.
  intros [Hp Hf]. split.
  - rewrite worlds_bind. apply Forall_app. split; [done|].
    destruct (run p w) as [[a| | | |] w']; cbn in *; try done.
    destruct Hf as [Hf _]. destruct (f a); cbn in *; by inversion Hf.
  - rewrite run_bind.
    destruct (run p w) as [[a| | | |] w']; cbn in *; try done.
    by destruct Hf.
Qed.

Lemma spec_call {A} I w c (k : resp c -> prog A) Q :
  I w ->
  (forall r w', os_call c w = (r, w') -> spec I w' (k r) Q) ->
  spec I w (Call c k) Q.
Proof.
  intros HI Hk. unfold spec. cbn. destruct (os_call c w) as [r w'] eqn:E.
  destruct (Hk r w' eq_refl) as [Hw HQ]. split; [by constructor|done].
Qed.

Lemma spec_do_call {B} I w c (f : resp c -> prog B) Q :
  I w ->
  (forall r w', os_call c w = (r, w') -> spec I w' (f r) Q) ->
  spec I w (do_call c ≫= f) Q.
Proof. intros ??. by apply spec_call. Qed.

Lemma spec_mono {A} I w (p : prog A) (Q Q' : outcome A -> W -> Prop) :
  (forall o w', Q o w' -> Q' o w') -> spec I w p Q -> spec I w p Q'.
Proof. intros HQ [??]. split; auto. Qed.

Lemma spec_run {A} I w (p : prog A) Q o w' :
  spec I w p Q -> run p w = (o, w') -> Q o w'.
Proof. intros [_ HQ] Hr. by rewrite Hr in HQ. Qed.

Lemma spec_worlds {A} I w (p : prog A) Q w' :
  spec I w p Q -> w' ∈ worlds p w -> I w'.
Proof. intros [HI _] ?. by eapply Forall_forall in HI. Qed.

Lemma spec_start {A} I w (p : prog A) Q : spec I w p Q -> I w.
Proof. intros [HI _]. destruct p; cbn in HI; by inversion HI. Qed.

(** ** Traces *)

(** A call with its answer. *)
Definition event : Type := sigT resp.

Fixpoint trace {A} (p : prog A) (w : W) : list event :=
  match p with
  | Call c k => let '(r, w') := os_call c w in existT (P := resp) c r :: trace (k r) w'
  | _ => []
  end.

Definition trace_cont {A B} (f : A -> prog B) (ow : outcome A * W) : list event :=
  match ow with (Done a, w) => trace (f a) w | _ => [] end.

Lemma trace_bind {A B} (p : prog A) (f : A -> prog B) w :
  trace (p ≫= f) w = trace p w ++ trace_cont f (run p w).
Proof.
  revert w. induction p as [a|c k IH| | | |]; intros w; try done.
  cbn. destruct (os_call c w) as [r w']. cbn. f_equal. apply IH.
Qed.

Lemma trace_calls {A} (p : prog A) w : (λ e : event, projT1 e) <$> trace p w = calls p w.
Proof.
  revert w. induction p as [a|c k IH| | | |]; intros w; try done.
  cbn. destruct (os_call c w) as [r w']. cbn. f_equal. apply IH.
Qed.

End Logic.

#[global] Arguments then_post {_ _ _ _ _} I f Q !o w /.

(** Run the next call of a goal [spec I w (do_call c ≫= f) Q]: leaves the
    invariant to prove, and binds the answer and the next state. *)
Tactic Notation "step_call" "as" ident(r) ident(w) ident(E) :=
  first [ apply spec_do_call | apply spec_call ]; [|intros r w E].

(** Equal events have equal answers. *)
Lemma answer_inj `{SJ : Simdjson} c (r r' : resp c) : existT (P := resp) c r = existT (P := resp) c r' -> r = r'.
Proof. apply (Eqdep_dec.inj_pair2_eq_dec _ call_eq_dec). Qed.

(** ** Which calls a program makes *)

Lemma all_calls_do `{SJ : Simdjson} (P : call -> Prop) c : P c -> all_calls P (do_call c).
Proof. by repeat split. Qed.

Lemma all_calls_mono `{SJ : Simdjson} {A} (P P' : call -> Prop) (p : prog A) :
  (forall c, P c -> P' c) -> all_calls P p -> all_calls P' p.
Proof. intros HP. induction p as [a|c k IH| | | |]; cbn; [done| |done..]. intros []. auto. Qed.

(** Walk over a program and leave the goals about its calls and about the
    programs it calls. *)
Ltac calls_walk :=
  repeat match goal with
    | |- all_calls _ (_ ≫= _) => apply all_calls_bind; [|intros ?]
    | |- all_calls _ (do_call _) => apply all_calls_do
    | |- all_calls _ (mret _) => exact I
    | |- all_calls _ (Ret _) => exact I
    | |- all_calls _ Undef => exact I
    | |- all_calls _ Terminate => exact I
    | |- all_calls _ Fuel => exact I
    | |- all_calls _ (Exit _) => exact I
    | |- all_calls _ (match ?x with _ => _ end) => destruct x
    end.

(** ** Transition systems over traces *)

Section Automata.
Context `{SJ : Simdjson} {St : Type} (step : St -> event -> St -> Prop).

(** The transition system can follow every path of the program, whatever the
    answers; the program returns in a state that satisfies [Q]. *)
Fixpoint accepts {A} (st : St) (p : prog A) (Q : A -> St -> Prop) : Prop :=
  match p with
  | Ret a => Q a st
  | Call c k => forall r, exists st', step st (existT (P := resp) c r) st' /\ accepts st' (k r) Q
  | _ => True
  end.

(** The transitions along a trace. *)
Inductive steps : St -> list event -> St -> Prop :=
| steps_nil st : steps st [] st
| steps_cons st e st1 t st2 : step st e st1 -> steps st1 t st2 -> steps st (e :: t) st2.

Lemma steps_app st t1 t2 st' :
  steps st (t1 ++ t2) st' -> exists st1, steps st t1 st1 /\ steps st1 t2 st'.
Proof.
  revert st. induction t1 as [|e t1 IH]; intros st Hs; cbn in *; [by exists st; split; [constructor|]|].
  inversion Hs as [|? ? stm ? ? He Hs1]; subst. destruct (IH stm Hs1) as (sta & ? & ?).
  exists sta. split; [by econstructor|done].
Qed.

Lemma steps_trans st t1 st1 t2 st2 : steps st t1 st1 -> steps st1 t2 st2 -> steps st (t1 ++ t2) st2.
Proof. induction 1; [done|]. intros. econstructor; eauto. Qed.

Lemma accepts_bind {A B} st (p : prog A) (f : A -> prog B) Q :
  accepts st p (λ a st', accepts st' (f a) Q) -> accepts st (p ≫= f) Q.
Proof.
  revert st. induction p as [a|c k IH| | | |]; intros st Hp; try done.
  cbn in *. intros r. destruct (Hp r) as (st' & Hs & Hk). exists st'. split; [done|].
  by apply IH.
Qed.

Lemma accepts_mono {A} st (p : prog A) (Q Q' : A -> St -> Prop) :
  (forall a st', Q a st' -> Q' a st') -> accepts st p Q -> accepts st p Q'.
Proof.
  intros HQ. revert st. induction p as [a|c k IH| | | |]; intros st Hp; cbn in *; auto.
  intros r. destruct (Hp r) as (st' & Hs & Hk). eauto.
Qed.

(** Sequencing with a known postcondition of the first part. *)
Lemma accepts_seq {A B} st (p : prog A) (f : A -> prog B) P Q :
  accepts st p P -> (forall a st', P a st' -> accepts st' (f a) Q) -> accepts st (p ≫= f) Q.
Proof. intros Hp Hf. apply accepts_bind. by eapply accepts_mono. Qed.

Lemma accepts_call {A} st c (f : resp c -> prog A) Q :
  (forall r, exists st', step st (existT (P := resp) c r) st' /\ accepts st' (f r) Q) ->
  accepts st (do_call c ≫= f) Q.
Proof. done. Qed.

(** A call that leaves the state as it is. *)
Definition idle (st : St) (c : call) : Prop := forall r, step st (existT (P := resp) c r) st.

Lemma accepts_idle_call {A} st c (f : resp c -> prog A) Q :
  idle st c -> (forall r, accepts st (f r) Q) -> accepts st (do_call c ≫= f) Q.
Proof. intros Hc Hf. apply accepts_call. intros r. exists st. auto. Qed.

(** A program whose calls leave the state as it is. *)
Lemma accepts_idle {A} st (p : prog A) : all_calls (idle st) p -> accepts st p (λ _ st', st' = st).
Proof.
  induction p as [a|c k IH| | | |]; intros Hp; cbn in *; auto.
  destruct Hp as [Hc Hk]. intros r. exists st. auto.
Qed.

Context {W : Type} {OS : Os W}.

Lemma accepts_run {A} st (p : prog A) Q w :
  accepts st p Q ->
  exists st', steps st (trace p w) st' /\ forall a w', run p w = (Done a, w') -> Q a st'.
Proof.
  revert st w. induction p as [a|c k IH| | | |]; intros st w Hp; cbn in *;
    try (by exists st; split; [constructor|]); [exists st; split; [constructor|by intros ?? [= <- _]]|].
  destruct (os_call c w) as [r w']. destruct (Hp r) as (st' & Hs & Hk).
  destruct (IH r st' w' Hk) as (st2 & ? & ?). exists st2. split; [by econstructor|done].
Qed.

End Automata.

(** The transition system that remembers everything: what [accepts] proves of
    its state holds of the trace. *)
Section History.
Context `{SJ : Simdjson}.

Definition hist_step (h : list event) (e : event) (h' : list event) : Prop := h' = h ++ [e].

Lemma accepts_hist_call {A} h c (f : resp c -> prog A) Q :
  (forall r, accepts hist_step (h ++ [existT (P := resp) c r]) (f r) Q) ->
  accepts hist_step h (do_call c ≫= f) Q.
Proof. intros H. apply accepts_call. intros r. eexists. by split. Qed.

Lemma accepts_hist_any {A} h (p : prog A) (Q : A -> list event -> Prop) :
  (forall a h', Q a h') -> accepts hist_step h p Q.
Proof. intros HQ. revert h. induction p; intros; cbn; try done. intros r. eexists. by split. Qed.

Lemma steps_hist h t h' : steps hist_step h t h' -> h' = h ++ t.
Proof.
  induction 1 as [h|h e h1 t h2 -> _ ->]; [by rewrite app_nil_r|]. by rewrite <- app_assoc.
Qed.

(** The history only grows. *)
Lemma accepts_hist_grows {A} h (p : prog A) Q :
  accepts hist_step h p Q -> accepts hist_step h p (λ a h', Q a h' /\ h ⊆ h').
Proof.
  revert h. induction p as [a|c k IH| | | |]; intros h Hp; cbn in *; auto.
  intros r. destruct (Hp r) as (h' & -> & Hk). eexists. split; [done|].
  eapply accepts_mono; [|by apply IH]. intros a h' [? Hs]. split; [done|]. set_solver.
Qed.

Context {W : Type} {OS : Os W}.

Lemma accepts_hist_run {A} (p : prog A) Q w a w' :
  accepts hist_step [] p Q -> run p w = (Done a, w') -> Q a (trace p w).
Proof.
  intros Hp Hr. destruct (accepts_run hist_step [] p Q w Hp) as (h & Hh & HQ).
  apply steps_hist in Hh as ->. by eapply HQ.
Qed.

End History.
