(* ===== verification/Sim.v ===== *)
(** A concrete environment: an in-memory file system whose other answers are
    scripted.  It satisfies the laws of [Prog], so the hypotheses of the
    theorems about arbitrary environments can hold, and programs can be
    evaluated in it. *)
From S2P Require Import Prelude Cpp Path Json Prog.

(** The kind of file system. *)
Record sim_config := SimConfig {
  read_only : bool;                     (* no file can be opened for writing *)
  disk_full : bool;                     (* writes store nothing *)
}.
Definition plain_fs : sim_config := SimConfig false false.
Definition read_only_fs : sim_config := SimConfig true false.
Definition full_fs : sim_config := SimConfig false true.

Record sim (cfg : sim_config) := Sim {
  sim_files : files;
  sim_step : nat;                       (* number of calls so far *)
  sim_rand : nat -> ascii;
  sim_px : nat -> forall c : posix_call, posix_resp c;
  sim_sd : nat -> forall c : sd_call, sd_resp c;
  sim_wm : nat -> forall c : wasm_call, wasm_resp c;
}.

Arguments Sim {cfg}.
Arguments sim_files {cfg}.
Arguments sim_step {cfg}.
Arguments sim_rand {cfg}.
Arguments sim_px {cfg}.
Arguments sim_sd {cfg}.
Arguments sim_wm {cfg}.

(** The same environment with other files, one call later. *)
Definition sim_next {cfg} (w : sim cfg) (f : files) : sim cfg :=
  Sim f (S (sim_step w)) (sim_rand w) (sim_px w) (sim_sd w) (sim_wm w).

Definition sim_letter (c : ascii) : ascii :=
  if (97 <=? code c) && (code c <=? 122) then c else "a"%char.

Definition sim_fs_call {cfg} (w : sim cfg) (c : fs_call) : fs_resp c * files :=
  let f := sim_files w in
  match c with
  | FsStatus p => ((type_of (f !! p), if decide (f !! p = None) then ENOENT else 0), f)
  | FsCreateDirectories p =>
      match f !! p with
      | Some Dir => ((false, 0), f)
      | Some _ => ((false, EEXIST), f)
      | None => if read_only cfg then ((false, EROFS), f) else ((true, 0), <[p := Dir]> f)
      end
  | FsRemoveAll p => (0, filter (λ kv, under p kv.1 = false) f)
  | FsRename a b =>
      match f !! a with
      | Some n => if decide (a = b) then (0, f) else (0, <[b := n]> (delete a f))
      | None => (ENOENT, f)
      end
  | FsRemove p => (0, delete p f)
  | FsFileSize p =>
      match f !! p with
      | Some (Reg s) => ((Z.of_nat (String.length s), 0), f)
      | _ => ((-1, ENOENT), f)
      end
  | IfstreamRead p n =>
      match f !! p with
      | Some (Reg s) => (Some (String.substring 0 (Z.to_nat n) s), f)
      | _ => (None, f)
      end
  | OfstreamAppendTellp p =>
      if read_only cfg then (-1, f)
      else match f !! p with
           | Some (Reg s) => (Z.of_nat (String.length s), f)
           | Some _ => (-1, f)
           | None => (0, <[p := Reg EmptyString]> f)
           end
  | OfstreamOpen p =>
      if read_only cfg then (false, f)
      else match f !! p with
           | None | Some (Reg _) => (true, <[p := Reg EmptyString]> f)
           | Some _ => (false, f)
           end
  | OfstreamWrite p s =>
      match f !! p with
      | Some (Reg old) =>
          if disk_full cfg then (false, <[p := Reg (old +:+ EmptyString)]> f)
          else (true, <[p := Reg (old +:+ s)]> f)
      | _ => (true, f)
      end
  | FilebufOpen p => (if decide (f !! p = None) then ENOENT else 0, f)
  | FilebufSgetn p off n =>
      match f !! p with
      | Some (Reg s) => (String.substring (Z.to_nat off) (Z.to_nat n) s, f)
      | _ => (EmptyString, f)
      end
  | RandomLetter => (sim_letter (sim_rand w (sim_step w)), f)
  | Cout _ => (tt, f)
  end.

Definition sim_posix_call {cfg} (w : sim cfg) (c : posix_call) : posix_resp c * files :=
  let f := sim_files w in
  match c with
  | Mkfifo p m =>
      match f !! p with
      | None => (SysRet 0 0, <[p := Fifo]> f)
      | Some _ => (SysRet (-1) EEXIST, f)
      end
  | Unlink p =>
      match f !! p with
      | None => (SysRet (-1) ENOENT, f)
      | Some _ => (SysRet 0 0, delete p f)
      end
  | Open p fl =>
      match f !! p with
      | None => (SysRet (-1) ENOENT, f)
      | Some _ => (sim_px w (sim_step w) (Open p fl), f)
      end
  | c => (sim_px w (sim_step w) c, f)
  end.

Section Sim.
Context `{SJ : Simdjson} {cfg : sim_config}.

Definition sim_json_load (w : sim cfg) (p : string) : sj_result element :=
  match sim_files w !! p with
  | Some (Reg s) => parse s
  | _ => inl (OTHER_ERROR 1)
  end.

#[global] Instance sim_os : Os (sim cfg) := λ c w,
  match c with
  | Fs c => let '(r, f) := sim_fs_call w c in (r, sim_next w f)
  | Px c => let '(r, f) := sim_posix_call w c in (r, sim_next w f)
  | Sd c => (sim_sd w (sim_step w) c, sim_next w (sim_files w))
  | Wm c => (sim_wm w (sim_step w) c, sim_next w (sim_files w))
  | JsonLoad p => (sim_json_load w p, sim_next w (sim_files w))
  end.

(** ** The laws *)

Lemma sim_create_effect (w : sim cfg) p :
  fs_effect (FsCreateDirectories p) (sim_files w)
    (sim_fs_call w (FsCreateDirectories p)).1 (sim_fs_call w (FsCreateDirectories p)).2.
Proof.
  cbn. destruct (sim_files w !! p) as [[]|] eqn:Hp;
    [..|destruct (read_only cfg)]; cbn; split_and!; try done; try congruence.
  - by apply insert_subseteq.
  - intros q n Hq Hn. destruct (decide (q = p)) as [->|Hne].
    + rewrite lookup_insert_eq in Hq. simplify_eq. split; [done|apply under_refl].
    + rewrite lookup_insert_ne in Hq by done. congruence.
  - intros _. split; [done|]. apply lookup_insert_eq.
  - intros _. apply lookup_insert_eq.
Qed.

Lemma sim_fs_effect (w : sim cfg) c :
  fs_effect c (sim_files w) (sim_fs_call w c).1 (sim_fs_call w c).2.
Proof.
  destruct c as [p|p|p|a b|p|p|p n|p|p|p s|p|p off n| |s];
    lazymatch goal with |- fs_effect (FsCreateDirectories _) _ _ _ => idtac | _ => cbn end;
    try done.
  - split; [done|]. by left.
  - apply sim_create_effect.
  - split_and!; [apply map_filter_subseteq| |].
    + intros q Hq. destruct (sim_files w !! q) as [n|] eqn:E.
      * by apply map_lookup_filter_Some_2.
      * apply map_lookup_filter_None. by left.
    + intros _ q Hq. apply map_lookup_filter_None. right. cbn. intros. congruence.
  - destruct (sim_files w !! a) as [n|] eqn:Ha; [|done].
    case_decide; cbn; split_and!; try done; intros; congruence.
  - destruct (sim_files w !! p) as [[]|]; cbn; split; try done. intros; congruence.
  - destruct (sim_files w !! p) as [[]|]; cbn; split_and!; try done. intros; congruence.
  - destruct (read_only cfg); cbn; [split; [done|lia]|].
    destruct (sim_files w !! p) as [[]|] eqn:Hp; cbn; split; try done; lia.
  - destruct (read_only cfg); cbn; [done|].
    by destruct (sim_files w !! p) as [[]|] eqn:Hp; cbn; split.
  - destruct (sim_files w !! p) as [[]|] eqn:Hp; cbn;
      [destruct (disk_full cfg); cbn|..];
      first [exists EmptyString; split_and!; [by exists s|done|done]
            |exists s; split_and!; [by exists EmptyString; rewrite sapp_nil_r|done|done]].
  - split; [done|]. by case_decide.
  - destruct (sim_files w !! p) as [[]|]; cbn; split; try done. intros; congruence.
  - split; [done|]. unfold sim_letter.
    destruct (_ && _) eqn:E; [|by vm_compute]. bool_lia.
Qed.

Lemma sim_posix_effect (w : sim cfg) c :
  posix_effect c (sim_files w) (sim_posix_call w c).1 (sim_posix_call w c).2.
Proof.
  destruct c; cbn; try done;
    destruct (sim_files w !! p) eqn:Hp; cbn; split; try done; intros; lia.
Qed.

#[global] Program Instance sim_laws : OsLaws (sim cfg) := {| files_of := sim_files |}.
Next Obligation.
  intros [c|c|c|c|p] w; cbn; try done.
  - pose proof (sim_fs_effect w c) as H. by destruct (sim_fs_call w c).
  - pose proof (sim_posix_effect w c) as H. by destruct (sim_posix_call w c).
  - split; [done|]. unfold sim_json_load.
    destruct (sim_files w !! p) as [[s| | |]|]; try done.
    destruct (parse s) eqn:E; [done|]. by exists s.
Qed.

End Sim.

(** Scripts that answer every call with success. *)
Definition sim_px_ok (n : nat) (c : posix_call) : posix_resp c :=
  match c with
  | Pipe => (SysRet 0 0, (10, 11))
  | Waitpid _ => (SysRet 1 0, 0)
  | Read _ _ => (SysRet 1 0, chr "000"%char)
  | Statfs _ => (SysRet 0 0, 0)
  | Getpid => SysRet 4242 0
  | Open _ _ => SysRet 7 0
  | Fork => SysRet 0 0
  | _ => SysRet 0 0
  end.
Definition sim_sd_ok (n : nat) (c : sd_call) : sd_resp c :=
  match c with
  | SdDefaultUser | SdDefaultSystem | SdNewMethodCall _ _ _ _ _ => (0, Z.of_nat n + 1000)
  | SdCall _ _ _ => (0, Z.of_nat n + 1000, 0)
  | SdProcess _ => (1, Some (Z.of_nat n + 1000))
  | SdMsgRead _ ty =>
      (0, if String.eqb ty "o" then [AStr "/job/1"]
          else [AInt 1; AStr "/job/1"; AStr "unit"; AStr "done"])
  | SdUnref _ | SdMsgUnref _ | SdErrorFree => tt
  | _ => 0
  end.
Definition sim_wm_ok (n : nat) (c : wasm_call) : wasm_resp c :=
  match c with
  | LoadFile _ => Some "wasm"
  | CacheGetPath _ _ => Some "/cache/module.wasm"
  | WasiExitCode => 0
  | WasiInit _ _ _ _ | ProcAllowCmd _ | ProcAllowAll | CacheClear _ => tt
  | _ => true
  end.

Definition sim_start (cfg : sim_config) (f : files) : sim cfg :=
  Sim f 0 (λ _, "a"%char) sim_px_ok sim_sd_ok sim_wm_ok.
