(* ===== verification/FileOps.v ===== *)
(** The file helpers of src/runw.cpp: [getTempFilename],
    [atomicCreateAndWriteFile], [atomicUpdateFile] and [readAll].  The main
    result is that an update is atomic: at every step of it the file holds
    the old text or the text that was written to the temporary file. *)
From S2P Require Import Prelude Cpp Path Json JsonRef Prog Logic Sim.

Section FileOps.
Context `{SJ : Simdjson}.

(** ** Definitions *)

(** [std::filesystem::is_regular_file(Path, ErrCode)] and
    [is_directory(Path, ErrCode)]. *)
Definition is_regular_file (Path : string) : prog (bool * errc) :=
  '(ty, err) ← do_call (Fs (FsStatus Path)) : prog (file_type * errc);
  mret (bool_decide (ty = FT_regular), err).
Definition is_directory (Path : string) : prog (bool * errc) :=
  '(ty, err) ← do_call (Fs (FsStatus Path)) : prog (file_type * errc);
  mret (bool_decide (ty = FT_directory), err).

(** The array of random letters. *)
Fixpoint random_suffix (n : nat) : prog string :=
  match n with
  | O => mret EmptyString
  | S n =>
      c ← do_call (Fs RandomLetter) : prog ascii;
      s ← random_suffix n;
      mret (String c s)
  end.

(** [while (true)]: at most [fuel] rounds. *)
Fixpoint getTempFilename (fuel : nat) (Prefix : string) : prog string :=
  match fuel with
  | O => Fuel
  | S fuel =>
      Suffix ← random_suffix 6;
      let Path := path_concat Prefix Suffix in
      pos ← do_call (Fs (OfstreamAppendTellp Path)) : prog Z;
      if pos =? 0 then mret Path else getTempFilename fuel Prefix
  end.

(** The common part of the two functions below: write the text [Func] produces
    to a temporary file and rename it. *)
Definition writeTempAndRename (fuel : nat) (Path : string) (Func : prog string) : prog bool :=
  TempFile ← getTempFilename fuel Path;
  ok ← do_call (Fs (OfstreamOpen TempFile)) : prog bool;
  if negb ok then mret false
  else
    text ← Func;
    _ ← do_call (Fs (OfstreamWrite TempFile text)) : prog bool;
    ErrCode ← do_call (Fs (FsRename TempFile Path)) : prog errc;
    if negb (ErrCode =? 0) then
      _ ← do_call (Fs (FsRemove TempFile)) : prog errc;
      mret false
    else mret true.

Definition atomicCreateAndWriteFile (fuel : nat) (Path : string) (Func : prog string) : prog bool :=
  '(regular, _) ← is_regular_file Path;
  if (regular : bool) then mret false else writeTempAndRename fuel Path Func.

Definition atomicUpdateFile (fuel : nat) (Path : string) (Func : prog string) : prog bool :=
  '(regular, _) ← is_regular_file Path;
  if negb regular then mret false else writeTempAndRename fuel Path Func.

(** The whole file, or nothing. *)
Definition readAll (Path : string) : prog string :=
  '(regular, err) ← is_regular_file Path;
  if negb regular || negb (err =? 0) then mret EmptyString
  else
    '(Size, err) ← do_call (Fs (FsFileSize Path)) : prog (Z * errc);
    if negb (err =? 0) then mret EmptyString
    else
      Stream ← do_call (Fs (IfstreamRead Path Size)) : prog (option string);
      match Stream with
      | None => mret EmptyString
      | Some Buffer => mret Buffer
      end.

End FileOps.

(** A temporary name of [Path]. *)
Definition letter (c : ascii) : bool := (97 <=? code c) && (code c <=? 122).
Definition temp_name (Path q : string) : Prop :=
  exists s, q = Path +:+ s /\ String.length s = 6%nat /\ str_all letter s = true.

(** No temporary name of [Path] is a device. *)
Definition no_device (Path : string) (f : gmap string node) : Prop :=
  forall q, temp_name Path q -> f !! q <> Some Other.

(** ** Lemmas *)

Section Lemmas.
Context `{SJ : Simdjson} {W : Type} {OS : Os W} {L : OsLaws W}.

Lemma temp_name_ne Path q : temp_name Path q -> q <> Path.
Proof. intros (s & -> & Hl & _). apply sapp_ne_self. by intros ->. Qed.

Lemma random_suffix_spec (I : W -> Prop) n w :
  I w -> (forall w' : W, files_of w' = files_of w -> I w') ->
  spec I w (random_suffix n) (λ o w', exists s, o = Done s /\
    String.length s = n /\ str_all letter s = true /\ files_of w' = files_of w).
Proof.
  revert w. induction n as [|n IH]; intros w Hw HI; simpl.
  { apply spec_ret; [done|]. by exists EmptyString. }
  step_call as c w1 E1; [done|]. apply os_step in E1. destruct E1 as [E1 Hc].
  apply spec_bind. eapply spec_mono; [|apply IH].
  - intros o w2 (s & -> & Hl & Hs & Hf). cbn. apply spec_ret; [apply HI; congruence|].
    exists (String c s). split_and!; [done|by simpl; rewrite Hl| |congruence].
    simpl. rewrite Hs. unfold letter. destruct Hc. bool_lia.
  - apply HI. done.
  - intros w' Hf. apply HI. congruence.
Qed.

Lemma tellp_effect p (pos : Z) (f f' : files) :
  fs_effect (OfstreamAppendTellp p) f pos f' ->
  (forall q, q <> p -> f' !! q = f !! q) /\
  (f' !! p = f !! p \/ f' !! p = Some (Reg EmptyString)) /\
  (pos = 0 -> f !! p <> Some Other -> f' !! p = Some (Reg EmptyString)).
Proof.
  intros [Hneg Hpos]. destruct (Z.ltb_spec pos 0) as [Hlt|Hge].
  { rewrite Hneg by done. split_and!; [done|by left|lia]. }
  specialize (Hpos Hge). destruct (f !! p) as [[t| | |]|] eqn:Hp; try done.
  - destruct Hpos as [Hl ->]. rewrite Hp. split_and!; [done|by left|].
    intros ->. destruct t; [done|]. simpl in Hl. lia.
  - subst f'. rewrite Hp. split_and!; [done|by left|done].
  - destruct Hpos as [_ ->]. rewrite lookup_insert_eq.
    split_and!; [|by right|done]. intros q Hq. by rewrite lookup_insert_ne.
Qed.

(** [getTempFilename] returns a temporary name whose file is empty, and
    touches nothing else. *)
Lemma getTempFilename_spec (I : W -> Prop) fuel Prefix w :
  no_device Prefix (files_of w) ->
  I w ->
  (forall w' : W, (forall q, ~ temp_name Prefix q -> files_of w' !! q = files_of w !! q) -> I w') ->
  spec I w (getTempFilename fuel Prefix) (λ o w',
    (o = OutOfFuel \/ exists q, o = Done q /\ temp_name Prefix q /\
       files_of w' !! q = Some (Reg EmptyString)) /\
    (forall q, ~ temp_name Prefix q -> files_of w' !! q = files_of w !! q)).
Proof.
  revert w. induction fuel as [|fuel IH]; intros w Hd Hw HI; cbn [getTempFilename].
  { split; [by repeat constructor|]. split; [by left|done]. }
  apply spec_bind.
  eapply spec_mono; [|apply random_suffix_spec; [done|]];
    [|intros w' Hf; apply HI; by rewrite Hf].
  intros o w1 (s & -> & Hl & Hs & Hf). cbn [then_post].
  set (p := path_concat Prefix s).
  assert (temp_name Prefix p) as Ht by (by exists s).
  step_call as pos w2 E2; [apply HI; by rewrite Hf|].
  apply os_step in E2. rewrite Hf in E2.
  apply tellp_effect in E2 as (Hother & Hself & Hzero).
  assert (forall q, ~ temp_name Prefix q -> files_of w2 !! q = files_of w !! q) as Hfr.
  { intros q Hq. apply Hother. by intros ->. }
  destruct (Z.eqb_spec pos 0) as [->|Hne].
  - apply spec_ret; [auto|]. split; [|done]. right. exists p. eauto.
  - eapply spec_mono; [|apply IH]; [| |auto|].
    + intros o w3 [Ho Hfr3]. split; [done|]. intros q Hq. rewrite Hfr3, Hfr; done.
    + intros q Hq. destruct (decide (q = p)) as [->|]; [|rewrite Hother; auto].
      destruct Hself as [->| ->]; auto.
    + intros w' Hw'. apply HI. intros q Hq. by rewrite Hw', Hfr.
Qed.

(** The environment never cuts a write short. *)
Definition reliable_writes : Prop :=
  forall p s (w : W), (os_call (Fs (OfstreamWrite p s)) w).1 = true.

(** The file holds what was written to the temporary file: the text, or, when a
    write was cut short, an initial part of it. *)
Definition written (text : string) (now : option node) : Prop :=
  exists t, initial_part t text /\ (reliable_writes -> t = text) /\ now = Some (Reg t).

(** What an observer of [Path] can find: what was there before, or what was
    written to the temporary file. *)
Definition old_or_new (text : string) (before now : option node) : Prop :=
  now = before \/ written text now.

Lemma writeTempAndRename_spec fuel Path text w :
  no_device Path (files_of w) ->
  spec (λ w', old_or_new text (files_of w !! Path) (files_of w' !! Path)) w
    (writeTempAndRename fuel Path (mret text)) (λ o w',
      (((o = OutOfFuel \/ o = Done false) /\ files_of w' !! Path = files_of w !! Path) \/
       (o = Done true /\ written text (files_of w' !! Path))) /\
      (forall q, q <> Path -> ~ temp_name Path q -> files_of w' !! q = files_of w !! q)).
Proof.
  intros Hd. unfold writeTempAndRename. apply spec_bind.
  eapply spec_mono; [|apply getTempFilename_spec; [done|by left|]].
  2:{ intros w' Hw'. left. apply Hw'. intros Ht. by apply temp_name_ne in Ht. }
  assert (~ temp_name Path Path) as Hnt by (intros Ht; by apply temp_name_ne in Ht).
  intros o w1 [[->|(q & -> & Hq & Hempty)] Hfr]; cbn [then_post].
  { split; [left; auto|auto]. }
  pose proof (temp_name_ne _ _ Hq) as Hqp.
  assert (files_of w1 !! Path = files_of w !! Path) as Hsame by auto.
  step_call as ok w2 E2; [by left|]. apply os_step in E2 as [Hfail Hok].
  rewrite Hempty in Hok. destruct ok; cbn [negb].
  2:{ specialize (Hfail eq_refl). apply spec_ret; [left; by rewrite Hfail|].
      rewrite Hfail. split; [left; auto|auto]. }
  specialize (Hok eq_refl). cbn in Hok. cbn. step_call as ok3 w3 E3; [left; by rewrite Hok, lookup_insert_ne|].
  pose proof (os_step _ _ _ _ E3) as (t & Ht & Htext & Hw3).
  rewrite Hok, lookup_insert_eq, sapp_nil_l, insert_insert_eq in Hw3.
  assert (reliable_writes -> t = text) as Hrel.
  { intros HR. apply Htext. pose proof (HR q text w2) as H. by rewrite E3 in H. }
  step_call as err w4 E4; [left; by rewrite Hw3, lookup_insert_ne|].
  apply os_step in E4 as (Hren & _ & Hkeep). rewrite Hw3 in Hren, Hkeep.
  destruct (Z.eqb_spec err 0) as [->|Hne]; cbn [negb].
  - specialize (Hren eq_refl t). rewrite lookup_insert_eq in Hren.
    specialize (Hren eq_refl Hqp). rewrite delete_insert_eq in Hren.
    assert (files_of w4 !! Path = Some (Reg t)) as Hnew by (by rewrite Hren, lookup_insert_eq).
    assert (written text (files_of w4 !! Path)) as Hwr by (by exists t).
    apply spec_ret; [by right|]. split; [by right|].
    intros q' Hq' Htq'. rewrite Hren, lookup_insert_ne, lookup_delete_ne; auto.
    by intros ->.
  - specialize (Hkeep Hne).
    step_call as err5 w5 E5; [left; by rewrite Hkeep, lookup_insert_ne|].
    apply os_step in E5 as [Hdel Hkeep5].
    assert (forall q', q' <> q -> files_of w5 !! q' = files_of w1 !! q') as Hfr5.
    { intros q' Hq'. destruct (Z.eqb_spec err5 0) as [He|He];
        [rewrite Hdel by done; rewrite lookup_delete_ne by done|rewrite Hkeep5 by done];
        by rewrite Hkeep, lookup_insert_ne. }
    apply spec_ret; [left; by rewrite Hfr5|].
    split; [left; split; [by right|by rewrite Hfr5]|].
    intros q' Hq' Htq'. rewrite Hfr5 by (by intros ->). auto.
Qed.

Lemma is_regular_file_spec (I : W -> Prop) Path w :
  I w -> (forall w' : W, files_of w' = files_of w -> I w') ->
  spec I w (is_regular_file Path) (λ o w', exists b err, o = Done (b, err) /\
    files_of w' = files_of w /\
    (b = true -> exists s, files_of w !! Path = Some (Reg s))).
Proof.
  intros Hw HI. unfold is_regular_file.
  step_call as r w1 E1; [done|]. destruct r as [ty err].
  apply os_step in E1 as [Hf Hty]. apply spec_ret; [auto|].
  eexists _, _. split_and!; [done|done|]. rewrite bool_decide_eq_true. intros ->.
  destruct Hty as [Hty|?]; [|done].
  destruct (files_of w !! Path) as [[]|]; by eauto.
Qed.

Lemma readAll_returns Path (w : W) :
  spec (λ _ : W, True) w (readAll Path) (λ o w', exists t, o = Done t /\
    files_of w' = files_of w /\ (t = EmptyString \/ files_of w !! Path = Some (Reg t))).
Proof.
  unfold readAll. apply spec_bind.
  eapply spec_mono; [|by apply is_regular_file_spec].
  intros o w1 (b & err & -> & Hf & Hreg). cbn [then_post].
  destruct (negb b || negb (err =? 0)) eqn:Hb; [apply spec_ret; eauto|].
  destruct b; [|done]. destruct (Hreg eq_refl) as [s Hs].
  step_call as r w2 E2; [done|]. destruct r as [n err2]. apply os_step in E2 as [Hf2 Hn].
  destruct (Z.eqb_spec err2 0) as [->|]; cbn [negb]; [|apply spec_ret; eauto with congruence].
  rewrite Hf in Hn, Hf2. specialize (Hn eq_refl s Hs).
  step_call as r w3 E3; [done|]. apply os_step in E3 as (Hf3 & _ & Ho). rewrite Hf2 in Ho, Hf3.
  destruct r as [t|]; apply spec_ret; eauto. exists t. split_and!; [done|done|right].
  by rewrite (Ho s t Hs eq_refl), Hn, Nat2Z.id, substring_all.
Qed.

End Lemmas.

(** ** Properties *)

Section Properties.
Context `{SJ : Simdjson} {W : Type} {OS : Os W} {L : OsLaws W}.

(** C15: an update of a file is atomic: at every step of [atomicUpdateFile] the file
    holds the old text, complete, or what was written to the temporary file; it
    holds the latter when the function returns [true], and the old text when it
    returns [false] or is still looking for a temporary name; no file other than
    the temporary ones is touched.  What was written is the new text, complete,
    when writes are not cut short, and an initial part of it otherwise.  No
    temporary name is that of a device. *)
Theorem atomicUpdateFile_atomic fuel Path text old (w : W) :
  no_device Path (files_of w) -> files_of w !! Path = Some (Reg old) ->
  (forall w', w' ∈ worlds (atomicUpdateFile fuel Path (mret text)) w ->
     files_of w' !! Path = Some (Reg old) \/ written (W := W) text (files_of w' !! Path)) /\
  match run (atomicUpdateFile fuel Path (mret text)) w with
  | (Done b, w') =>
      (if b : bool then written (W := W) text (files_of w' !! Path) else files_of w' !! Path = Some (Reg old)) /\
      forall q, q <> Path -> ~ temp_name Path q -> files_of w' !! q = files_of w !! q
  | (OutOfFuel, w') => files_of w' !! Path = Some (Reg old)
  | _ => False
  end.
Proof.
  intros Hd Hold.
  assert (spec (λ w', old_or_new (W := W) text (files_of w !! Path) (files_of w' !! Path)) w
    (atomicUpdateFile fuel Path (mret text)) (λ o w',
      match o with
      | Done b => (if b : bool then written (W := W) text (files_of w' !! Path)
                   else files_of w' !! Path = Some (Reg old)) /\
          forall q, q <> Path -> ~ temp_name Path q -> files_of w' !! q = files_of w !! q
      | OutOfFuel => files_of w' !! Path = Some (Reg old)
      | _ => False
      end)) as Hspec.
  { unfold atomicUpdateFile. apply spec_bind.
    eapply spec_mono; [|apply is_regular_file_spec; [by left|intros w' ->; by left]].
    intros o w1 (b & err & -> & Hf & _). cbn. destruct b; cbn.
    2:{ apply spec_ret; rewrite Hf; [by left|done]. }
    pose proof (writeTempAndRename_spec fuel Path text w1) as Hwr.
    rewrite Hf in Hwr. eapply spec_mono; [|by apply Hwr].
    intros o w2 [[[[->| ->] Hs]|[-> Hs]] Hfr]; rewrite ?Hs; auto. }
  split.
  - intros w' Hw'. apply (spec_worlds _ _ _ _ _ Hspec) in Hw' as [->|Hw']; auto.
  - destruct Hspec as [_ Hq]. by destruct (run _ w) as [[] w'].
Qed.

(** C29: [atomicCreateAndWriteFile] does not replace a file that it can see: when a
    regular file exists and its status can be read, it returns [false] and
    changes nothing.  When the status is another one, or cannot be read, it
    returns [true] after it has put the text in place, complete unless a write
    was cut short, and [false] with the file as it was; no other file than the
    temporary ones is touched.  No temporary name is that of a device. *)
Theorem atomicCreateAndWriteFile_spec fuel Path text (w : W) :
  no_device Path (files_of w) ->
  let '(ty, _) := (os_call (Fs (FsStatus Path)) w).1 in
  let '(o, w') := run (atomicCreateAndWriteFile fuel Path (mret text)) w in
  (forall s, files_of w !! Path = Some (Reg s) -> ty <> FT_none -> o = Done false /\ files_of w' = files_of w) /\
  (ty <> FT_regular ->
     match o with
     | Done b => (if b : bool then written (W := W) text (files_of w' !! Path)
                  else files_of w' !! Path = files_of w !! Path)
     | OutOfFuel => files_of w' !! Path = files_of w !! Path
     | _ => False
     end) /\
  forall q, q <> Path -> ~ temp_name Path q -> files_of w' !! q = files_of w !! q.
Proof.
  intros Hd. unfold atomicCreateAndWriteFile, is_regular_file. cbn.
  destruct (os_call (Fs (FsStatus Path)) w) as [[ty err] w1] eqn:E1. cbn.
  apply os_step in E1 as [Hf Hty].
  destruct (bool_decide_reflect (ty = FT_regular)) as [->|Hne]; [cbn; by rewrite Hf|].
  pose proof (writeTempAndRename_spec fuel Path text w1) as Hwr. rewrite Hf in Hwr.
  destruct (Hwr Hd) as [_ Hq]. destruct (run (writeTempAndRename fuel Path (mret text)) w1) as [o w2].
  cbn in Hq |- *. destruct Hq as [Hq Hfr]. split_and!; [|intros _|done].
  - intros s Hs Hnone. rewrite Hs in Hty. by destruct Hty.
  - by destruct Hq as [[[->| ->] Hs]|[-> Hs]].
Qed.

(** The names that were tried, each with the position the stream was opened at. *)
Definition tries (t : list event) : list (string * Z) :=
  omap (λ e : event, match projT1 e as c return resp c -> option (string * Z) with
                     | Fs (OfstreamAppendTellp p) => λ pos, Some (p, pos)
                     | _ => λ _, None
                     end (projT2 e)) t.

Lemma random_suffix_tries n (w : W) : tries (trace (random_suffix n) w) = [].
Proof.
  revert w. induction n as [|n IH]; intros w; [done|]. cbn. destruct (os_call (Fs RandomLetter) w) as [c w1].
  cbn. rewrite trace_bind. unfold tries in *. rewrite omap_app, IH. by destruct (run (random_suffix n) w1) as [[] ?].
Qed.

(** C33: [getTempFilename] returns the first name that it can open as an empty file:
    every name it has tried before was that of a file with contents or could not
    be opened, and all the names it tries are the prefix with six small letters.
    It goes on as long as there is no such name, in any environment: it is still
    searching after [fuel] rounds only when all of its [fuel] tries were in vain. *)
Theorem getTempFilename_rounds fuel Prefix (w : W) :
  let t := tries (trace (getTempFilename fuel Prefix) w) in
  Forall (λ x, temp_name Prefix x.1) t /\
  match (run (getTempFilename fuel Prefix) w).1 with
  | Done q => exists before, t = before ++ [(q, 0)] /\ (length before < fuel)%nat /\ Forall (λ x, x.2 <> 0) before
  | OutOfFuel => length t = fuel /\ Forall (λ x, x.2 <> 0) t
  | _ => False
  end.
Proof.
  revert w. induction fuel as [|fuel IH]; intros w; cbn [getTempFilename]; [by repeat constructor|].
  rewrite trace_bind, run_bind. pose proof (random_suffix_tries 6 w) as Hnone.
  destruct (random_suffix_spec (λ _ : W, True) 6 w I (λ _ _, I)) as [_ Hr].
  destruct (run (random_suffix 6) w) as [o w1]. cbn in Hr. destruct Hr as (u & -> & Hl & Hu & _).
  unfold tries in *. rewrite omap_app, Hnone. cbn.
  destruct (os_call (Fs (OfstreamAppendTellp (path_concat Prefix u))) w1) as [pos w2]. cbn.
  assert (temp_name Prefix (path_concat Prefix u)) as Ht by (by exists u).
  destruct (Z.eqb_spec pos 0) as [->|Hpos]; cbn.
  { split; [by repeat constructor|]. exists []. split_and!; [done|cbn; lia|done]. }
  destruct (IH w2) as [Hall Hres]. split; [by constructor|].
  destruct (run (getTempFilename fuel Prefix) w2) as [[q| | | |] w3]; cbn in *; try done.
  - destruct Hres as (before & -> & Hlen & Hb). exists ((path_concat Prefix u, pos) :: before).
    split_and!; [done|cbn; lia|by constructor].
  - destruct Hres as [Hlen Hb]. split; [by rewrite Hlen|by constructor].
Qed.

(** [getTempFilename] never returns when no temporary name can be opened
    (for instance because the directory does not exist): every bound on its
    loop is reached. *)
Theorem getTempFilename_diverges fuel Prefix (w : W) :
  (forall p (w' : W), (os_call (Fs (OfstreamAppendTellp p)) w').1 < 0) ->
  (run (getTempFilename fuel Prefix) w).1 = OutOfFuel.
Proof.
  intros Hfail. revert w. induction fuel as [|fuel IH]; intros w; [done|].
  cbn [getTempFilename]. rewrite run_bind.
  destruct (random_suffix_spec (λ _ : W, True) 6 w I (λ _ _, I)) as [_ Hr].
  destruct (run (random_suffix 6) w) as [o w1]. cbn in Hr.
  destruct Hr as (s & -> & _). cbn [run_cont].
  pose proof (Hfail (path_concat Prefix s) w1) as Hneg. cbn.
  destruct (os_call (Fs (OfstreamAppendTellp (path_concat Prefix s))) w1) as [pos w2].
  cbn in *. destruct (Z.eqb_spec pos 0); [lia|]. apply IH.
Qed.

(** [readAll] always returns, leaves the files alone, and returns either
    nothing or the complete contents of the file. *)
Theorem readAll_spec Path (w : W) :
  exists t w', run (readAll Path) w = (Done t, w') /\ files_of w' = files_of w /\
    (t = EmptyString \/ files_of w !! Path = Some (Reg t)).
Proof.
  destruct (readAll_returns Path w) as [_ (t & Ht & ?)].
  exists t, (run (readAll Path) w).2. by rewrite <- Ht, <- surjective_pairing.
Qed.

End Properties.

(** *** The hypotheses can hold *)

Definition demo_files : files := {[ "/c/state.json" := Reg "old" ]}.

Lemma demo_no_device Path : no_device Path demo_files.
Proof.
  intros q _. unfold demo_files. destruct (decide (q = "/c/state.json")) as [->|].
  - by rewrite lookup_singleton_eq.
  - by rewrite lookup_singleton_ne.
Qed.

Lemma demo_start_no_device Path :
  no_device Path (files_of (SJ := ref_simdjson) (sim_start plain_fs demo_files)).
Proof. apply demo_no_device. Qed.

Lemma plain_fs_reliable : reliable_writes (SJ := ref_simdjson) (W := sim plain_fs).
Proof. intros p s w. cbn. by destruct (sim_files w !! p) as [[]|]. Qed.

Lemma atomicUpdateFile_atomic_witness :
  (run (atomicUpdateFile (SJ := ref_simdjson) 1 "/c/state.json" (mret "new"))
    (sim_start plain_fs demo_files)).1 = Done true /\
  forall w', w' ∈ worlds (atomicUpdateFile (SJ := ref_simdjson) 1 "/c/state.json" (mret "new"))
                   (sim_start plain_fs demo_files) ->
    files_of w' !! "/c/state.json" = Some (Reg "old") \/
    files_of w' !! "/c/state.json" = Some (Reg "new").
Proof.
  split; [vm_compute; reflexivity|]. intros w' Hw'.
  edestruct (atomicUpdateFile_atomic (SJ := ref_simdjson) 1 "/c/state.json" "new" "old" (sim_start plain_fs demo_files))
    as [H _]; [apply demo_start_no_device|vm_compute; reflexivity|].
  destruct (H w' Hw') as [Hold|(t & _ & Ht & Hnew)]; [left; exact Hold|right].
  rewrite <- (Ht plain_fs_reliable). exact Hnew.
Defined.

Lemma atomicCreateAndWriteFile_spec_witness :
  (run (atomicCreateAndWriteFile (SJ := ref_simdjson) 1 "/c/state.json" (mret "42"))
     (sim_start plain_fs demo_files)).1 = Done false.
Proof.
  destruct (atomicCreateAndWriteFile_spec (SJ := ref_simdjson) 1 "/c/state.json" "42" (sim_start plain_fs demo_files)
    (demo_start_no_device _)) as [H _].
  apply (H "old"); [vm_compute; reflexivity|vm_compute; discriminate].
Defined.

Lemma getTempFilename_diverges_witness :
  (run (getTempFilename (SJ := ref_simdjson) 100 "/c/pid") (sim_start read_only_fs demo_files)).1
    = OutOfFuel.
Proof.
  apply (getTempFilename_diverges 100 "/c/pid" (sim_start read_only_fs demo_files)).
  intros p w'. reflexivity.
Defined.

(** A write that fails is not noticed: on a full disk the update reports
    success and has replaced the file by an empty one. *)
Theorem atomicUpdateFile_ignores_write_errors :
  exists w', run (atomicUpdateFile (SJ := ref_simdjson) 1 "/c/state.json" (mret "new"))
    (sim_start full_fs demo_files) = (Done true, w') /\
  files_of w' !! "/c/state.json" = Some (Reg EmptyString).
Proof. eexists. split; vm_compute; reflexivity. Qed.
