(* ===== verification/Loader.v ===== *)
(** Loading a C++ object from JSON: the member function mutates [*this] while
    it walks over the document and returns [false] at the first error, leaving
    what it has stored so far.  Also functional update of record fields. *)
From S2P Require Import Prelude Cpp Json.

(** ** Record update *)

(** [r <| f := v |>] is [r] with field [f] set to [v].  For a record type, one
    lists its fields once, as the identity function built from them. *)
Class Eta (R : Type) := eta : R -> R.
Class Setter {R T : Type} (field : R -> T) := set_field : (T -> T) -> R -> R.
Arguments set_field {R T} field {_} f r.

Ltac derive_setter :=
  match goal with
  | |- @Setter ?R ?T ?field =>
      let f := fresh "f" in let r := fresh "r" in
      intros f r;
      let t := eval hnf in (eta r) in
      let t := eval pattern (field r) in t in
      match t with ?g _ => exact (g (f (field r))) end
  end.
#[export] Hint Extern 1 (Setter _) => derive_setter : typeclass_instances.

Notation "r <| f := v |>" := (set_field f (λ _, v) r)
  (at level 1, left associativity, f at level 0, v at level 200) : runw_scope.
Notation "r <| f ::= g |>" := (set_field f g r)
  (at level 1, left associativity, f at level 0, g at level 200) : runw_scope.

(** ** Loaders *)

Definition loader (S : Type) : Type := S -> S * bool.

Section Loaders.
Context {S : Type}.

Definition ok : loader S := λ s, (s, true).
Definition fail : loader S := λ s, (s, false).
Definition modify (f : S -> S) : loader S := λ s, (f s, true).

(** [if (!a) return false; b] *)
Definition and_then (a b : loader S) : loader S :=
  λ s, let '(s', r) := a s in if r : bool then b s' else (s', false).

(** [if (auto Error = r.get(x)) return false; k(x)] *)
Definition get_then {A} (r : sj_result A) (k : A -> loader S) : loader S :=
  match r with inl _ => fail | inr a => k a end.

(** [for (x : l) { f(x) }], left with [false] at the first failure. *)
Fixpoint for_each {A} (f : A -> loader S) (l : list A) : loader S :=
  match l with
  | [] => ok
  | x :: l => and_then (f x) (for_each f l)
  end.

(** Fill in a fresh local object, then continue with it. *)
Definition build {D} (d : D) (l : loader D) (k : D -> loader S) : loader S :=
  λ s, let '(d', r) := l d in if r : bool then k d' s else (s, false).

(** ** Invariants of loaders *)

(** [l] preserves [P], also when it fails. *)
Definition keeps (P : S -> Prop) (l : loader S) : Prop := forall s, P s -> P (l s).1.

Lemma keeps_ok P : keeps P ok.
Proof. by intros s. Qed.

Lemma keeps_fail P : keeps P fail.
Proof. by intros s. Qed.

Lemma keeps_modify P f : (forall s, P s -> P (f s)) -> keeps P (modify f).
Proof. by intros H s ?; apply H. Qed.

Lemma keeps_and_then P a b : keeps P a -> keeps P b -> keeps P (and_then a b).
Proof.
  intros Ha Hb s Hs. unfold and_then. specialize (Ha s Hs).
  destruct (a s) as [s' []]; cbn in *; auto.
Qed.

Lemma keeps_get_then {A} P (r : sj_result A) k :
  (forall a, r = inr a -> keeps P (k a)) -> keeps P (get_then r k).
Proof. intros H. destruct r; cbn; [apply keeps_fail|auto]. Qed.

Lemma keeps_for_each {A} P (f : A -> loader S) l :
  (forall a, keeps P (f a)) -> keeps P (for_each f l).
Proof.
  intros H. induction l; cbn; [apply keeps_ok|]. by apply keeps_and_then.
Qed.

Lemma keeps_build {D} P (d : D) (Q : D -> Prop) (l : D -> D * bool) k :
  Q d -> (forall d, Q d -> Q (l d).1) -> (forall d, Q d -> keeps P (k d)) ->
  keeps P (build d l k).
Proof.
  intros Hd Hl Hk s Hs. unfold build. specialize (Hl d Hd).
  destruct (l d) as [d' []]; cbn in *; [by apply Hk|done].
Qed.

Lemma keeps_if P (b : bool) l1 l2 :
  keeps P l1 -> keeps P l2 -> keeps P (if b then l1 else l2).
Proof. by destruct b. Qed.

Lemma keeps_switch P c (cases : list (ascii * loader S)) d :
  Forall (λ ke, keeps P ke.2) cases -> keeps P d -> keeps P (switch c cases d).
Proof.
  intros Hc Hd. induction cases as [|[k e] cases IH]; [done|].
  inversion Hc; subst. cbn. apply keeps_if; auto.
Qed.

(** Inversion of successful loads. *)
Lemma and_then_true a b s s' :
  and_then a b s = (s', true) -> exists s1, a s = (s1, true) /\ b s1 = (s', true).
Proof. unfold and_then. destruct (a s) as [s1 []]; [eauto|done]. Qed.

Lemma get_then_true {A} (r : sj_result A) k s s' :
  get_then r k s = (s', true) -> exists v, r = inr v /\ k v s = (s', true).
Proof. destruct r; cbn; [done|eauto]. Qed.

(** A loop that succeeds has succeeded on every element. *)
Lemma for_each_app {A} (f : A -> loader S) l1 l2 :
  forall s, for_each f (l1 ++ l2) s = and_then (for_each f l1) (for_each f l2) s.
Proof.
  induction l1 as [|a l1 IH]; intros s; [done|]. cbn. unfold and_then in *.
  destruct (f a s) as [s1 []]; [|done]. apply IH.
Qed.

Lemma for_each_success {A} (f : A -> loader S) l s :
  (for_each f l s).2 = true -> forall a, a ∈ l -> exists s', (f a s').2 = true.
Proof.
  revert s. induction l as [|x l IH]; intros s; cbn; [set_solver|].
  unfold and_then. destruct (f x s) as [s1 []] eqn:E; [|done].
  intros Hl a [->|Ha]%elem_of_cons; [|eauto]. exists s. by rewrite E.
Qed.

(** A loop over values that must all convert, appending the results. *)
Lemma for_each_append {A B} (get : A -> sj_result B) (push : B -> S -> S) l s :
  (for_each (λ x, get_then (get x) (λ y, modify (push y))) l s).2 = true ->
  exists ys, Forall2 (λ x y, get x = inr y) l ys /\
    (for_each (λ x, get_then (get x) (λ y, modify (push y))) l s).1
      = foldl (λ s y, push y s) s ys.
Proof.
  revert s. induction l as [|x l IH]; intros s; cbn.
  { exists []. split; [constructor|done]. }
  unfold and_then, get_then. destruct (get x) as [err|y] eqn:E; [done|]. cbn.
  intros Hl. destruct (IH _ Hl) as (ys & ? & Hys). exists (y :: ys). split; [by constructor|done].
Qed.

(** Conversely, when every value converts the loop succeeds. *)
Lemma for_each_append_ok {A B} (get : A -> sj_result B) (push : B -> S -> S) l ys s :
  Forall2 (λ x y, get x = inr y) l ys ->
  for_each (λ x, get_then (get x) (λ y, modify (push y))) l s
    = (foldl (λ s y, push y s) s ys, true).
Proof.
  intros H. revert s. induction H as [|x y l ys Hx _ IH]; intros s; [done|].
  cbn. unfold and_then, get_then. rewrite Hx. cbn. apply IH.
Qed.

End Loaders.

Create HintDb keeps.

(** Walk through a loader, down to the single assignments. *)
Ltac keeps_walk :=
  repeat match goal with
    | |- keeps _ (if _ then _ else _) => apply keeps_if
    | |- keeps _ (switch _ _ _) => apply keeps_switch;
        [repeat first [apply Forall_nil_2 | apply Forall_cons_2]; cbn [snd]|]
    | |- keeps _ (get_then _ _) => apply keeps_get_then; intros ? ?
    | |- keeps _ (for_each _ _) => apply keeps_for_each; intros ?
    | |- keeps _ (and_then _ _) => apply keeps_and_then
    | |- keeps _ ok => apply keeps_ok
    | |- keeps _ fail => apply keeps_fail
    | |- keeps _ (let '(_, _) := ?x in _) => destruct x
    | |- keeps _ (match decide ?P with left _ => _ | right _ => _ end) => destruct (decide P)
    | |- keeps _ (match ?x with inl _ => _ | inr _ => _ end) => destruct x eqn:?
    | |- keeps _ (modify _) => apply keeps_modify; intros ? ?
    end.

(** ** Dispatch on member names *)

(** A [switch] on the first character that then compares the whole name picks
    nothing for a name that is none of the cases. *)
Lemma switch_cases {A} (P : A -> Prop) c (cases : list (ascii * A)) d :
  P d -> Forall (λ ke, c = ke.1 -> P ke.2) cases -> P (switch c cases d).
Proof.
  intros Hd. induction 1 as [|[k e] cases He _ IH]; [done|]. cbn.
  destruct (Ascii.eqb_spec c k); auto.
Qed.

(** ** Loaders that touch only a part of the object *)

(** A part of [S]: how to read it and how to replace it. *)
Record view (S : Type) := View {
  part : Type;
  vget : S -> part;
  vput : part -> S -> S;
}.
Arguments part {S}.
Arguments vget {S}.
Arguments vput {S}.

Class ViewLaws {S} (v : view S) := {
  vget_vput x s : vget v (vput v x s) = x;
  vput_vput x y s : vput v x (vput v y s) = vput v x s;
  vput_vget s : vput v (vget v s) s = s;
}.

(** Two parts that do not overlap. *)
Definition disjoint_views {S} (v1 v2 : view S) : Prop :=
  (forall y s, vget v1 (vput v2 y s) = vget v1 s) /\
  (forall x s, vget v2 (vput v1 x s) = vget v2 s) /\
  (forall x y s, vput v1 x (vput v2 y s) = vput v2 y (vput v1 x s)).

Section Local.
Context {S : Type} (v : view S) {V : ViewLaws v} (s0 : S).

(** [l] reads and writes only the part [v]: it does to [s] what it does to the
    fixed object [s0] with that part of [s]. *)
Definition local (l : loader S) : Prop := forall s,
  l s = (vput v (vget v (l (vput v (vget v s) s0)).1) s, (l (vput v (vget v s) s0)).2).

Lemma local_ok : local ok.
Proof. intros s. cbn. by rewrite vget_vput, vput_vget. Qed.

Lemma local_fail : local fail.
Proof. intros s. cbn. by rewrite vget_vput, vput_vget. Qed.

Lemma local_modify f :
  (forall s, f s = vput v (vget v (f (vput v (vget v s) s0))) s) -> local (modify f).
Proof. intros H s. unfold modify. cbn. by rewrite <- H. Qed.

Lemma local_and_then a b : local a -> local b -> local (and_then a b).
Proof.
  intros Ha Hb s. unfold and_then.
  pose proof (Ha s) as E1. pose proof (Ha (vput v (vget v s) s0)) as E2.
  rewrite vget_vput, vput_vput in E2.
  destruct (a (vput v (vget v s) s0)) as [u r]. cbn in *. rewrite E1.
  injection E2 as Hu. destruct r; [|done].
  rewrite (Hb (vput v (vget v u) s)), vget_vput, vput_vput. by rewrite <- Hu.
Qed.

Lemma local_get_then {A} (r : sj_result A) k :
  (forall a, r = inr a -> local (k a)) -> local (get_then r k).
Proof. intros H. destruct r; cbn; [apply local_fail|auto]. Qed.

Lemma local_for_each {A} (f : A -> loader S) l :
  (forall a, local (f a)) -> local (for_each f l).
Proof.
  intros H. induction l; cbn; [apply local_ok|]. by apply local_and_then.
Qed.

Lemma local_build {D} (d : D) (l : loader D) k :
  (forall d, local (k d)) -> local (build d l k).
Proof.
  intros H s. unfold build. destruct (l d) as [d' []]; [apply H|]. cbn.
  by rewrite vget_vput, vput_vget.
Qed.

Lemma local_if (b : bool) l1 l2 : local l1 -> local l2 -> local (if b then l1 else l2).
Proof. by destruct b. Qed.

Lemma local_switch c (cases : list (ascii * loader S)) d :
  Forall (λ ke, local ke.2) cases -> local d -> local (switch c cases d).
Proof.
  intros Hc Hd. induction cases as [|[k e] cases IH]; [done|].
  inversion Hc; subst. cbn. apply local_if; auto.
Qed.

End Local.

(** Walk through a loader, down to the single assignments. *)
Ltac local_walk :=
  repeat match goal with
    | |- local _ _ (if _ then _ else _) => apply local_if
    | |- local _ _ (switch _ _ _) => apply local_switch;
        [repeat first [apply Forall_nil_2 | apply Forall_cons_2]; cbn [snd]|]
    | |- local _ _ (get_then _ _) => apply local_get_then; [apply _|intros ? ?]
    | |- local _ _ (for_each _ _) => apply local_for_each; [apply _|intros ?]
    | |- local _ _ (and_then _ _) => apply local_and_then; [apply _|..]
    | |- local _ _ ok => apply local_ok; apply _
    | |- local _ _ fail => apply local_fail; apply _
    | |- local _ _ (let '(_, _) := ?x in _) => destruct x
    | |- local _ _ (build _ _ _) => apply local_build; [apply _|intros ?]
    | |- local _ _ (match decide ?P with left _ => _ | right _ => _ end) => destruct (decide P)
    | |- local _ _ (match ?x with inl _ => _ | inr _ => _ end) => destruct x eqn:?
    | |- local _ _ (modify _) => apply local_modify
    end.

(** Two loaders can be exchanged when both succeed. *)
Definition commutes {S} (a b : loader S) : Prop :=
  forall s s', and_then a b s = (s', true) -> and_then b a s = (s', true).

Lemma local_commutes {S} (v1 v2 : view S) `{!ViewLaws v1, !ViewLaws v2} s0 a b :
  disjoint_views v1 v2 -> local v1 s0 a -> local v2 s0 b -> commutes a b.
Proof.
  intros (H12 & H21 & Hput) Ha Hb s s'. unfold and_then.
  rewrite (Ha s), (Hb s).
  set (ra := a (vput v1 (vget v1 s) s0)). set (rb := b (vput v2 (vget v2 s) s0)).
  destruct (ra.2) eqn:Era; [|done].
  rewrite (Hb (vput v1 (vget v1 ra.1) s)), H21. fold rb. intros [= <- Erb].
  rewrite Erb, (Ha (vput v2 (vget v2 rb.1) s)), H12. fold ra. by rewrite Era, Hput.
Qed.

Lemma ok_commutes_l {S} (a : loader S) : commutes ok a.
Proof. intros s s'. unfold and_then. cbn. by intros ->. Qed.

Lemma ok_commutes_r {S} (a : loader S) : commutes a ok.
Proof.
  intros s s'. unfold and_then. cbn. destruct (a s) as [s1 []]; intros; by simplify_eq.
Qed.

(** A loop whose steps commute does not depend on the order of the members. *)
Lemma for_each_permutation {S A} (f : string * A -> loader S) l l' s s' :
  (forall k1 e1 k2 e2, k1 <> k2 -> commutes (f (k1, e1)) (f (k2, e2))) ->
  NoDup l.*1 -> Permutation l l' ->
  for_each f l s = (s', true) -> for_each f l' s = (s', true).
Proof.
  intros Hf Hnd Hp. revert s. induction Hp as [|x l l' Hp IH|[k1 e1] [k2 e2] l|]; intros s; cbn in *.
  - done.
  - unfold and_then. destruct (f x s) as [s1 []]; [|done].
    apply IH. by apply NoDup_cons in Hnd as [_ ?].
  - apply NoDup_cons in Hnd as [Hn _].
    assert (k1 <> k2) as Hne by (intros ->; apply Hn; set_solver).
    pose proof (Hf k2 e2 k1 e1 ltac:(congruence) s) as Hc. clear Hf. unfold and_then in *.
    destruct (f (k2, e2) s) as [s1 []]; [|done].
    destruct (f (k1, e1) s1) as [s2 []]; [|done]. specialize (Hc s2 eq_refl).
    destruct (f (k1, e1) s) as [s3 []]; [|done]. by rewrite Hc.
  - intros H. apply IHHp2; [by rewrite <- Hp1|]. by apply IHHp1.
Qed.
