(* ===== verification/Bundle.v ===== *)
(** The OCI bundle configuration: [class Bundle] of include/bundle.h and
    [Bundle::load] of src/bundle.cpp (the Linux build).  The lambdas of
    [Bundle::load] are definitions of their own; long [case] branches are
    split off under the name of the member they load. *)
From S2P Require Import Prelude Cpp Path Json Loader Prog.

(** ** Data *)

Record MountDesc := { mnt_Destination : string; mnt_Source : string;
  mnt_Type : string; mnt_Options : list string }.
Record NamespaceDesc := { ns_Type : string; ns_Path : string }.
Record IdMappingDesc := { map_ContainerId : Z; map_HostId : Z; map_Size : Z }.
Record DeviceDesc := { dev_Type : string; dev_Path : string; dev_Major : Z;
  dev_Minor : Z; dev_FileMode : Z; dev_Uid : Z; dev_Gid : Z }.

#[export] Instance eta_MountDesc : Eta MountDesc := λ d,
  Build_MountDesc (mnt_Destination d) (mnt_Source d) (mnt_Type d) (mnt_Options d).
#[export] Instance eta_NamespaceDesc : Eta NamespaceDesc := λ d,
  Build_NamespaceDesc (ns_Type d) (ns_Path d).
#[export] Instance eta_IdMappingDesc : Eta IdMappingDesc := λ d,
  Build_IdMappingDesc (map_ContainerId d) (map_HostId d) (map_Size d).
#[export] Instance eta_DeviceDesc : Eta DeviceDesc := λ d,
  Build_DeviceDesc (dev_Type d) (dev_Path d) (dev_Major d) (dev_Minor d)
    (dev_FileMode d) (dev_Uid d) (dev_Gid d).

(** The default values. *)
Definition new_MountDesc : MountDesc :=
  Build_MountDesc EmptyString EmptyString EmptyString [].
Definition new_NamespaceDesc : NamespaceDesc := Build_NamespaceDesc EmptyString EmptyString.
Definition new_IdMappingDesc : IdMappingDesc := Build_IdMappingDesc 0 0 0.
Definition new_DeviceDesc : DeviceDesc := Build_DeviceDesc EmptyString EmptyString 0 0 0 0 0.

Record Bundle := {
  OCIVersion : string;
  (* Process *)
  Terminal : bool;
  ConsoleWidth : Z;
  ConsoleHeight : Z;
  Cwd : string;
  Envs : list string;
  Args : list string;
  Cmds : list string;
  CommandLine : string;
  (* POSIX process *)
  RLimits : list (string * Z * Z);
  (* Linux process *)
  ApparmorProfile : string;
  SelinuxLabel : string;
  EffectiveCapabilities : list string;
  BoundingCapabilities : list string;
  InheritableCapabilities : list string;
  PermittedCapabilities : list string;
  AmbientCapabilities : list string;
  NoNewPrivileges : bool;
  OomScoreAdj : Z;
  (* POSIX-platform user *)
  Uid : Z;
  Gid : Z;
  UMask : Z;
  AdditionalGids : list Z;
  (* Windows user, hostname *)
  Username : string;
  Hostname : string;
  (* Root *)
  RootPath : string;
  RootReadonly : bool;
  Mounts : list MountDesc;
  Namespaces : list NamespaceDesc;
  UidMappings : list IdMappingDesc;
  GidMappings : list IdMappingDesc;
  Devices : list DeviceDesc;
  CgroupsPath : string;
  ResourcesMemoryLimit : Z;
  ResourcesMemoryReservation : Z;
}.

#[export] Instance eta_Bundle : Eta Bundle := λ b,
  Build_Bundle (OCIVersion b) (Terminal b) (ConsoleWidth b) (ConsoleHeight b)
    (Cwd b) (Envs b) (Args b) (Cmds b) (CommandLine b) (RLimits b)
    (ApparmorProfile b) (SelinuxLabel b) (EffectiveCapabilities b)
    (BoundingCapabilities b) (InheritableCapabilities b)
    (PermittedCapabilities b) (AmbientCapabilities b) (NoNewPrivileges b)
    (OomScoreAdj b) (Uid b) (Gid b) (UMask b) (AdditionalGids b) (Username b)
    (Hostname b) (RootPath b) (RootReadonly b) (Mounts b) (Namespaces b)
    (UidMappings b) (GidMappings b) (Devices b) (CgroupsPath b)
    (ResourcesMemoryLimit b) (ResourcesMemoryReservation b).

(** [Bundle()]: all members value-initialised. *)
Definition new_Bundle : Bundle :=
  Build_Bundle EmptyString false 0 0 EmptyString [] [] [] EmptyString [] EmptyString
    EmptyString [] [] [] [] [] false 0 0 0 0 [] EmptyString EmptyString EmptyString
    false [] [] [] [] [] EmptyString 0 0.

(** ** Loading *)

Section Load.
Context `{SJ : Simdjson}.

(** [get_int<T>(Element, Value)]: fetch as the 64-bit type of the same
    signedness, then check the range of [T]. *)
Definition get_int (T : int_type) (Element : element) : sj_result Z :=
  sj_bind (if is_signed T then get_int64 Element else get_uint64 Element)
    (λ Buffer,
      if (Buffer <? type_min T) || (type_max T <? Buffer)
      then inl NUMBER_OUT_OF_RANGE else inr Buffer).

(** The loop that appends every string of an array. *)
Definition load_strings {S} (Element : element) (push : string -> S -> S) : loader S :=
  get_then (get_array Element)
    (for_each (λ x, get_then (get_string x) (λ Str, modify (push Str)))).

Definition loadArgs (Element : element) : loader Bundle :=
  load_strings Element (λ ArgStr b, b <| Args ::= (λ l, l ++ [ArgStr]) |>).

Definition loadConsoleSize (Element : element) : loader Bundle :=
  get_then (get_object Element) (for_each (λ '(Key, Element),
    switch (first_char Key)
      [ ("h"%char, if String.eqb Key "height" then
           get_then (get_int UInt32 Element) (λ v, modify (λ b, b <| ConsoleHeight := v |>))
         else ok);
        ("w"%char, if String.eqb Key "width" then
           get_then (get_int UInt32 Element) (λ v, modify (λ b, b <| ConsoleWidth := v |>))
         else ok) ] ok)).

Definition loadCwd (Element : element) : loader Bundle :=
  get_then (get_string Element) (λ v, modify (λ b, b <| Cwd := v |>)).

(** An absent capability set is not an error. *)
Definition loadCapability (Capabilities : list (string * element)) (Key : string)
    (push : string -> Bundle -> Bundle) : loader Bundle :=
  match sj_bind (at_key Capabilities Key) get_array with
  | inl Err => if decide (Err = NO_SUCH_FIELD) then ok else fail
  | inr Names => for_each (λ x, get_then (get_string x) (λ Str, modify (push Str))) Names
  end.

Definition loadCapabilities (Element : element) : loader Bundle :=
  get_then (get_object Element) (λ Capabilities,
    and_then (loadCapability Capabilities "effective"
      (λ s b, b <| EffectiveCapabilities ::= (λ l, l ++ [s]) |>))
    (and_then (loadCapability Capabilities "bounding"
      (λ s b, b <| BoundingCapabilities ::= (λ l, l ++ [s]) |>))
    (and_then (loadCapability Capabilities "inheritable"
      (λ s b, b <| InheritableCapabilities ::= (λ l, l ++ [s]) |>))
    (and_then (loadCapability Capabilities "permitted"
      (λ s b, b <| PermittedCapabilities ::= (λ l, l ++ [s]) |>))
    (loadCapability Capabilities "ambient"
      (λ s b, b <| AmbientCapabilities ::= (λ l, l ++ [s]) |>)))))).

Definition loadEnv (Element : element) : loader Bundle :=
  load_strings Element (λ EnvStr b, b <| Envs ::= (λ l, l ++ [EnvStr]) |>).

Definition loadRLimit (RLimit : element) : loader Bundle :=
  get_then (get_object RLimit) (λ RLimitObject,
    get_then (sj_bind (at_key RLimitObject "type") get_string) (λ Type_,
    get_then (sj_bind (at_key RLimitObject "soft") get_int64) (λ Soft,
    get_then (sj_bind (at_key RLimitObject "hard") get_int64) (λ Hard,
      modify (λ b, b <| RLimits ::= (λ l, l ++ [(Type_, Soft, Hard)]) |>))))).

(** The array is looked up in the process object again. *)
Definition loadRLimits (Process : list (string * element)) : loader Bundle :=
  get_then (sj_bind (at_key Process "rlimits") get_array) (for_each loadRLimit).

Definition loadUser (Element : element) : loader Bundle :=
  get_then (get_object Element) (for_each (λ '(Key, Element),
    switch (first_char Key)
      [ ("u"%char, if String.eqb Key "uid" then
           get_then (get_int Int32 Element) (λ v, modify (λ b, b <| Uid := v |>))
         else if String.eqb Key "umask" then
           get_then (get_int Int32 Element) (λ v, modify (λ b, b <| UMask := v |>))
         else ok);
        ("g"%char, if String.eqb Key "gid" then
           get_then (get_int Int32 Element) (λ v, modify (λ b, b <| Gid := v |>))
         else ok);
        ("a"%char, if String.eqb Key "additionalGids" then
           get_then (get_array Element) (for_each (λ AGid,
             get_then (get_int Int32 AGid) (λ Value,
               modify (λ b, b <| AdditionalGids ::= (λ l, l ++ [Value]) |>))))
         else ok) ] ok)).

(** One member of the process object. *)
Definition loadProcessField (Process : list (string * element))
    (field : string * element) : loader Bundle :=
  let '(Key, Element) := field in
  switch (first_char Key)
    [ ("a"%char, if String.eqb Key "args" then loadArgs Element else ok);
      ("c"%char, if String.eqb Key "consoleSize" then loadConsoleSize Element
                 else if String.eqb Key "cwd" then loadCwd Element
                 else if String.eqb Key "capabilities" then loadCapabilities Element
                 else ok);
      ("e"%char, if String.eqb Key "env" then loadEnv Element else ok);
      ("n"%char, if String.eqb Key "noNewPrivileges" then
         get_then (get_bool Element) (λ v, modify (λ b, b <| NoNewPrivileges := v |>))
       else ok);
      ("o"%char, if String.eqb Key "oomScoreAdj" then
         get_then (get_int Int32 Element) (λ v, modify (λ b, b <| OomScoreAdj := v |>))
       else ok);
      ("r"%char, if String.eqb Key "rlimits" then loadRLimits Process else ok);
      ("t"%char, if String.eqb Key "terminal" then
         get_then (get_bool Element) (λ v, modify (λ b, b <| Terminal := v |>))
       else ok);
      ("u"%char, if String.eqb Key "user" then loadUser Element else ok) ] ok.

Definition loadProcess (Process : list (string * element)) : loader Bundle :=
  for_each (loadProcessField Process) Process.

Definition loadRootField (field : string * element) : loader Bundle :=
  let '(Key, Element) := field in
  switch (first_char Key)
    [ ("p"%char, if String.eqb Key "path" then
         get_then (get_string Element) (λ v, modify (λ b, b <| RootPath := v |>))
       else ok);
      ("r"%char, if String.eqb Key "readonly" then
         get_then (get_bool Element) (λ v, modify (λ b, b <| RootReadonly := v |>))
       else ok) ] ok.

Definition loadRoot (Root : list (string * element)) : loader Bundle :=
  for_each loadRootField Root.

(** The members of one mount. *)
Definition loadMountField (field : string * element) : loader MountDesc :=
  let '(Key, Element) := field in
  switch (first_char Key)
    [ ("d"%char, if String.eqb Key "destination" then
         get_then (get_string Element) (λ v, modify (λ d, d <| mnt_Destination := v |>))
       else ok);
      ("o"%char, if String.eqb Key "options" then
         load_strings Element (λ s d, d <| mnt_Options ::= (λ l, l ++ [s]) |>)
       else ok);
      ("s"%char, if String.eqb Key "source" then
         get_then (get_string Element) (λ v, modify (λ d, d <| mnt_Source := v |>))
       else ok);
      ("t"%char, if String.eqb Key "type" then
         get_then (get_string Element) (λ v, modify (λ d, d <| mnt_Type := v |>))
       else ok) ] ok.

Definition loadMounts (Mounts_ : list element) : loader Bundle :=
  for_each (λ Mount,
    get_then (get_object Mount) (λ MountObject,
      build new_MountDesc (for_each loadMountField MountObject) (λ Desc,
        modify (λ b, b <| Mounts ::= (λ l, l ++ [Desc]) |>)))) Mounts_.

Definition loadNamespaceField (field : string * element) : loader NamespaceDesc :=
  let '(Key, Element) := field in
  switch (first_char Key)
    [ ("p"%char, if String.eqb Key "path" then
         get_then (get_string Element) (λ v, modify (λ d, d <| ns_Path := v |>))
       else ok);
      ("t"%char, if String.eqb Key "type" then
         get_then (get_string Element) (λ v, modify (λ d, d <| ns_Type := v |>))
       else ok) ] ok.

Definition loadNamespaces (Element : element) : loader Bundle :=
  get_then (get_array Element) (for_each (λ Namespace,
    get_then (get_object Namespace) (λ NamespaceObject,
      build new_NamespaceDesc (for_each loadNamespaceField NamespaceObject) (λ Desc,
        modify (λ b, b <| Namespaces ::= (λ l, l ++ [Desc]) |>))))).

(** The members of an id mapping, the same for user and group ids. *)
Definition loadIdMappingField (field : string * element) : loader IdMappingDesc :=
  let '(Key, Element) := field in
  switch (first_char Key)
    [ ("c"%char, if String.eqb Key "containerID" then
         get_then (get_int UInt32 Element) (λ v, modify (λ d, d <| map_ContainerId := v |>))
       else ok);
      ("h"%char, if String.eqb Key "hostID" then
         get_then (get_int UInt32 Element) (λ v, modify (λ d, d <| map_HostId := v |>))
       else ok);
      ("s"%char, if String.eqb Key "size" then
         get_then (get_int UInt32 Element) (λ v, modify (λ d, d <| map_Size := v |>))
       else ok) ] ok.

Definition loadUidMappings (Element : element) : loader Bundle :=
  get_then (get_array Element) (for_each (λ UidMapping,
    get_then (get_object UidMapping) (λ UidMappingObject,
      build new_IdMappingDesc (for_each loadIdMappingField UidMappingObject) (λ Desc,
        modify (λ b, b <| UidMappings ::= (λ l, l ++ [Desc]) |>))))).

(** As in the source, the group mappings are pushed to [UidMappings]. *)
Definition loadGidMappings (Element : element) : loader Bundle :=
  get_then (get_array Element) (for_each (λ GidMapping,
    get_then (get_object GidMapping) (λ GidMappingObject,
      build new_IdMappingDesc (for_each loadIdMappingField GidMappingObject) (λ Desc,
        modify (λ b, b <| UidMappings ::= (λ l, l ++ [Desc]) |>))))).

Definition loadDeviceField (field : string * element) : loader DeviceDesc :=
  let '(Key, Element) := field in
  switch (first_char Key)
    [ ("t"%char, if String.eqb Key "type" then
         get_then (get_string Element) (λ v, modify (λ d, d <| dev_Type := v |>))
       else ok);
      ("p"%char, if String.eqb Key "path" then
         get_then (get_string Element) (λ v, modify (λ d, d <| dev_Path := v |>))
       else ok);
      ("m"%char, if String.eqb Key "major" then
         get_then (get_int64 Element) (λ v, modify (λ d, d <| dev_Major := v |>))
       else if String.eqb Key "minor" then
         get_then (get_int64 Element) (λ v, modify (λ d, d <| dev_Minor := v |>))
       else ok);
      ("f"%char, if String.eqb Key "fileMode" then
         get_then (get_int UInt32 Element) (λ v, modify (λ d, d <| dev_FileMode := v |>))
       else ok);
      ("u"%char, if String.eqb Key "uid" then
         get_then (get_int UInt32 Element) (λ v, modify (λ d, d <| dev_Uid := v |>))
       else ok);
      ("g"%char, if String.eqb Key "gid" then
         get_then (get_int UInt32 Element) (λ v, modify (λ d, d <| dev_Gid := v |>))
       else ok) ] ok.

Definition loadDevices (Element : element) : loader Bundle :=
  get_then (get_array Element) (for_each (λ Device,
    get_then (get_object Device) (λ DeviceObject,
      build new_DeviceDesc (for_each loadDeviceField DeviceObject) (λ Desc,
        modify (λ b, b <| Devices ::= (λ l, l ++ [Desc]) |>))))).

Definition loadMemory (Element : element) : loader Bundle :=
  get_then (get_object Element) (for_each (λ '(Key, Element),
    switch (first_char Key)
      [ ("l"%char, if String.eqb Key "limit" then
           get_then (get_int UInt64 Element) (λ v, modify (λ b, b <| ResourcesMemoryLimit := v |>))
         else ok);
        ("r"%char, if String.eqb Key "reservation" then
           get_then (get_int UInt64 Element)
             (λ v, modify (λ b, b <| ResourcesMemoryReservation := v |>))
         else ok) ] ok)).

Definition loadResources (Resources : list (string * element)) : loader Bundle :=
  for_each (λ '(Key, Element),
    switch (first_char Key)
      [ ("m"%char, if String.eqb Key "memory" then loadMemory Element else ok);
        ("d"%char, ok) ] ok) Resources.

Definition loadLinuxField (field : string * element) : loader Bundle :=
  let '(Key, Element) := field in
  switch (first_char Key)
    [ ("n"%char, if String.eqb Key "namespaces" then loadNamespaces Element else ok);
      ("u"%char, if String.eqb Key "uidMappings" then loadUidMappings Element else ok);
      ("g"%char, if String.eqb Key "gidMappings" then loadGidMappings Element else ok);
      ("d"%char, if String.eqb Key "devices" then loadDevices Element else ok);
      ("c"%char, if String.eqb Key "cgroupsPath" then
         get_then (get_string Element) (λ v, modify (λ b, b <| CgroupsPath := v |>))
       else ok);
      ("r"%char, if String.eqb Key "resources" then
         get_then (get_object Element) loadResources
       else ok) ] ok.

Definition loadLinux (Linux : list (string * element)) : loader Bundle :=
  for_each loadLinuxField Linux.

Definition loadAnnotations (Element : element) : loader Bundle :=
  get_then (get_object Element) (for_each (λ '(Key, Element),
    switch (first_char Key)
      [ ("o"%char, if String.eqb Key "org.wasmedge.exec.allow_commands" then
           load_strings Element (λ CmdStr b, b <| Cmds ::= (λ l, l ++ [CmdStr]) |>)
         else ok) ] ok)).

(** One member of the configuration document. *)
Definition loadConfigField (field : string * element) : loader Bundle :=
  let '(Key, Element) := field in
  switch (first_char Key)
    [ ("a"%char, if String.eqb Key "annotations" then loadAnnotations Element else ok);
      ("m"%char, if String.eqb Key "mounts" then
         get_then (get_array Element) loadMounts else ok);
      ("o"%char, if String.eqb Key "ociVersion" then
         get_then (get_string Element) (λ v, modify (λ b, b <| OCIVersion := v |>))
       else ok);
      ("p"%char, if String.eqb Key "process" then
         get_then (get_object Element) loadProcess else ok);
      ("r"%char, if String.eqb Key "root" then
         get_then (get_object Element) loadRoot else ok);
      ("l"%char, if String.eqb Key "linux" then
         get_then (get_object Element) loadLinux else ok) ] ok.

Definition loadConfig (Config : list (string * element)) : loader Bundle :=
  for_each loadConfigField Config.

(** [Bundle::load]. *)
Definition Bundle_load (b : Bundle) (Path ConfigFileName : string) : prog (Bundle * bool) :=
  r ← do_call (JsonLoad (path_append Path ConfigFileName)) : prog (sj_result element);
  mret (get_then (sj_bind r get_object) loadConfig b).

End Load.
