(* ===== verification/BundleProps.v ===== *)
(** Properties of [Bundle::load]: the treatment of unknown and ill-typed members,
    independence of the order of the members, and the values stored for the process
    arguments and the id mappings. *)
From S2P Require Import Prelude Cpp Path Json JsonRef Loader Prog Bundle.

Section Props.
Context `{SJ : Simdjson}.

(** ** [get_int] *)

(** [get_int] returns the 64-bit value of the element when it is in the
    range of the target type, and [NUMBER_OUT_OF_RANGE] (storing nothing)
    when it is not. *)
Theorem get_int_spec T e z :
  (if is_signed T then get_int64 e else get_uint64 e) = inr z ->
  get_int T e = if decide (in_type T z) then inr z else inl NUMBER_OUT_OF_RANGE.
Proof.
  unfold get_int. intros ->. cbn. unfold in_type.
  destruct (_ || _) eqn:E; case_decide; try done; exfalso; bool_lia.
Qed.

Lemma keeps_load_strings {S} (P : S -> Prop) e push :
  (forall s x, P x -> P (push s x)) -> keeps P (load_strings e push).
Proof. intros H. unfold load_strings. keeps_walk. auto. Qed.

(** ** Members that are not loaded *)

(** Frame proofs: every assignment leaves the observed member alone. *)
Ltac frame_walk :=
  repeat (keeps_walk;
    try (apply keeps_load_strings; intros ? ? ?);
    try (apply (keeps_build _ _ (λ _, True)); [done..|intros ? _]));
  try done.

Lemma keeps_GidMappings g f : keeps (λ b, GidMappings b = g) (loadConfigField f).
Proof.
  destruct f as [Key Element]. unfold loadConfigField, loadAnnotations, loadMounts,
    loadProcess, loadProcessField, loadRoot, loadRootField, loadLinux, loadLinuxField,
    loadArgs, loadEnv, loadConsoleSize, loadCwd, loadCapabilities, loadCapability,
    loadRLimits, loadRLimit, loadUser, loadNamespaces, loadUidMappings,
    loadGidMappings, loadDevices, loadResources, loadMemory.
  frame_walk.
Qed.

(** C36: group id mappings are stored as user id mappings: a gidMappings member
    has exactly the effect of a uidMappings member, and no document makes
    [Bundle::load] change [GidMappings]. *)
Theorem gidMappings_stored_as_uidMappings :
  (forall e b, loadLinuxField ("gidMappings", e) b = loadLinuxField ("uidMappings", e) b) /\
  (forall Config b, GidMappings (loadConfig Config b).1 = GidMappings b).
Proof.
  split; [done|]. intros Config b.
  by apply (keeps_for_each _ _ Config (keeps_GidMappings (GidMappings b))).
Qed.

Definition config_keys : list string :=
  ["annotations"; "mounts"; "ociVersion"; "process"; "root"; "linux"].

Lemma loadConfigField_unknown Key e :
  Key ∉ config_keys -> loadConfigField (Key, e) = ok.
Proof.
  unfold config_keys. intros Hk. unfold loadConfigField.
  apply (switch_cases (λ l, l = ok)); [done|].
  repeat first [apply Forall_nil_2 | apply Forall_cons_2]; intros _; cbn [snd];
    match goal with |- context [String.eqb Key ?k] =>
      destruct (String.eqb_spec Key k); [set_solver|done] end.
Qed.

(** Members of the document with names [Bundle::load] does not know are
    ignored, wherever they stand. *)
Theorem loadConfig_ignores_unknown l1 Key e l2 b :
  Key ∉ config_keys ->
  loadConfig (l1 ++ (Key, e) :: l2) b = loadConfig (l1 ++ l2) b.
Proof.
  intros Hk. unfold loadConfig. rewrite !for_each_app. unfold and_then.
  destruct (for_each loadConfigField l1 b) as [b1 []]; [|done].
  cbn [for_each]. unfold and_then. by rewrite loadConfigField_unknown.
Qed.

(** ** Strictness *)

(** The JSON type each member of the document must have. *)
Definition config_typed (Key : string) (e : element) : Prop :=
  if String.eqb Key "ociVersion" then exists s, get_string e = inr s
  else if String.eqb Key "mounts" then exists l, get_array e = inr l
  else if bool_decide (Key ∈ config_keys) then exists o, get_object e = inr o
  else True.

Lemma get_then_success {S A} (r : sj_result A) (k : A -> loader S) s :
  (get_then r k s).2 = true -> exists a, r = inr a.
Proof. destruct r; cbn; [done|eauto]. Qed.

(** C27: when [Bundle::load] succeeds, every member it knows had the JSON type
    it expects; a document with one ill-typed known member is rejected. *)
Theorem loadConfig_typed Config b Key e :
  (loadConfig Config b).2 = true -> (Key, e) ∈ Config -> config_typed Key e.
Proof.
  intros Hl Hin. apply (for_each_success _ _ _ Hl) in Hin as [s Hs]. clear Hl.
  unfold config_typed.
  destruct (bool_decide_reflect (Key ∈ config_keys)) as [Hk|Hk];
    [|destruct (String.eqb_spec Key "ociVersion"), (String.eqb_spec Key "mounts");
      try done; subst; exfalso; apply Hk; unfold config_keys; set_solver].
  unfold config_keys in Hk.
  repeat (apply elem_of_cons in Hk as [->|Hk]; [by apply get_then_success in Hs|]).
  by apply elem_of_nil in Hk.
Qed.

(** ** Order of the members *)

(** The part of the object a member of the document is loaded into. *)
Definition process_part : Type :=
  (bool * Z * Z * string * list string * list string) *
  (list (string * Z * Z) * list string * list string * list string * list string * list string) *
  (bool * Z * Z * Z * Z * list Z).

Definition process_view : view Bundle := {|
  part := process_part;
  vget b :=
    ((Terminal b, ConsoleWidth b, ConsoleHeight b, Cwd b, Envs b, Args b),
     (RLimits b, EffectiveCapabilities b, BoundingCapabilities b,
      InheritableCapabilities b, PermittedCapabilities b, AmbientCapabilities b),
     (NoNewPrivileges b, OomScoreAdj b, Uid b, Gid b, UMask b, AdditionalGids b));
  vput x b :=
    b <| Terminal := x.1.1.1.1.1.1.1 |> <| ConsoleWidth := x.1.1.1.1.1.1.2 |>
      <| ConsoleHeight := x.1.1.1.1.1.2 |> <| Cwd := x.1.1.1.1.2 |>
      <| Envs := x.1.1.1.2 |> <| Args := x.1.1.2 |>
      <| RLimits := x.1.2.1.1.1.1.1 |> <| EffectiveCapabilities := x.1.2.1.1.1.1.2 |>
      <| BoundingCapabilities := x.1.2.1.1.1.2 |>
      <| InheritableCapabilities := x.1.2.1.1.2 |>
      <| PermittedCapabilities := x.1.2.1.2 |> <| AmbientCapabilities := x.1.2.2 |>
      <| NoNewPrivileges := x.2.1.1.1.1.1 |> <| OomScoreAdj := x.2.1.1.1.1.2 |>
      <| Uid := x.2.1.1.1.2 |> <| Gid := x.2.1.1.2 |> <| UMask := x.2.1.2 |>
      <| AdditionalGids := x.2.2 |>;
|}.

Definition linux_view : view Bundle := {|
  part := list NamespaceDesc * list IdMappingDesc * list DeviceDesc * string * Z * Z;
  vget b := (Namespaces b, UidMappings b, Devices b, CgroupsPath b,
             ResourcesMemoryLimit b, ResourcesMemoryReservation b);
  vput x b :=
    b <| Namespaces := x.1.1.1.1.1 |> <| UidMappings := x.1.1.1.1.2 |>
      <| Devices := x.1.1.1.2 |> <| CgroupsPath := x.1.1.2 |>
      <| ResourcesMemoryLimit := x.1.2 |> <| ResourcesMemoryReservation := x.2 |>;
|}.

Definition root_view : view Bundle := {|
  part := string * bool;
  vget b := (RootPath b, RootReadonly b);
  vput x b := b <| RootPath := x.1 |> <| RootReadonly := x.2 |>;
|}.

Definition annotations_view : view Bundle :=
  {| part := list string; vget := Cmds; vput x b := b <| Cmds := x |> |}.
Definition mounts_view : view Bundle :=
  {| part := list MountDesc; vget := Mounts; vput x b := b <| Mounts := x |> |}.
Definition version_view : view Bundle :=
  {| part := string; vget := OCIVersion; vput x b := b <| OCIVersion := x |> |}.


Ltac view_laws :=
  split; [|done|by intros []];
  intros x ?; cbn in x; unfold process_part in x;
  repeat match goal with y : prod _ _ |- _ => destruct y end; done.

#[local] Instance process_view_laws : ViewLaws process_view.
Proof. view_laws. Qed.
#[local] Instance linux_view_laws : ViewLaws linux_view.
Proof. view_laws. Qed.
#[local] Instance root_view_laws : ViewLaws root_view.
Proof. view_laws. Qed.
#[local] Instance annotations_view_laws : ViewLaws annotations_view.
Proof. view_laws. Qed.
#[local] Instance mounts_view_laws : ViewLaws mounts_view.
Proof. view_laws. Qed.
#[local] Instance version_view_laws : ViewLaws version_view.
Proof. view_laws. Qed.











(** ** Arguments *)

Lemma foldl_Args (ss : list string) b :
  foldl (λ b s, b <| Args ::= (λ l, l ++ [s]) |>) b ss = b <| Args ::= (λ l, l ++ ss) |>.
Proof.
  revert b. induction ss as [|s ss IH]; intros b; cbn.
  - destruct b. unfold set_field. cbn. by rewrite app_nil_r.
  - rewrite IH. destruct b. unfold set_field. cbn. by rewrite <- app_assoc.
Qed.

(** Loading the process arguments succeeds exactly on arrays of strings,
    and then appends these strings in order and changes nothing else. *)
Theorem loadArgs_spec e b b' :
  loadArgs e b = (b', true) <->
  exists es ss, get_array e = inr es /\ Forall2 (λ x s, get_string x = inr s) es ss /\
    b' = b <| Args ::= (λ l, l ++ ss) |>.
Proof.
  unfold loadArgs, load_strings. split.
  - destruct (get_array e) as [|es] eqn:He; [done|]. cbn. intros H.
    destruct (for_each_append get_string (λ s b, b <| Args ::= (λ l, l ++ [s]) |>) es b)
      as (ss & Hss & Hb); [by rewrite H|].
    exists es, ss. split_and!; [done|done|]. rewrite H in Hb. cbn in Hb.
    by rewrite Hb, foldl_Args.
  - intros (es & ss & -> & Hss & ->). cbn.
    rewrite (for_each_append_ok get_string (λ s b, b <| Args ::= (λ l, l ++ [s]) |>) es ss)
      by done.
    by rewrite foldl_Args.
Qed.

End Props.

(** *** Instances of the hypotheses *)

Lemma get_int_spec_witness :
  get_int (SJ := ref_simdjson) Int32 (JInt 4294967296) = inl NUMBER_OUT_OF_RANGE.
Proof.
  rewrite (get_int_spec (SJ := ref_simdjson) Int32 (JInt 4294967296) 4294967296);
    vm_compute; reflexivity.
Defined.

Definition demo_config : list (string * json) :=
  [ ("ociVersion", JString "1.0.2");
    ("process", JObject [ ("args", JArray [JString "a.wasm"; JString "1"]);
                          ("user", JObject [("uid", JInt 1000)]) ]) ].

Lemma loadConfig_ignores_unknown_witness :
  loadConfig (SJ := ref_simdjson) (demo_config ++ ("hooks", JNull) :: []) new_Bundle
    = loadConfig (SJ := ref_simdjson) (demo_config ++ []) new_Bundle.
Proof.
  apply (loadConfig_ignores_unknown (SJ := ref_simdjson) demo_config "hooks" JNull [] new_Bundle).
  unfold config_keys. set_solver.
Defined.

Lemma loadConfig_typed_witness :
  config_typed (SJ := ref_simdjson) "ociVersion" (JString "1.0.2").
Proof.
  apply (loadConfig_typed (SJ := ref_simdjson) demo_config new_Bundle).
  - vm_compute. reflexivity.
  - apply list_elem_of_here.
Defined.

