(* ===== verification/Config.v ===== *)
(** Loading a configuration gives back the bundle it describes.

    [config_json] writes every member that [Bundle::load] knows as the JSON document
    of the OCI runtime specification; a document that represents it is loaded to
    the same bundle, whatever library has parsed it. *)
From S2P Require Import Prelude Cpp Path Json JsonRef Loader Prog Bundle BundleProps.

(** ** Documents *)

Definition jstrings (ss : list string) : json := JArray (JString <$> ss).

Definition mount_json (d : MountDesc) : json :=
  JObject [("destination", JString (mnt_Destination d)); ("type", JString (mnt_Type d));
    ("source", JString (mnt_Source d)); ("options", jstrings (mnt_Options d))].
Definition namespace_json (d : NamespaceDesc) : json :=
  JObject [("type", JString (ns_Type d)); ("path", JString (ns_Path d))].
Definition mapping_json (d : IdMappingDesc) : json :=
  JObject [("containerID", JInt (map_ContainerId d)); ("hostID", JInt (map_HostId d)); ("size", JInt (map_Size d))].
Definition device_json (d : DeviceDesc) : json :=
  JObject [("type", JString (dev_Type d)); ("path", JString (dev_Path d)); ("major", JInt (dev_Major d));
    ("minor", JInt (dev_Minor d)); ("fileMode", JInt (dev_FileMode d)); ("uid", JInt (dev_Uid d));
    ("gid", JInt (dev_Gid d))].
Definition rlimit_json (r : string * Z * Z) : json :=
  JObject [("type", JString r.1.1); ("soft", JInt r.1.2); ("hard", JInt r.2)].

Definition process_json (b : Bundle) : json :=
  JObject
    [("terminal", JBool (Terminal b));
     ("consoleSize", JObject [("height", JInt (ConsoleHeight b)); ("width", JInt (ConsoleWidth b))]);
     ("cwd", JString (Cwd b)); ("env", jstrings (Envs b)); ("args", jstrings (Args b));
     ("rlimits", JArray (rlimit_json <$> RLimits b));
     ("capabilities", JObject
        [("effective", jstrings (EffectiveCapabilities b)); ("bounding", jstrings (BoundingCapabilities b));
         ("inheritable", jstrings (InheritableCapabilities b)); ("permitted", jstrings (PermittedCapabilities b));
         ("ambient", jstrings (AmbientCapabilities b))]);
     ("noNewPrivileges", JBool (NoNewPrivileges b)); ("oomScoreAdj", JInt (OomScoreAdj b));
     ("user", JObject [("uid", JInt (Uid b)); ("gid", JInt (Gid b)); ("umask", JInt (UMask b));
        ("additionalGids", JArray (JInt <$> AdditionalGids b))])].

Definition linux_json (b : Bundle) : json :=
  JObject
    [("namespaces", JArray (namespace_json <$> Namespaces b)); ("uidMappings", JArray (mapping_json <$> UidMappings b));
     ("devices", JArray (device_json <$> Devices b)); ("cgroupsPath", JString (CgroupsPath b));
     ("resources", JObject [("memory", JObject [("limit", JInt (ResourcesMemoryLimit b));
        ("reservation", JInt (ResourcesMemoryReservation b))])])].

Definition config_json (b : Bundle) : json :=
  JObject
    [("ociVersion", JString (OCIVersion b)); ("process", process_json b);
     ("root", JObject [("path", JString (RootPath b)); ("readonly", JBool (RootReadonly b))]);
     ("mounts", JArray (mount_json <$> Mounts b)); ("linux", linux_json b);
     ("annotations", JObject [("org.wasmedge.exec.allow_commands", jstrings (Cmds b))])].

(** ** Bundles *)

Definition id_mapping_wf (d : IdMappingDesc) : Prop :=
  in_type UInt32 (map_ContainerId d) /\ in_type UInt32 (map_HostId d) /\ in_type UInt32 (map_Size d).
Definition device_wf (d : DeviceDesc) : Prop :=
  in_type Int64 (dev_Major d) /\ in_type Int64 (dev_Minor d) /\ in_type UInt32 (dev_FileMode d) /\
  in_type UInt32 (dev_Uid d) /\ in_type UInt32 (dev_Gid d).
Definition rlimit_wf (r : string * Z * Z) : Prop := in_type Int64 r.1.2 /\ in_type Int64 r.2.

(** The integers are in the ranges of their C++ types, and the members that
    [Bundle::load] never assigns are empty. *)
Record loadable (b : Bundle) : Prop := {
  ld_ConsoleWidth : in_type UInt32 (ConsoleWidth b);
  ld_ConsoleHeight : in_type UInt32 (ConsoleHeight b);
  ld_RLimits : Forall rlimit_wf (RLimits b);
  ld_OomScoreAdj : in_type Int32 (OomScoreAdj b);
  ld_Uid : in_type Int32 (Uid b);
  ld_Gid : in_type Int32 (Gid b);
  ld_UMask : in_type Int32 (UMask b);
  ld_AdditionalGids : Forall (in_type Int32) (AdditionalGids b);
  ld_UidMappings : Forall id_mapping_wf (UidMappings b);
  ld_Devices : Forall device_wf (Devices b);
  ld_Limit : in_type UInt64 (ResourcesMemoryLimit b);
  ld_Reservation : in_type UInt64 (ResourcesMemoryReservation b);
  ld_unused : CommandLine b = EmptyString /\ ApparmorProfile b = EmptyString /\ SelinuxLabel b = EmptyString /\
    Username b = EmptyString /\ Hostname b = EmptyString /\ GidMappings b = [];
}.

(** ** Lemmas *)

(** Appending to a member, one element after the other. *)
Lemma foldl_push {S A} (upd : (list A -> list A) -> S -> S) (xs : list A) s :
  (forall s, upd (λ l, l ++ []) s = s) ->
  (forall xs x s, upd (λ l, l ++ xs) (upd (λ l, l ++ [x]) s) = upd (λ l, l ++ x :: xs) s) ->
  foldl (λ s x, upd (λ l, l ++ [x]) s) s xs = upd (λ l, l ++ xs) s.
Proof.
  intros H0 H1. revert s. induction xs as [|x xs IH]; intros s; cbn; [by rewrite H0|]. by rewrite IH, H1.
Qed.

Ltac push_fold :=
  match goal with |- context [foldl ?g ?s ?xs] =>
    match g with
    | context [set_field ?F _ _] =>
        let T := type of s in
        rewrite (foldl_push (λ f (b : T), b <| F ::= f |>) xs s);
          [|by intros []; unfold set_field; cbn; rewrite app_nil_r
           |by intros ? ? []; unfold set_field; cbn; rewrite <- app_assoc]
    end
  end.

Section Config.
Context `{SJ : Simdjson} {LAWS : SimdjsonLaws}.

Lemma get_int_rep T e z : represents e (JInt z) -> in_type T z -> get_int T e = inr z.
Proof.
  intros He Hz. rewrite (get_int_spec T e z); [by rewrite decide_True|].
  unfold in_type, type_min, type_max in Hz.
  destruct T; cbn in *; first [apply represents_int64|apply represents_uint64]; try done;
    unfold in_type, type_min, type_max, INT32_MIN, INT32_MAX, INT64_MIN, INT64_MAX, UINT32_MAX, UINT64_MAX in *; lia.
Qed.

(** The members of an object. *)
Ltac rep_object H :=
  let es := fresh "es" in let Hget := fresh "Hget" in let Hall := fresh "Hall" in
  destruct (represents_object _ _ H) as (es & Hget & Hall); clear H;
  repeat (apply Forall2_cons_inv_r in Hall as ([? ?] & ? & [? ?] & Hall & ->); cbn [fst snd] in *; subst);
  apply Forall2_nil_inv_r in Hall as ->.

(** Read the value of an element. *)
Ltac rep_get :=
  match goal with
  | H : represents ?e (JString ?s) |- context [get_string ?e] => rewrite (represents_string e s H)
  | H : represents ?e (JBool ?b) |- context [get_bool ?e] => rewrite (represents_bool e b H)
  | H : represents ?e (JInt ?z) |- context [get_int64 ?e] => rewrite (represents_int64 e z H) by done
  | H : represents ?e (JInt ?z) |- context [get_int ?T ?e] => rewrite (get_int_rep T e z H) by done
  | H : get_object ?e = inr _ |- context [get_object ?e] => rewrite H
  end.

Lemma for_each_get {S B} (get : element -> sj_result B) (j : B -> json) (P : B -> Prop) (push : B -> S -> S) e ys s :
  (forall e y, represents e (j y) -> P y -> get e = inr y) -> represents e (JArray (j <$> ys)) -> Forall P ys ->
  get_then (get_array e) (for_each (λ x, get_then (get x) (λ y, modify (push y)))) s =
    (foldl (λ s y, push y s) s ys, true).
Proof.
  intros Hget (es & -> & Hes)%represents_array HP. apply for_each_append_ok. revert es Hes.
  induction HP as [|y ys Hy HP IH]; intros es Hes; inversion Hes; subst; constructor; auto.
Qed.

Lemma load_strings_rep {S} e ss (push : string -> S -> S) s :
  represents e (jstrings ss) -> load_strings e push s = (foldl (λ s y, push y s) s ss, true).
Proof.
  intros He. apply (for_each_get _ JString (λ _, True)); [|done|by apply Forall_true].
  intros e' y Hy _. by apply represents_string.
Qed.

Lemma for_each_built {S D} (j : D -> json) (P : D -> Prop) (d0 : D) field (push : D -> S -> S) es ds s :
  (forall e d, represents e (j d) -> P d -> exists o, get_object e = inr o /\ for_each field o d0 = (d, true)) ->
  Forall2 represents es (j <$> ds) -> Forall P ds ->
  for_each (λ x, get_then (get_object x) (λ o, build d0 (for_each field o) (λ d, modify (push d)))) es s =
    (foldl (λ s d, push d s) s ds, true).
Proof.
  intros Hload Hes HP. revert es Hes s. induction HP as [|d ds Hd HP IH]; intros es Hes s; inversion Hes; subst; [done|].
  cbn [for_each]. unfold and_then, get_then, build. destruct (Hload _ _ ltac:(eassumption) Hd) as (o & -> & ->). by apply IH.
Qed.

(** *** The parts of a document *)

Lemma mount_rep e d :
  represents e (mount_json d) -> exists o, get_object e = inr o /\ for_each loadMountField o new_MountDesc = (d, true).
Proof.
  intros He. rep_object He. eexists. split; [eassumption|]. cbn. unfold and_then. repeat (rep_get; cbn).
  erewrite load_strings_rep by eassumption. push_fold. by destruct d.
Qed.

Lemma namespace_rep e d :
  represents e (namespace_json d) ->
  exists o, get_object e = inr o /\ for_each loadNamespaceField o new_NamespaceDesc = (d, true).
Proof.
  intros He. rep_object He. eexists. split; [eassumption|]. cbn. unfold and_then. repeat (rep_get; cbn). by destruct d.
Qed.

Lemma mapping_rep e d :
  represents e (mapping_json d) -> id_mapping_wf d ->
  exists o, get_object e = inr o /\ for_each loadIdMappingField o new_IdMappingDesc = (d, true).
Proof.
  intros He (H1 & H2 & H3). rep_object He. eexists. split; [eassumption|]. cbn. unfold and_then. repeat (rep_get; cbn).
  by destruct d.
Qed.

Lemma device_rep e d :
  represents e (device_json d) -> device_wf d ->
  exists o, get_object e = inr o /\ for_each loadDeviceField o new_DeviceDesc = (d, true).
Proof.
  intros He (H1 & H2 & H3 & H4 & H5). rep_object He. eexists. split; [eassumption|]. cbn. unfold and_then.
  repeat (rep_get; cbn). by destruct d.
Qed.

Lemma rlimit_rep e r b :
  represents e (rlimit_json r) -> rlimit_wf r -> loadRLimit e b = (b <| RLimits ::= (λ l, l ++ [r]) |>, true).
Proof.
  intros He [H1 H2]. rep_object He. unfold loadRLimit. rep_get. cbn. rewrite !at_key_cons. cbn.
  repeat (rep_get; cbn). by destruct r as [[]].
Qed.

Lemma rlimits_rep es rs b :
  Forall2 represents es (rlimit_json <$> rs) -> Forall rlimit_wf rs ->
  for_each loadRLimit es b = (b <| RLimits ::= (λ l, l ++ rs) |>, true).
Proof.
  intros Hes Hrs. revert es Hes b. induction Hrs as [|r rs Hr Hrs IH]; intros es Hes b; inversion Hes; subst; cbn [for_each].
  - destruct b. unfold set_field. cbn. by rewrite app_nil_r.
  - unfold and_then. erewrite rlimit_rep by eassumption. rewrite IH by done. destruct b. unfold set_field. cbn.
    by rewrite <- app_assoc.
Qed.

Lemma capability_rep e ss caps key push b :
  at_key caps key = inr e -> represents e (jstrings ss) ->
  loadCapability caps key push b = (foldl (λ b s, push s b) b ss, true).
Proof.
  intros Hkey He. unfold loadCapability. rewrite Hkey. cbn [sj_bind].
  pose proof (load_strings_rep e ss push b He) as Hl. unfold load_strings, get_then in Hl.
  by destruct (get_array e).
Qed.

(** A capability set, the next one of the object. *)
Ltac capability :=
  erewrite capability_rep; [|by rewrite ?at_key_cons|eassumption]; push_fold; cbv beta iota.

Lemma capabilities_rep e b b' :
  represents e (JObject
    [("effective", jstrings (EffectiveCapabilities b')); ("bounding", jstrings (BoundingCapabilities b'));
     ("inheritable", jstrings (InheritableCapabilities b')); ("permitted", jstrings (PermittedCapabilities b'));
     ("ambient", jstrings (AmbientCapabilities b'))]) ->
  loadCapabilities e b =
    (b <| EffectiveCapabilities ::= (λ l, l ++ EffectiveCapabilities b') |>
       <| BoundingCapabilities ::= (λ l, l ++ BoundingCapabilities b') |>
       <| InheritableCapabilities ::= (λ l, l ++ InheritableCapabilities b') |>
       <| PermittedCapabilities ::= (λ l, l ++ PermittedCapabilities b') |>
       <| AmbientCapabilities ::= (λ l, l ++ AmbientCapabilities b') |>, true).
Proof. intros He. rep_object He. unfold loadCapabilities. rep_get. cbn [get_then]. unfold and_then. by repeat capability. Qed.

Lemma user_rep e b b' :
  represents e (JObject [("uid", JInt (Uid b')); ("gid", JInt (Gid b')); ("umask", JInt (UMask b'));
    ("additionalGids", JArray (JInt <$> AdditionalGids b'))]) -> loadable b' ->
  loadUser e b =
    (b <| Uid := Uid b' |> <| Gid := Gid b' |> <| UMask := UMask b' |>
       <| AdditionalGids ::= (λ l, l ++ AdditionalGids b') |>, true).
Proof.
  intros He [_ _ _ _ H1 H2 H3 H4 _ _ _ _ _]. rep_object He. unfold loadUser. rep_get. cbn. unfold and_then.
  repeat (rep_get; cbn).
  erewrite (for_each_get _ JInt (in_type Int32)); [|intros; by apply get_int_rep|eassumption|done]. by push_fold.
Qed.

Lemma console_rep e b b' :
  represents e (JObject [("height", JInt (ConsoleHeight b')); ("width", JInt (ConsoleWidth b'))]) -> loadable b' ->
  loadConsoleSize e b = (b <| ConsoleHeight := ConsoleHeight b' |> <| ConsoleWidth := ConsoleWidth b' |>, true).
Proof.
  intros He [H1 H2 _ _ _ _ _ _ _ _ _ _ _]. rep_object He. unfold loadConsoleSize. rep_get. cbn. unfold and_then.
  by repeat (rep_get; cbn).
Qed.

Lemma memory_rep e b b' :
  represents e (JObject [("limit", JInt (ResourcesMemoryLimit b'));
    ("reservation", JInt (ResourcesMemoryReservation b'))]) -> loadable b' ->
  loadMemory e b = (b <| ResourcesMemoryLimit := ResourcesMemoryLimit b' |>
    <| ResourcesMemoryReservation := ResourcesMemoryReservation b' |>, true).
Proof.
  intros He [_ _ _ _ _ _ _ _ _ _ H1 H2 _]. rep_object He. unfold loadMemory. rep_get. cbn. unfold and_then.
  by repeat (rep_get; cbn).
Qed.

(** *** The whole document *)

(** Choose the branch of a member with a known name. *)
Ltac branch := cbn [for_each loadProcessField loadLinuxField loadConfigField loadRootField first_char switch
  Ascii.eqb Bool.eqb String.eqb].

Lemma process_rep e b :
  represents e (process_json b) -> loadable b ->
  forall b0, get_then (get_object e) loadProcess b0 =
    (b0 <| Terminal := Terminal b |> <| ConsoleHeight := ConsoleHeight b |> <| ConsoleWidth := ConsoleWidth b |>
        <| Cwd := Cwd b |> <| Envs ::= (λ l, l ++ Envs b) |> <| Args ::= (λ l, l ++ Args b) |>
        <| RLimits ::= (λ l, l ++ RLimits b) |>
        <| EffectiveCapabilities ::= (λ l, l ++ EffectiveCapabilities b) |>
        <| BoundingCapabilities ::= (λ l, l ++ BoundingCapabilities b) |>
        <| InheritableCapabilities ::= (λ l, l ++ InheritableCapabilities b) |>
        <| PermittedCapabilities ::= (λ l, l ++ PermittedCapabilities b) |>
        <| AmbientCapabilities ::= (λ l, l ++ AmbientCapabilities b) |>
        <| NoNewPrivileges := NoNewPrivileges b |> <| OomScoreAdj := OomScoreAdj b |>
        <| Uid := Uid b |> <| Gid := Gid b |> <| UMask := UMask b |>
        <| AdditionalGids ::= (λ l, l ++ AdditionalGids b) |>, true).
Proof.
  intros He Hb b0. pose proof Hb as [_ _ Hrl Hoom _ _ _ _ _ _ _ _ _]. rep_object He. rep_get. cbn [get_then].
  unfold loadProcess. branch.
  unfold and_then, loadCwd, loadEnv, loadArgs, loadRLimits. repeat rep_get. cbn [get_then]. unfold modify.
  rewrite (console_rep _ _ b) by done. do 2 (erewrite load_strings_rep by eassumption; push_fold; cbv beta iota).
  rewrite !at_key_cons. cbn [sj_bind String.eqb Ascii.eqb Bool.eqb].
  match goal with H : represents _ (JArray (rlimit_json <$> _)) |- _ =>
    apply represents_array in H as (rs & -> & Hrs) end.
  cbn [get_then]. rewrite (rlimits_rep rs (RLimits b)) by done. rewrite (capabilities_rep _ _ b) by done.
  by rewrite (user_rep _ _ b).
Qed.

Lemma linux_rep e b :
  represents e (linux_json b) -> loadable b ->
  forall b0, get_then (get_object e) loadLinux b0 =
    (b0 <| Namespaces ::= (λ l, l ++ Namespaces b) |> <| UidMappings ::= (λ l, l ++ UidMappings b) |>
        <| Devices ::= (λ l, l ++ Devices b) |> <| CgroupsPath := CgroupsPath b |>
        <| ResourcesMemoryLimit := ResourcesMemoryLimit b |>
        <| ResourcesMemoryReservation := ResourcesMemoryReservation b |>, true).
Proof.
  intros He Hb b0. pose proof Hb as [_ _ _ _ _ _ _ _ Hmap Hdev _ _ _]. rep_object He. rep_get. cbn [get_then].
  unfold loadLinux. branch. unfold and_then, loadNamespaces, loadUidMappings, loadDevices. repeat rep_get.
  repeat match goal with H : represents _ (JArray _) |- _ => apply represents_array in H as (? & -> & ?) end.
  cbn [get_then]. unfold modify at 4.
  erewrite (for_each_built namespace_json (λ _, True)); [|intros; by apply namespace_rep|done|by apply Forall_true].
  push_fold. cbv beta iota.
  erewrite (for_each_built mapping_json id_mapping_wf); [|intros; by apply mapping_rep|done|done]. push_fold. cbv beta iota.
  erewrite (for_each_built device_json device_wf); [|intros; by apply device_rep|done|done]. push_fold. cbv beta iota.
  match goal with H : represents _ (JObject [("memory", _)]) |- _ => rep_object H end. rep_get. cbn [get_then].
  unfold loadResources. cbn [for_each first_char switch Ascii.eqb Bool.eqb String.eqb]. unfold and_then.
  by rewrite (memory_rep _ _ b).
Qed.

(** C24: a configuration is loaded as it is written: a document with the members of a
    bundle, under their names in the runtime specification, gives back that
    bundle, with every string, number, list and order in it, whatever library has
    parsed it.  The numbers are in the ranges of the members that store them; the
    members that are never loaded, the group id mappings among them, are empty. *)
Theorem loadConfig_roundtrip e b :
  loadable b -> represents e (config_json b) -> get_then (get_object e) loadConfig new_Bundle = (b, true).
Proof.
  intros Hb He. pose proof Hb as [_ _ _ _ _ _ _ _ _ _ _ _ (U1 & U2 & U3 & U4 & U5 & U6)].
  rep_object He. rep_get. cbn [get_then].
  unfold loadConfig. branch. unfold and_then. rep_get. cbn [get_then]. unfold modify.
  rewrite (process_rep _ b) by done.
  match goal with H : represents _ (JObject [("path", _); _]) |- _ => rep_object H end. rep_get. cbn [get_then].
  unfold loadRoot. branch. unfold and_then. repeat rep_get. cbn [get_then]. unfold modify, ok at 1. cbv beta iota.
  match goal with H : represents _ (JArray _) |- _ => apply represents_array in H as (? & -> & ?) end. cbn [get_then].
  unfold loadMounts.
  erewrite (for_each_built mount_json (λ _, True)); [|intros; by apply mount_rep|done|by apply Forall_true].
  push_fold. cbv beta iota. rewrite (linux_rep _ b) by done.
  match goal with H : represents _ (JObject [("org.wasmedge.exec.allow_commands", _)]) |- _ => rep_object H end.
  unfold loadAnnotations. rep_get. cbn [get_then for_each first_char switch Ascii.eqb Bool.eqb String.eqb]. unfold and_then.
  erewrite load_strings_rep by eassumption. push_fold. unfold ok. destruct b. cbn in *. by subst.
Qed.

End Config.

(** *** The hypotheses can hold *)

Definition demo_bundle : Bundle :=
  new_Bundle <| OCIVersion := "1.0.2" |> <| Args := ["a.wasm"; "x"] |> <| Envs := ["A=1"] |> <| Uid := 1000 |>
    <| ConsoleWidth := 80 |> <| ConsoleHeight := 25 |> <| RLimits := [("RLIMIT_CORE", -1, 5)] |>
    <| Mounts := [Build_MountDesc "/proc" "proc" "proc" ["ro"; "nodev"]] |>
    <| Namespaces := [Build_NamespaceDesc "pid" EmptyString] |> <| UidMappings := [Build_IdMappingDesc 0 1000 1] |>
    <| Devices := [Build_DeviceDesc "c" "/dev/null" 1 3 438 0 0] |> <| ResourcesMemoryLimit := 1048576 |>.

Lemma loadConfig_roundtrip_witness :
  Uid demo_bundle = 1000 /\
  get_then (get_object (Simdjson := ref_simdjson) (config_json demo_bundle)) loadConfig new_Bundle = (demo_bundle, true).
Proof.
  split; [reflexivity|]. apply (loadConfig_roundtrip (SJ := ref_simdjson)); [|reflexivity].
  split; repeat first [apply Forall_cons_2|apply Forall_nil_2|split]; vm_compute; first [reflexivity|discriminate].
Defined.
