(* ===== verification/Time.v ===== *)
(** The timestamps of the state file: [std::strftime] of [std::gmtime] with the
    format %Y-%m-%dT%H:%M:%SZ, as src/state.cpp calls them.  The calendar
    computation is characterised by the Gregorian rules. *)
From S2P Require Import Prelude Cpp Json.

(** ** The Gregorian calendar *)

(** Years are counted from March, so that the leap day is the last of its year,
    inside a cycle of 400 years (146097 days): the year of a day of the cycle
    and the day of that year. *)
Definition year_of_cycle_day (doe : Z) : Z * Z :=
  let c := Z.min (doe / 36524) 3 in
  let r := doe - 36524 * c in
  let q := r / 1461 in
  let r := r - 1461 * q in
  let y := Z.min (r / 365) 3 in
  (100 * c + 4 * q + y, r - 365 * y).

(** Month (1-12) and day of the month of a day of a March year. *)
Definition month_day (doy : Z) : Z * Z :=
  let mp := (5 * doy + 2) / 153 in
  (if mp <? 10 then mp + 3 else mp - 9, doy - (153 * mp + 2) / 5 + 1).

(** Year, month and day of a number of days since 1970-01-01. *)
Definition civil_from_days (z : Z) : Z * Z * Z :=
  let u := z + 719468 in
  let '(yoe, doy) := year_of_cycle_day (u mod 146097) in
  let '(m, d) := month_day doy in
  ((if m <=? 2 then yoe + 1 else yoe) + 400 * (u / 146097), m, d).

(** The rules of the calendar. *)
Definition leap (y : Z) : bool :=
  (y mod 4 =? 0) && (negb (y mod 100 =? 0) || (y mod 400 =? 0)).
Definition days_in_month (y m : Z) : Z :=
  if m =? 2 then if leap y then 29 else 28
  else if (m =? 4) || (m =? 6) || (m =? 9) || (m =? 11) then 30 else 31.
Definition next_day (date : Z * Z * Z) : Z * Z * Z :=
  let '(y, m, d) := date in
  if d <? days_in_month y m then (y, m, d + 1)
  else if m <? 12 then (y, m + 1, 1) else (y + 1, 1, 1).

(** ** The text *)

Definition digit (n : Z) : ascii := Ascii.ascii_of_N (Z.to_N (48 + n mod 10)).
(** Two digits, zero padded. *)
Definition two (n : Z) : string := String (digit (n / 10)) (chr (digit n)).

(** [std::gmtime] fails when the year does not fit an [int]; [std::strftime] of
    its null result is undefined. *)
Definition format_time (Now : Z) : cpp string :=
  let '(y, m, d) := civil_from_days (Now / 86400) in
  let secs := Now mod 86400 in
  if decide (in_type Int32 (y - 1900)) then
    Val (print_Z y +:+ "-" +:+ two m +:+ "-" +:+ two d +:+ "T" +:+
         two (secs / 3600) +:+ ":" +:+ two (secs / 60 mod 60) +:+ ":" +:+
         two (secs mod 60) +:+ "Z")
  else UB.

(** The instant a text YYYY-MM-DDTHH:MM:SSZ denotes. *)
Definition days_from_civil (date : Z * Z * Z) : Z :=
  let '(y, m, d) := date in
  let y := if m <=? 2 then y - 1 else y in
  365 * y + y / 4 - y / 100 + y / 400
  + (153 * (if m <=? 2 then m + 9 else m - 3) + 2) / 5 + d - 1 - 719468.
Definition read_time (s : string) : Z :=
  let num pos n := dec_value 0 (substr s pos n) in
  86400 * days_from_civil (num 0%nat 4%nat, num 5%nat 2%nat, num 8%nat 2%nat)
  + 3600 * num 11%nat 2%nat + 60 * num 14%nat 2%nat + num 17%nat 2%nat.

(** ** Years *)

(** The first day of a March year, counted from the start of the cycle. *)
Definition year_start (yoe : Z) : Z := 365 * yoe + yoe / 4 - yoe / 100.

(** The March year [yoe] has a leap day at its end. *)
Definition leap_end (yoe : Z) : bool := leap (yoe + 1).

Lemma leap_end_spec yoe :
  0 <= yoe < 400 ->
  leap_end yoe = true <-> year_start (yoe + 1) = year_start yoe + 366 \/ yoe = 399.
Proof.
  intros Hy. unfold leap_end, leap, year_start.
  rewrite andb_true_iff, orb_true_iff, negb_true_iff, Z.eqb_eq, Z.eqb_neq, Z.eqb_eq. div_lia.
Qed.

Lemma year_of_cycle_day_spec doe yoe doy :
  0 <= doe < 146097 -> year_of_cycle_day doe = (yoe, doy) ->
  0 <= yoe < 400 /\ doe = year_start yoe + doy /\ 0 <= doy <= 365 /\
  (doy = 365 -> leap_end yoe = true).
Proof.
  intros Hd. unfold year_of_cycle_day. intros [= <- <-].
  remember (Z.min (doe / 36524) 3) as c eqn:Ec. remember (doe - 36524 * c) as r eqn:Er.
  remember (r / 1461) as q eqn:Eq. remember (r - 1461 * q) as r' eqn:Er'.
  remember (Z.min (r' / 365) 3) as y eqn:Ey.
  assert (0 <= c <= 3 /\ 0 <= r <= 36524 /\ (c < 3 -> r < 36524)) as (Hc & Hr & Hr3) by div_lia.
  assert (0 <= q <= 24 /\ 0 <= r' < 1461 /\ (q = 24 -> c < 3 -> r' < 1460)) as (Hq & Hr' & Hq24)
    by div_lia.
  assert (0 <= y <= 3 /\ 0 <= r' - 365 * y <= 365 /\ (r' - 365 * y = 365 -> y = 3 /\ r' = 1460))
    as (Hy & Hdoy & Hlast) by div_lia.
  assert ((100 * c + 4 * q + y) / 4 = 25 * c + q) by div_lia.
  assert ((100 * c + 4 * q + y) / 100 = c) by div_lia.
  split_and!; try lia; [unfold year_start; lia|].
  intros [-> ->]%Hlast. apply leap_end_spec; [lia|]. unfold year_start.
  destruct (Z.eq_dec (100 * c + 4 * q + 3) 399); [by right|left].
  assert ((100 * c + 4 * q + 3 + 1) / 4 = 25 * c + q + 1) by div_lia.
  assert ((100 * c + 4 * q + 3 + 1) / 100 = c) by div_lia. lia.
Qed.

Lemma year_start_le y1 y2 : y1 <= y2 -> year_start y1 <= year_start y2.
Proof. unfold year_start. div_lia. Qed.

(** The length of a March year. *)
Lemma year_start_next yoe :
  0 <= yoe < 399 -> year_start (yoe + 1) = year_start yoe + (if leap_end yoe then 366 else 365).
Proof.
  intros Hy. destruct (leap_end yoe) eqn:E.
  - apply leap_end_spec in E; lia.
  - destruct (Z.eq_dec (year_start (yoe + 1)) (year_start yoe + 366)) as [H|H].
    + assert (leap_end yoe = true) by (apply leap_end_spec; [lia|by left]). congruence.
    + revert H. unfold year_start. div_lia.
Qed.

Lemma year_of_cycle_day_unique yoe doy :
  0 <= yoe < 400 -> 0 <= doy <= 365 -> (doy = 365 -> leap_end yoe = true) ->
  0 <= year_start yoe + doy < 146097 /\ year_of_cycle_day (year_start yoe + doy) = (yoe, doy).
Proof.
  intros Hy Hd Hl.
  assert (0 <= year_start yoe + doy < 146097) as HD.
  { pose proof (year_start_le 0 yoe ltac:(lia)). pose proof (year_start_le yoe 399 ltac:(lia)).
    change (year_start 0) with 0 in *. change (year_start 399) with 145731 in *. lia. }
  split; [done|]. destruct (year_of_cycle_day _) as [y' d'] eqn:E.
  apply year_of_cycle_day_spec in E as (Hy' & Heq & Hd' & Hl'); [|done].
  assert (forall ya yb da db, 0 <= ya < 400 -> 0 <= yb < 400 -> ya < yb -> 0 <= db -> da <= 365 ->
    (da = 365 -> leap_end ya = true) -> year_start ya + da <> year_start yb + db) as Hlt.
  { intros ya yb da db ????? Hla. pose proof (year_start_le (ya + 1) yb ltac:(lia)).
    rewrite year_start_next in * by lia. destruct (leap_end ya); [lia|].
    destruct (Z.eq_dec da 365); [by specialize (Hla ltac:(done))|lia]. }
  destruct (Z.lt_trichotomy yoe y') as [H|[->|H]].
  - exfalso. by apply (Hlt yoe y' doy d'); try lia.
  - f_equal. lia.
  - exfalso. apply (Hlt y' yoe d' doy); try lia. done.
Qed.

(** ** Months *)

(** Check a property for [n] consecutive numbers. *)
Fixpoint check_from (n : nat) (start : Z) (P : Z -> bool) : bool :=
  match n with
  | O => true
  | S n => P start && check_from n (start + 1) P
  end.

Lemma check_from_spec n start P z :
  check_from n start P = true -> start <= z < start + Z.of_nat n -> P z = true.
Proof.
  revert start. induction n as [|n IH]; intros start; cbn [check_from]; [lia|].
  rewrite andb_true_iff. intros [H0 H1] Hz.
  destruct (Z.eq_dec z start) as [->|]; [done|]. apply (IH (start + 1)); [done|lia].
Qed.

Definition month_facts (doy : Z) : bool :=
  let '(m, d) := month_day doy in
  (1 <=? m) && (m <=? 12) && (1 <=? d) && Bool.eqb (m <=? 2) (306 <=? doy)
  && ((153 * (if m <=? 2 then m + 9 else m - 3) + 2) / 5 + d - 1 =? doy)
  && (if m =? 2 then d =? doy - 336 else d <=? days_in_month 1 m).

Lemma month_day_facts doy m d :
  0 <= doy <= 365 -> month_day doy = (m, d) ->
  1 <= m <= 12 /\ 1 <= d /\ (m <=? 2) = (306 <=? doy) /\
  (153 * (if m <=? 2 then m + 9 else m - 3) + 2) / 5 + d - 1 = doy /\
  (if m =? 2 then d = doy - 336 else d <= days_in_month 1 m).
Proof.
  intros Hd E. assert (check_from 366 0 month_facts = true) as H by (vm_compute; reflexivity).
  apply (check_from_spec _ _ _ doy) in H; [|lia]. unfold month_facts in H. rewrite E in H.
  rewrite !andb_true_iff, !Z.leb_le, Z.eqb_eq in H.
  destruct H as [[[[[H1 H2] H3] H4] H5] H6]. apply eqb_prop in H4. split_and!; try done.
  destruct (m =? 2); [by apply Z.eqb_eq|by apply Z.leb_le].
Qed.

(** Inside a March year, up to the 27th of February. *)
Definition month_step (doy : Z) : bool :=
  let '(m, d) := month_day doy in
  bool_decide (next_day (if m <=? 2 then 2 else 1, m, d)
    = (if (month_day (doy + 1)).1 <=? 2 then 2 else 1, (month_day (doy + 1)).1, (month_day (doy + 1)).2)).

Lemma leap_period y k : leap (y + 400 * k) = leap y.
Proof.
  unfold leap.
  replace (y + 400 * k) with (y + 100 * k * 4) at 1 by lia. rewrite Z.mod_add by lia.
  replace (y + 400 * k) with (y + 4 * k * 100) at 1 by lia. rewrite Z.mod_add by lia.
  replace (y + 400 * k) with (y + k * 400) by lia. by rewrite Z.mod_add by lia.
Qed.

(** Before the 28th of February the year does not matter for the next day. *)
Lemma next_day_shift y y' m d :
  (m = 2 -> d < 28) ->
  next_day (y + y', m, d) = let '(z, m', d') := next_day (y, m, d) in (z + y', m', d').
Proof.
  intros Hm. unfold next_day, days_in_month.
  destruct (Z.eqb_spec m 2) as [->|].
  - assert (d <? (if leap (y + y') then 29 else 28) = true) as -> by (case_match; bool_lia).
    assert (d <? (if leap y then 29 else 28) = true) as -> by (case_match; bool_lia). done.
  - destruct (d <? _); [done|]. destruct (m <? 12); [done|]. do 2 f_equal. lia.
Qed.

Lemma month_day_next doy m d m' d' yoe :
  0 <= doy <= 363 -> month_day doy = (m, d) -> month_day (doy + 1) = (m', d') ->
  next_day (if m <=? 2 then yoe + 1 else yoe, m, d) = (if m' <=? 2 then yoe + 1 else yoe, m', d').
Proof.
  intros Hd E E'. assert (check_from 364 0 month_step = true) as H by (vm_compute; reflexivity).
  apply (check_from_spec _ _ _ doy) in H; [|lia]. unfold month_step in H. rewrite E, E' in H.
  cbn [fst snd] in H. apply bool_decide_eq_true in H.
  destruct (month_day_facts doy m d) as (_ & _ & _ & _ & Hfeb); [lia|done|].
  replace (if m <=? 2 then yoe + 1 else yoe) with ((if m <=? 2 then 2 else 1) + (yoe - 1))
    by (destruct (m <=? 2); lia).
  rewrite next_day_shift, H by (intros ->; cbn in Hfeb; lia).
  destruct (m' <=? 2); do 2 f_equal; lia.
Qed.

(** ** Dates *)

(** A date by the cycle, the March year of the cycle and the day of that year. *)
Lemma civil_from_days_inv z y m d :
  civil_from_days z = (y, m, d) ->
  exists k yoe doy, z + 719468 = 146097 * k + year_start yoe + doy /\
    0 <= yoe < 400 /\ 0 <= doy <= 365 /\ (doy = 365 -> leap_end yoe = true) /\
    month_day doy = (m, d) /\ y = (if m <=? 2 then yoe + 1 else yoe) + 400 * k.
Proof.
  unfold civil_from_days. intros E.
  pose proof (Z.div_mod (z + 719468) 146097 ltac:(lia)).
  pose proof (Z.mod_pos_bound (z + 719468) 146097 ltac:(lia)) as Hb.
  destruct (year_of_cycle_day _) as [yoe doy] eqn:Ey.
  destruct (month_day doy) as [m0 d0] eqn:Em. injection E as <- <- <-.
  apply year_of_cycle_day_spec in Ey as (? & ? & ? & ?); [|done].
  exists ((z + 719468) / 146097), yoe, doy. split_and!; try done; lia.
Qed.

Lemma civil_from_days_eq z k yoe doy m d :
  z + 719468 = 146097 * k + year_start yoe + doy ->
  0 <= yoe < 400 -> 0 <= doy <= 365 -> (doy = 365 -> leap_end yoe = true) ->
  month_day doy = (m, d) ->
  civil_from_days z = ((if m <=? 2 then yoe + 1 else yoe) + 400 * k, m, d).
Proof.
  intros Hz Hy Hd Hl Hm. destruct (year_of_cycle_day_unique yoe doy) as [Hr Hu]; try done.
  unfold civil_from_days.
  assert ((z + 719468) / 146097 = k) as -> by div_lia.
  assert ((z + 719468) mod 146097 = year_start yoe + doy) as -> by div_lia.
  by rewrite Hu, Hm.
Qed.

Lemma leap_end_year yoe k : leap (yoe + 1 + 400 * k) = leap_end yoe.
Proof. apply leap_period. Qed.

(** The end of a March year. *)
Lemma next_day_february yoe k d :
  next_day ((if 2 <=? 2 then yoe + 1 else yoe) + 400 * k, 2, d)
  = let y := yoe + 1 + 400 * k in
    if d <? (if leap_end yoe then 29 else 28) then (y, 2, d + 1) else (y, 3, 1).
Proof. rewrite <- (leap_end_year yoe k). reflexivity. Qed.

Lemma civil_valid z y m d :
  civil_from_days z = (y, m, d) -> 1 <= m <= 12 /\ 1 <= d <= days_in_month y m.
Proof.
  intros (k & yoe & doy & _ & Hy & Hd & Hl & Hm & ->)%civil_from_days_inv.
  destruct (month_day_facts doy m d) as (? & ? & _ & _ & Hf); [done|done|].
  split_and!; try done; try lia. unfold days_in_month in *.
  destruct (Z.eqb_spec m 2) as [->|]; [|done].
  cbn [Z.leb Z.compare Pos.compare Pos.compare_cont]. rewrite leap_end_year.
  destruct (leap_end yoe); [lia|]. destruct (Z.eq_dec doy 365); [by specialize (Hl ltac:(done))|lia].
Qed.

Lemma civil_next z : civil_from_days (z + 1) = next_day (civil_from_days z).
Proof.
  destruct (civil_from_days z) as [[y m] d] eqn:E.
  apply civil_from_days_inv in E as (k & yoe & doy & Hz & Hy & Hd & Hl & Hm & ->).
  assert (doy <= 363 \/ (doy = 364 /\ leap_end yoe = true) \/
    doy = (if leap_end yoe then 365 else 364)) as [Hc|[[-> Hc]|Hc]].
  { destruct (leap_end yoe); [lia|]. destruct (Z.eq_dec doy 365); [by specialize (Hl ltac:(done))|lia]. }
  - destruct (month_day (doy + 1)) as [m' d'] eqn:Hm'.
    rewrite (civil_from_days_eq _ k yoe (doy + 1) m' d') by (done || lia).
    destruct (month_day_facts doy m d) as (_ & _ & _ & _ & Hf); [done|done|].
    assert (m = 2 -> d < 28) by (intros ->; cbn in Hf; lia).
    by rewrite next_day_shift, (month_day_next doy m d m' d' yoe) by (done || lia).
  - injection Hm as <- <-. rewrite (civil_from_days_eq _ k yoe 365 2 29) by (done || lia).
    by rewrite next_day_february, Hc.
  - assert (next_day ((if m <=? 2 then yoe + 1 else yoe) + 400 * k, m, d)
      = (yoe + 1 + 400 * k, 3, 1)) as ->.
    { destruct (leap_end yoe) eqn:El; subst doy; injection Hm as <- <-;
        by rewrite next_day_february, El. }
    destruct (Z.eq_dec yoe 399) as [->|].
    + change (leap_end 399) with true in Hc. cbv iota in Hc. change (year_start 399) with 145731 in Hz.
      rewrite (civil_from_days_eq _ (k + 1) 0 0 3 1); [|change (year_start 0) with 0; lia|lia|lia|lia|done].
      cbn [Z.leb Z.compare Pos.compare Pos.compare_cont]. do 2 f_equal. lia.
    + pose proof (year_start_next yoe ltac:(lia)).
      rewrite (civil_from_days_eq _ k (yoe + 1) 0 3 1); [done| |lia|lia|lia|done].
      destruct (leap_end yoe); lia.
Qed.

(** The number of days before a March year. *)
Lemma year_days yoe k :
  0 <= yoe < 400 ->
  365 * (yoe + 400 * k) + (yoe + 400 * k) / 4 - (yoe + 400 * k) / 100 + (yoe + 400 * k) / 400
  = 146097 * k + year_start yoe.
Proof. unfold year_start. div_lia. Qed.

Lemma days_civil z : days_from_civil (civil_from_days z) = z.
Proof.
  destruct (civil_from_days z) as [[y m] d] eqn:E.
  apply civil_from_days_inv in E as (k & yoe & doy & Hz & Hy & Hd & _ & Hm & ->).
  destruct (month_day_facts doy m d) as (_ & _ & _ & Hf & _); [done|done|].
  unfold days_from_civil. cbv zeta.
  replace (if m <=? 2 then (if m <=? 2 then yoe + 1 else yoe) + 400 * k - 1
    else (if m <=? 2 then yoe + 1 else yoe) + 400 * k) with (yoe + 400 * k)
    by (destruct (m <=? 2); lia).
  rewrite year_days by done. lia.
Qed.

(** From 1970 to 9999 the year has four digits. *)
Lemma civil_year z y m d :
  civil_from_days z = (y, m, d) -> 0 <= z <= 2932896 -> 1600 <= y <= 9999.
Proof.
  intros (k & yoe & doy & Hu & Hy & Hd & _ & Hm & ->)%civil_from_days_inv Hz.
  destruct (month_day_facts doy m d) as (_ & _ & -> & _); [done|done|].
  pose proof (year_start_le 0 yoe ltac:(lia)). pose proof (year_start_le yoe 399 ltac:(lia)).
  change (year_start 0) with 0 in *. change (year_start 399) with 145731 in *.
  assert (4 <= k <= 24) by lia. destruct (Z.leb_spec 306 doy); [|lia].
  destruct (Z.eq_dec yoe 399) as [->|]; [change (year_start 399) with 145731 in *|]; lia.
Qed.

(** ** Digits *)

Lemma digit_is_digit n : isdigit (digit n) = true.
Proof.
  apply isdigit_code. unfold digit.
  pose proof (Z.mod_pos_bound n 10 ltac:(lia)). rewrite code_ascii_of; lia.
Qed.

(** Characters that need no escape in JSON and are ASCII. *)
Definition simple_char (c : ascii) : bool := plain_char c && (code c <=? 127).

Lemma digit_simple c : isdigit c = true -> simple_char c = true.
Proof.
  intros Hc. unfold simple_char, plain_char.
  destruct (Ascii.eqb_spec c dq) as [->|]; [by vm_compute in Hc|].
  destruct (Ascii.eqb_spec c backslash) as [->|]; [by vm_compute in Hc|].
  apply isdigit_code in Hc. bool_lia.
Qed.

Lemma two_simple n : str_all simple_char (two n) = true.
Proof. unfold two. cbn. by rewrite !digit_simple by apply digit_is_digit. Qed.

Lemma print_Z_simple z : str_all simple_char (print_Z z) = true.
Proof.
  destruct (Z.ltb_spec z 0).
  - rewrite print_Z_neg by done. cbn.
    destruct (print_Z_nonneg (- z)) as (? & _); [lia|].
    by eapply str_all_impl; [apply digit_simple|].
  - destruct (print_Z_nonneg z) as (? & _); [done|].
    by eapply str_all_impl; [apply digit_simple|].
Qed.

(** A timestamp needs no escaping. *)
Lemma format_time_simple Now s :
  format_time Now = Val s -> str_all simple_char s = true.
Proof.
  unfold format_time. destruct (civil_from_days _) as [[y m] d].
  case_decide; [|done]. intros [= <-].
  repeat first [rewrite str_all_app | rewrite two_simple | rewrite print_Z_simple]; done.
Qed.

Definition four_digits (y : Z) : bool := (String.length (print_Z y) =? 4)%nat.

Lemma years_four_digits : check_from (Z.to_nat 9000) 1000 four_digits = true.
Proof. vm_compute. reflexivity. Qed.

Lemma print_year y :
  1000 <= y <= 9999 ->
  exists a b c d, print_Z y = String a (String b (String c (chr d))) /\
    dec_value 0 (print_Z y) = y.
Proof.
  intros Hy. pose proof (check_from_spec _ _ _ y years_four_digits ltac:(lia)) as Hl.
  apply Nat.eqb_eq in Hl. destruct (print_Z_nonneg y ltac:(lia)) as (_ & _ & Hv).
  destruct (print_Z y) as [|a [|b [|c [|d [|e t]]]]]; try done. by exists a, b, c, d.
Qed.

Lemma code_digit n : code (digit n) = 48 + n mod 10.
Proof.
  unfold digit. pose proof (Z.mod_pos_bound n 10 ltac:(lia)). apply code_ascii_of. lia.
Qed.

Lemma dec_value_two n : 0 <= n < 100 -> dec_value 0 (two n) = n.
Proof.
  intros Hn. unfold two, chr. cbn [dec_value]. rewrite !code_digit.
  div_lia.
Qed.

(** ** Properties *)

(** The dates written to the state file follow the Gregorian calendar: day 0
    is 1970-01-01, every next day has the next date, and the date is always a
    valid one. *)
Theorem civil_from_days_gregorian :
  civil_from_days 0 = (1970, 1, 1) /\
  (forall z, civil_from_days (z + 1) = next_day (civil_from_days z)) /\
  (forall z, let '(y, m, d) := civil_from_days z in
     1 <= m <= 12 /\ 1 <= d <= days_in_month y m).
Proof.
  split_and!; [reflexivity|apply civil_next|].
  intros z. destruct (civil_from_days z) as [[y m] d] eqn:E. by apply (civil_valid z).
Qed.

(** C34: a timestamp denotes the time it was made at: from 1970 to 9999 the text is
    defined, has the twenty characters of YYYY-MM-DDTHH:MM:SSZ, and reading its
    numbers as a date and a time of day gives the clock value back; and the
    dates are those of the Gregorian calendar. *)
Theorem format_time_denotes Now :
  0 <= Now < 253402300800 ->
  exists s, format_time Now = Val s /\ String.length s = 20%nat /\ read_time s = Now /\
    civil_from_days (Now / 86400 + 1) = next_day (civil_from_days (Now / 86400)).
Proof.
  intros HNow. pose proof (Z.mod_pos_bound Now 86400 ltac:(lia)) as Hs.
  assert (0 <= Now / 86400 <= 2932896) as Hd by div_lia.
  pose proof (days_civil (Now / 86400)) as Hback. pose proof (civil_next (Now / 86400)) as Hnext.
  unfold format_time. destruct (civil_from_days (Now / 86400)) as [[y m] d] eqn:E.
  pose proof (civil_year _ _ _ _ E Hd) as Hy.
  destruct (civil_valid _ _ _ _ E) as [Hm Hday].
  assert (days_in_month y m <= 31) by (unfold days_in_month; repeat case_match; lia).
  rewrite decide_True by
    (unfold in_type, type_min, type_max, INT32_MIN, INT32_MAX; lia).
  eexists. split; [reflexivity|].
  destruct (print_year y) as (a & b & c & e & Hp & Hv); [lia|]. rewrite Hp in *.
  split_and!; [reflexivity| |done]. unfold read_time.
  remember (Now mod 86400) as secs eqn:Esecs.
  change (86400 * days_from_civil (dec_value 0 (String a (String b (String c (chr e)))),
    dec_value 0 (two m), dec_value 0 (two d))
    + 3600 * dec_value 0 (two (secs / 3600)) + 60 * dec_value 0 (two (secs / 60 mod 60))
    + dec_value 0 (two (secs mod 60)) = Now).
  rewrite Hv, !dec_value_two, Hback by (lia || div_lia). div_lia.
Qed.

Lemma format_time_denotes_witness :
  exists s, format_time 1609556645 = Val s /\ read_time s = 1609556645.
Proof.
  destruct (format_time_denotes 1609556645) as (s & Hs & _ & Hr & _); [lia|].
  exists s. split; [exact Hs|exact Hr].
Defined.
