(* ===== verification/State.v ===== *)
(** The container state: [class State] of include/state.h and src/state.cpp.
    The state file is a JSON text written by [State::print] and read back by
    [State::load]; the main result is the round trip between the two. *)
From S2P Require Import Prelude Cpp Path Json Loader Prog Bundle Time.

(** ** Data *)

Inductive StatusCode : Set := Unknown | Creating | Created | Running | Stopped.

#[global] Instance StatusCode_eq_dec : EqDecision StatusCode.
Proof. solve_decision. Defined.

Record State := {
  ContainerId : string;
  BundlePath : string;
  CreatedTimestamp : string;
  StartedTimestamp : string;
  FinishedTimestamp : string;
  Config : Bundle;
  Status : StatusCode;
  ExitCode : Z;
  Pid : Z;
  SystemdCgroup : bool;
}.

#[export] Instance eta_State : Eta State := λ s,
  Build_State (ContainerId s) (BundlePath s) (CreatedTimestamp s)
    (StartedTimestamp s) (FinishedTimestamp s) (Config s) (Status s)
    (ExitCode s) (Pid s) (SystemdCgroup s).

(** [State(ContainerId, BundlePath)] and [State()]. *)
Definition new_State (Id Path : string) : State :=
  Build_State Id Path EmptyString EmptyString EmptyString new_Bundle Unknown 0 (-1) false.
Definition default_State : State := new_State EmptyString EmptyString.

Definition kOCIVersion : string := "1.0.2".
Definition kStatusUnknown : string := "unknown".
Definition kStatusCreating : string := "creating".
Definition kStatusCreated : string := "created".
Definition kStatusRunning : string := "running".
Definition kStatusStopped : string := "stopped".

Definition getStatusString (Status : StatusCode) : string :=
  match Status with
  | Creating => kStatusCreating
  | Created => kStatusCreated
  | Running => kStatusRunning
  | Stopped => kStatusStopped
  | Unknown => kStatusUnknown
  end.

(** ** Text *)

(** The two bytes pushed for an escaped character. *)
Definition escaped (e : ascii) : string := String backslash (chr e).

Fixpoint jsonEscape (s : string) : string :=
  match s with
  | EmptyString => EmptyString
  | String C s =>
      switch C
        [ ("008"%char, escaped "b"); ("012"%char, escaped "f"); ("010"%char, escaped "n");
          ("013"%char, escaped "r"); ("009"%char, escaped "t"); (dq, escaped dq);
          (backslash, escaped backslash) ] (chr C)
      +:+ jsonEscape s
  end.

(** A [char] promoted to [int]; [char] is signed. *)
Definition char_int (c : ascii) : Z := if code c <=? 127 then code c else code c - 256.

(** [s[i]] as an [int]; a position past the end is never asked for. *)
Definition char_at (s : string) (i : nat) : Z :=
  match String.get i s with Some c => char_int c | None => 0 end.

(** The [switch] on the sum of two characters. *)
Definition parseStatus (StatusString : string) : StatusCode :=
  if (Z.of_nat (String.length StatusString) <? 6) then Unknown
  else
    let key := char_at StatusString 0 + char_at StatusString 5 in
    if key =? code "c" + code "i" then
      if String.eqb StatusString kStatusCreating then Creating else Unknown
    else if key =? code "c" + code "e" then
      if String.eqb StatusString kStatusCreated then Created else Unknown
    else if key =? code "r" + code "n" then
      if String.eqb StatusString kStatusRunning then Running else Unknown
    else if key =? code "s" + code "e" then
      if String.eqb StatusString kStatusStopped then Stopped else Unknown
    else Unknown.

(** Which members are stored for a status: the conditions of [print] and
    [load]. *)
Definition has_pid (st : StatusCode) : bool :=
  match st with Created | Running => true | _ => false end.
Definition has_created (st : StatusCode) : bool :=
  match st with Created | Running | Stopped => true | _ => false end.
Definition has_started (st : StatusCode) : bool :=
  match st with Running | Stopped => true | _ => false end.
Definition has_finished (st : StatusCode) : bool :=
  match st with Stopped => true | _ => false end.

(** A string literal with its double quotes written as back quotes. *)
Definition lit (s : string) : string :=
  str_map (λ c, if Ascii.eqb c "`" then dq else c) s.

Definition when (b : bool) (s : string) : string := if b then s else EmptyString.

(** [State::print]: the text sent to the stream. *)
Definition State_print (s : State) : string :=
  lit "{`ociVersion`:`" +:+ kOCIVersion +:+ lit "`,`id`:`" +:+
  jsonEscape (ContainerId s) +:+ lit "`,`status`:`" +:+ getStatusString (Status s) +:+
  lit "`,`bundle`:`" +:+ jsonEscape (BundlePath s) +:+
  lit "`,`systemd-cgroup`:" +:+ print_bool (SystemdCgroup s) +:+
  when (has_pid (Status s)) (lit ",`pid`:" +:+ print_Z (Pid s)) +:+
  when (has_created (Status s))
    (lit ",`created`:`" +:+ CreatedTimestamp s +:+ lit "`") +:+
  when (has_started (Status s))
    (lit ",`started`:`" +:+ StartedTimestamp s +:+ lit "`") +:+
  when (has_finished (Status s))
    (lit ",`exitCode`:" +:+ print_Z (ExitCode s) +:+
     lit ",`finished`:`" +:+ FinishedTimestamp s +:+ lit "`") +:+
  "}" +:+ chr "010".

(** ** Operations *)

Section Operations.
Context `{SJ : Simdjson}.

(** The members of the state document; [doc[Key].get(x)] is
    [sj_bind (elem_at_key doc Key) get_...]. *)
Definition load_string (doc : element) (Key : string) (k : string -> loader State) : loader State :=
  get_then (sj_bind (elem_at_key doc Key) get_string) k.

Definition load_version (doc : element) : loader State :=
  load_string doc "ociVersion" (λ OCIVersion,
    if String.eqb OCIVersion kOCIVersion then ok else fail).

Definition load_status (doc : element) : loader State :=
  load_string doc "status" (λ StatusString,
    and_then (modify (λ s, s <| Status := parseStatus StatusString |>))
      (if bool_decide (parseStatus StatusString = Unknown) then fail else ok)).

(** What is read after the status, which decides what is there. *)
Definition load_rest (doc : element) (st : StatusCode) : loader State :=
  and_then (load_string doc "id" (λ v, modify (λ s, s <| ContainerId := v |>)))
  (and_then (load_string doc "bundle" (λ v, modify (λ s, s <| BundlePath := v |>)))
  (and_then (get_then (sj_bind (elem_at_key doc "systemd-cgroup") get_bool)
               (λ v, modify (λ s, s <| SystemdCgroup := v |>)))
  (and_then (if has_pid st then
               get_then (sj_bind (elem_at_key doc "pid") get_int64)
                 (λ v, modify (λ s, s <| Pid := to_int32 v |>))
             else ok)
  (and_then (if has_created st then
               load_string doc "created" (λ v, modify (λ s, s <| CreatedTimestamp := v |>))
             else ok)
  (and_then (if has_started st then
               load_string doc "started" (λ v, modify (λ s, s <| StartedTimestamp := v |>))
             else ok)
  (if has_finished st then
     and_then (get_then (sj_bind (elem_at_key doc "exitCode") get_int64)
                 (λ v, modify (λ s, s <| ExitCode := to_int32 v |>)))
       (load_string doc "finished" (λ v, modify (λ s, s <| FinishedTimestamp := v |>)))
   else ok)))))).

Definition load_document (doc : element) : loader State :=
  and_then (load_version doc)
    (and_then (load_status doc) (λ s, load_rest doc (Status s) s)).

(** [State::loadBundle]. *)
Definition loadBundle (s : State) (ConfigFileName : string) : prog (State * bool) :=
  '(b, r) ← Bundle_load (Config s) (BundlePath s) ConfigFileName;
  mret (s <| Config := b |>, r).

(** [State::load]. *)
Definition State_load (s : State) (Path ConfigFileName : string) : prog (State * bool) :=
  r ← do_call (JsonLoad Path) : prog (sj_result element);
  match r with
  | inl _ => mret (s, false)
  | inr doc =>
      let '(s, r) := load_document doc s in
      if (r : bool) then loadBundle s ConfigFileName else mret (s, false)
  end.

(** The current time as a timestamp.  A [pid_t] is an [int], which
    [to_int32] makes explicit. *)
Definition timestamp : prog string :=
  Now ← do_call (Px Time) : prog sysret;
  lift_cpp (format_time (ret Now)).

Definition setSystemdCgroup (s : State) (Value : bool) : State := s <| SystemdCgroup := Value |>.
Definition setCreating (s : State) : State := s <| Status := Creating |>.

Definition setCreated (s : State) : prog State :=
  let s := s <| Status := Created |> in
  t ← timestamp;
  pid ← do_call (Px Getpid) : prog sysret;
  mret (s <| CreatedTimestamp := t |> <| Pid := to_int32 (ret pid) |>).

Definition setRunning (s : State) : prog State :=
  let s := s <| Status := Running |> in
  t ← timestamp;
  mret (s <| StartedTimestamp := t |>).

Definition setStopped (s : State) (Code : Z) : prog State :=
  let s := s <| Status := Stopped |> <| ExitCode := Code |> in
  t ← timestamp;
  mret (s <| FinishedTimestamp := t |>).

End Operations.
