(* ===== verification/StateProps.v ===== *)
(** Properties of the container state: escaping, the status switch, and the
    round trip between [State::print] and [State::load] through any JSON
    parser that satisfies the documented laws of simdjson. *)
From S2P Require Import Prelude Cpp Path Json JsonRef Loader Prog Logic Sim Bundle Time State.

(** ** Escaping *)

(** The characters [jsonEscape] handles: every one except the control
    characters without a two-character escape. *)
Definition escapable (c : ascii) : bool :=
  (32 <=? code c) || bool_decide (code c ∈ [8; 9; 10; 12; 13]).

Lemma plain_or_special c :
  plain_char c = true \/ code c < 32 \/ c = dq \/ c = backslash.
Proof.
  unfold plain_char. destruct (Ascii.eqb_spec c dq); [auto|].
  destruct (Ascii.eqb_spec c backslash); [auto|].
  destruct (Z.leb_spec 32 (code c)); auto.
Qed.

(** A character is one of the seven cases of the switch or goes through. *)
Definition escapes : list (ascii * string) :=
  [ ("008"%char, escaped "b"); ("012"%char, escaped "f"); ("010"%char, escaped "n");
    ("013"%char, escaped "r"); ("009"%char, escaped "t"); (dq, escaped dq);
    (backslash, escaped backslash) ].

Lemma jsonEscape_cons C s :
  jsonEscape (String C s) = switch C escapes (chr C) +:+ jsonEscape s.
Proof. done. Qed.

Lemma escape_cases C :
  (exists e, switch C escapes (chr C) = escaped e /\ escape_char e = Some C /\ code e <= 127) \/
  (switch C escapes (chr C) = chr C /\ (escapable C = true -> plain_char C = true)).
Proof.
  unfold escapes. cbn [switch].
  repeat match goal with |- context [Ascii.eqb C ?d] =>
    destruct (Ascii.eqb_spec C d) as [->|?];
      [left; eexists; split; [reflexivity|split; vm_compute; done]|] end.
  right. split; [done|]. unfold escapable. rewrite orb_true_iff, bool_decide_eq_true.
  intros HC. destruct (plain_or_special C) as [|[Hlt|[->| ->]]]; [done|exfalso|done..].
  destruct HC as [HC|HC]; [bool_lia|].
  rewrite !elem_of_cons, elem_of_nil in HC.
  destruct HC as [H|[H|[H|[H|[H|[]]]]]];
    match type of H with code ?c = ?n => 
      let d := eval vm_compute in (byte_of n) in
      change n with (code d) in H; apply code_inj in H; done end.
Qed.

(** ** The text of a state *)

Definition mem (kt : string * string) : string := quoted kt.1 +:+ ":" +:+ kt.2.
Definition more (l : list (string * string)) : string :=
  foldr (λ kt u, "," +:+ mem kt +:+ u) EmptyString l.

Definition member_of (kt : string * string) (kv : string * json) : Prop :=
  json_chars kt.1 kv.1 /\ json_value kt.2 kv.2.

Lemma members_text kt l kv fs :
  member_of kt kv -> Forall2 member_of l fs -> json_members (mem kt +:+ more l) (kv :: fs).
Proof.
  intros Hm Hl. revert kt kv Hm.
  induction Hl as [|kt' kv' l fs Hm' Hl IH]; intros [k t] [k' v] [Hk Ht]; cbn in *.
  - rewrite sapp_nil_r. unfold mem. by constructor.
  - specialize (IH kt' kv' Hm'). unfold mem at 1. rewrite !sapp_assoc. by constructor.
Qed.

(** The members [print] writes, with their texts and their meaning. *)
Definition opt_member (b : bool) {A} (x : A) : list A := if b then [x] else [].

Definition state_texts (s : State) : list (string * string) :=
  [("id", quoted (jsonEscape (ContainerId s)));
   ("status", quoted (getStatusString (Status s)));
   ("bundle", quoted (jsonEscape (BundlePath s)));
   ("systemd-cgroup", print_bool (SystemdCgroup s))]
  ++ opt_member (has_pid (Status s)) ("pid", print_Z (Pid s))
  ++ opt_member (has_created (Status s)) ("created", quoted (CreatedTimestamp s))
  ++ opt_member (has_started (Status s)) ("started", quoted (StartedTimestamp s))
  ++ opt_member (has_finished (Status s)) ("exitCode", print_Z (ExitCode s))
  ++ opt_member (has_finished (Status s)) ("finished", quoted (FinishedTimestamp s)).

Definition state_members (s : State) : list (string * json) :=
  [("id", JString (ContainerId s));
   ("status", JString (getStatusString (Status s)));
   ("bundle", JString (BundlePath s));
   ("systemd-cgroup", JBool (SystemdCgroup s))]
  ++ opt_member (has_pid (Status s)) ("pid", JInt (Pid s))
  ++ opt_member (has_created (Status s)) ("created", JString (CreatedTimestamp s))
  ++ opt_member (has_started (Status s)) ("started", JString (StartedTimestamp s))
  ++ opt_member (has_finished (Status s)) ("exitCode", JInt (ExitCode s))
  ++ opt_member (has_finished (Status s)) ("finished", JString (FinishedTimestamp s)).

Definition state_json (s : State) : json :=
  JObject (("ociVersion", JString kOCIVersion) :: state_members s).

Lemma more_app l l' : more (l ++ l') = more l +:+ more l'.
Proof.
  unfold more. induction l as [|kt l IH]; [done|]. cbn. rewrite IH. by str_norm.
Qed.

Lemma more_opt b kt : more (opt_member b kt) = when b ("," +:+ mem kt).
Proof. destruct b; cbn; by rewrite ?sapp_nil_r. Qed.

Lemma when_app b s t : when b (s +:+ t) = when b s +:+ when b t.
Proof. by destruct b. Qed.

Lemma State_print_texts s :
  State_print s =
    ("{" +:+ (mem ("ociVersion", quoted kOCIVersion) +:+ more (state_texts s)) +:+ "}") +:+ chr "010".
Proof.
  unfold State_print, state_texts. rewrite !more_app, !more_opt, <- when_app.
  unfold more, mem, quoted. cbn [foldr fst snd]. rewrite !sapp_nil_r.
  str_norm. reflexivity.
Qed.

(** ** Well-formed states *)

(** Text that survives escaping and parsing. *)
Definition text_ok (s : string) : bool := valid_utf8 s && str_all escapable s.

(** What the container process keeps true of its state; the members are C++
    [int]s and the timestamps come from [strftime]. *)
Record wf_state (s : State) : Prop := {
  wf_id : text_ok (ContainerId s) = true;
  wf_bundle : text_ok (BundlePath s) = true;
  wf_created : str_all simple_char (CreatedTimestamp s) = true;
  wf_started : str_all simple_char (StartedTimestamp s) = true;
  wf_finished : str_all simple_char (FinishedTimestamp s) = true;
  wf_pid : in_type Int32 (Pid s);
  wf_exit : in_type Int32 (ExitCode s);
}.

Lemma jsonEscape_chars s : str_all escapable s = true -> json_chars (jsonEscape s) s.
Proof.
  induction s as [|C s IH]; [constructor|]. cbn [str_all]. rewrite andb_true_iff.
  intros [HC Hs]. rewrite jsonEscape_cons.
  destruct (escape_cases C) as [(e & -> & He & _)|[-> Hp]]; constructor; auto.
Qed.

Lemma high_pass C : 127 < code C -> switch C escapes (chr C) = chr C.
Proof.
  intros HC. apply switch_miss. cbn. intros Hin.
  repeat (apply elem_of_cons in Hin as [->|Hin]; [vm_compute in HC; congruence|]).
  by apply elem_of_nil in Hin.
Qed.

Lemma jsonEscape_high C s :
  127 < code C -> jsonEscape (String C s) = String C (jsonEscape s).
Proof. intros HC. by rewrite jsonEscape_cons, high_pass. Qed.

Lemma valid_utf8_cons C s :
  code C <= 127 -> valid_utf8 (String C s) = valid_utf8 s.
Proof. intros HC. cbn. apply Z.leb_le in HC. by rewrite HC. Qed.

Lemma cont_byte_high b : cont_byte b = true -> 127 < code b.
Proof. unfold cont_byte. intros. bool_lia. Qed.

Lemma jsonEscape_utf8 s : valid_utf8 s = true -> valid_utf8 (jsonEscape s) = true.
Proof.
  remember (String.length s) as n eqn:Hn. revert s Hn.
  induction (lt_wf n) as [n _ IH]; intros s ->.
  destruct s as [|a s1]; [done|].
  destruct (Z.leb_spec (code a) 127) as [Ha|Ha].
  { rewrite valid_utf8_cons by done. intros Hv%(IH (String.length s1)); [|simpl; lia|done].
    rewrite jsonEscape_cons.
    destruct (escape_cases a) as [(e & -> & _ & He)|[-> _]]; unfold escaped, chr;
      str_norm; rewrite !valid_utf8_cons by done; done. }
  rewrite jsonEscape_high by done. cbn [valid_utf8].
  destruct (Z.leb_spec (code a) 127); [lia|].
  destruct s1 as [|b s2]; [done|]. destruct ((194 <=? code a) && (code a <=? 223)).
  { rewrite andb_true_iff. intros [Hb Hv]. rewrite jsonEscape_high by (by apply cont_byte_high).
    rewrite Hb. apply (IH (String.length s2)); simpl; [lia|done|done]. }
  destruct s2 as [|c s3]; [done|]. destruct ((224 <=? code a) && (code a <=? 239)).
  { rewrite !andb_true_iff. intros [[[[Hb Hc] H1] H2] Hv].
    rewrite !jsonEscape_high by (by apply cont_byte_high). rewrite Hb, Hc, H1, H2.
    apply (IH (String.length s3)); simpl; [lia|done|done]. }
  destruct s3 as [|d s4]; [done|].
  destruct ((240 <=? code a) && (code a <=? 244)); [|done].
  rewrite !andb_true_iff. intros [[[[[Hb Hc] Hd] H1] H2] Hv].
  rewrite !jsonEscape_high by (by apply cont_byte_high). rewrite Hb, Hc, Hd, H1, H2.
  apply (IH (String.length s4)); simpl; [lia|done|done].
Qed.

Lemma simple_plain s : str_all simple_char s = true -> str_all plain_char s = true.
Proof.
  apply str_all_impl. unfold simple_char. intros c. by rewrite andb_true_iff; intros [].
Qed.

Lemma simple_utf8 s : str_all simple_char s = true -> valid_utf8 s = true.
Proof.
  intros H. apply valid_utf8_ascii. revert H. apply str_all_impl.
  unfold simple_char. intros c. by rewrite andb_true_iff; intros [].
Qed.

Lemma print_bool_utf8 b : valid_utf8 (print_bool b) = true.
Proof. by destruct b. Qed.

Lemma status_utf8 st : valid_utf8 (getStatusString st) = true.
Proof. by destruct st. Qed.

Lemma valid_utf8_app_2 s t :
  valid_utf8 s = true -> valid_utf8 t = true -> valid_utf8 (s +:+ t) = true.
Proof. intros Hs Ht. by rewrite valid_utf8_app. Qed.

Lemma when_utf8 b s : valid_utf8 s = true -> valid_utf8 (when b s) = true.
Proof. by destruct b. Qed.

#[export] Hint Resolve jsonEscape_utf8 simple_utf8 print_bool_utf8 status_utf8
  print_Z_simple : runw.

Lemma State_print_utf8 s : wf_state s -> valid_utf8 (State_print s) = true.
Proof.
  intros [Hid Hb Hc Hs Hf _ _]. unfold text_ok in *.
  apply andb_true_iff in Hid as [? _], Hb as [? _]. unfold State_print.
  repeat first [apply valid_utf8_app_2 | apply when_utf8]; auto with runw.
Qed.

Lemma state_members_text s :
  wf_state s -> Forall2 member_of (state_texts s) (state_members s).
Proof.
  intros [Hid Hb Hc Hs Hf Hp He]. unfold text_ok in *.
  apply andb_true_iff in Hid as [_ ?], Hb as [_ ?].
  assert (forall z, in_type Int32 z -> json_value (print_Z z) (JInt z)) as Hint.
  { intros z Hz. apply jv_int. revert Hz.
    unfold in_type, type_min, type_max, INT32_MIN, INT32_MAX, INT64_MIN, UINT64_MAX. lia. }
  assert (forall b k t v, json_chars k k -> json_value t v ->
    Forall2 member_of (opt_member b (k, t)) (opt_member b (k, v))) as Hopt.
  { intros [] k t v ??; repeat constructor; done. }
  assert (str_all simple_char (getStatusString (Status s)) = true) by (by destruct (Status s)).
  unfold state_texts, state_members.
  repeat first [apply Forall2_app | apply Hopt | apply Forall2_cons; split; [split|] | apply Forall2_nil];
    cbn [fst snd];
    repeat first [apply jv_string | apply jv_bool | apply Hint | apply json_chars_plain, simple_plain];
    auto using jsonEscape_chars.
Qed.

Lemma state_document s : wf_state s -> json_document (State_print s) (state_json s).
Proof.
  intros Hwf. rewrite State_print_texts. constructor; [|done].
  apply jv_object, members_text; [|by apply state_members_text].
  split; [by apply json_chars_plain|]. apply jv_string. by apply json_chars_plain.
Qed.

Lemma state_json_depth s : (json_depth (state_json s) <= 1024)%nat.
Proof.
  unfold state_json, state_members.
  destruct (has_pid _), (has_created _), (has_started _), (has_finished _); cbn; lia.
Qed.

(** ** Loading *)

(** What a loaded state keeps of the printed one: the members that are stored
    for its status; the others are those of the object loaded into. *)
Definition restore (s s0 : State) : State := {|
  ContainerId := ContainerId s;
  BundlePath := BundlePath s;
  CreatedTimestamp := (if has_created (Status s) then CreatedTimestamp s else CreatedTimestamp s0);
  StartedTimestamp := (if has_started (Status s) then StartedTimestamp s else StartedTimestamp s0);
  FinishedTimestamp := (if has_finished (Status s) then FinishedTimestamp s else FinishedTimestamp s0);
  Config := Config s0;
  Status := Status s;
  ExitCode := (if has_finished (Status s) then ExitCode s else ExitCode s0);
  Pid := (if has_pid (Status s) then Pid s else Pid s0);
  SystemdCgroup := SystemdCgroup s;
|}.

Lemma parseStatus_print st : st <> Unknown -> parseStatus (getStatusString st) = st.
Proof. by destruct st. Qed.

Section Load.
Context `{SJ : Simdjson} {LAWS : SimdjsonLaws}.

(** Reading one member of a represented object. *)
Lemma represents_key doc fs k i v :
  represents doc (JObject fs) -> list_find (λ jm, jm.1 = k) fs = Some (i, (k, v)) ->
  exists e, elem_at_key doc k = inr e /\ represents e v.
Proof.
  intros (es & Hes & Hall)%represents_object Hf. unfold elem_at_key. rewrite Hes.
  by destruct (at_key_represents es fs k (i, (k, v)) Hall Hf) as (e & ? & ?); exists e.
Qed.

Lemma load_string_key doc fs k i v :
  represents doc (JObject fs) -> list_find (λ jm, jm.1 = k) fs = Some (i, (k, JString v)) ->
  sj_bind (elem_at_key doc k) get_string = inr v.
Proof.
  intros Hr Hf. destruct (represents_key _ _ _ _ _ Hr Hf) as (e & -> & He).
  by apply represents_string.
Qed.

Lemma load_int_key doc fs k i v :
  represents doc (JObject fs) -> list_find (λ jm, jm.1 = k) fs = Some (i, (k, JInt v)) ->
  in_type Int32 v -> sj_bind (elem_at_key doc k) get_int64 = inr v.
Proof.
  intros Hr Hf Hv. destruct (represents_key _ _ _ _ _ Hr Hf) as (e & -> & He).
  apply represents_int64; [done|]. revert Hv.
  unfold in_type, type_min, type_max, INT32_MIN, INT32_MAX, INT64_MIN, INT64_MAX. lia.
Qed.

Lemma load_bool_key doc fs k i v :
  represents doc (JObject fs) -> list_find (λ jm, jm.1 = k) fs = Some (i, (k, JBool v)) ->
  sj_bind (elem_at_key doc k) get_bool = inr v.
Proof.
  intros Hr Hf. destruct (represents_key _ _ _ _ _ Hr Hf) as (e & -> & He).
  by apply represents_bool.
Qed.

Lemma load_document_represents s doc s0 :
  wf_state s -> Status s <> Unknown -> represents doc (state_json s) ->
  load_document doc s0 = (restore s s0, true).
Proof.
  intros [_ _ _ _ _ Hp He] Hst Hr. unfold load_document, load_version, load_status, load_string.
  unfold state_json in Hr.
  erewrite load_string_key by (exact Hr || reflexivity).
  erewrite load_string_key by (exact Hr || reflexivity).
  unfold and_then, modify. cbn -[parseStatus load_rest].
  rewrite parseStatus_print by done. rewrite bool_decide_false by done.
  cbn -[parseStatus load_rest]. unfold load_rest, load_string, restore.
  erewrite load_string_key by (exact Hr || reflexivity).
  erewrite load_string_key by (exact Hr || reflexivity).
  erewrite load_bool_key by (exact Hr || reflexivity).
  destruct s as [id bp ct st ft cf [] ec pid cg], s0; cbn in Hst; try done; cbn in Hp, He.
  all: cbn -[elem_at_key to_int32].
  all: repeat erewrite load_string_key by (exact Hr || reflexivity).
  all: repeat erewrite load_int_key by (exact Hr || reflexivity || done).
  all: cbn -[to_int32]; by rewrite ?to_int32_id by done.
Qed.

End Load.

(** Take a successful load apart. *)
Ltac load_inv H :=
  repeat match type of H with
    | and_then _ _ _ = (_, true) =>
        let s := fresh "s" in let H1 := fresh "H" in
        apply and_then_true in H as (s & H1 & H); load_inv H1
    | get_then _ _ _ = (_, true) =>
        let v := fresh "v" in apply get_then_true in H as (v & ? & H)
    | (if ?b then _ else _) _ = (_, true) => destruct b eqn:?; try done
    | modify _ _ = (_, true) => injection H as <-
    | ok _ = (_, true) => injection H as <-
    end.

(** What holds of every loaded state. *)
Lemma load_document_sound `{SJ : Simdjson} doc s0 s :
  load_document doc s0 = (s, true) ->
  Status s <> Unknown /\ Config s = Config s0 /\
  (if has_pid (Status s) then in_type Int32 (Pid s) else Pid s = Pid s0) /\
  (if has_finished (Status s) then in_type Int32 (ExitCode s) else ExitCode s = ExitCode s0).
Proof.
  unfold load_document, load_version, load_status, load_string. intros H.
  apply and_then_true in H as (s1 & H1 & H). load_inv H1.
  apply and_then_true in H as (s2 & H2 & H). load_inv H2.
  rewrite bool_decide_eq_false in *. unfold load_rest, load_string in H.
  cbn [Status set_field] in H. remember (parseStatus v0) as st eqn:Est.
  load_inv H; destruct s0; cbn in *; subst; simplify_eq/=.
  all: rewrite <- ?Est in *; split_and!; try done.
  all: repeat case_match; try done; apply to_int32_range.
Qed.

(** *** The whole of [State::load] *)

Section Run.
Context `{SJ : Simdjson} {W : Type} {OS : Os W} {L : OsLaws W}.

(** Where a loaded state comes from. *)
Definition loaded_from (f : files) (Path : string) (s0 s : State) : Prop :=
  exists text doc s1, f !! Path = Some (Reg text) /\ parse text = inr doc /\
    load_document doc s0 = (s1, true) /\ s = s1 <| Config := Config s |>.

Lemma json_load_spec {A} (I : W -> Prop) w p (k : sj_result element -> prog A) Q :
  I w ->
  (forall r w', files_of w' = files_of w ->
     (forall doc, r = inr doc ->
        exists text, files_of w !! p = Some (Reg text) /\ parse text = inr doc) ->
     spec I w' (k r) Q) ->
  spec I w (do_call (JsonLoad p) ≫= k) Q.
Proof.
  intros HI Hk. step_call as r w1 E1; [done|]. apply os_step in E1 as [Hf Hr].
  apply Hk; [done|]. intros doc ->. destruct Hr as (text & ? & Hp). eauto.
Qed.

Lemma Bundle_load_spec (I : W -> Prop) w b Path ConfigFileName :
  (forall w', files_of w' = files_of w -> I w') ->
  spec I w (Bundle_load b Path ConfigFileName) (λ o w',
    files_of w' = files_of w /\ exists b' r, o = Done (b', r)).
Proof.
  intros HI. unfold Bundle_load. apply json_load_spec; [by apply HI|].
  intros r w1 Hf _. apply spec_ret; [by apply HI|]. split; [done|].
  by destruct (get_then _ _ _) as [b' r']; eauto.
Qed.

Lemma loadBundle_spec (I : W -> Prop) w s ConfigFileName :
  (forall w', files_of w' = files_of w -> I w') ->
  spec I w (loadBundle s ConfigFileName) (λ o w',
    files_of w' = files_of w /\ exists b r, o = Done (s <| Config := b |>, r)).
Proof.
  intros HI. unfold loadBundle. apply spec_bind.
  eapply spec_mono; [|by apply Bundle_load_spec].
  intros o w1 (Hf & b & r & ->). cbn. apply spec_ret; eauto.
Qed.

(** [State::load] returns, leaves the files alone, and a state it reports as
    loaded comes from a document in the file. *)
Lemma State_load_spec (I : W -> Prop) w s0 Path ConfigFileName :
  (forall w', files_of w' = files_of w -> I w') ->
  spec I w (State_load s0 Path ConfigFileName) (λ o w',
    files_of w' = files_of w /\
    exists s r, o = Done (s, r) /\ (r = true -> loaded_from (files_of w) Path s0 s)).
Proof.
  intros HI. unfold State_load. apply json_load_spec; [by apply HI|].
  intros r w1 Hf Hr. destruct r as [err|doc].
  { apply spec_ret; [by apply HI|]. split; [done|]. by exists s0, false. }
  destruct (Hr doc eq_refl) as (text & Htext & Hp).
  destruct (load_document doc s0) as [s1 []] eqn:Hd.
  2:{ apply spec_ret; [by apply HI|]. split; [done|]. by exists s1, false. }
  eapply spec_mono; [|apply loadBundle_spec; intros w' Hw'; apply HI; congruence].
  intros o w2 (Hf2 & b & r & ->). split; [congruence|]. eexists _, _. split; [done|].
  intros _. exists text, doc, s1. by split_and!.
Qed.

(** The timestamp needs no escaping; the clock is the only thing asked. *)
Lemma timestamp_spec w :
  spec (λ _ : W, True) w timestamp (λ o _,
    o = UBehaviour \/ exists t, o = Done t /\ str_all simple_char t = true).
Proof.
  unfold timestamp. step_call as r w1 E1; [done|].
  destruct (format_time (ret r)) as [t|] eqn:Ht; cbn.
  - apply spec_ret; [done|]. right. exists t. split; [done|]. by eapply format_time_simple.
  - split; [by repeat constructor|]. by left.
Qed.

End Run.

(** ** Control characters *)

Lemma escape_char_escapable e c : escape_char e = Some c -> escapable c = true.
Proof.
  unfold escape_char. cbn [switch]. intros H.
  repeat (destruct (Ascii.eqb e _); [by injection H as <-|]). done.
Qed.

Lemma jsonEscape_bytes s :
  str_all json_byte (jsonEscape s) = true -> str_all escapable s = true.
Proof.
  induction s as [|C s IH]; [done|]. rewrite jsonEscape_cons, str_all_app, andb_true_iff.
  intros [HC Hs]. cbn [str_all]. rewrite IH, andb_true_r by done.
  destruct (escape_cases C) as [(e & _ & He & _)|[E _]]; [by eapply escape_char_escapable|].
  rewrite E in HC. cbn in HC. rewrite andb_true_r in HC. revert HC.
  unfold json_byte, is_ws, escapable. destruct (32 <=? code C) eqn:E32; [done|]. cbn [orb].
  intros HC. apply bool_decide_eq_true.
  assert (code C = 9 \/ code C = 10 \/ code C = 13) as [->|[->| ->]] by bool_lia; set_solver.
Qed.

(** ** Properties *)

(** The hash switch of [parseStatus] is the plain comparison with the four
    status strings. *)
Theorem parseStatus_spec s :
  parseStatus s =
    if String.eqb s "creating" then Creating
    else if String.eqb s "created" then Created
    else if String.eqb s "running" then Running
    else if String.eqb s "stopped" then Stopped
    else Unknown.
Proof.
  destruct (String.eqb_spec s "creating") as [->|]; [done|].
  destruct (String.eqb_spec s "created") as [->|]; [done|].
  destruct (String.eqb_spec s "running") as [->|]; [done|].
  destruct (String.eqb_spec s "stopped") as [->|]; [done|].
  unfold parseStatus, kStatusCreating, kStatusCreated, kStatusRunning, kStatusStopped.
  repeat case_match; try done;
    match goal with H : String.eqb _ _ = true |- _ => by apply String.eqb_eq in H end.
Qed.

(** [jsonEscape] writes a JSON string that denotes exactly its argument, and
    keeps UTF-8 well-formed, for every text without control characters other
    than the five with a two-character escape. *)
Theorem jsonEscape_correct s :
  str_all escapable s = true ->
  json_chars (jsonEscape s) s /\ (valid_utf8 s = true -> valid_utf8 (jsonEscape s) = true).
Proof. auto using jsonEscape_chars, jsonEscape_utf8. Qed.

Section Properties.
Context `{SJ : Simdjson} {LAWS : SimdjsonLaws}.

Lemma state_text_loads s :
  wf_state s -> Status s <> Unknown -> Z.of_nat (String.length (State_print s)) < 2 ^ 32 ->
  exists doc, parse (State_print s) = inr doc /\
    forall s0, load_document doc s0 = (restore s s0, true).
Proof.
  intros Hwf Hst Hlen.
  destruct (parse_document (State_print s) (state_json s)) as (doc & Hdoc & Hr);
    auto using state_document, State_print_utf8, state_json_depth.
  exists doc. split; [done|]. intros s0. by apply load_document_represents.
Qed.

(** C14: a printed state can be read back: for every well-formed state with a
    known status, the text [State::print] writes is accepted by the parser, and
    loading it into any state object succeeds and restores every member that is
    stored for that status. *)
Theorem State_print_load s :
  wf_state s -> Status s <> Unknown ->
  Z.of_nat (String.length (State_print s)) < 2 ^ 32 ->
  exists doc, parse (State_print s) = inr doc /\
    forall s0, load_document doc s0 = (restore s s0, true).
Proof. apply state_text_loads. Qed.

(** A container id or bundle path with a control character that has no
    two-character escape makes the state file unreadable: no conforming parser
    accepts the text that [State::print] writes. *)
Theorem State_print_control_chars s e :
  str_all escapable (ContainerId s) && str_all escapable (BundlePath s) = false ->
  parse (State_print s) <> inr e.
Proof.
  intros Hbad Hp. apply parse_bytes in Hp. unfold State_print in Hp.
  rewrite !str_all_app, !andb_true_iff in Hp. destruct_and!.
  by rewrite !jsonEscape_bytes in Hbad by done.
Qed.

End Properties.

Section Setters.
Context `{SJ : Simdjson} {W : Type} {OS : Os W}.

(** The state setters keep a state well-formed, whatever the clock says, so
    every state the container process prints can be read back. *)
Theorem setters_keep_wf s Code (w : W) :
  wf_state s -> in_type Int32 Code ->
  (forall s' w', run (setCreated s) w = (Done s', w') -> wf_state s' /\ Status s' = Created) /\
  (forall s' w', run (setRunning s) w = (Done s', w') -> wf_state s' /\ Status s' = Running) /\
  (forall s' w', run (setStopped s Code) w = (Done s', w') ->
     wf_state s' /\ Status s' = Stopped /\ ExitCode s' = Code).
Proof.
  intros [] HCode. pose proof (timestamp_spec (W := W) w) as [_ Ht].
  unfold setCreated, setRunning, setStopped.
  split_and!; intros s' w'; rewrite run_bind;
    destruct (run timestamp w) as [[t| | | |] w1]; try done; cbn in *;
    destruct Ht as [?|(t' & [= <-] & Ht)]; try done.
  - destruct (os_call (Px Getpid) w1) as [r w2]. cbn in *.
    intros [= <- <-]. destruct s. cbn in *. split; [|done]. split; try done.
    apply to_int32_range.
  - intros [= <- <-]. destruct s. cbn in *. by split.
  - intros [= <- <-]. destruct s. cbn in *. by split.
Qed.

End Setters.

(** C28: a state loaded into a fresh object has a known status; it has a process
    id only when the container is created or running, and that fits an [int];
    loading always returns and never changes a file. *)
Theorem State_load_sound `{SJ : Simdjson} `{OS : Os W} `{!OsLaws W} Path ConfigFileName (w : W) :
  exists s r w', run (State_load default_State Path ConfigFileName) w = (Done (s, r), w') /\
    files_of w' = files_of w /\
    (r = true -> Status s <> Unknown /\
       (0 <= Pid s -> Status s = Created \/ Status s = Running) /\
       in_type Int32 (Pid s) /\ in_type Int32 (ExitCode s)).
Proof.
  destruct (State_load_spec (λ _, True) w default_State Path ConfigFileName) as [_ Hq]; [done|].
  destruct (run _ w) as [o w']. cbn in Hq. destruct Hq as (Hf & s & r & -> & Hr).
  exists s, r, w'. split_and!; [done|done|]. intros Hr1.
  destruct (Hr Hr1) as (text & doc & s1 & _ & _ & Hd%load_document_sound & ->).
  destruct Hd as (Hst & _ & Hp & He). destruct s1; cbn in *.
  destruct Status; cbn in *; subst; split_and!; try done; auto; lia.
Qed.

(** *** The hypotheses can hold *)

(** An id that needs escaping: quote, backslash, tab and a two-byte character. *)
Definition demo_id : string :=
  String "c" (String dq (String backslash (String "009" (String "195" (chr "169"))))).

Definition demo_state : State :=
  (new_State demo_id "/bundle") <| Status := Stopped |> <| ExitCode := -3 |>
    <| CreatedTimestamp := "2021-01-02T03:04:05Z" |>
    <| StartedTimestamp := "2021-01-02T03:04:06Z" |>
    <| FinishedTimestamp := "2021-01-02T03:04:07Z" |> <| SystemdCgroup := true |>.

Lemma demo_state_wf : wf_state demo_state.
Proof. split; try (vm_compute; reflexivity); by unfold in_type; vm_compute. Qed.

Lemma jsonEscape_correct_witness :
  str_all escapable demo_id = true /\ json_chars (jsonEscape demo_id) demo_id.
Proof. split; [reflexivity|]. apply (jsonEscape_correct demo_id). reflexivity. Defined.

Lemma State_print_load_witness :
  exists doc, parse (State_print demo_state) = inr doc /\
    load_document doc default_State = (demo_state, true).
Proof.
  destruct (State_print_load demo_state) as (doc & Hp & Hl).
  - apply demo_state_wf.
  - discriminate.
  - vm_compute. reflexivity.
  - exists doc. split; [exact Hp|]. rewrite Hl. reflexivity.
Defined.

Lemma State_print_control_chars_witness :
  match parse (State_print (new_State (chr "001") "/bundle")) with inl _ => True | inr _ => False end.
Proof.
  destruct (parse (State_print (new_State (chr "001") "/bundle"))) as [err|e] eqn:E; [exact I|].
  apply (State_print_control_chars (new_State (chr "001") "/bundle") e); [reflexivity|exact E].
Defined.

Lemma setters_keep_wf_witness :
  exists s' w', run (setStopped demo_state 7) (sim_start plain_fs ∅) = (Done s', w') /\
    FinishedTimestamp s' = "1970-01-01T00:00:00Z" /\
    wf_state s' /\ Status s' = Stopped /\ ExitCode s' = 7.
Proof.
  eexists _, _. split; [vm_compute; reflexivity|]. split; [reflexivity|].
  eapply (setters_keep_wf demo_state 7 (sim_start plain_fs ∅)).
  - apply demo_state_wf.
  - by unfold in_type; vm_compute.
  - vm_compute. reflexivity.
Defined.
