(* ===== verification/SDBus.v ===== *)
(** The sd-bus wrappers: include/sdbus.h and src/sdbus.cpp.

    An [SDBus] or [SDBusMessage] object is the pointer it holds, 0 for
    [nullptr].  Its constructors, moves and [release] change pointers only and
    are functions, which also return what is left in the object moved from; its
    destructor is a call of [sd_bus_unref] or [sd_bus_message_unref], made also
    on [nullptr].  An [SDBusError] is the error number it stands for. *)
From S2P Require Import Prelude Cpp Path Json JsonRef Prog Sim.

(** [cxx20::expected<A, int>]. *)
Abbreviation expected A := (Z + A)%type.

Section SDBus.
Context `{SJ : Simdjson}.

(** [if (Err < 0) return unexpected(-Err); return {};] *)
Definition err_result (Err : Z) : expected unit :=
  if Err <? 0 then inl (- Err) else inr tt.

(** [auto Res = p; if (!Res) return Res;] with [cleanup] run before the return. *)
Definition on_ok {A B} (p : prog (expected A)) (cleanup : prog unit)
    (k : A -> prog (expected B)) : prog (expected B) :=
  r ← p;
  match r with
  | inl e => cleanup;; mret (inl e)
  | inr a => k a
  end.

(** ** The wrapper objects *)

Definition SDBus_default : Z := 0.
(** [SDBus(SDBus &&RHS)]: the new object, and [RHS] after it. *)
Definition SDBus_move (RHS : Z) : Z * Z := (RHS, 0).
(** [operator=(SDBus &&RHS)] swaps. *)
Definition SDBus_assign (this RHS : Z) : Z * Z := (RHS, this).
Definition SDBus_destroy (Bus : Z) : prog unit := do_call (Sd (SdUnref Bus)).

Definition SDBusMessage_default : Z := 0.
Definition SDBusMessage_of (Msg : Z) : Z := Msg.
Definition SDBusMessage_move (RHS : Z) : Z * Z := (RHS, 0).
Definition SDBusMessage_assign (this RHS : Z) : Z * Z := (RHS, this).
(** The pointer, and the object after it. *)
Definition SDBusMessage_release (this : Z) : Z * Z := (this, 0).
Definition SDBusMessage_destroy (Msg : Z) : prog unit := do_call (Sd (SdMsgUnref Msg)).

Definition SDBusError_default : Z := 0.
Definition SDBusError_getErrNo (this : Z) : Z := this.
Definition SDBusError_destroy (this : Z) : prog unit := do_call (Sd SdErrorFree).

(** ** SDBus *)

(** [sd_bus_default_user(&Bus.Bus)] stores the bus when it succeeds; the local
    object is moved into the result and then destroyed. *)
Definition defaultUser : prog (expected Z) :=
  let Bus := SDBus_default in
  '(Err, Opened) ← do_call (Sd SdDefaultUser) : prog (Z * Z);
  if Err <? 0 then SDBus_destroy Bus;; mret (inl (- Err))
  else
    let '(Res, Bus) := SDBus_move Opened in
    SDBus_destroy Bus;; mret (inr Res).
Definition defaultSystem : prog (expected Z) :=
  let Bus := SDBus_default in
  '(Err, Opened) ← do_call (Sd SdDefaultSystem) : prog (Z * Z);
  if Err <? 0 then SDBus_destroy Bus;; mret (inl (- Err))
  else
    let '(Res, Bus) := SDBus_move Opened in
    SDBus_destroy Bus;; mret (inr Res).

Definition matchSignalAsync (Bus : Z) (Sender Path Interface Member : string) : prog (expected unit) :=
  Err ← do_call (Sd (SdMatchSignalAsync Bus Sender Path Interface Member)) : prog Z;
  mret (err_result Err).

(** The callback wraps the message it is given, which the bus still owns, and
    the wrapper is destroyed at the end.  The state [S] is what the
    [std::function] captures. *)
Definition matchSignalAsyncCallback {S} (Callback : S -> Z -> prog (S * Z))
    (s : S) (Msg : Z) : prog (S * Z) :=
  let Message := SDBusMessage_of Msg in
  r ← Callback s Message;
  SDBusMessage_destroy Message;;
  mret r.

(** The temporary is moved from before it is destroyed. *)
Definition methodCall (Bus : Z) (Destination Path Interface Member : string) : prog (expected Z) :=
  '(Err, Msg) ← do_call (Sd (SdNewMethodCall Bus Destination Path Interface Member)) : prog (Z * Z);
  if Err <? 0 then mret (inl (- Err))
  else
    let '(Res, Temp) := SDBusMessage_move (SDBusMessage_of Msg) in
    SDBusMessage_destroy Temp;; mret (inr Res).

(** [Message] is a parameter, destroyed after the local [Error]; the failed call
    stores its error in [Error], and the successful one overwrites [Msg]. *)
Definition SDBus_call (Bus Message USec : Z) : prog (expected Z) :=
  let '(Msg, Message) := SDBusMessage_release Message in
  let Error := SDBusError_default in
  '(Err, Reply, ErrNo) ← do_call (Sd (SdCall Bus Msg USec)) : prog (Z * Z * Z);
  if Err <? 0 then
    let Error := ErrNo in
    let Res := inl (SDBusError_getErrNo Error) in
    SDBusError_destroy Error;; SDBusMessage_destroy Message;; mret Res
  else
    let '(Res, Temp) := SDBusMessage_move (SDBusMessage_of Reply) in
    SDBusMessage_destroy Temp;; SDBusError_destroy Error;; SDBusMessage_destroy Message;; mret (inr Res).

(** The bus may dispatch a signal message to the callback while it processes. *)
Definition SDBus_process {S} (Callback : S -> Z -> prog (S * Z)) (s : S) (Bus : Z) :
    prog (S * expected bool) :=
  '(Err, msg) ← do_call (Sd (SdProcess Bus)) : prog (Z * option Z);
  s ← match msg with
      | Some m => '(s, _) ← matchSignalAsyncCallback Callback s m; mret s
      | None => mret s
      end;
  mret (s, if Err <? 0 then inl (- Err) else inr (0 <? Err)).

Definition SDBus_wait (Bus TimeoutUSec : Z) : prog (expected unit) :=
  Err ← do_call (Sd (SdWait Bus TimeoutUSec)) : prog Z;
  mret (err_result Err).

(** ** SDBusMessage *)

Definition SDBusMessage_read (Msg : Z) (Types : string) : prog (expected (list sd_arg)) :=
  '(Err, args) ← do_call (Sd (SdMsgRead Msg Types)) : prog (Z * list sd_arg);
  mret (if Err <? 0 then inl (- Err) else inr args).

Definition SDBusMessage_append (Msg : Z) (Types : string) (Args : list sd_arg) : prog (expected unit) :=
  Err ← do_call (Sd (SdMsgAppend Msg Types Args)) : prog Z;
  mret (err_result Err).

Definition openContainer (Msg : Z) (Type_ : ascii) (Contents : string) : prog (expected unit) :=
  Err ← do_call (Sd (SdMsgOpenContainer Msg Type_ Contents)) : prog Z;
  mret (err_result Err).

Definition closeContainer (Msg : Z) : prog (expected unit) :=
  Err ← do_call (Sd (SdMsgCloseContainer Msg)) : prog Z;
  mret (err_result Err).

End SDBus.

(** ** Properties *)

Section Properties.
Context `{SJ : Simdjson} {W : Type} {OS : Os W}.

(** [SDBus::call] takes over the message it sends but never releases it:
    whatever sd-bus answers, the only releases it makes are of null. *)
Theorem SDBus_call_leaks Bus Message USec (w : W) :
  Message <> 0 -> Sd (SdMsgUnref Message) ∉ calls (SDBus_call Bus Message USec) w.
Proof.
  intros Hm Hin.
  assert (all_calls (λ c, c <> Sd (SdMsgUnref Message)) (SDBus_call Bus Message USec)) as Hall.
  { unfold SDBus_call. cbn. split; [done|]. intros [[Err Reply] ErrNo].
    destruct (Err <? 0); cbn; repeat split; congruence. }
  eapply all_calls_run in Hall. eapply Forall_forall in Hall; eauto.
Qed.

(** The signal callback releases the message that it was only lent: every run
    of it that returns ends with a release of that message. *)
Theorem matchSignalAsyncCallback_releases {S} (Callback : S -> Z -> prog (S * Z)) s Msg (w : W) r w' :
  run (matchSignalAsyncCallback Callback s Msg) w = (Done r, w') ->
  last (calls (matchSignalAsyncCallback Callback s Msg) w) = Some (Sd (SdMsgUnref Msg)).
Proof.
  unfold matchSignalAsyncCallback, SDBusMessage_of. cbv zeta. rewrite run_bind, calls_bind, last_app.
  destruct (run (Callback s Msg) w) as [[[s' z]| | | |] w1]; try done. cbn.
  by destruct (os_call (Sd (SdMsgUnref Msg)) w1).
Qed.

End Properties.

Lemma SDBus_call_leaks_witness :
  Sd (SdMsgUnref 5) ∉ calls (SJ := ref_simdjson) (SDBus_call 1 5 0) (sim_start plain_fs ∅).
Proof. apply (SDBus_call_leaks 1 5 0 (sim_start plain_fs ∅)). discriminate. Defined.

Lemma matchSignalAsyncCallback_releases_witness :
  last (calls (SJ := ref_simdjson) (matchSignalAsyncCallback (λ (s : unit) m, mret (s, 0)) tt 5)
    (sim_start plain_fs ∅)) = Some (Sd (SdMsgUnref 5)).
Proof.
  eapply (matchSignalAsyncCallback_releases (SJ := ref_simdjson)
    (λ (s : unit) m, mret (s, 0)) tt 5 (sim_start plain_fs ∅)).
  vm_compute. reflexivity.
Defined.
