(* ===== verification/CGroup.v ===== *)
(** Cgroups through systemd: include/cgroup.h and src/cgroup.cpp.  [enter] asks
    systemd for a transient scope unit and waits for the job; [finalize] finds
    the cgroup of the process. *)
From S2P Require Import Prelude Cpp Path Json JsonRef Loader Prog Logic Sim Bundle Time State SDBus.

Inductive Mode : Set := Mode_Unknown | Unified | Legacy | Hybird.

#[global] Instance Mode_eq_dec : EqDecision Mode.
Proof. solve_decision. Defined.

Definition kCgroup2SuperMagic : Z := 1667723888.   (* 0x63677270 *)
Definition kTmpFsMagic : Z := 16914836.            (* 0x01021994 *)

(** ** The unit and slice names *)

(** [Scope] and [Slice] of [CGroup::enter]. *)
Definition scope_slice (ContainerId CgroupsPath : string) : string * string :=
  if is_empty CgroupsPath then ("runw-" +:+ ContainerId +:+ ".scope", EmptyString)
  else
    match find_char ":" CgroupsPath 0 with
    | None => (CgroupsPath +:+ ".scope", CgroupsPath)
    | Some FirstColon =>
        let Scope := substr_from CgroupsPath (FirstColon + 1) in
        let Scope :=
          match find_char ":" Scope (FirstColon + 1) with
          | Some SecondColon => str_set Scope SecondColon "-"
          | None => Scope
          end in
        (Scope +:+ ".scope", substr CgroupsPath 0 FirstColon)
    end.

Section CGroup.
Context `{SJ : Simdjson}.

(** ** Modes *)

(** [statfs(Path, &Stat)]: the result and [f_type]. *)
Definition checkMode : prog Mode :=
  '(r, f_type) ← do_call (Px (Statfs "/sys/fs/cgroup")) : prog (sysret * Z);
  if ret r <? 0 then mret Mode_Unknown
  else if f_type =? kCgroup2SuperMagic then mret Unified
  else if negb (f_type =? kTmpFsMagic) then mret Mode_Unknown
  else
    '(r, f_type) ← do_call (Px (Statfs "/sys/fs/cgroup/unified")) : prog (sysret * Z);
    if (ret r <? 0) && negb (errno r =? ENOENT) then mret Mode_Unknown
    else if ret r <? 0 then mret Legacy
    else if f_type =? kCgroup2SuperMagic then mret Hybird
    else mret Legacy.

(** The loop of [readAll] from position [off]; at most [fuel] blocks. *)
Fixpoint read_blocks (fuel : nat) (Path : string) (off : Z) (Content : string) : prog string :=
  match fuel with
  | O => Fuel
  | S fuel =>
      block ← do_call (Fs (FilebufSgetn Path off 4096)) : prog string;
      if is_empty block then mret Content
      else read_blocks fuel Path (off + Z.of_nat (String.length block)) (Content +:+ block)
  end.

Definition readAll (fuel : nat) (Path : string) : prog (expected string) :=
  err ← do_call (Fs (FilebufOpen Path)) : prog errc;
  if negb (err =? 0) then mret (inl err)
  else Content ← read_blocks fuel Path 0 EmptyString; mret (inr Content).

(** ** Waiting for the job *)

(** The members of [JobStatusChecker] that its callback changes. *)
Record Flags := { Job_Terminated : bool; Job_Error : bool }.

Definition setup (Bus : Z) : prog (expected unit) :=
  matchSignalAsync Bus "org.freedesktop.systemd1" "/org/freedesktop/systemd1"
    "org.freedesktop.systemd1.Manager" "JobRemoved".

(** The callback; a successful read stores its four results. *)
Definition Callback (Path : string) (f : Flags) (Msg : Z) : prog (Flags * Z) :=
  r ← SDBusMessage_read Msg "uoss";
  match r with
  | inl _ => mret (f, -1)
  | inr [AInt MId; AStr MPath; AStr MUnit; AStr MResult] =>
      mret (if String.eqb Path MPath then
              Build_Flags true (Job_Error f || negb (String.eqb MResult "done"))
            else f, 0)
  | inr _ => Undef
  end.

(** [JobStatusChecker::check]: [while (!Terminated)], at most [fuel] rounds. *)
Fixpoint check_loop (fuel : nat) (Bus : Z) (Path : string) (f : Flags) : prog (expected Flags) :=
  if Job_Terminated f then mret (inr f)
  else
    match fuel with
    | O => Fuel
    | S fuel =>
        '(f, Res) ← SDBus_process (Callback Path) f Bus;
        match Res with
        | inl e => mret (inl e)
        | inr true => check_loop fuel Bus Path f
        | inr false =>
            Res ← SDBus_wait Bus UINT64_MAX;
            match Res with
            | inl e => mret (inl e)
            | inr _ => check_loop fuel Bus Path f
            end
        end
    end.

Definition check (fuel : nat) (Bus : Z) (Path : string) : prog (expected unit) :=
  r ← check_loop fuel Bus Path (Build_Flags false false);
  mret match r with
       | inl e => inl e
       | inr f => if Job_Error f then inl EFAULT else inr tt
       end.

(** ** [CGroup::enter] *)

(** The result [Res] is destroyed at the end of the statement. *)
Definition open_bus : prog (expected Z) :=
  let Bus := SDBus_default in
  Res ← defaultUser;
  match Res with
  | inr Res => let '(Bus, Res) := SDBus_assign Bus Res in SDBus_destroy Res;; mret (inr Bus)
  | inl _ =>
      Res ← defaultSystem;
      match Res with
      | inr Res => let '(Bus, Res) := SDBus_assign Bus Res in SDBus_destroy Res;; mret (inr Bus)
      | inl e => SDBus_destroy Bus;; mret (inl e)
      end
  end.

(** The arguments of StartTransientUnit. *)
Definition fill_message (Msg : Z) (Scope Slice : string) (Pid : Z) : prog (expected unit) :=
  let nothing := mret tt in
  on_ok (SDBusMessage_append Msg "ss" [AStr Scope; AStr "fail"]) nothing (λ _,
  on_ok (openContainer Msg "a" "(sv)") nothing (λ _,
  on_ok (if is_empty Slice then mret (inr tt)
         else SDBusMessage_append Msg "(sv)" [AStr "Slice"; AStr "s"; AStr Slice]) nothing (λ _,
  on_ok (SDBusMessage_append Msg "(sv)" [AStr "Description"; AStr "s"; AStr "runw container"])
    nothing (λ _,
  on_ok (SDBusMessage_append Msg "(sv)" [AStr "PIDs"; AStr "au"; AInt 1; AInt Pid]) nothing (λ _,
  on_ok (SDBusMessage_append Msg "(sv)" [AStr "Delegate"; AStr "b"; AInt 1]) nothing (λ _,
  on_ok (closeContainer Msg) nothing (λ _,
  SDBusMessage_append Msg "a(sa(sv))" [ANull]))))))).

(** Lines 130-235: everything between opening the bus and destroying it. *)
Definition enter_with_bus (fuel : nat) (ContainerId : string) (s : State) (Bus : Z) :
    prog (expected unit) :=
  on_ok (setup Bus) (mret tt) (λ _,
  let Msg := SDBusMessage_default in
  on_ok (methodCall Bus "org.freedesktop.systemd1" "/org/freedesktop/systemd1"
           "org.freedesktop.systemd1.Manager" "StartTransientUnit")
    (SDBusMessage_destroy Msg) (λ Res,
  let '(Msg, Res) := SDBusMessage_assign Msg Res in
  SDBusMessage_destroy Res;;
  let '(Scope, Slice) := scope_slice ContainerId (CgroupsPath (Config s)) in
  on_ok (fill_message Msg Scope Slice (Pid s)) (SDBusMessage_destroy Msg) (λ _,
  let '(Message, Msg) := SDBusMessage_move Msg in
  on_ok (SDBus_call Bus Message 0) (SDBusMessage_destroy Msg) (λ Res,
  let '(Msg, Res) := SDBusMessage_assign Msg Res in
  SDBusMessage_destroy Res;;
  on_ok (SDBusMessage_read Msg "o") (SDBusMessage_destroy Msg) (λ args,
  match args with
  | [AStr Object] =>
      Res ← check fuel Bus Object;
      SDBusMessage_destroy Msg;;
      mret Res
  | _ => Undef
  end))))).

Definition enter (fuel : nat) (ContainerId : string) (s : State) : prog (expected unit) :=
  on_ok open_bus (mret tt) (λ Bus,
    scope_exit (enter_with_bus fuel ContainerId s Bus) (λ _, SDBus_destroy Bus)).

(** ** [CGroup::finalize] *)

(** The line of /proc/<pid>/cgroup after [mark]; [skip] is what is added to the
    position of [mark]. *)
Definition find_line (Content mark : string) (skip : nat) : expected string :=
  match find_str mark Content 0 with
  | None => inl EINVAL
  | Some From =>
      let From := (From + skip)%nat in
      match find_char "010" Content From with
      | None => inl EINVAL
      | Some To => inr (substr Content From (To - From))
      end
  end.

(** The path it finds is not used further. *)
Definition finalize (fuel : nat) (CGroupMode : Mode) (s : State) : prog (expected unit) :=
  if bool_decide (CGroupMode = Mode_Unknown) then mret (inl EINVAL)
  else
    let CgroupPath := path_append (path_append "/proc" (print_Z (Pid s))) "cgroup" in
    Res ← readAll fuel CgroupPath;
    match Res with
    | inl e => mret (inl e)
    | inr Content =>
        match (if bool_decide (CGroupMode = Legacy) then find_line Content ":memory" 8
               else find_line Content "0::" 3) with
        | inl e => mret (inl e)
        | inr Path =>
            (if bool_decide (CGroupMode = Unified) then mret tt
             else _ ← do_call (Px Geteuid) : prog sysret; mret tt);;
            mret (inr tt)
        end
    end.

End CGroup.

(** ** Lemmas *)

Definition no_char (c : ascii) (s : string) : Prop := str_all (λ d, negb (Ascii.eqb c d)) s = true.

Lemma prefix_chr c d s : String.prefix (chr c) (String d s) = Ascii.eqb c d.
Proof.
  unfold chr. rewrite sprefix_cons.
  destruct (Ascii.ascii_dec c d) as [->|Hne]; [by rewrite Ascii.eqb_refl; destruct s|].
  symmetry. by apply Ascii.eqb_neq.
Qed.

Lemma find_char_none c s pos : no_char c s -> find_char c s pos = None.
Proof.
  unfold find_char, no_char. revert pos. induction s as [|d s IH]; intros pos; [by destruct pos|].
  cbn [str_all]. rewrite andb_true_iff, negb_true_iff. intros [Hd Hs].
  destruct pos as [|pos]; cbn [String.index]; [rewrite prefix_chr, Hd|]; by rewrite IH.
Qed.

Lemma find_char_hit c s t pos :
  no_char c s -> (pos <= String.length s)%nat ->
  find_char c (s +:+ String c t) pos = Some (String.length s).
Proof.
  unfold find_char, no_char. revert pos. induction s as [|d s IH]; intros pos.
  - rewrite sapp_nil_l. intros _ Hp. destruct pos; [|cbn in Hp; lia].
    cbn [String.index]. by rewrite prefix_chr, Ascii.eqb_refl.
  - rewrite sapp_cons. cbn [str_all String.length].
    rewrite andb_true_iff, negb_true_iff. intros [Hd Hs] Hp.
    destruct pos as [|pos]; cbn [String.index]; [rewrite prefix_chr, Hd|];
      by rewrite IH by (done || lia).
Qed.

Lemma find_char_past c s t pos :
  no_char c t -> (String.length s < pos)%nat -> find_char c (s +:+ String c t) pos = None.
Proof.
  intros Ht. unfold find_char. revert pos. induction s as [|d s IH]; intros pos Hp.
  - rewrite sapp_nil_l. destruct pos as [|pos]; [cbn in Hp; lia|]. cbn [String.index].
    by rewrite (find_char_none c t pos Ht : String.index _ _ _ = _).
  - rewrite sapp_cons. destruct pos as [|pos]; [lia|]. cbn [String.index].
    rewrite IH; [done|]. cbn in Hp. lia.
Qed.

Lemma substr_after s t : substr_from (s +:+ t) (String.length s) = t.
Proof.
  unfold substr_from. rewrite slength_app.
  replace (String.length s + String.length t - String.length s)%nat with (String.length t) by lia.
  induction s as [|c s IH]; [by rewrite sapp_nil_l; apply substring_all|].
  by rewrite sapp_cons.
Qed.

Lemma substr_before s t : substr (s +:+ t) 0 (String.length s) = s.
Proof.
  unfold substr. induction s as [|c s IH]; [by destruct t|].
  rewrite sapp_cons. cbn. by rewrite IH.
Qed.

Lemma str_set_app s c d t :
  str_set (s +:+ String c t) (String.length s) d = s +:+ String d t.
Proof. induction s as [|e s IH]; [done|]. rewrite !sapp_cons. cbn. by rewrite IH. Qed.

(** ** Reading in blocks *)

Lemma substring_length off n s :
  String.length (String.substring off n s) = Nat.min n (String.length s - off).
Proof.
  revert off n. induction s as [|c s IH]; intros off n.
  - destruct off, n; cbn; lia.
  - destruct off as [|off]; [|cbn; by rewrite IH].
    destruct n as [|n]; cbn; [lia|]. rewrite IH. lia.
Qed.

Lemma substring_split off n s :
  String.substring 0 off s +:+ String.substring off n s = String.substring 0 (off + n) s.
Proof.
  revert off. induction s as [|c s IH]; intros off.
  - destruct off; cbn; [done|]. by destruct n.
  - destruct off as [|off]; [done|]. cbn. rewrite sapp_cons. by rewrite IH.
Qed.

Lemma substring_full n s : (String.length s <= n)%nat -> String.substring 0 n s = s.
Proof.
  revert n. induction s as [|c s IH]; intros n Hn; [by destruct n|].
  destruct n as [|n]; cbn in *; [lia|]. by rewrite IH by lia.
Qed.

Lemma substring_tail off n s :
  (String.length s - off <= n)%nat ->
  String.substring off n s = String.substring off (String.length s - off) s.
Proof.
  revert off. induction s as [|c s IH]; intros off Hn; [by destruct off, n|].
  destruct off as [|off]; [|by apply IH]. rewrite Nat.sub_0_r in *.
  rewrite substring_full by done. by rewrite substring_all.
Qed.

Section Blocks.
Context `{SJ : Simdjson} {W : Type} {OS : Os W} {L : OsLaws W}.

(** From position [off], enough rounds read the rest of the file. *)
Lemma read_blocks_spec fuel Path s (off : nat) (w : W) :
  files_of w !! Path = Some (Reg s) -> (off <= String.length s)%nat ->
  (String.length s - off <= 4096 * fuel)%nat ->
  exists w', run (read_blocks (S fuel) Path (Z.of_nat off) (String.substring 0 off s)) w
    = (Done s, w') /\ files_of w' = files_of w.
Proof.
  revert off w. induction fuel as [|fuel IH]; intros off w Hs Hoff Hfuel;
    cbn; destruct (os_call (Fs (FilebufSgetn Path (Z.of_nat off) 4096)) w) as [block w1] eqn:E;
    apply os_step in E as [Hf Hb]; cbn in block; specialize (Hb s Hs);
    rewrite Nat2Z.id in Hb; pose proof (substring_length off (Z.to_nat 4096) s) as Hlen;
    rewrite <- Hb in Hlen.
  - destruct block as [|c block]; [|cbn in Hlen; lia]. cbn.
    rewrite substring_full by lia. eauto.
  - destruct (is_empty block) eqn:Hem.
    { destruct block; [|done]. cbn in Hlen. cbn. rewrite substring_full by lia. eauto. }
    assert (0 < String.length block)%nat by (destruct block; [done|cbn; lia]).
    assert (String.substring 0 off s +:+ block
            = String.substring 0 (off + String.length block) s) as ->.
    { rewrite <- substring_split. f_equal. rewrite Hb, substring_length.
      destruct (Nat.le_gt_cases (Z.to_nat 4096) (String.length s - off)) as [|Hgt].
      - by rewrite Nat.min_l by lia.
      - rewrite Nat.min_r by lia. apply substring_tail; lia. }
    rewrite <- Nat2Z.inj_add.
    destruct (IH (off + String.length block)%nat w1) as (w' & Hr & Hw);
      [by rewrite Hf|lia|lia|]. exists w'. split; [done|congruence].
Qed.

End Blocks.

(** ** The job *)

Section Job.
Context `{SJ : Simdjson}.

(** systemd reported that the job at [Path] ended with result "done". *)
Definition done_seen (Path : string) (h : list event) : Prop :=
  exists m Err MId MUnit, 0 <= Err /\
    (existT (P := resp) (Sd (SdMsgRead m "uoss"))
       (Err, [AInt MId; AStr Path; AStr MUnit; AStr "done"]) : event) ∈ h.

Lemma done_seen_mono Path h h' : h ⊆ h' -> done_seen Path h -> done_seen Path h'.
Proof. intros Hs (m & Err & i & u & ? & ?). exists m, Err, i, u. split; [done|]. by apply Hs. Qed.

(** The flags record a "done" faithfully. *)
Definition flags_ok (Path : string) (f : Flags) (h : list event) : Prop :=
  Job_Terminated f = true -> Job_Error f = false -> done_seen Path h.

Lemma Callback_accepts Path f Msg h :
  flags_ok Path f h ->
  accepts hist_step h (Callback Path f Msg) (λ r h', flags_ok Path r.1 h').
Proof.
  intros Hf. unfold Callback, SDBusMessage_read. cbn. intros [Err args].
  eexists. split; [done|].
  assert (flags_ok Path f (h ++ [existT (P := resp) (Sd (SdMsgRead Msg "uoss")) (Err, args)])) as Hf'.
  { intros ??. eapply done_seen_mono; [|by apply Hf]. set_solver. }
  destruct (Z.ltb_spec Err 0); cbn; [done|].
  destruct args as [|[|MId|] [|[MPath| |] [|[MUnit| |] [|[MResult| |] []]]]]; cbn; try done.
  destruct (String.eqb_spec Path MPath) as [<-|]; [|done].
  intros _. cbn. rewrite orb_false_iff, negb_false_iff, String.eqb_eq. intros [_ ->].
  exists Msg, Err, MId, MUnit. split; [done|]. set_solver.
Qed.

Lemma flags_ok_mono Path f h h' : h ⊆ h' -> flags_ok Path f h -> flags_ok Path f h'.
Proof. intros Hs Hf ??. eapply done_seen_mono; [done|by apply Hf]. Qed.

Lemma process_accepts Path f Bus h :
  flags_ok Path f h ->
  accepts hist_step h (SDBus_process (Callback Path) f Bus) (λ r h', flags_ok Path r.1 h').
Proof.
  intros Hf. unfold SDBus_process. apply accepts_hist_call. intros [Err msg].
  apply (flags_ok_mono _ _ _ (h ++ [existT (P := resp) (Sd (SdProcess Bus)) (Err, msg)])) in Hf;
    [|set_solver].
  apply accepts_bind. apply (accepts_mono _ _ _ (λ f' h', flags_ok Path f' h')); [done|].
  destruct msg as [m|]; [|done]. unfold matchSignalAsyncCallback. do 2 apply accepts_bind.
  eapply accepts_mono; [|by apply Callback_accepts].
  intros [f1 z] h1 Hf1. apply accepts_hist_call. intros [].
  eapply flags_ok_mono; [|exact Hf1]. set_solver.
Qed.

Lemma check_loop_accepts fuel Bus Path f h :
  flags_ok Path f h ->
  accepts hist_step h (check_loop fuel Bus Path f) (λ r h', forall f', r = inr f' ->
    Job_Error f' = false -> done_seen Path h').
Proof.
  revert f h. induction fuel as [|fuel IH]; intros f h Hf; cbn [check_loop];
    destruct (Job_Terminated f) eqn:Ht; try done;
    try (by intros f' [= <-]; apply Hf).
  apply accepts_bind. eapply accepts_mono; [|by apply process_accepts].
  intros [f1 [e|[]]] h1 Hf1; [done|by apply IH|].
  unfold SDBus_wait. apply accepts_bind, accepts_hist_call. intros Err.
  unfold err_result. destruct (Err <? 0); [done|].
  apply IH. eapply flags_ok_mono; [|exact Hf1]. set_solver.
Qed.

Lemma check_accepts fuel Bus Path h :
  accepts hist_step h (check fuel Bus Path) (λ r h', r = inr tt -> done_seen Path h').
Proof.
  unfold check. apply accepts_bind.
  eapply accepts_mono; [|by apply check_loop_accepts]. intros [e|f] h' Hr; cbn; [done|].
  destruct (Job_Error f) eqn:E; [done|]. intros _. by eapply Hr.
Qed.

End Job.

(** ** The bus *)

(** The ownership of the bus connection, as an automaton: it is used only
    between being opened and being released, and released once.  [NullBus] is a
    connection reported as opened with a null pointer, which sd-bus does not
    do; nothing is asked of what follows it. *)
Inductive bus_state : Set := NoBus | Held (b : Z) | Released | NullBus.

Definition bus_open (st : bus_state) (Err b : Z) : option bus_state :=
  match st with
  | NoBus => Some (if Err <? 0 then NoBus else if b =? 0 then NullBus else Held b)
  | NullBus => Some NullBus
  | _ => None
  end.

Definition bus_use (st : bus_state) (b : Z) : option bus_state :=
  match st with
  | Held b' => if b =? b' then Some st else None
  | NullBus => Some NullBus
  | _ => None
  end.

Definition bus_release (st : bus_state) (b : Z) : option bus_state :=
  if b =? 0 then Some st
  else match st with
       | Held b' => if b =? b' then Some Released else None
       | NullBus => Some NullBus
       | _ => None
       end.

Section Bus.
Context `{SJ : Simdjson}.

Definition bus_step (st : bus_state) (e : event) : option bus_state :=
  match projT1 e as c return resp c -> option bus_state with
  | Sd SdDefaultUser => λ '(Err, b), bus_open st Err b
  | Sd SdDefaultSystem => λ '(Err, b), bus_open st Err b
  | Sd (SdUnref b) => λ _, bus_release st b
  | Sd (SdMatchSignalAsync b _ _ _ _) => λ _, bus_use st b
  | Sd (SdNewMethodCall b _ _ _ _) => λ _, bus_use st b
  | Sd (SdCall b _ _) => λ _, bus_use st b
  | Sd (SdProcess b) => λ _, bus_use st b
  | Sd (SdWait b _) => λ _, bus_use st b
  | _ => λ _, Some st
  end (projT2 e).

Definition bus_rel (st : bus_state) (e : event) (st' : bus_state) : Prop :=
  bus_step st e = Some st'.

Lemma on_ok_calls {A B} P (p : prog (expected A)) cl (k : A -> prog (expected B)) :
  all_calls P p -> all_calls P cl -> (forall a, all_calls P (k a)) -> all_calls P (on_ok p cl k).
Proof. intros. unfold on_ok. calls_walk; auto. Qed.

Lemma check_calls P fuel Bus Path :
  (forall m, P (Sd (SdMsgRead m "uoss")) /\ P (Sd (SdMsgUnref m))) ->
  P (Sd (SdProcess Bus)) -> (forall t, P (Sd (SdWait Bus t))) ->
  all_calls P (check fuel Bus Path).
Proof.
  intros Hm Hp Hw. unfold check. calls_walk. generalize (Build_Flags false false).
  induction fuel as [|fuel IH]; intros f; cbn [check_loop];
    unfold SDBus_process, matchSignalAsyncCallback, Callback, SDBusMessage_read,
      SDBusMessage_destroy, SDBus_wait; calls_walk; try apply Hm; auto.
Qed.

(** [enter] talks to sd-bus only. *)
Lemma enter_calls (P : call -> Prop) fuel Cid s : (forall c, P (Sd c)) -> all_calls P (enter fuel Cid s).
Proof.
  intros HP. unfold enter, open_bus, defaultUser, defaultSystem, scope_exit, enter_with_bus, setup,
    matchSignalAsync, methodCall, fill_message, SDBus_call, openContainer, closeContainer,
    SDBusMessage_read, SDBusMessage_append, SDBusMessage_destroy, SDBus_destroy.
  repeat first [apply on_ok_calls; [| |intros ?] | progress calls_walk | apply check_calls]; done.
Qed.

Lemma enter_with_bus_idle fuel Id s b :
  all_calls (idle bus_rel (Held b)) (enter_with_bus fuel Id s b).
Proof.
  assert (forall r, bus_use (Held b) b = r -> r = Some (Held b)) as Hu
    by (cbn; rewrite Z.eqb_refl; congruence).
  unfold enter_with_bus, setup, matchSignalAsync, methodCall, fill_message, SDBus_call,
    openContainer, closeContainer, SDBusMessage_read, SDBusMessage_append, SDBusMessage_destroy.
  repeat first [apply on_ok_calls; [| |intros ?] | progress calls_walk | apply check_calls];
    try (by split; intros ?); intros; try intros ?; first [done | by apply Hu].
Qed.

End Bus.

(** ** Sequences that may fail *)

Section Enter.
Context `{SJ : Simdjson}.

Lemma on_ok_accepts {A B} h (p : prog (expected A)) cl (k : A -> prog (expected B)) Q :
  (forall e h', Q (inl e) h') ->
  accepts hist_step h p (λ r h', forall a, r = inr a -> accepts hist_step h' (k a) Q) ->
  accepts hist_step h (on_ok p cl k) Q.
Proof.
  intros HQ Hp. unfold on_ok. apply accepts_bind. eapply accepts_mono; [|exact Hp].
  intros [e|a] h' Hk; [|by apply Hk]. apply accepts_bind, accepts_hist_any. intros. apply HQ.
Qed.

Lemma on_ok_skip {A B} h (p : prog (expected A)) cl (k : A -> prog (expected B)) Q :
  (forall e h', Q (inl e) h') -> (forall a h', accepts hist_step h' (k a) Q) ->
  accepts hist_step h (on_ok p cl k) Q.
Proof. intros HQ Hk. apply on_ok_accepts, accepts_hist_any; auto. Qed.

(** The reply to StartTransientUnit named a job and the job is done. *)
Definition job_done (h : list event) : Prop :=
  exists bus msg reply Err Err' ErrNo Object,
    (existT (P := resp) (Sd (SdCall bus msg 0)) (Err, reply, ErrNo) : event) ∈ h /\
    (existT (P := resp) (Sd (SdMsgRead reply "o")) (Err', [AStr Object]) : event) ∈ h /\
    0 <= Err /\ 0 <= Err' /\ done_seen Object h.

Lemma job_done_mono h h' : h ⊆ h' -> job_done h -> job_done h'.
Proof.
  intros Hs (bus & msg & reply & Err & Err' & ErrNo & Object & ? & ? & ? & ? & Hd).
  exists bus, msg, reply, Err, Err', ErrNo, Object.
  split_and!; [by apply Hs|by apply Hs|done|done|by eapply done_seen_mono].
Qed.

Lemma enter_with_bus_job fuel Id s Bus h :
  accepts hist_step h (enter_with_bus fuel Id s Bus) (λ r h', r = inr tt -> job_done h').
Proof.
  unfold enter_with_bus. do 2 (apply on_ok_skip; [done|]; intros ? ?).
  apply accepts_hist_call. intros []. destruct (scope_slice _ _) as [Scope Slice].
  apply on_ok_skip; [done|]. intros _ h3.
  apply on_ok_accepts; [done|]. unfold SDBus_call at 1. apply accepts_hist_call.
  intros [[Err Reply] ErrNo]. destruct (Z.ltb_spec Err 0);
    [do 2 (apply accepts_hist_call; intros []); done|].
  do 3 (apply accepts_hist_call; intros []). intros ? [= <-]. apply accepts_hist_call. intros [].
  apply on_ok_accepts; [done|]. unfold SDBusMessage_read. apply accepts_hist_call.
  intros [Err' args]. intros args'. destruct (Z.ltb_spec Err' 0); [done|]. intros [= <-].
  destruct args as [|[Object| |] []]; try done. apply accepts_bind.
  eapply accepts_mono; [|apply accepts_hist_grows, check_accepts].
  intros r h4 [Hr Hs]. apply accepts_hist_call. intros [] ->.
  exists Bus, a0, Reply, Err, Err', ErrNo, Object. split_and!; [| |done|done|].
  - apply elem_of_app. left. apply Hs. set_solver.
  - apply elem_of_app. left. apply Hs. set_solver.
  - eapply done_seen_mono; [|by apply Hr]. set_solver.
Qed.

Lemma null_bus_idle {A} (p : prog A) : all_calls (idle bus_rel NullBus) p.
Proof.
  induction p as [a|c k IH| | | |]; cbn; try done. split; [|done]. intros r.
  destruct c as [| |[]| |]; try done; try (by destruct r).
  cbn. unfold bus_rel. cbn. unfold bus_release. by case_match.
Qed.

Lemma open_bus_accepts :
  accepts bus_rel NoBus open_bus (λ r st,
    match r with
    | inl _ => st = NoBus
    | inr b => st = NullBus \/ (st = Held b /\ b <> 0)
    end).
Proof.
  assert (forall (st : bus_state) (k : unit -> prog (expected Z)) Q,
    accepts bus_rel st (k tt) Q -> accepts bus_rel st (SDBus_destroy 0 ≫= k) Q) as Hnull.
  { intros st k Q Hk. apply accepts_call. intros []. exists st. by split. }
  unfold open_bus, defaultUser, defaultSystem, SDBus_move, SDBus_assign, SDBus_default. cbv zeta.
  apply accepts_bind, accepts_call. intros [Err b]. eexists. split; [reflexivity|].
  destruct (Err <? 0); apply Hnull.
  - apply accepts_bind, accepts_call. intros [Err2 b2]. eexists. split; [reflexivity|].
    destruct (Err2 <? 0); apply Hnull, Hnull; [done|]. destruct (Z.eqb_spec b2 0); cbn; auto.
  - apply Hnull. destruct (Z.eqb_spec b 0); cbn; auto.
Qed.

End Enter.

(** ** Properties *)

(** C31: the unit and slice of a path slice:prefix:name.  The slice is the part
    before the first colon; the second colon is replaced by a dash only when the
    prefix is longer than the slice, because its position is looked up in the
    rest of the path but counted from the start of the path. *)
Theorem scope_slice_colons Id slice prefix name :
  no_char ":" slice -> no_char ":" prefix -> no_char ":" name ->
  scope_slice Id (slice +:+ ":" +:+ prefix +:+ ":" +:+ name) =
    (prefix +:+ (if (String.length slice <? String.length prefix)%nat then "-" else ":")
       +:+ name +:+ ".scope", slice).
Proof.
  intros Hs Hp Hn. unfold scope_slice.
  assert (is_empty (slice +:+ ":" +:+ prefix +:+ ":" +:+ name) = false) as -> by (by destruct slice).
  change (":" +:+ prefix +:+ ":" +:+ name) with (String ":" (prefix +:+ String ":" name)).
  rewrite find_char_hit by (done || lia). rewrite substr_before.
  replace (slice +:+ String ":" (prefix +:+ String ":" name)) with
    ((slice +:+ ":") +:+ (prefix +:+ String ":" name)) by (by rewrite sapp_assoc).
  replace (String.length slice + 1)%nat with (String.length (slice +:+ ":"))
    by (by rewrite slength_app).
  rewrite substr_after, slength_app. cbn [String.length].
  destruct (Nat.ltb_spec (String.length slice) (String.length prefix)).
  - rewrite find_char_hit by (done || lia). rewrite str_set_app. by rewrite sapp_assoc.
  - rewrite find_char_past by (done || lia). by rewrite sapp_assoc.
Qed.

Section Properties.
Context `{SJ : Simdjson} {W : Type} {OS : Os W}.

(** C20: [CGroup::enter] succeeds only after systemd has reported the result
    "done" for the very job that the reply to StartTransientUnit named. *)
Theorem enter_waits_for_job fuel Id s (w : W) w' :
  run (enter fuel Id s) w = (Done (inr tt), w') ->
  job_done (trace (enter fuel Id s) w).
Proof.
  intros Hr.
  eapply (accepts_hist_run _ (λ r h, r = inr tt -> job_done h)); [|exact Hr|done].
  unfold enter. apply on_ok_skip; [done|]. intros Bus h. unfold scope_exit. apply accepts_bind.
  eapply accepts_mono; [|apply enter_with_bus_job].
  intros r h1 H1. apply accepts_hist_call. intros [] Hr'.
  eapply job_done_mono; [|by apply H1]. set_solver.
Qed.

(** C23: [CGroup::enter] uses the bus connection only between opening and
    releasing it, opens at most one at a time, and has released every
    connection it opened when it returns. *)
Theorem enter_releases_bus fuel Id s (w : W) :
  exists st, steps bus_rel NoBus (trace (enter fuel Id s) w) st /\
    forall r w', run (enter fuel Id s) w = (Done r, w') -> forall b, st <> Held b.
Proof.
  destruct (accepts_run bus_rel NoBus (enter fuel Id s) (λ _ st, forall b, st <> Held b) w)
    as (st & ? & HQ); [|exists st; eauto].
  unfold enter. unfold on_ok at 1. apply accepts_bind.
  eapply accepts_mono; [|apply open_bus_accepts].
  intros [e|b] st Hst; [by subst st|].
  unfold scope_exit. apply accepts_bind. destruct Hst as [->|[-> Hb]].
  - eapply accepts_mono; [|apply accepts_idle, null_bus_idle].
    intros ? ? ->. apply accepts_call. intros []. exists NullBus. split; [|done].
    unfold bus_rel. cbn. unfold bus_release. by destruct (b =? 0).
  - eapply accepts_mono; [|apply accepts_idle, enter_with_bus_idle].
    intros ? ? ->. apply accepts_call. intros []. exists Released. split; [|done].
    unfold bus_rel. cbn. unfold bus_release. rewrite Z.eqb_refl. by destruct (Z.eqb_spec b 0).
Qed.

End Properties.

(** C32: reading /proc/<pid>/cgroup in blocks of 4096 bytes gives the whole file:
    with enough rounds for its length, [readAll] returns the error number of
    the open or the complete contents. *)
Theorem cgroup_readAll_spec `{SJ : Simdjson} `{OS : Os W} `{!OsLaws W} fuel Path s (w : W) :
  files_of w !! Path = Some (Reg s) -> (String.length s <= 4096 * fuel)%nat ->
  exists r w', run (readAll (S fuel) Path) w = (Done r, w') /\ files_of w' = files_of w /\
    (r = inr s \/ exists e, e <> 0 /\ r = inl e).
Proof.
  intros Hs Hfuel. unfold readAll. cbn [mbind prog_mbind].
  pose proof (os_effect (Fs (FilebufOpen Path)) w) as He. cbn in He.
  cbn -[read_blocks]. destruct (os_call (Fs (FilebufOpen Path)) w) as [err w1].
  destruct He as [Hf _]. cbn in Hf.
  destruct (Z.eqb_spec err 0) as [->|Hne]; cbn -[read_blocks]; [|eauto 10].
  change (prog_bind ?f ?p) with (p ≫= f). rewrite run_bind.
  destruct (read_blocks_spec fuel Path s 0 w1) as (w' & Hr & Hw); [by rewrite Hf|lia|lia|].
  assert (String.substring 0 0 s = EmptyString) as E0 by (by destruct s).
  rewrite E0 in Hr. change (Z.of_nat 0) with 0 in Hr. rewrite Hr. cbn.
  eexists _, _. split_and!; [done|congruence|by left].
Qed.

(** *** The hypotheses can hold *)

(** The example of the option's description: the second colon stays. *)
Lemma scope_slice_colons_witness :
  scope_slice "c1" "system.slice:runc:434234" = ("runc:434234.scope", "system.slice").
Proof.
  apply (scope_slice_colons "c1" "system.slice" "runc" "434234"); reflexivity.
Defined.

Lemma enter_waits_for_job_witness :
  job_done (trace (enter 1 "c1" default_State) (sim_start plain_fs ∅)).
Proof.
  eapply (enter_waits_for_job 1 "c1" default_State (sim_start plain_fs ∅)).
  vm_compute. reflexivity.
Defined.

Lemma cgroup_readAll_spec_witness :
  exists r w', run (readAll 2 "/c") (sim_start plain_fs {[ "/c" := Reg "0::/user" ]}) = (Done r, w') /\
    r = inr "0::/user".
Proof.
  destruct (cgroup_readAll_spec 1 "/c" "0::/user"
    (sim_start plain_fs {[ "/c" := Reg "0::/user" ]})) as (r & w' & Hr & _ & [->|(e & He & ->)]).
  - reflexivity.
  - cbn. lia.
  - exists (inr "0::/user"), w'. split; [exact Hr|reflexivity].
  - exfalso. vm_compute in Hr. discriminate.
Defined.
