(* ===== verification/CGroupRefs.v ===== *)
(** References to sd-bus messages in [CGroup::enter]: what is acquired, released
    and handed over, for every message and every answer of sd-bus. *)
From S2P Require Import Prelude Cpp Path Json JsonRef Loader Prog Logic Sim Bundle Time State SDBus CGroup.

Section Refs.
Context `{SJ : Simdjson}.

(** Whether a call acquires a reference to the message [m]: it makes the
    message, it returns it as a reply, or it lends it to the callback. *)
Definition acquires (m : Z) (e : event) : Z :=
  match projT1 e as c return resp c -> Z with
  | Sd (SdNewMethodCall _ _ _ _ _) => λ '(Err, Msg), Z.b2z ((0 <=? Err) && (Msg =? m))
  | Sd (SdCall _ _ _) => λ '(Err, Reply, _), Z.b2z ((0 <=? Err) && (Reply =? m))
  | Sd (SdProcess _) => λ '(_, msg), match msg with Some Msg => Z.b2z (Msg =? m) | None => 0 end
  | _ => λ _, 0
  end (projT2 e).
(** Whether it releases one, or hands one over to be sent. *)
Definition releases (m : Z) (e : event) : Z :=
  match projT1 e with Sd (SdMsgUnref Msg) => Z.b2z (Msg =? m) | _ => 0 end.
Definition sends (m : Z) (e : event) : Z :=
  match projT1 e with Sd (SdCall _ Msg _) => Z.b2z (Msg =? m) | _ => 0 end.

Fixpoint total (g : event -> Z) (t : list event) : Z :=
  match t with [] => 0 | e :: t => g e + total g t end.

(** The references that are held. *)
Definition held_step (m : Z) (d : Z) (e : event) (d' : Z) : Prop :=
  d' = d + acquires m e - releases m e - sends m e.

Lemma steps_total m d t d' :
  steps (held_step m) d t d' ->
  d' = d + total (acquires m) t - total (releases m) t - total (sends m) t.
Proof.
  induction 1 as [|d e d1 t d2 Hstep _ IH]; cbn [total]; [lia|].
  unfold held_step in Hstep. lia.
Qed.

Context (m : Z) (Hm : m <> 0).
Local Abbreviation acc := (accepts (held_step m)).

Lemma held_call {B} d c (d' : resp c -> Z) (f : resp c -> prog B) Q :
  (forall r, held_step m d (existT (P := resp) c r) (d' r)) ->
  (forall r, acc (d' r) (f r) Q) -> acc d (do_call c ≫= f) Q.
Proof. intros Hs Hf. apply accepts_call. intros r. exists (d' r). auto. Qed.

(** Calls that leave all references alone. *)
Definition no_ref (c : call) : bool :=
  match c with
  | Sd (SdNewMethodCall _ _ _ _ _) | Sd (SdCall _ _ _) | Sd (SdProcess _) | Sd (SdMsgUnref _) => false
  | _ => true
  end.

Lemma no_ref_idle d c : no_ref c = true -> idle (held_step m) d c.
Proof. intros Hc r. unfold held_step. destruct c as [| |[]| |]; cbn; try done; lia. Qed.

Lemma no_ref_seq {A B} d (p : prog A) (f : A -> prog B) Q :
  all_calls (λ c, no_ref c = true) p -> (forall a, acc d (f a) Q) -> acc d (p ≫= f) Q.
Proof.
  intros Hp Hf. eapply accepts_seq; [apply accepts_idle|].
  - eapply all_calls_mono; [|exact Hp]. intros c. apply no_ref_idle.
  - intros a ? ->. apply Hf.
Qed.

Lemma destroy_seq {B} d Msg (f : unit -> prog B) Q :
  acc (d - Z.b2z (Msg =? m)) (f tt) Q -> acc d (SDBusMessage_destroy Msg ≫= f) Q.
Proof.
  intros Hf. apply (held_call _ _ (λ _, d - Z.b2z (Msg =? m))); [|by intros []].
  intros r. unfold held_step. cbn. lia.
Qed.

Lemma destroy_null {B} d (f : unit -> prog B) Q :
  acc d (f tt) Q -> acc d (SDBusMessage_destroy 0 ≫= f) Q.
Proof.
  intros Hf. apply destroy_seq. destruct (Z.eqb_spec 0 m); [congruence|]. cbn. by rewrite Z.sub_0_r.
Qed.

(** ** Waiting for the job *)

Lemma process_held Path f Bus d :
  acc d (SDBus_process (Callback Path) f Bus) (λ _ d', d' = d).
Proof.
  unfold SDBus_process.
  apply (held_call _ (Sd (SdProcess Bus)) (λ r : Z * option Z, d + match r.2 with Some Msg => Z.b2z (Msg =? m) | None => 0 end)).
  { intros [Err [Msg|]]; unfold held_step; cbn; lia. }
  intros [Err [Msg|]]; cbn [snd]; [|by rewrite Z.add_0_r].
  apply accepts_bind, accepts_bind. unfold matchSignalAsyncCallback, SDBusMessage_of. cbv zeta.
  apply no_ref_seq.
  { unfold Callback, SDBusMessage_read. calls_walk; done. }
  intros [f1 z]. apply destroy_seq. cbn. lia.
Qed.

Lemma check_held fuel Bus Path d : acc d (check fuel Bus Path) (λ _ d', d' = d).
Proof.
  unfold check. eapply accepts_seq with (P := λ _ d', d' = d); [|by intros [] ? ->].
  generalize (Build_Flags false false). induction fuel as [|fuel IH]; intros f; cbn [check_loop];
    destruct (Job_Terminated f); try done.
  eapply accepts_seq; [apply process_held|]. intros [f1 [e|[]]] ? ->; [done|apply IH|].
  apply no_ref_seq; [unfold SDBus_wait; calls_walk; done|]. intros [e|[]]; [done|apply IH].
Qed.

(** ** [enter] *)

Lemma on_ok_seq {A B} d (p : prog (expected A)) cl (k : A -> prog (expected B)) Q P :
  acc d p P ->
  (forall e d', P (inl e) d' -> acc d' (cl ≫= λ _, mret (inl e)) Q) ->
  (forall a d', P (inr a) d' -> acc d' (k a) Q) -> acc d (on_ok p cl k) Q.
Proof. intros Hp He Hk. unfold on_ok. eapply accepts_seq; [exact Hp|]. intros [e|a] d' HP; auto. Qed.

Lemma on_ok_idle {A B} d (p : prog (expected A)) cl (k : A -> prog (expected B)) Q :
  all_calls (λ c, no_ref c = true) p ->
  (forall e, acc d (cl ≫= λ _, mret (inl e)) Q) -> (forall a, acc d (k a) Q) -> acc d (on_ok p cl k) Q.
Proof. intros Hp He Hk. unfold on_ok. apply no_ref_seq; [done|]. intros [e|a]; auto. Qed.

Lemma methodCall_held Bus a b c e d :
  acc d (methodCall Bus a b c e) (λ r d', d' = d + match r with inr Msg => Z.b2z (Msg =? m) | inl _ => 0 end).
Proof.
  unfold methodCall, SDBusMessage_move, SDBusMessage_of.
  apply (held_call _ (Sd (SdNewMethodCall Bus a b c e)) (λ r : Z * Z, d + Z.b2z ((0 <=? r.1) && (r.2 =? m)))).
  { intros [Err Msg]. unfold held_step. cbn. lia. }
  intros [Err Msg]. cbn [fst snd]. destruct (Z.ltb_spec Err 0), (Z.leb_spec 0 Err); try lia; cbn [andb].
  - done.
  - by apply destroy_null.
Qed.

Lemma SDBus_call_held Bus Message USec d :
  acc d (SDBus_call Bus Message USec) (λ r d',
    d' = d - Z.b2z (Message =? m) + match r with inr Msg => Z.b2z (Msg =? m) | inl _ => 0 end).
Proof.
  unfold SDBus_call, SDBusMessage_release, SDBusMessage_move, SDBusMessage_of. cbv zeta.
  apply (held_call _ (Sd (SdCall Bus Message USec)) (λ r : Z * Z * Z, d - Z.b2z (Message =? m) + Z.b2z ((0 <=? r.1.1) && (r.1.2 =? m)))).
  { intros [[Err Reply] ErrNo]. unfold held_step. cbn. lia. }
  intros [[Err Reply] ErrNo]. cbn [fst snd].
  destruct (Z.ltb_spec Err 0), (Z.leb_spec 0 Err); try lia; cbn [andb].
  - apply no_ref_seq; [by apply all_calls_do|]. intros _. by apply destroy_null.
  - apply destroy_null, no_ref_seq; [by apply all_calls_do|]. intros _. by apply destroy_null.
Qed.

Lemma enter_with_bus_held fuel Id s Bus : acc 0 (enter_with_bus fuel Id s Bus) (λ _ d', d' = 0).
Proof.
  unfold enter_with_bus, SDBusMessage_assign, SDBusMessage_move, SDBusMessage_default. cbv zeta.
  apply on_ok_idle; [unfold setup, matchSignalAsync; calls_walk; done|done|]. intros _.
  eapply on_ok_seq; [apply methodCall_held|by intros e ? ->; apply destroy_null|]. intros Msg ? ->.
  apply destroy_null. destruct (scope_slice _ _) as [Scope Slice].
  assert (forall (k : expected unit) (x : Z), acc (0 + Z.b2z (x =? m)) (SDBusMessage_destroy x ≫= λ _, mret k) (λ _ d', d' = 0))
    as Hfree by (intros k x; apply destroy_seq; cbn; lia).
  apply on_ok_idle; [|by intros e; apply Hfree|].
  { unfold fill_message, openContainer, closeContainer, SDBusMessage_append.
    repeat first [apply on_ok_calls; [| |intros ?] | progress calls_walk]; done. }
  intros _. eapply on_ok_seq; [apply SDBus_call_held|intros e ? ->; apply destroy_null; cbn; lia|].
  intros Reply ? ->. apply destroy_null.
  replace (0 + Z.b2z (Msg =? m) - Z.b2z (Msg =? m) + Z.b2z (Reply =? m)) with (0 + Z.b2z (Reply =? m)) by lia.
  apply on_ok_idle; [unfold SDBusMessage_read; calls_walk; done|by intros e; apply Hfree|].
  intros args. destruct args as [|[Object| |] []]; try done.
  eapply accepts_seq; [apply check_held|]. intros Res ? ->. apply Hfree.
Qed.

Lemma enter_held fuel Id s : acc 0 (enter fuel Id s) (λ _ d', d' = 0).
Proof.
  unfold enter. apply on_ok_idle; [|done|].
  { unfold open_bus, defaultUser, defaultSystem, SDBus_destroy, SDBus_move, SDBus_assign. calls_walk; done. }
  intros Bus. unfold scope_exit. eapply accepts_seq; [apply enter_with_bus_held|].
  intros r ? ->. apply no_ref_seq; [by apply all_calls_do|done].
Qed.

End Refs.

(** ** Property *)

(** C35: Every reference that [CGroup::enter] gets to a message is released exactly
    once, or handed to [sd_bus_call] and not released: for every message, the
    references to new messages, to replies and to signal messages lent to the
    callback are as many as those released and those sent, on every path. *)
Theorem enter_message_references `{SJ : Simdjson} `{OS : Os W} fuel Id s (w : W) r w' m :
  m <> 0 -> run (enter fuel Id s) w = (Done r, w') ->
  let t := trace (enter fuel Id s) w in
  total (acquires m) t = total (releases m) t + total (sends m) t.
Proof.
  intros Hm Hrun t. destruct (accepts_run (held_step m) 0 (enter fuel Id s) (λ _ d, d = 0) w) as (d & Hst & HQ);
    [by apply enter_held|].
  specialize (HQ _ _ Hrun). apply steps_total in Hst. subst t. lia.
Qed.

(** When every call succeeds: the request is made, sent and not released. *)
Lemma enter_message_references_witness :
  let t := trace (SJ := ref_simdjson) (enter 1 "c1" default_State) (sim_start plain_fs ∅) in
  (total (acquires 1004) t, total (releases 1004) t, total (sends 1004) t) = (1, 0, 1) /\
  total (acquires 1004) t = total (releases 1004) t + total (sends 1004) t.
Proof.
  split; [vm_compute; reflexivity|].
  eapply (enter_message_references (SJ := ref_simdjson) 1 "c1" default_State (sim_start plain_fs ∅) (inr tt));
    [discriminate|]. vm_compute. reflexivity.
Defined.
