(* ===== verification/Job.v ===== *)
(** The wait for the systemd job comes to its end.

    [check_loop] goes on until systemd reports the end of the job, so whether it
    ends depends on what the bus delivers.  The class [JobBus] says what sd-bus
    and systemd document: the signals come in order, a wait is over when there is
    something to process, and the job that StartTransientUnit names is among
    those that are reported as removed. *)
From S2P Require Import Prelude Cpp Path Json JsonRef Loader Prog Logic Sim Bundle Time State SDBus CGroup.

(** The contents of a JobRemoved signal. *)
Record job_removed := { jr_id : Z; jr_path : string; jr_unit : string; jr_result : string }.

(** The signal as [sd_bus_message_read] reads it with the types "uoss". *)
Definition jr_args (j : job_removed) : list sd_arg :=
  [AInt (jr_id j); AStr (jr_path j); AStr (jr_unit j); AStr (jr_result j)].

(** What [check] is to return: the first signal about the job decides. *)
Fixpoint job_result (Path : string) (q : list (option job_removed)) : option (expected unit) :=
  match q with
  | [] => None
  | Some j :: q =>
      if String.eqb Path (jr_path j)
      then Some (if String.eqb (jr_result j) "done" then inr tt else inl EFAULT)
      else job_result Path q
  | None :: q => job_result Path q
  end.

(** The calls that neither dispatch a message nor wait for one. *)
Definition quiet (c : sd_call) : Prop :=
  match c with SdProcess _ | SdWait _ _ => False | _ => True end.

(** [queue]: what the bus is going to dispatch, in order, [None] standing for a
    message without callback; [waits]: a bound on the waits this takes; [lent]:
    the signals that were dispatched; [named]: the job a reply names. *)
Class JobBus `{SJ : Simdjson} (W : Type) {OS : Os W} := {
  queue : W -> list (option job_removed);
  waits : W -> nat;
  lent : W -> Z -> option job_removed;
  named : W -> Z -> option string;
  jb_process b w Err msg w' :
    queue w <> [] -> os_call (Sd (SdProcess b)) w = ((Err, msg), w') ->
    (Err < 0 /\ msg = None) \/
    (Err = 0 /\ msg = None /\ queue w' = queue w /\ waits w' = waits w /\ (0 < waits w)%nat) \/
    (0 < Err /\ exists x, queue w = x :: queue w' /\ (waits w' <= waits w)%nat /\
      match x with Some j => exists m, msg = Some m /\ lent w' m = Some j | None => msg = None end);
  jb_wait b t w Err w' :
    queue w <> [] -> (0 < waits w)%nat -> os_call (Sd (SdWait b t)) w = (Err, w') ->
    Err < 0 \/ queue w' = queue w /\ (waits w' < waits w)%nat;
  jb_quiet c w r w' :
    quiet c -> os_call (Sd c) w = (r, w') -> queue w' = queue w /\ waits w' = waits w;
  jb_named c w r w' m Object :
    quiet c -> os_call (Sd c) w = (r, w') -> named w m = Some Object -> named w' m = Some Object;
  jb_lent m j w Err args w' :
    lent w m = Some j -> os_call (Sd (SdMsgRead m "uoss")) w = ((Err, args), w') ->
    0 <= Err /\ args = jr_args j;
  jb_call b m t w Err Reply ErrNo w' :
    os_call (Sd (SdCall b m t)) w = ((Err, Reply, ErrNo), w') -> 0 <= Err ->
    exists Object r, named w' Reply = Some Object /\ job_result Object (queue w') = Some r;
  jb_object m Object w Err args w' :
    named w m = Some Object -> os_call (Sd (SdMsgRead m "o")) w = ((Err, args), w') ->
    0 <= Err -> args = [AStr Object];
}.

(** ** Programs that return *)

Section Returns.
Context `{SJ : Simdjson} {W : Type} {OS : Os W}.

(** [p] returns from [w] a result that satisfies [Q], with the world and the
    history of calls after it. *)
Fixpoint returns {A} (p : prog A) (Q : A -> list event -> W -> Prop) (t : list event) (w : W) : Prop :=
  match p with
  | Ret a => Q a t w
  | Call c k => let '(r, w') := os_call c w in returns (k r) Q (t ++ [existT (P := resp) c r]) w'
  | _ => False
  end.

Lemma returns_run {A} (p : prog A) Q t w :
  returns p Q t w -> exists a w', run p w = (Done a, w') /\ Q a (t ++ trace p w) w'.
Proof.
  revert t w. induction p as [a|c k IH| | | |]; intros t w Hp; cbn in *; try done.
  - exists a, w. by rewrite app_nil_r.
  - destruct (os_call c w) as [r w']. destruct (IH _ _ _ Hp) as (a & w2 & ? & HQ).
    exists a, w2. split; [done|]. by rewrite <- app_assoc in HQ.
Qed.

Lemma returns_bind {A B} (p : prog A) (g : A -> prog B) Q t w :
  returns p (λ a t' w', returns (g a) Q t' w') t w -> returns (p ≫= g) Q t w.
Proof.
  revert t w. induction p as [a|c k IH| | | |]; intros t w Hp; cbn in *; try done.
  destruct (os_call c w) as [r w']. by apply IH.
Qed.

Lemma returns_mono {A} (p : prog A) (Q Q' : A -> list event -> W -> Prop) t w :
  (forall a t' w', Q a t' w' -> Q' a t' w') -> returns p Q t w -> returns p Q' t w.
Proof.
  intros HQ. revert t w. induction p as [a|c k IH| | | |]; intros t w Hp; cbn in *; try done; [by apply HQ|].
  destruct (os_call c w) as [r w']. by apply IH.
Qed.

Lemma returns_call {A} c (k : resp c -> prog A) Q t w :
  (forall r w', os_call c w = (r, w') -> returns (k r) Q (t ++ [existT (P := resp) c r]) w') ->
  returns (do_call c ≫= k) Q t w.
Proof. intros Hk. cbn. destruct (os_call c w) as [r w'] eqn:E. by apply Hk. Qed.

Lemma on_ok_returns {A B} (p : prog (expected A)) cl (k : A -> prog (expected B)) Q t w :
  returns p (λ r t' w', match r with
                        | inl e => returns cl (λ _, Q (inl e)) t' w'
                        | inr a => returns (k a) Q t' w'
                        end) t w -> returns (on_ok p cl k) Q t w.
Proof.
  intros Hp. apply returns_bind. eapply returns_mono; [|exact Hp]. intros [e|a] t' w' H; [|done].
  by apply returns_bind.
Qed.

End Returns.

(** ** The loop *)

Section Loop.
Context `{SJ : Simdjson} {W : Type} {OS : Os W} {JB : JobBus W}.

(** sd-bus has reported the failure [Err]. *)
Definition bus_error (t : list event) (Err : Z) : Prop :=
  Err < 0 /\
  ((exists b msg, (existT (P := resp) (Sd (SdProcess b)) (Err, msg) : event) ∈ t) \/
   (exists b u, (existT (P := resp) (Sd (SdWait b u)) Err : event) ∈ t)).

(** The rounds left. *)
Definition rounds (w : W) : nat := (length (queue w) + waits w)%nat.

Local Abbreviation start := (Build_Flags false false).

(** The callback takes a signal from the queue into account. *)
Lemma Callback_returns Path m j t w :
  lent w m = Some j ->
  returns (matchSignalAsyncCallback (Callback Path) start m)
    (λ r _ w', queue w' = queue w /\ waits w' = waits w /\
      r.1 = if String.eqb Path (jr_path j)
            then Build_Flags true (negb (String.eqb (jr_result j) "done")) else start) t w.
Proof.
  intros Hm. unfold matchSignalAsyncCallback, SDBusMessage_of, Callback, SDBusMessage_read. cbv zeta.
  apply returns_bind, returns_bind, returns_call. intros [Err args] w1 E1.
  destruct (jb_lent _ _ _ _ _ _ Hm E1) as [HE ->]. apply jb_quiet in E1 as [Hq1 Hw1]; [|done].
  rewrite (proj2 (Z.ltb_ge _ _) HE). cbn [returns mret prog_mret jr_args].
  apply returns_call. intros [] w2 E2. apply jb_quiet in E2 as [Hq2 Hw2]; [|done]. cbn.
  split_and!; congruence.
Qed.

(** A round with something to process. *)
Lemma process_returns Path Bus t w :
  queue w <> [] ->
  returns (SDBus_process (Callback Path) start Bus)
    (λ r t' w', match r.2 with
       | inl e => exists Err, e = - Err /\ bus_error t' Err
       | inr false => r.1 = start /\ queue w' = queue w /\ waits w' = waits w /\ (0 < waits w)%nat
       | inr true => exists x, queue w = x :: queue w' /\ (waits w' <= waits w)%nat /\
           r.1 = match x with
                 | Some j => if String.eqb Path (jr_path j)
                             then Build_Flags true (negb (String.eqb (jr_result j) "done")) else start
                 | None => start
                 end
       end) t w.
Proof.
  intros Hq. apply returns_call. intros [Err msg] w1 E1.
  destruct (jb_process _ _ _ _ _ Hq E1) as [[HE ->]|[(-> & -> & Hq1 & Hw1 & Hpos)|(HE & x & Hq1 & Hw1 & Hx)]].
  - cbn. rewrite (proj2 (Z.ltb_lt _ _) HE). exists Err. split; [done|]. split; [done|]. left. exists Bus, None. set_solver.
  - cbn. auto.
  - apply returns_bind. destruct x as [j|]; [destruct Hx as (m & -> & Hm)|subst msg].
    + apply returns_bind. eapply returns_mono; [|by apply (Callback_returns Path m j)].
      intros [f z] t' w' (Hq2 & Hw2 & Hf). cbn in *. rewrite (proj2 (Z.ltb_ge _ _)), (proj2 (Z.ltb_lt _ _)) by lia.
      exists (Some j). rewrite Hq2, Hw2. auto.
    + cbn. rewrite (proj2 (Z.ltb_ge _ _)), (proj2 (Z.ltb_lt _ _)) by lia. exists None. auto.
Qed.

Lemma check_loop_returns fuel Path Bus t w r :
  job_result Path (queue w) = Some r -> (rounds w <= fuel)%nat ->
  returns (check_loop fuel Bus Path start)
    (λ x t' _, match x with
               | inl e => exists Err, e = - Err /\ bus_error t' Err
               | inr f => (if Job_Error f then inl EFAULT else inr tt) = r
               end) t w.
Proof.
  revert t w. unfold rounds. induction fuel as [|fuel IH]; intros t w Hr Hf;
    (assert (queue w <> []) as Hq by (by intros E; rewrite E in Hr));
    [destruct (queue w); [done|cbn in Hf; lia]|].
  cbn [check_loop Job_Terminated]. apply returns_bind. eapply returns_mono; [|by apply process_returns].
  intros [f [e|[]]] t1 w1; cbn [fst snd]; [done| |].
  - intros (x & Hx & Hw & ->). rewrite Hx in Hr, Hf. cbn in Hr, Hf.
    destruct x as [j|]; [destruct (String.eqb Path (jr_path j))|]; [|apply IH; [done|lia]..].
    injection Hr as <-. destruct fuel; cbn; by destruct (String.eqb _ _).
  - intros (-> & Hq1 & Hw1 & Hpos). apply returns_bind, returns_call. intros Err w2 E2.
    destruct (jb_wait Bus UINT64_MAX w1 Err w2) as [HE|[Hq2 Hw2]]; [congruence|lia|done| |]; cbn [returns mret prog_mret].
    + unfold err_result. rewrite (proj2 (Z.ltb_lt _ _) HE). exists Err. split; [done|]. split; [done|]. right.
      exists Bus, UINT64_MAX. set_solver.
    + unfold err_result. destruct (Z.ltb_spec Err 0).
      * exists Err. split; [done|]. split; [done|]. right. exists Bus, UINT64_MAX. set_solver.
      * apply IH; [congruence|]. rewrite Hq2, Hq1. lia.
Qed.

Lemma check_returns fuel Path Bus t w r :
  job_result Path (queue w) = Some r -> (rounds w <= fuel)%nat ->
  returns (check fuel Bus Path) (λ x t' _, x = r \/ exists Err, x = inl (- Err) /\ bus_error t' Err) t w.
Proof.
  intros Hr Hf. apply returns_bind. eapply returns_mono; [|by apply check_loop_returns].
  intros [e|f] t' w'; cbn; [|by left]. intros (Err & -> & HE). right. eauto.
Qed.

End Loop.

(** ** The calls around it *)

Section Enter.
Context `{SJ : Simdjson} {W : Type} {OS : Os W} {JB : JobBus W}.

(** What is going to be dispatched stays, and replies name the same job. *)
Definition kept (w w' : W) : Prop :=
  queue w' = queue w /\ waits w' = waits w /\
  forall m Object, named w m = Some Object -> named w' m = Some Object.

#[local] Instance kept_pre : PreOrder kept.
Proof. split; [intros w; by split_and!|]. intros w1 w2 w3 (?&?&H1) (?&?&H2). split_and!; [congruence..|auto]. Qed.

Lemma kept_call c w r w' : quiet c -> os_call (Sd c) w = (r, w') -> kept w w'.
Proof.
  intros Hc E. destruct (jb_quiet _ _ _ _ Hc E). split_and!; [done..|]. intros m Object. by eapply jb_named.
Qed.

(** Programs that make quiet calls only, and return whatever their answers. *)
Fixpoint calm {A} (p : prog A) : Prop :=
  match p with
  | Ret _ => True
  | Call c k => match c with Sd c => quiet c | _ => False end /\ forall r, calm (k r)
  | _ => False
  end.

Lemma calm_bind {A B} (p : prog A) (g : A -> prog B) : calm p -> (forall a, calm (g a)) -> calm (p ≫= g).
Proof.
  induction p as [a|c k IH| | | |]; intros Hp Hg; cbn in *; try done.
  destruct Hp. split; [done|]. intros r. by apply IH.
Qed.

Lemma calm_on_ok {A B} (p : prog (expected A)) cl (k : A -> prog (expected B)) :
  calm p -> calm cl -> (forall a, calm (k a)) -> calm (on_ok p cl k).
Proof. intros Hp Hc Hk. apply calm_bind; [done|]. intros [e|a]; [by apply calm_bind|done]. Qed.

Lemma calm_returns {A} (p : prog A) t w : calm p -> returns p (λ _ _ w', kept w w') t w.
Proof.
  revert t w. induction p as [a|c k IH| | | |]; intros t w Hp; cbn in *; try done.
  destruct Hp as [Hc Hk], c as [| |c| |]; try done. destruct (os_call _ _) as [r w'] eqn:E.
  eapply returns_mono; [|by apply IH, Hk]. cbn. intros _ _ w2. transitivity w'; [by eapply kept_call|done].
Qed.

Ltac calm_walk :=
  repeat first
    [ progress cbn [calm mret prog_mret do_call]
    | apply calm_on_ok; [| |intros ?] | apply calm_bind; [|intros ?]
    | case_match | split; [exact I|intros ?] | done ].

Lemma open_bus_calm : calm open_bus.
Proof. unfold open_bus, defaultUser, defaultSystem, SDBus_destroy. cbv zeta. calm_walk. Qed.

Lemma setup_calm Bus : calm (setup Bus).
Proof. unfold setup, matchSignalAsync. calm_walk. Qed.

Lemma methodCall_calm Bus d p i m : calm (methodCall Bus d p i m).
Proof. unfold methodCall, SDBusMessage_destroy. cbv zeta. calm_walk. Qed.

Lemma fill_message_calm Msg Scope Slice Pid : calm (fill_message Msg Scope Slice Pid).
Proof. unfold fill_message, SDBusMessage_append, openContainer, closeContainer. cbv zeta. calm_walk. Qed.

Lemma destroy_calm Msg : calm (SDBusMessage_destroy Msg).
Proof. unfold SDBusMessage_destroy. calm_walk. Qed.

(** A quiet program before a program that returns from every such world. *)
Lemma calm_on_ok_returns {A B} (p : prog (expected A)) cl (k : A -> prog (expected B)) Q t w :
  calm p -> calm cl -> (forall e t' w', Q (inl e) t' w') ->
  (forall a t' w', kept w w' -> returns (k a) Q t' w') -> returns (on_ok p cl k) Q t w.
Proof.
  intros Hp Hc HQ Hk. apply on_ok_returns. eapply returns_mono; [|by apply calm_returns].
  intros [e|a] t' w' Hw; [|by apply Hk]. eapply returns_mono; [|by apply calm_returns]. intros. apply HQ.
Qed.

Lemma calm_seq_returns {A B} (p : prog A) (k : A -> prog B) Q t w :
  calm p -> (forall a t' w', kept w w' -> returns (k a) Q t' w') -> returns (p ≫= k) Q t w.
Proof.
  intros Hp Hk. apply returns_bind. eapply returns_mono; [|by apply calm_returns]. intros a t' w'. apply Hk.
Qed.

(** A successful call gives a reply that names a job whose end is going to be
    reported. *)
Lemma SDBus_call_returns Bus Message USec t w :
  returns (SDBus_call Bus Message USec)
    (λ r _ w', (queue w' = queue w /\ waits w' = waits w) /\ match r with
       | inl _ => True
       | inr Reply => exists Object x, named w' Reply = Some Object /\ job_result Object (queue w') = Some x
       end) t w.
Proof.
  unfold SDBus_call, SDBusMessage_release, SDBusMessage_move, SDBusMessage_of, SDBusError_destroy. cbv zeta.
  apply returns_call. intros [[Err Reply] ErrNo] w1 E. pose proof (kept_call (SdCall Bus Message USec) _ _ _ I E) as (Hq & Hw & _).
  destruct (Z.ltb_spec Err 0) as [|HE].
  - do 2 (apply calm_seq_returns; [by split|]; intros _ ? ? (?&?&_)). cbn. split; [|done]. split; congruence.
  - destruct (jb_call _ _ _ _ _ _ _ _ E HE) as (Object & x & HO & Hx).
    do 3 (apply calm_seq_returns; [by split|]; intros _ ? ? (?&?&?)). cbn. split; [split; congruence|].
    exists Object, x. split; [auto|congruence].
Qed.

Lemma enter_with_bus_returns fuel Id s Bus t w :
  (rounds w <= fuel)%nat ->
  returns (enter_with_bus fuel Id s Bus) (λ _ _ _, True) t w.
Proof.
  unfold rounds. intros Hf. unfold enter_with_bus, SDBusMessage_assign, SDBusMessage_move.
  apply calm_on_ok_returns; [apply setup_calm|done|done|]. intros _ t1 w1 (Hq1 & Hw1 & _).
  apply calm_on_ok_returns; [apply methodCall_calm|apply destroy_calm|done|]. intros Msg t2 w2 (Hq2 & Hw2 & _).
  apply calm_seq_returns; [apply destroy_calm|]. intros _ t3 w3 (Hq3 & Hw3 & _).
  destruct (scope_slice _ _) as [Scope Slice].
  apply calm_on_ok_returns; [apply fill_message_calm|apply destroy_calm|done|]. intros _ t4 w4 (Hq4 & Hw4 & _).
  apply on_ok_returns. eapply returns_mono; [|apply SDBus_call_returns].
  intros [e|Reply] t5 w5 [[Hq5 Hw5] Hr].
  { eapply returns_mono; [|apply calm_returns, destroy_calm]. by intros. }
  destruct Hr as (Object & x & HO & Hx). apply calm_seq_returns; [apply destroy_calm|].
  intros _ t6 w6 (Hq6 & Hw6 & HO6). apply on_ok_returns, returns_call. intros [Err args] w7 E7.
  pose proof (kept_call (SdMsgRead Reply "o") _ _ _ I E7) as (Hq7 & Hw7 & _). destruct (Z.ltb_spec Err 0) as [|HE].
  { cbn [returns mret prog_mret]. eapply returns_mono; [|apply calm_returns, destroy_calm]. by intros. }
  rewrite (jb_object _ _ _ _ _ _ (HO6 _ _ HO) E7 HE). cbn [returns mret prog_mret].
  apply returns_bind. eapply returns_mono; [|apply (check_returns _ _ _ _ _ x)].
  - intros r t8 w8 _. apply calm_seq_returns; [apply destroy_calm|]. done.
  - congruence.
  - unfold rounds. rewrite Hq7, Hq6, Hq5, Hq4, Hq3, Hq2, Hq1. lia.
Qed.

End Enter.

(** ** Properties *)

Section Properties.
Context `{SJ : Simdjson} {W : Type} {OS : Os W} {JB : JobBus W}.

(** C21: [JobStatusChecker::check] computes the reference [job_result]: when the end
    of the job is going to be reported, it returns after at most one round per
    message and per wait, with the result of the first report about the job, or
    with an error that sd-bus has reported. *)
Theorem check_ends fuel Bus Path (w : W) r :
  job_result Path (queue w) = Some r -> (rounds w <= fuel)%nat ->
  exists x w', run (check fuel Bus Path) w = (Done x, w') /\
    (x = r \/ exists Err, x = inl (- Err) /\ bus_error (trace (check fuel Bus Path) w) Err).
Proof. intros Hr Hf. exact (returns_run _ _ [] _ (check_returns fuel Path Bus [] w r Hr Hf)). Qed.

(** C22: [CGroup::enter] returns: it does not wait for ever for a job that systemd
    reports, and what it reads from the bus never makes it undefined. *)
Theorem enter_ends fuel Id s (w : W) :
  (rounds w <= fuel)%nat -> exists r w', run (enter fuel Id s) w = (Done r, w').
Proof.
  intros Hf. destruct (returns_run (enter fuel Id s) (λ _ _ _, True) [] w) as (r & w' & Hr & _); [|eauto].
  apply calm_on_ok_returns; [apply open_bus_calm|done|done|]. intros Bus t1 w1 (Hq & Hw & _).
  apply returns_bind. eapply returns_mono; [|apply enter_with_bus_returns; unfold rounds; by rewrite Hq, Hw].
  intros r t2 w2 _. apply calm_seq_returns; [by split|]. done.
Qed.

End Properties.

(** *** The hypotheses can hold *)

(** A bus that first makes [jw_waits] waits necessary and then dispatches
    [jw_queue]; the job is /job/1. *)
Record job_world := JobWorld {
  jw_queue : list (option job_removed); jw_waits : nat; jw_lent : option job_removed; jw_rest : sim plain_fs
}.

Definition jw_process (w : job_world) : (Z * option Z) * job_world :=
  match jw_waits w, jw_queue w with
  | O, x :: q => ((1, (λ _, 7) <$> x), JobWorld q O x (jw_rest w))
  | _, _ => ((0, None), w)
  end.

#[local] Instance job_world_os : Os job_world := λ c w,
  match c with
  | Sd (SdProcess _) => jw_process w
  | Sd (SdWait _ _) => (0, JobWorld (jw_queue w) (pred (jw_waits w)) (jw_lent w) (jw_rest w))
  | Sd (SdMsgRead _ ty) =>
      (0, if String.eqb ty "o" then [AStr "/job/1"] else default [] (jr_args <$> jw_lent w), w)
  | Sd (SdCall _ _ _) => (if job_result "/job/1" (jw_queue w) then 0 else -1, 8, 0, w)
  | c => let '(r, s) := os_call c (jw_rest w) in (r, JobWorld (jw_queue w) (jw_waits w) (jw_lent w) s)
  end.

#[local] Program Instance job_world_bus : JobBus job_world := {|
  queue := jw_queue; waits := jw_waits;
  lent w m := if m =? 7 then jw_lent w else None;
  named w m := Some "/job/1";
|}.
Next Obligation.
  intros b [q n l s] Err msg w' Hq. cbn. unfold jw_process. cbn.
  destruct n as [|n]; [destruct q as [|x q]; [done|]|]; intros [= <- <- <-]; cbn.
  - right. right. split; [lia|]. exists x. destruct x; eauto 6.
  - right. left. split_and!; [done..|lia].
Qed.
Next Obligation. intros b t [q n l s] Err w' _ Hn [= <- <-]. right. cbn in *. split; [done|lia]. Qed.
Next Obligation. by intros [] [q n l s] r w' Hc; cbn in *; try done; intros [= <- <-]. Qed.
Next Obligation. done. Qed.
Next Obligation.
  intros m j [q n l s] Err args w'. cbn. case_match; [|done]. intros -> [= <- <- <-]. done.
Qed.
Next Obligation.
  intros b m t [q n l s] Err Reply ErrNo w'. cbn. destruct (job_result _ q) as [r|] eqn:E; intros [= <- <- <- <-] HE; [|lia].
  by exists "/job/1", r.
Qed.
Next Obligation. intros m Object [q n l s] Err args w' [= <-] [= <- <- <-]. done. Qed.

Definition job_demo : job_world :=
  JobWorld [Some {| jr_id := 1; jr_path := "/job/0"; jr_unit := "a.scope"; jr_result := "done" |}; None;
            Some {| jr_id := 2; jr_path := "/job/1"; jr_unit := "runw-c1.scope"; jr_result := "failed" |}]
    2 None (sim_start plain_fs ∅).

(** The job fails: the two waits and three messages take five rounds. *)
Lemma check_ends_witness : exists w', run (check 5 1 "/job/1") job_demo = (Done (inl EFAULT), w').
Proof.
  destruct (check_ends 5 1 "/job/1" job_demo (inl EFAULT)) as (x & w' & Hr & _).
  - reflexivity.
  - cbn. lia.
  - exists w'. vm_compute in Hr. injection Hr as <- <-. reflexivity.
Defined.

Lemma enter_ends_witness : exists r w', run (enter 5 "c1" default_State) job_demo = (Done r, w').
Proof. apply (enter_ends 5 "c1" default_State job_demo). cbn. lia. Defined.
