(* ===== verification/Container.v ===== *)
(** Creating and running a container: [doRunInternal] and [doCreate] of
    src/runw.cpp.  The result of [fork] selects the branch of the process the
    run is about; a run of these programs is a run of one of the processes. *)
From S2P Require Import Prelude Cpp Path Json Prog FileOps Loader Bundle Time State SDBus CGroup.

Definition EXIT_SUCCESS : Z := 0.
Definition EXIT_FAILURE : Z := 1.

(** Flags of <fcntl.h> and <sched.h> on Linux. *)
Definition O_RDONLY : Z := 0.
Definition O_WRONLY : Z := 1.
Definition O_NONBLOCK : Z := 2048.
Definition CLONE_NEWTIME : Z := 128.
Definition CLONE_NEWNS : Z := 131072.
Definition CLONE_NEWCGROUP : Z := 33554432.
Definition CLONE_NEWUTS : Z := 67108864.
Definition CLONE_NEWIPC : Z := 134217728.
Definition CLONE_NEWUSER : Z := 268435456.
Definition CLONE_NEWPID : Z := 536870912.
Definition CLONE_NEWNET : Z := 1073741824.

(** [WEXITSTATUS(Status)]. *)
Definition WEXITSTATUS (Status : Z) : Z := Z.land (Z.shiftr Status 8) 255.

(** [FD_SET] of a descriptor that is not below this is undefined. *)
Definition FD_SETSIZE : Z := 1024.

(** [sizeof(sockaddr_un::sun_path)]. *)
Definition sun_path_size : Z := 108.

(** The files of a container. *)
Definition state_file (Root ContainerId : string) : string :=
  path_append (path_append Root ContainerId) "state.json".
Definition exec_fifo (Root ContainerId : string) : string :=
  path_append (path_append Root ContainerId) "exec.fifo".

Section Container.
Context `{SJ : Simdjson}.

(** [if (!b) return EXIT_FAILURE; k] *)
Definition ensure (b : bool) (k : prog Z) : prog Z := if b then k else mret EXIT_FAILURE.

Fixpoint for_each_call {A} (f : A -> prog unit) (l : list A) : prog unit :=
  match l with
  | [] => mret tt
  | x :: l => f x;; for_each_call f l
  end.

(** ** Preparing the module *)

(** Lines 293-328; [Args[0]] of no arguments is undefined.  The result is
    [WasmPath]. *)
Definition prepare_wasi (b : Bundle) : prog string :=
  let RootPath := RootPath b in
  let Cwd := path_concat RootPath (Cwd b) in
  Args0 ← lift_cpp (match Args b with [] => UB | a :: _ => Val a end);
  let WasmPath := path_append Cwd Args0 in
  _ ← do_call (Wm (WasiInit ["/:" +:+ RootPath] WasmPath (tail (Args b)) (Envs b))) : prog unit;
  for_each_call (λ Cmd, do_call (Wm (ProcAllowCmd Cmd))) (Cmds b);;
  _ ← do_call (Wm ProcAllowAll) : prog unit;
  mret WasmPath.

(** The compiler process; it never returns. *)
Definition compile_child (Data SoPath : string) : prog (option string) :=
  ok ← do_call (Wm (ParseModule Data)) : prog bool;
  if negb ok then Exit EXIT_FAILURE
  else
    ok ← do_call (Wm (ValidateModule Data)) : prog bool;
    if negb ok then Exit EXIT_FAILURE
    else
      ok ← do_call (Wm (CompileModule Data SoPath)) : prog bool;
      if negb ok then Exit EXIT_FAILURE else Exit EXIT_SUCCESS.

(** Wait for the compiler.  [continue] inside [do ... while (false)] leaves the
    loop, so a failed [waitpid] leaves [Status] uninitialised. *)
Definition wait_compiler (CompilerPid : Z) (SoPath : string) : prog (option string) :=
  '(r, Status) ← do_call (Px (Waitpid CompilerPid)) : prog (sysret * Z);
  if ret r <? 0 then Undef
  else if negb (WEXITSTATUS Status =? EXIT_SUCCESS) then mret None
  else mret (Some SoPath).

(** Lines 330-406: the path of the compiled module, or nothing on failure.
    [is_regular_file] without an error code throws when the status cannot be
    determined. *)
Definition compile_module (ContainerId WasmPath : string) : prog (option string) :=
  Res ← do_call (Wm (LoadFile WasmPath)) : prog (option string);
  match Res with
  | None => mret None
  | Some Data =>
      Res ← do_call (Wm (CacheGetPath Data ContainerId)) : prog (option string);
      match Res with
      | None => mret None
      | Some p =>
          let SoPath := replace_extension p ".so" in
          '(ty, _) ← do_call (Fs (FsStatus SoPath)) : prog (file_type * errc);
          if bool_decide (ty = FT_none) then Terminate
          else if bool_decide (ty = FT_regular) then mret (Some SoPath)
          else
            _ ← do_call (Fs (FsCreateDirectories (parent_path SoPath))) : prog (bool * errc);
            r ← do_call (Px Fork) : prog sysret;
            if ret r <? 0 then mret None
            else if ret r =? 0 then compile_child Data SoPath
            else wait_compiler (ret r) SoPath
      end
  end.

(** ** Namespaces *)

(** [UpdateFlags]: the flags to unshare and the descriptors to join, or
    [false]. *)
Definition NsFlags : Type := Z * list (Z * Z).

Definition UpdateFlags (Flag : Z) (Path : string) (f : NsFlags) : prog (option NsFlags) :=
  let '(UnshareFlags, SetNsFlags) := f in
  if is_empty Path then mret (Some (Z.lor UnshareFlags Flag, SetNsFlags))
  else
    Fd ← do_call (Px (Open Path O_RDONLY)) : prog sysret;
    if ret Fd <? 0 then mret None
    else mret (Some (UnshareFlags, SetNsFlags ++ [(ret Fd, Flag)])).

(** The flag of a namespace type: the [switch] on its first character, which is
    undefined on the empty string. *)
Definition namespace_flag (Type_ : string) : cpp (option Z) :=
  let only name flag := if String.eqb Type_ name then Some flag else None in
  match Type_ with
  | EmptyString => UB
  | String c _ =>
      Val (switch c
        [ ("c"%char, only "cgroup" CLONE_NEWCGROUP);
          ("i"%char, only "ipc" CLONE_NEWIPC);
          ("m"%char, only "mount" CLONE_NEWNS);
          ("n"%char, only "network" CLONE_NEWNET);
          ("p"%char, only "pid" CLONE_NEWPID);
          ("t"%char, only "time" CLONE_NEWTIME);
          ("u"%char, if String.eqb Type_ "uts" then Some CLONE_NEWUTS
                     else only "user" CLONE_NEWUSER) ] None)
  end.

Fixpoint collect_namespaces (l : list NamespaceDesc) (f : NsFlags) : prog (option NsFlags) :=
  match l with
  | [] => mret (Some f)
  | Desc :: l =>
      flag ← lift_cpp (namespace_flag (ns_Type Desc));
      match flag with
      | None => collect_namespaces l f
      | Some Flag =>
          r ← UpdateFlags Flag (ns_Path Desc) f;
          match r with None => mret None | Some f => collect_namespaces l f end
      end
  end.

(** The [setns] loop; the result is [SetNsFailed]. *)
Fixpoint join_namespaces (l : list (Z * Z)) : prog bool :=
  match l with
  | [] => mret false
  | (Fd, Flag) :: l =>
      r ← do_call (Px (Setns Fd Flag)) : prog sysret;
      _ ← do_call (Px (Close Fd)) : prog sysret;
      failed ← join_namespaces l;
      mret ((ret r <? 0) || failed)
  end.

(** Lines 443-535; [false] is the early return. *)
Definition enter_namespaces (b : Bundle) : prog bool :=
  r ← collect_namespaces (Namespaces b) (0, []);
  match r with
  | None => mret false
  | Some (UnshareFlags, SetNsFlags) =>
      (if UnshareFlags =? 0 then mret tt
       else _ ← do_call (Px (Unshare UnshareFlags)) : prog sysret; mret tt);;
      SetNsFailed ← join_namespaces SetNsFlags;
      mret (negb SetNsFailed)
  end.

(** ** The container process *)

(** [atomicUpdateFile(StateFile, [&](auto &Stream) { State.print(Stream); })] *)
Definition publish (fuel : nat) (StateFile : string) (s : State) : prog bool :=
  atomicUpdateFile fuel StateFile (mret (State_print s)).

(** Lines 545-568: wait for [doStart].  [continue] leaves the inner loop, so an
    interrupted [read] counts as a wake-up. *)
Definition wait_exec_fifo (ExecFifoFd : Z) : prog bool :=
  if ExecFifoFd <? 0 then mret true
  else if FD_SETSIZE <=? ExecFifoFd then Undef
  else
    r ← do_call (Px (Select ExecFifoFd)) : prog sysret;
    if ret r <? 0 then mret false
    else
      '(r, _) ← do_call (Px (Read ExecFifoFd 1)) : prog (sysret * string);
      if ret r <? 0 then mret (errno r =? EINTR) else mret true.

(** Lines 570-593: from the wake-up to the end. *)
Definition execute (fuel : nat) (s : State) (StateFile : string) : prog Z :=
  s ← setRunning s;
  ok ← publish fuel StateFile s;
  ensure ok (
  Res ← do_call (Wm (VmExecute "_start")) : prog bool;
  Code ← (if (Res : bool) then
            code ← do_call (Wm WasiExitCode) : prog Z; mret (to_int32 code)
          else mret EXIT_FAILURE);
  s ← setStopped s Code;
  ok ← publish fuel StateFile s;
  ensure ok (mret Code)).

(** Lines 436-593: the process of the container. *)
Definition run_container (fuel : nat) (ContainerId PidFile : string) (s : State)
    (StateFile : string) (ExecFifoFd : Z) : prog Z :=
  ok ← atomicCreateAndWriteFile fuel PidFile
    (pid ← do_call (Px Getpid) : prog sysret; mret (print_Z (to_int32 (ret pid))));
  ensure ok (
  s ← setCreated s;
  ok ← enter_namespaces (Config s);
  ensure ok (
  Res ← enter fuel ContainerId s;
  match Res with
  | inl _ => mret EXIT_FAILURE
  | inr _ =>
      ok ← publish fuel StateFile s;
      ensure ok (
      ok ← wait_exec_fifo ExecFifoFd;
      ensure ok (execute fuel s StateFile))
  end)).

Definition doRunInternal (fuel : nat) (ContainerId PidFile : string) (s : State)
    (StateFile : string) (ExecFifoFd : Z) : prog Z :=
  WasmPath ← prepare_wasi (Config s);
  Res ← compile_module ContainerId WasmPath;
  match Res with
  | None => mret EXIT_FAILURE
  | Some SoPath =>
      ok ← do_call (Wm (VmLoadWasm SoPath)) : prog bool;
      ensure ok (
      ok ← do_call (Wm VmValidate) : prog bool;
      ensure ok (
      ok ← do_call (Wm VmInstantiate) : prog bool;
      ensure ok (
      r ← do_call (Px Fork) : prog sysret;
      if ret r <? 0 then mret EXIT_FAILURE
      else if 0 <? ret r then mret EXIT_SUCCESS
      else run_container fuel ContainerId PidFile s StateFile ExecFifoFd)))
  end.

(** ** [doCreate] *)

(** The result of the function and the variable [Success] its scope exit reads. *)
Abbreviation failed := (EXIT_FAILURE, false).

(** Lines 658-687: the parent waits for the exit code in the pipe.  [continue]
    leaves the loops, so an interrupted [read] counts as success. *)
Definition create_parent (ChildPid PipeRead PipeWrite : Z) : prog (Z * bool) :=
  _ ← do_call (Px (Close PipeWrite)) : prog sysret;
  _ ← do_call (Px (Waitpid ChildPid)) : prog (sysret * Z);
  '(r, data) ← do_call (Px (Read PipeRead 4)) : prog (sysret * string);
  if (ret r <? 0) && negb (errno r =? EINTR) then mret failed
  else
    bad ← (if 0 <? ret r then
             ExitCode ← lift_cpp (bytes_int data); mret (negb (ExitCode =? 0))
           else mret false);
    if (bad : bool) then mret failed
    else
      _ ← do_call (Px (Close PipeRead)) : prog sysret;
      mret (EXIT_SUCCESS, true).

(** Lines 706-732: the descriptor of the console socket and whether to go on. *)
Definition connect_console (ConsoleSocket : string) : prog (Z * bool) :=
  if is_empty ConsoleSocket then mret (-1, true)
  else
    r ← do_call (Px Socket) : prog sysret;
    if ret r <? 0 then mret (ret r, false)
    else if sun_path_size <=? Z.of_nat (String.length ConsoleSocket) then mret (ret r, false)
    else
      c ← do_call (Px (Connect (ret r) ConsoleSocket)) : prog sysret;
      mret (ret r, negb (ret c <? 0)).

(** [if (Fd >= 0) close(Fd)], the scope exit of a descriptor. *)
Definition close_fd (Fd : Z) : prog unit :=
  if 0 <=? Fd then _ ← do_call (Px (Close Fd)) : prog sysret; mret tt else mret tt.

(** Lines 706-742: the daemon. *)
Definition create_daemon (fuel : nat) (ContainerId PidFile ConsoleSocket : string) (s : State)
    (StateFile : string) (ExecFifoFd PipeWrite : Z) : prog (Z * bool) :=
  '(ConsoleSocketFd, ok) ← connect_console ConsoleSocket;
  scope_exit
    (if negb ok then mret failed
     else
       ExitCode ← doRunInternal fuel ContainerId PidFile s StateFile ExecFifoFd;
       _ ← do_call (Px (Write PipeWrite (int_bytes ExitCode))) : prog sysret;
       _ ← do_call (Px (Close PipeWrite)) : prog sysret;
       mret (EXIT_FAILURE, true))
    (λ _, close_fd ConsoleSocketFd).

(** Lines 648-742: the three processes. *)
Definition create_fork (fuel : nat) (ContainerId PidFile ConsoleSocket : string) (s : State)
    (StateFile : string) (ExecFifoFd : Z) : prog (Z * bool) :=
  '(r, (PipeRead, PipeWrite)) ← do_call (Px Pipe) : prog (sysret * (Z * Z));
  if ret r <? 0 then mret failed
  else
    r ← do_call (Px Fork) : prog sysret;
    if ret r <? 0 then mret failed
    else if 0 <? ret r then create_parent (ret r) PipeRead PipeWrite
    else
      _ ← do_call (Px (Close PipeRead)) : prog sysret;
      r ← do_call (Px Setsid) : prog sysret;
      if ret r <? 0 then mret failed
      else
        r ← do_call (Px Fork) : prog sysret;
        if ret r <? 0 then mret failed
        else if 0 <? ret r then Exit EXIT_SUCCESS
        else create_daemon fuel ContainerId PidFile ConsoleSocket s StateFile ExecFifoFd PipeWrite.

(** Lines 615-742: the body under the scope exit that removes the directory. *)
Definition create_body (fuel : nat) (ContainerRoot : string) (Systemd : bool)
    (ConfigFileName ContainerId Path ConsoleSocket PidFile : string) : prog (Z * bool) :=
  let StateFile := path_append ContainerRoot "state.json" in
  '(s, ok) ← loadBundle (new_State ContainerId Path) ConfigFileName;
  if negb ok then mret failed
  else
    let s := setCreating (setSystemdCgroup s Systemd) in
    ok ← atomicCreateAndWriteFile fuel StateFile (mret (State_print s));
    if negb ok then mret failed
    else
      let ExecFifoFile := path_append ContainerRoot "exec.fifo" in
      r ← do_call (Px (Mkfifo ExecFifoFile 384)) : prog sysret;
      if ret r <? 0 then mret failed
      else
        r ← do_call (Px (Open ExecFifoFile (Z.lor O_RDONLY O_NONBLOCK))) : prog sysret;
        let ExecFifoFd := ret r in
        scope_exit
          (if ExecFifoFd <? 0 then mret failed
           else create_fork fuel ContainerId PidFile ConsoleSocket s StateFile ExecFifoFd)
          (λ _, close_fd ExecFifoFd).

Definition doCreate (fuel : nat) (Root : string) (Systemd : bool)
    (ConfigFileName ContainerId Path ConsoleSocket PidFile : string) : prog Z :=
  let ContainerRoot := path_append Root ContainerId in
  '(created, _) ← do_call (Fs (FsCreateDirectories ContainerRoot)) : prog (bool * errc);
  ensure created (
  '(code, _) ← scope_exit
    (create_body fuel ContainerRoot Systemd ConfigFileName ContainerId Path ConsoleSocket PidFile)
    (λ '(_, Success), if (Success : bool) then mret tt
                      else _ ← do_call (Fs (FsRemoveAll ContainerRoot)) : prog errc; mret tt);
  mret code).

End Container.
