(* ===== verification/Descriptors.v ===== *)
(** File descriptors in [doCreate]: a descriptor is used only while it is open,
    and closed once, in each of the processes; none is left open when create
    succeeds. *)
From S2P Require Import Prelude Cpp Path Json JsonRef Loader Prog Logic Sim FileOps Bundle Time State.
From S2P Require Import SDBus CGroup Container.

(** ** Programs without descriptors *)

(** Calls that make no process and no FIFO, use no descriptor and do not ask for
    the type of a file system. *)
Definition ordinary (c : call) : bool :=
  match c with
  | Px (Fork | Pipe | Socket | Close _ | Open _ _ | Mkfifo _ _ | Read _ _ | Write _ _ | Select _
       | Connect _ _ | Setns _ _ | Statfs _) => false
  | _ => true
  end.

Section Ordinary.
Context `{SJ : Simdjson}.
Local Abbreviation all_ordinary := (all_calls (λ c, ordinary c = true)).

Lemma getTempFilename_ordinary fuel P : all_ordinary (getTempFilename fuel P).
Proof.
  assert (forall n, all_ordinary (random_suffix n)) as Hr
    by (induction n; cbn [random_suffix]; calls_walk; done).
  induction fuel as [|fuel IH]; cbn [getTempFilename]; calls_walk; done.
Qed.

Lemma writeTemp_ordinary fuel P Func : all_ordinary Func -> all_ordinary (writeTempAndRename fuel P Func).
Proof. intros HF. unfold writeTempAndRename. calls_walk; try done. apply getTempFilename_ordinary. Qed.

Lemma atomicCreate_ordinary fuel P Func :
  all_ordinary Func -> all_ordinary (atomicCreateAndWriteFile fuel P Func).
Proof.
  intros HF. unfold atomicCreateAndWriteFile, is_regular_file. calls_walk; try done. by apply writeTemp_ordinary.
Qed.

Lemma publish_ordinary fuel P s : all_ordinary (publish fuel P s).
Proof.
  unfold publish, atomicUpdateFile, is_regular_file. calls_walk; try done. by apply writeTemp_ordinary.
Qed.

Lemma timestamp_ordinary : all_ordinary timestamp.
Proof. unfold timestamp. calls_walk; [done|]. by destruct (format_time _). Qed.

Lemma setCreated_ordinary s : all_ordinary (setCreated s).
Proof. unfold setCreated. calls_walk; try done. apply timestamp_ordinary. Qed.

Lemma enter_ordinary fuel Cid s : all_ordinary (enter fuel Cid s).
Proof. by apply enter_calls. Qed.

Lemma execute_ordinary fuel s SFile : all_ordinary (execute fuel s SFile).
Proof.
  unfold execute, setRunning, setStopped, ensure. calls_walk; auto using publish_ordinary, timestamp_ordinary.
Qed.

Lemma prepare_wasi_ordinary b : all_ordinary (prepare_wasi b).
Proof.
  unfold prepare_wasi. calls_walk; try done; [by destruct (Args _)|].
  induction (Cmds b); cbn [for_each_call]; calls_walk; done.
Qed.

(** The calls of the daemon and of the container process; the pipe of create is not
    among what they read. *)
Definition container_call (c : call) : bool :=
  ordinary c ||
  match c with
  | Px (Fork | Open _ _ | Close _ | Select _ | Setns _ _) => true
  | Px (Read _ n) => n =? 1
  | _ => false
  end.
Local Abbreviation contained := (all_calls (λ c, container_call c = true)).

Lemma ordinary_contained {A} (p : prog A) : all_ordinary p -> contained p.
Proof. apply all_calls_mono. unfold container_call. by intros c ->. Qed.

Lemma enter_namespaces_contained b : contained (enter_namespaces b).
Proof.
  assert (forall l f, contained (collect_namespaces l f)) as H1.
  { induction l as [|d l IH]; intros f; cbn [collect_namespaces]; [done|]. unfold UpdateFlags, lift_cpp.
    calls_walk; try done; auto. }
  assert (forall l, contained (join_namespaces l)) as H2.
  { induction l as [|[fd flag] l IH]; cbn [join_namespaces]; [done|]. calls_walk; try done; auto. }
  unfold enter_namespaces. calls_walk; try done; auto.
Qed.

Lemma run_container_contained fuel Cid PidFile s SFile fd :
  contained (run_container fuel Cid PidFile s SFile fd).
Proof.
  unfold run_container, wait_exec_fifo, ensure. calls_walk; try done;
    first [by apply enter_namespaces_contained
          |apply ordinary_contained; auto using setCreated_ordinary, enter_ordinary, publish_ordinary, execute_ordinary].
  apply atomicCreate_ordinary. calls_walk; done.
Qed.

Lemma doRunInternal_contained fuel Cid PidFile s SFile fd :
  contained (doRunInternal fuel Cid PidFile s SFile fd).
Proof.
  unfold doRunInternal, compile_module, compile_child, wait_compiler, ensure. calls_walk; try done.
  - apply ordinary_contained, prepare_wasi_ordinary.
  - apply run_container_contained.
Qed.

End Ordinary.

(** ** The discipline *)

(** The descriptors the process holds; [None] after the kernel has handed out a
    descriptor that was open or negative, which it does not do: nothing is asked
    then. *)
Abbreviation fd_state := (option (gset Z)).

Definition fd_new (st : fd_state) (fd : Z) : fd_state :=
  H ← st; if (fd <? 0) || bool_decide (fd ∈ H) then None else Some ({[fd]} ∪ H).

Definition fd_open (st : fd_state) (r : Z) : fd_state := if r <? 0 then st else fd_new st r.

Lemma fd_new_Some st fd H :
  fd_new st fd = Some H -> exists H0, st = Some H0 /\ fd ∉ H0 /\ H = {[fd]} ∪ H0.
Proof.
  destruct st as [H0|]; [|done]. cbn. destruct (fd <? 0); [done|]. cbn. case_bool_decide; [done|].
  intros [= <-]. eauto.
Qed.

Definition fd_use (st : fd_state) (fd : Z) : option fd_state :=
  match st with
  | Some H => if bool_decide (fd ∈ H) then Some (Some H) else None
  | None => Some None
  end.

Definition fd_close (st : fd_state) (fd : Z) : option fd_state :=
  match st with
  | Some H => if bool_decide (fd ∈ H) then Some (Some (H ∖ {[fd]})) else None
  | None => Some None
  end.

Section Discipline.
Context `{SJ : Simdjson}.

Definition fd_step (st : fd_state) (e : event) : option fd_state :=
  match projT1 e as c return resp c -> option fd_state with
  | Px (Open _ _) => λ r, Some (fd_open st (ret r))
  | Px Socket => λ r, Some (fd_open st (ret r))
  | Px Pipe => λ '(r, (a, b)), Some (if ret r <? 0 then st else fd_new (fd_new st a) b)
  | Px (Close fd) => λ _, fd_close st fd
  | Px (Read fd _) => λ _, fd_use st fd
  | Px (Write fd _) => λ _, fd_use st fd
  | Px (Select fd) => λ _, fd_use st fd
  | Px (Connect fd _) => λ _, fd_use st fd
  | Px (Setns fd _) => λ _, fd_use st fd
  | _ => λ _, Some st
  end (projT2 e).

Definition fd_rel (st : fd_state) (e : event) (st' : fd_state) : Prop := fd_step st e = Some st'.

Local Abbreviation acc := (accepts fd_rel).

Lemma ordinary_idle st c : ordinary c = true -> idle fd_rel st c.
Proof. by intros Hc r; destruct c as [|[]| | |]. Qed.

Lemma chaos_idle {A} (p : prog A) : all_calls (idle fd_rel None) p.
Proof.
  induction p as [a|c k IH| | | |]; cbn; try done. split; [|done]. intros r.
  destruct c as [|[]| | |]; try done; [destruct r as [r [a b]]|..]; unfold fd_rel, fd_open; cbn; unfold fd_open;
    by destruct (ret r <? 0).
Qed.

Lemma acc_chaos {A} (p : prog A) Q : (forall a, Q a None) -> acc None p Q.
Proof. intros HQ. eapply accepts_mono; [|apply accepts_idle, chaos_idle]. by intros a ? ->. Qed.

Lemma acc_ordinary {A B} st (p : prog A) (f : A -> prog B) Q :
  all_calls (λ c, ordinary c = true) p -> (forall a, acc st (f a) Q) -> acc st (p ≫= f) Q.
Proof.
  intros Hp Hf. eapply accepts_seq; [apply accepts_idle|].
  - eapply all_calls_mono; [|exact Hp]. intros c. apply ordinary_idle.
  - by intros a ? ->.
Qed.

(** A call that opens a descriptor. *)
Lemma acc_open {A} H c (g : resp c -> Z) (f : resp c -> prog A) Q :
  (forall st r, fd_step st (existT (P := resp) c r) = Some (fd_open st (g r))) -> (forall a, Q a None) ->
  (forall r, g r < 0 -> acc (Some H) (f r) Q) ->
  (forall r, 0 <= g r -> g r ∉ H -> acc (Some ({[g r]} ∪ H)) (f r) Q) -> acc (Some H) (do_call c ≫= f) Q.
Proof.
  intros Hc HQ Hneg Hpos. apply accepts_call. intros r. eexists. split; [apply Hc|]. unfold fd_open. cbn.
  destruct (Z.ltb_spec (g r) 0); [by apply Hneg|]. cbn. case_bool_decide; [by apply acc_chaos|by apply Hpos].
Qed.

(** A call that uses one. *)
Lemma acc_use {A} H c fd (f : resp c -> prog A) Q :
  (forall st r, fd_step st (existT (P := resp) c r) = fd_use st fd) -> fd ∈ H ->
  (forall r, acc (Some H) (f r) Q) -> acc (Some H) (do_call c ≫= f) Q.
Proof.
  intros Hc Hfd Hf. apply accepts_call. intros r. eexists. split; [|apply Hf].
  unfold fd_rel. rewrite Hc. cbn. by rewrite bool_decide_true.
Qed.

Lemma acc_close {A} H fd (f : sysret -> prog A) Q :
  fd ∈ H -> (forall r, acc (Some (H ∖ {[fd]})) (f r) Q) -> acc (Some H) (do_call (Px (Close fd)) ≫= f) Q.
Proof.
  intros Hfd Hf. apply accepts_call. intros r. eexists. split; [|apply Hf].
  unfold fd_rel. cbn. by rewrite bool_decide_true.
Qed.

Lemma acc_close_fd {A} H fd (f : unit -> prog A) Q :
  (0 <= fd -> fd ∈ H) -> acc (Some (if 0 <=? fd then H ∖ {[fd]} else H)) (f tt) Q ->
  acc (Some H) (close_fd fd ≫= f) Q.
Proof.
  intros Hfd Hf. unfold close_fd. destruct (Z.leb_spec 0 fd); [|done].
  apply accepts_bind, acc_close; [by apply Hfd|]. intros _. exact Hf.
Qed.

(** The descriptors in [H] are still held. *)
Definition holds (H : gset Z) (st : fd_state) : Prop :=
  match st with Some H' => H ⊆ H' | None => True end.

(** ** The parts of [doCreate] *)

(** The descriptors are those of [H0] and, each once, those of the namespaces. *)
Definition with_ns (H0 : gset Z) (fs : list (Z * Z)) (H : gset Z) : Prop :=
  H = H0 ∪ list_to_set fs.*1 /\ NoDup fs.*1 /\ H0 ## list_to_set fs.*1.

Definition ns_post (H0 : gset Z) (r : option NsFlags) (st : fd_state) : Prop :=
  match st with
  | None => True
  | Some H => H0 ⊆ H /\ forall f, r = Some f -> with_ns H0 f.2 H
  end.

Lemma UpdateFlags_acc Flag Path f H0 H :
  with_ns H0 f.2 H -> acc (Some H) (UpdateFlags Flag Path f) (ns_post H0).
Proof.
  destruct f as [u fs]. intros Hns. pose proof Hns as (-> & Hnd & Hdis). unfold UpdateFlags. destruct (is_empty Path).
  { split; [set_solver|]. by intros f [= <-]. }
  apply (acc_open _ (Px (Open Path O_RDONLY)) ret); [done|done|..]; intros r Hr.
  - destruct (Z.ltb_spec (ret r) 0); [|lia]. split; [set_solver|done].
  - intros Hnew. destruct (Z.ltb_spec (ret r) 0); [lia|]. split; [set_solver|]. intros f [= <-]. unfold with_ns. cbn [snd] in *.
    rewrite fmap_app, list_to_set_app_L. cbn. split_and!; [set_solver| |set_solver].
    apply NoDup_app. split_and!; [done| |apply NoDup_singleton]. set_solver.
Qed.

Lemma collect_namespaces_acc l f H0 H :
  with_ns H0 f.2 H -> acc (Some H) (collect_namespaces l f) (ns_post H0).
Proof.
  revert f H. induction l as [|Desc l IH]; intros f H Hns; cbn [collect_namespaces].
  { split; [destruct Hns; set_solver|]. by intros ? [= <-]. }
  apply acc_ordinary; [by destruct (namespace_flag _)|]. intros [Flag|]; [|by apply IH].
  eapply accepts_seq; [by apply UpdateFlags_acc|]. intros r [H1|] Hr; [|by apply acc_chaos].
  destruct Hr as [Hsub Hr], r as [f1|]; [by apply IH, Hr|]. by split.
Qed.

Lemma join_namespaces_acc l H0 H :
  with_ns H0 l H -> acc (Some H) (join_namespaces l) (λ _ st, st = Some H0).
Proof.
  revert H. induction l as [|[Fd Flag] l IH]; intros H (-> & Hnd & Hdis); cbn [join_namespaces].
  { cbn. f_equal. set_solver. }
  cbn in Hnd, Hdis. apply NoDup_cons in Hnd as [Hnew Hnd].
  apply (acc_use _ _ Fd); [done|set_solver|]. intros r1.
  apply acc_close; [set_solver|]. intros r2. eapply accepts_seq; [apply IH|by intros ? ? ->].
  split_and!; [|done|set_solver]. cbn. apply set_eq. set_solver.
Qed.

Lemma enter_namespaces_acc b H : acc (Some H) (enter_namespaces b) (λ _ st, holds H st).
Proof.
  unfold enter_namespaces. eapply accepts_seq.
  { apply (collect_namespaces_acc _ (0, []) H). split_and!; [set_solver|constructor|set_solver]. }
  intros r [H1|] Hr; [|by apply acc_chaos]. destruct Hr as [Hsub Hr], r as [[u fs]|]; [|done].
  apply acc_ordinary; [destruct (u =? 0); calls_walk; done|]. intros _.
  eapply accepts_seq; [exact (join_namespaces_acc fs H H1 (Hr (u, fs) eq_refl))|]. intros ok ? ->. cbn. set_solver.
Qed.

(** What follows keeps the descriptors of [H], so they are there at the end. *)
Definition acc_in {A} (H : gset Z) (p : prog A) : Prop :=
  forall H', H ⊆ H' -> acc (Some H') p (λ _ st, holds H st).

Lemma acc_in_ret {A} H (a : A) : acc_in H (mret a).
Proof. by intros H' HH. Qed.

Lemma acc_in_idles {A} H (p : prog A) : all_calls (λ c, forall st, idle fd_rel st c) p -> acc_in H p.
Proof.
  intros Hp H' HH. eapply accepts_mono; [|apply accepts_idle; eapply all_calls_mono; [|exact Hp]].
  - by intros a ? ->.
  - intros c Hc. apply Hc.
Qed.

Lemma acc_in_ordinary {A} H (p : prog A) : all_calls (λ c, ordinary c = true) p -> acc_in H p.
Proof. intros Hp. apply acc_in_idles. eapply all_calls_mono; [|exact Hp]. intros c Hc st. by apply ordinary_idle. Qed.

Lemma acc_in_bind {A B} H (p : prog A) (f : A -> prog B) :
  acc_in H p -> (forall a, acc_in H (f a)) -> acc_in H (p ≫= f).
Proof.
  intros Hp Hf H' HH. eapply accepts_seq; [by apply Hp|]. intros a [H1|] HH1; [by apply Hf|by apply acc_chaos].
Qed.

Lemma acc_in_use {A} H c fd (f : resp c -> prog A) :
  (forall st r, fd_step st (existT (P := resp) c r) = fd_use st fd) -> fd ∈ H ->
  (forall r, acc_in H (f r)) -> acc_in H (do_call c ≫= f).
Proof. intros Hc Hfd Hf H' HH. apply (acc_use _ _ fd); [done|set_solver|]. intros r. by apply Hf. Qed.

Lemma acc_in_ensure H (b : bool) p : acc_in H p -> acc_in H (ensure b p).
Proof. intros Hp. destruct b; [done|apply acc_in_ret]. Qed.

Lemma enter_namespaces_in b H : acc_in H (enter_namespaces b).
Proof.
  intros H' HH. eapply accepts_mono; [|apply enter_namespaces_acc]. intros ok [H1|]; [|done]. cbn. set_solver.
Qed.

Lemma wait_exec_fifo_in fd H : fd ∈ H -> acc_in H (wait_exec_fifo fd).
Proof.
  intros Hfd. unfold wait_exec_fifo. destruct (fd <? 0); [apply acc_in_ret|]. destruct (FD_SETSIZE <=? fd); [by intros H' HH|].
  apply (acc_in_use _ _ fd); [done..|]. intros r. destruct (ret r <? 0); [apply acc_in_ret|].
  apply (acc_in_use _ _ fd); [done..|]. intros [r2 t]. destruct (ret r2 <? 0); apply acc_in_ret.
Qed.

Lemma run_container_in fuel Cid PidFile s SFile fd H : fd ∈ H -> acc_in H (run_container fuel Cid PidFile s SFile fd).
Proof.
  intros Hfd. unfold run_container.
  apply acc_in_bind; [apply acc_in_ordinary, atomicCreate_ordinary; calls_walk; done|]. intros ok. apply acc_in_ensure.
  apply acc_in_bind; [apply acc_in_ordinary, setCreated_ordinary|]. intros s'.
  apply acc_in_bind; [apply enter_namespaces_in|]. intros ok'. apply acc_in_ensure.
  apply acc_in_bind; [apply acc_in_ordinary, enter_ordinary|]. intros [e|[]]; [apply acc_in_ret|].
  apply acc_in_bind; [apply acc_in_ordinary, publish_ordinary|]. intros ok2. apply acc_in_ensure.
  apply acc_in_bind; [by apply wait_exec_fifo_in|]. intros ok3. apply acc_in_ensure.
  apply acc_in_ordinary, execute_ordinary.
Qed.

Lemma doRunInternal_in fuel Cid PidFile s SFile fd H : fd ∈ H -> acc_in H (doRunInternal fuel Cid PidFile s SFile fd).
Proof.
  intros Hfd. unfold doRunInternal.
  apply acc_in_bind; [apply acc_in_ordinary, prepare_wasi_ordinary|]. intros Wasm.
  apply acc_in_bind.
  { apply acc_in_idles. unfold compile_module, compile_child, wait_compiler. calls_walk; done. }
  intros [So|]; [|apply acc_in_ret].
  do 3 (apply acc_in_bind; [by apply acc_in_idles; repeat split|]; intros ?; apply acc_in_ensure).
  apply acc_in_bind; [by apply acc_in_idles; repeat split|]. intros r.
  destruct (ret r <? 0); [apply acc_in_ret|]. destruct (0 <? ret r); [apply acc_in_ret|]. by apply run_container_in.
Qed.

(** The daemon holds the FIFO and the pipe; it opens and closes the console. *)
Lemma create_daemon_acc fuel Cid PidFile Console s SFile fd pw H :
  fd ∈ H -> pw ∈ H -> fd <> pw ->
  acc (Some H) (create_daemon fuel Cid PidFile Console s SFile fd pw)
    (λ r st, match st with Some H' => r.1 = EXIT_FAILURE /\ fd ∈ H' | None => True end).
Proof.
  intros Hfd Hpw Hne. unfold create_daemon.
  eapply (accepts_seq _ _ _ _ (λ r st, match st with
    | Some H' => {[fd; pw]} ⊆ H' /\ (0 <= r.1 -> r.1 ∈ H' /\ r.1 <> fd /\ r.1 <> pw)
    | None => True
    end)).
  { unfold connect_console. destruct (is_empty Console); [split; [set_solver|cbn; lia]|].
    apply (acc_open _ (Px Socket) ret); [done|done|..]; intros r Hr.
    - destruct (Z.ltb_spec (ret r) 0); [|lia]. split; [set_solver|cbn; lia].
    - intros Hnew. destruct (ret r <? 0); [set_solver|]. destruct (_ <=? _); [set_solver|].
      apply (acc_use _ _ (ret r)); [done|set_solver|]. intros c. set_solver. }
  intros [Con ok] [H1|] HH; [|by apply acc_chaos]. destruct HH as [Hsub Hcon]. cbn [fst] in Hcon.
  assert (forall r H2, {[fd]} ⊆ H2 -> (0 <= Con -> Con ∈ H2) -> r.1 = EXIT_FAILURE ->
    acc (Some H2) (close_fd Con ≫= (λ _ : unit, mret r)) (λ (r : Z * bool) st, match st with
      | Some H' => r.1 = EXIT_FAILURE /\ fd ∈ H' | None => True end)) as Hend.
  { intros r H2 Hfd2 Hcon2 Hr. apply acc_close_fd; [done|]. cbn. destruct (Z.leb_spec 0 Con); [|set_solver].
    destruct (Hcon ltac:(done)). set_solver. }
  apply accepts_bind. destruct ok; cbn [negb]; [|apply Hend; set_solver].
  set (K := if 0 <=? Con then {[fd; pw; Con]} else {[fd; pw]} : gset Z).
  eapply accepts_seq; [apply (doRunInternal_in _ _ _ _ _ _ K)|].
  1,2: unfold K; destruct (Z.leb_spec 0 Con); set_solver.
  intros code [H2|] HH2; [|apply acc_chaos; intros ?; by apply acc_chaos]. cbn in HH2.
  assert (pw ∈ H2 /\ fd ∈ H2 /\ (0 <= Con -> Con ∈ H2)) as (Hpw2 & Hfd2 & Hcon2).
  { unfold K in HH2. destruct (Z.leb_spec 0 Con); [|split_and!; [set_solver..|lia]]. set_solver. }
  apply (acc_use _ _ pw); [done..|]. intros r2. apply acc_close; [done|]. intros r3.
  apply Hend; [set_solver| |done]. intros Hp. destruct (Hcon Hp) as (_ & _ & Hn). set_solver.
Qed.

Lemma create_parent_acc Child pr pw fd :
  fd <> pr -> fd <> pw -> pr <> pw ->
  acc (Some {[pw; pr; fd]}) (create_parent Child pr pw)
    (λ r st, match st with Some H' => fd ∈ H' /\ (r.1 = EXIT_SUCCESS -> H' = {[fd]}) | None => True end).
Proof.
  intros H1 H2 H3. unfold create_parent. apply acc_close; [set_solver|]. intros r1.
  apply acc_ordinary; [by repeat split|]. intros [r2 st]. apply (acc_use _ _ pr); [done|set_solver|].
  intros [r3 data]. destruct (_ && _); [set_solver|].
  apply acc_ordinary; [destruct (0 <? ret r3); [|done]; calls_walk; by destruct (bytes_int _)|].
  intros [|]; [set_solver|]. apply acc_close; [set_solver|]. intros r4. cbn.
  split; [set_solver|]. intros _. apply set_eq. set_solver.
Qed.

(** In each process of the creation the FIFO stays open; when the parent reports
    success it is the only descriptor that is. *)
Local Abbreviation fifo_left fd := (λ (r : Z * bool) (st : fd_state), match st with
  | Some H => fd ∈ H /\ (r.1 = EXIT_SUCCESS -> H = {[fd]})
  | None => True
  end).

Lemma create_fork_acc fuel Cid PidFile Console s SFile fd :
  acc (Some {[fd]}) (create_fork fuel Cid PidFile Console s SFile fd) (fifo_left fd).
Proof.
  unfold create_fork. apply accepts_call. intros [r [pr pw]]. eexists. split; [reflexivity|]. cbn beta iota.
  destruct (ret r <? 0); [set_solver|].
  destruct (fd_new (fd_new _ pr) pw) as [H|] eqn:E; [|by apply acc_chaos].
  apply fd_new_Some in E as (H1 & (H0 & [= <-] & Hpr & ->)%fd_new_Some & Hpw & ->).
  apply accepts_idle_call; [done|]. intros r1.
  destruct (ret r1 <? 0); [set_solver|]. destruct (0 <? ret r1).
  { replace ({[pw]} ∪ ({[pr]} ∪ {[fd]})) with ({[pw; pr; fd]} : gset Z) by set_solver.
    apply create_parent_acc; set_solver. }
  apply acc_close; [set_solver|]. intros r2. apply acc_ordinary; [calls_walk; done|]. intros r3.
  destruct (ret r3 <? 0); [set_solver|]. apply accepts_idle_call; [done|]. intros r4.
  destruct (ret r4 <? 0); [set_solver|]. destruct (0 <? ret r4); [done|].
  eapply accepts_mono; [|apply create_daemon_acc; set_solver]. intros [code ok] [H|]; [|done]. cbn.
  intros [-> Hfd]. done.
Qed.

Lemma doCreate_acc fuel Root Systemd Cfg Id Path Console PidFile :
  acc (Some ∅) (doCreate fuel Root Systemd Cfg Id Path Console PidFile)
    (λ code st, match st with Some H => code = EXIT_SUCCESS -> H = ∅ | None => True end).
Proof.
  unfold doCreate. apply acc_ordinary; [calls_walk; done|]. intros [[] err]; cbn [ensure]; [|done].
  apply accepts_bind, accepts_bind. eapply accepts_mono with (Q := λ r st, match st with
    | Some H => r.1 = EXIT_SUCCESS -> H = ∅ | None => True end).
  { intros [code Success] st Hst. apply acc_ordinary; [destruct Success; calls_walk; done|]. by intros _. }
  unfold create_body. cbv zeta. apply acc_ordinary; [unfold loadBundle, Bundle_load; calls_walk; done|].
  intros [s []]; cbn [negb]; [|done]. apply acc_ordinary; [by apply atomicCreate_ordinary|].
  intros []; cbn [negb]; [|done]. apply accepts_idle_call; [done|]. intros r1. destruct (ret r1 <? 0); [done|].
  apply (acc_open _ (Px (Open _ _)) ret); [done|done|..]; intros r Hr.
  - apply accepts_bind. rewrite (proj2 (Z.ltb_lt _ _) Hr). apply acc_close_fd; [lia|]. cbn.
    destruct (Z.leb_spec 0 (ret r)); [lia|done].
  - intros _. apply accepts_bind. destruct (Z.ltb_spec (ret r) 0); [lia|].
    replace ({[ret r]} ∪ ∅) with ({[ret r]} : gset Z) by set_solver.
    eapply accepts_mono; [|apply create_fork_acc]. intros [code ok] [H0|]; [|intros _; by apply acc_chaos].
    intros [Hfd Hs]. apply acc_close_fd; [done|]. cbn. destruct (Z.leb_spec 0 (ret r)); [|lia].
    intros E. rewrite (Hs E). set_solver.
Qed.

(** ** The property *)

Context {W : Type} {OS : Os W}.

(** C18: In every environment, each of the processes of [doCreate] uses and closes
    only descriptors that it has open, so none is used after it is closed and
    none is closed twice; when create succeeds none is left open. *)
Theorem create_descriptors fuel Root Systemd Cfg Id Path Console PidFile (w : W) :
  exists st, steps fd_rel (Some ∅) (trace (doCreate fuel Root Systemd Cfg Id Path Console PidFile) w) st /\
    forall w', run (doCreate fuel Root Systemd Cfg Id Path Console PidFile) w = (Done EXIT_SUCCESS, w') ->
      st = Some ∅ \/ st = None.
Proof.
  destruct (accepts_run fd_rel (Some ∅) _ _ w (doCreate_acc fuel Root Systemd Cfg Id Path Console PidFile))
    as (st & Hst & HQ).
  exists st. split; [done|]. intros w' Hr. destruct st as [H|]; [left; f_equal; by eapply HQ|by right].
Qed.

End Discipline.
