(* ===== verification/Lifecycle.v ===== *)
(** The life cycle of a container, as a transition system over the external
    calls, and the proof that [doCreate] follows it in every process and every
    environment: the state file goes through creating, created, running and
    stopped in this order, and the module runs only after the wake-up through
    the FIFO and after the running state has been published. *)
From S2P Require Import Prelude Cpp Path Json JsonRef Prog Logic Sim FileOps Loader.
From S2P Require Import Bundle Time State StateProps SDBus CGroup Container.

(** ** The specification *)

(** What the state setters do, with the time and process id they find. *)
Definition to_created (s : State) (t : string) (pid : Z) : State :=
  s <| Status := Created |> <| CreatedTimestamp := t |> <| Pid := pid |>.
Definition to_running (s : State) (t : string) : State :=
  s <| Status := Running |> <| StartedTimestamp := t |>.
Definition to_stopped (s : State) (code : Z) (t : string) : State :=
  s <| Status := Stopped |> <| ExitCode := code |> <| FinishedTimestamp := t |>.

(** The phase of a container; the state is the one last published. *)
Inductive phase : Type :=
| PhNone
| PhCreating (s : State)
| PhCreated (s : State)
| PhWoken (s : State)
| PhRunning (s : State)
| PhExited (s : State)
| PhStopped (s : State).

(** One publication of the state of the container with id [Id] and bundle [Path]. *)
Inductive publishes (Id Path : string) : phase -> State -> phase -> Prop :=
| pub_creating s :
    Status s = Creating -> ContainerId s = Id -> BundlePath s = Path ->
    publishes Id Path PhNone s (PhCreating s)
| pub_created s t pid :
    publishes Id Path (PhCreating s) (to_created s t pid) (PhCreated (to_created s t pid))
| pub_running s t : publishes Id Path (PhWoken s) (to_running s t) (PhRunning (to_running s t))
| pub_stopped s c t : publishes Id Path (PhExited s) (to_stopped s c t) (PhStopped (to_stopped s c t)).

(** The state of the specification: the phase, the text last written to a
    temporary file, and the descriptor of the FIFO. *)
Record life := Life {
  life_phase : phase;
  life_pending : option (string * string);
  life_fifo : option Z;
}.
Definition life_start : life := Life PhNone None None.

Definition fifo_flags : Z := Z.lor O_RDONLY O_NONBLOCK.

(** Calls that are not part of the life cycle. *)
Definition life_other (c : call) : bool :=
  match c with
  | Fs (OfstreamWrite _ _) | Fs (FsRename _ _) | Px (Read _ _) | Wm (VmExecute _) => false
  | Px (Open _ flags) => negb (flags =? fifo_flags)
  | _ => true
  end.

(** A wake-up: data, the end of the data, or an interrupted read. *)
Definition wakes (r : sysret) : bool := (0 <=? ret r) || (errno r =? EINTR).

Section Spec.
Context `{SJ : Simdjson}.

Inductive life_step (Id Path StateFile FifoFile : string) : life -> event -> life -> Prop :=
| life_idle l c r :
    life_other c = true -> life_step Id Path StateFile FifoFile l (existT (P := resp) c r) l
| life_open ph pend fifo r :
    life_step Id Path StateFile FifoFile (Life ph pend fifo)
      (existT (P := resp) (Px (Open FifoFile fifo_flags)) r) (Life ph pend (Some (ret r)))
| life_write ph pend fifo tmp text r :
    life_step Id Path StateFile FifoFile (Life ph pend fifo)
      (existT (P := resp) (Fs (OfstreamWrite tmp text)) r) (Life ph (Some (tmp, text)) fifo)
| life_rename_other ph pend fifo a b err :
    b <> StateFile \/ err <> 0 ->
    life_step Id Path StateFile FifoFile (Life ph pend fifo)
      (existT (P := resp) (Fs (FsRename a b)) err) (Life ph None fifo)
| life_publish ph ph' s tmp fifo :
    publishes Id Path ph s ph' ->
    life_step Id Path StateFile FifoFile (Life ph (Some (tmp, State_print s)) fifo)
      (existT (P := resp) (Fs (FsRename tmp StateFile)) 0) (Life ph' None fifo)
| life_read l fd n r :
    life_step Id Path StateFile FifoFile l (existT (P := resp) (Px (Read fd n)) r) l
| life_wake s pend fd r data :
    wakes r = true ->
    life_step Id Path StateFile FifoFile (Life (PhCreated s) pend (Some fd))
      (existT (P := resp) (Px (Read fd 1)) (r, data)) (Life (PhWoken s) pend (Some fd))
| life_execute s pend fifo f r :
    life_step Id Path StateFile FifoFile (Life (PhRunning s) pend fifo)
      (existT (P := resp) (Wm (VmExecute f)) r) (Life (PhExited s) pend fifo).

(** ** What the specification means for a trace *)

(** The texts published in a state file: a text written to a temporary file that
    is then renamed to it. *)
Definition published_step (StateFile : string) (pend : option (string * string)) (e : event) :
    option (string * string) * list string :=
  match projT1 e as c return resp c -> _ with
  | Fs (OfstreamWrite tmp text) => λ _, (Some (tmp, text), [])
  | Fs (FsRename a b) => λ err,
      (None, match pend with
             | Some (tmp, text) =>
                 if String.eqb b StateFile && String.eqb a tmp && ((err : Z) =? 0) then [text] else []
             | None => []
             end)
  | _ => λ _, (pend, [])
  end (projT2 e).

Fixpoint published (StateFile : string) (pend : option (string * string)) (t : list event) : list string :=
  match t with
  | [] => []
  | e :: t =>
      let '(pend, out) := published_step StateFile pend e in out ++ published StateFile pend t
  end.

End Spec.

(** The states that can still be published from a phase. *)
Inductive future (Id Path : string) : phase -> list string -> Prop :=
| fut_nil ph : future Id Path ph []
| fut_pub ph s ph' l :
    publishes Id Path ph s ph' -> future Id Path ph' l -> future Id Path ph (State_print s :: l)
| fut_wake s l : future Id Path (PhWoken s) l -> future Id Path (PhCreated s) l
| fut_execute s l : future Id Path (PhExited s) l -> future Id Path (PhRunning s) l.

Section Consequences.
Context `{SJ : Simdjson} (Id Path StateFile FifoFile : string).

Lemma life_other_published l c r :
  life_other c = true ->
  published_step StateFile (life_pending l) (existT (P := resp) c r) = (life_pending l, []).
Proof. by destruct c as [[]|[]|[]|[]|]. Qed.

Lemma steps_published l t l' :
  steps (life_step Id Path StateFile FifoFile) l t l' ->
  future Id Path (life_phase l) (published StateFile (life_pending l) t).
Proof.
  induction 1 as [l|l e l1 t l2 He _ IH]; [constructor|]. cbn [published].
  destruct He; try exact IH.
  - by rewrite life_other_published.
  - cbn. destruct pend as [[tmp text]|]; [|exact IH].
    assert (String.eqb b StateFile && String.eqb a tmp && (err =? 0) = false) as ->; [|exact IH].
    destruct (String.eqb_spec b StateFile), (Z.eqb_spec err 0); destruct_or?; try done;
      by rewrite ?andb_false_r.
  - cbn. rewrite !String.eqb_refl. cbn. by econstructor.
  - by apply fut_wake.
  - by apply fut_execute.
Qed.

(** The FIFO was opened and a read from it has returned. *)
Definition woken_by (t : list event) : Prop :=
  exists fd e r data,
    (existT (P := resp) (Px (Open FifoFile fifo_flags)) (SysRet fd e) : event) ∈ t /\
    (existT (P := resp) (Px (Read fd 1)) (r, data) : event) ∈ t /\ wakes r = true.

(** A running state was written and renamed to the state file. *)
Definition running_published (t : list event) : Prop :=
  exists s tmp r, Status s = Running /\
    (existT (P := resp) (Fs (OfstreamWrite tmp (State_print s))) r : event) ∈ t /\
    (existT (P := resp) (Fs (FsRename tmp StateFile)) 0 : event) ∈ t.

Lemma woken_by_mono t e : woken_by t -> woken_by (t ++ [e]).
Proof.
  intros (fd & err & r & data & H1 & H2 & H3). exists fd, err, r, data. set_solver.
Qed.

Lemma running_published_mono t e : running_published t -> running_published (t ++ [e]).
Proof. intros (s & tmp & r & H1 & H2 & H3). exists s, tmp, r. set_solver. Qed.

(** What is true of a history that leads to a state of the specification. *)
Record life_inv (h : list event) (l : life) : Prop := {
  inv_fifo fd : life_fifo l = Some fd ->
    exists e, (existT (P := resp) (Px (Open FifoFile fifo_flags)) (SysRet fd e) : event) ∈ h;
  inv_pending tmp text : life_pending l = Some (tmp, text) ->
    exists r, (existT (P := resp) (Fs (OfstreamWrite tmp text)) r : event) ∈ h;
  inv_woken : match life_phase l with
              | PhWoken _ | PhRunning _ | PhExited _ | PhStopped _ => woken_by h
              | _ => True
              end;
  inv_running : match life_phase l with
                | PhRunning _ | PhExited _ | PhStopped _ => running_published h
                | _ => True
                end;
}.

Lemma life_inv_same h e l l' :
  life_phase l' = life_phase l -> life_fifo l' = life_fifo l ->
  (life_pending l' = life_pending l \/ life_pending l' = None) ->
  life_inv h l -> life_inv (h ++ [e]) l'.
Proof.
  intros Hph Hf Hp [H1 H2 H3 H4]. split.
  - rewrite Hf. intros fd Hfd. destruct (H1 fd Hfd) as [x Hx]. exists x. set_solver.
  - intros tmp text Ht. destruct Hp as [Hp|Hp]; rewrite Hp in Ht; [|done].
    destruct (H2 tmp text Ht) as [x Hx]. exists x. set_solver.
  - rewrite Hph. destruct (life_phase l); auto using woken_by_mono.
  - rewrite Hph. destruct (life_phase l); auto using running_published_mono.
Qed.

Lemma life_inv_step h l e l' :
  life_step Id Path StateFile FifoFile l e l' -> life_inv h l -> life_inv (h ++ [e]) l'.
Proof.
  intros He Hinv. assert (life_inv (h ++ [e]) l) as Hkeep by (apply (life_inv_same h e l l); auto).
  destruct He; try exact Hkeep; destruct Hkeep as [H1 H2 H3 H4]; cbn in *.
  - split; cbn; [|done..]. intros fd [= <-]. exists (errno r). destruct r. set_solver.
  - split; cbn; [done| |done..]. intros ?? [= <- <-]. exists r. set_solver.
  - by split.
  - destruct (H2 _ _ eq_refl) as [x Hx]. split; cbn; [done|done|..]; destruct H; try done.
    exists (to_running s t), tmp, x. split; [by destruct s|]. set_solver.
  - split; cbn; [done|done| |done]. destruct (H1 fd eq_refl) as [x Hx].
    exists fd, x, r, data. set_solver.
  - by split.
Qed.

Lemma life_inv_steps h l t l' :
  steps (life_step Id Path StateFile FifoFile) l t l' -> life_inv h l -> life_inv (h ++ t) l'.
Proof.
  intros Hs. revert h. induction Hs as [l|l e l1 t l2 He _ IH]; intros h Hinv.
  - by rewrite app_nil_r.
  - rewrite cons_middle, app_assoc. apply IH. by eapply life_inv_step.
Qed.

Lemma life_inv_start : life_inv [] life_start.
Proof. by split. Qed.

(** The module is executed at most once. *)
Definition executes (e : event) : bool :=
  match projT1 e with Wm (VmExecute _) => true | _ => false end.

Definition may_execute (ph : phase) : nat :=
  match ph with PhExited _ | PhStopped _ => 0 | _ => 1 end.

Lemma steps_executions l t l' :
  steps (life_step Id Path StateFile FifoFile) l t l' ->
  (length (List.filter executes t) <= may_execute (life_phase l))%nat.
Proof.
  induction 1 as [l|l e l1 t l2 He _ IH]; [cbn; lia|]. cbn [List.filter].
  destruct He; cbn in *; try lia; [by destruct c as [[]|[]|[]|[]|]|].
  match goal with Hp : publishes _ _ _ _ _ |- _ => destruct Hp end; cbn in *; lia.
Qed.

End Consequences.

(** ** [doCreate] follows the specification *)

Section Refinement.
Context `{SJ : Simdjson} (Id Path StateFile FifoFile : string).
Local Abbreviation step := (life_step Id Path StateFile FifoFile).
Local Abbreviation acc := (accepts (life_step Id Path StateFile FifoFile)).

Lemma life_other_idle l c : life_other c = true -> idle step l c.
Proof. intros Hc r. by apply life_idle. Qed.

Lemma life_accepts_other {A} l (p : prog A) :
  all_calls (λ c, life_other c = true) p -> acc l p (λ _ l', l' = l).
Proof. intros Hp. apply accepts_idle. eapply all_calls_mono; [|exact Hp]. apply life_other_idle. Qed.

(** A part of the program without life cycle calls. *)
Lemma life_skip {A B} l (p : prog A) (f : A -> prog B) Q :
  all_calls (λ c, life_other c = true) p -> (forall a, acc l (f a) Q) -> acc l (p ≫= f) Q.
Proof.
  intros Hp Hf. eapply accepts_seq; [by apply life_accepts_other|]. intros a ? ->. apply Hf.
Qed.

Lemma getTempFilename_other fuel Prefix :
  all_calls (λ c, life_other c = true) (getTempFilename fuel Prefix).
Proof.
  assert (forall n, all_calls (λ c, life_other c = true) (random_suffix n)) as Hr
    by (induction n; cbn [random_suffix]; calls_walk; done).
  induction fuel as [|fuel IH]; cbn [getTempFilename]; calls_walk; done.
Qed.

(** Writing a file: on success the text is in place if the specification lets
    it be published there. *)
Lemma writeTempAndRename_life fuel File Func (T : string -> Prop) ph ph' pend fifo :
  (forall l, acc l Func (λ text l', l' = l /\ T text)) ->
  (forall tmp text, T text ->
     step (Life ph (Some (tmp, text)) fifo) (existT (P := resp) (Fs (FsRename tmp File)) 0)
       (Life ph' None fifo)) ->
  acc (Life ph pend fifo) (writeTempAndRename fuel File Func)
    (λ ok l, life_phase l = (if (ok : bool) then ph' else ph) /\ life_fifo l = fifo).
Proof.
  intros HFunc Hren. unfold writeTempAndRename.
  apply life_skip; [apply getTempFilename_other|]. intros tmp.
  apply accepts_idle_call; [by apply life_other_idle|]. intros [|]; [|by split].
  eapply accepts_seq; [apply HFunc|]. intros text ? [-> HT].
  apply accepts_call. intros r. eexists. split; [apply life_write|].
  apply accepts_call. intros err. destruct (Z.eqb_spec err 0) as [->|Hne].
  - eexists. split; [by apply Hren|]. by split.
  - eexists. split; [apply life_rename_other; by right|].
    apply accepts_idle_call; [by apply life_other_idle|]. intros _. by split.
Qed.

Lemma regular_skip {B} l File (f : bool * errc -> prog B) Q :
  (forall b, acc l (f b) Q) -> acc l (is_regular_file File ≫= f) Q.
Proof. intros Hf. apply life_skip; [|done]. unfold is_regular_file. calls_walk. done. Qed.

Lemma publish_life fuel s ph ph' pend fifo :
  publishes Id Path ph s ph' ->
  acc (Life ph pend fifo) (publish fuel StateFile s)
    (λ ok l, life_phase l = (if (ok : bool) then ph' else ph) /\ life_fifo l = fifo).
Proof.
  intros Hp. unfold publish, atomicUpdateFile. apply regular_skip. intros [[] ?]; [|by split].
  apply (writeTempAndRename_life _ _ _ (λ t, t = State_print s)); [by split|].
  intros tmp text ->. by apply life_publish.
Qed.

Lemma create_life fuel s ph ph' pend fifo :
  publishes Id Path ph s ph' ->
  acc (Life ph pend fifo) (atomicCreateAndWriteFile fuel StateFile (mret (State_print s)))
    (λ ok l, life_phase l = (if (ok : bool) then ph' else ph) /\ life_fifo l = fifo).
Proof.
  intros Hp. unfold atomicCreateAndWriteFile. apply regular_skip. intros [[] ?]; [by split|].
  apply (writeTempAndRename_life _ _ _ (λ t, t = State_print s)); [by split|].
  intros tmp text ->. by apply life_publish.
Qed.

(** A file other than the state file. *)
Lemma create_other_life fuel File Func ph pend fifo :
  File <> StateFile -> all_calls (λ c, life_other c = true) Func ->
  acc (Life ph pend fifo) (atomicCreateAndWriteFile fuel File Func)
    (λ _ l, life_phase l = ph /\ life_fifo l = fifo).
Proof.
  intros Hne HFunc. unfold atomicCreateAndWriteFile. apply regular_skip. intros [[] ?]; [by split|].
  eapply accepts_mono; [|apply (writeTempAndRename_life _ _ _ (λ _, True) ph ph)].
  - by intros [] l.
  - intros l. eapply accepts_mono; [|by apply life_accepts_other]. by intros ? ? ->.
  - intros tmp text _. apply life_rename_other. by left.
Qed.

(** *** The container process *)

Lemma timestamp_skip {B} l (f : string -> prog B) Q :
  (forall t, acc l (f t) Q) -> acc l (timestamp ≫= f) Q.
Proof.
  intros Hf. apply life_skip; [|done]. unfold timestamp. calls_walk; [done|].
  by destruct (format_time _).
Qed.

Lemma enter_other fuel Cid s : all_calls (λ c, life_other c = true) (enter fuel Cid s).
Proof. by apply enter_calls. Qed.

Lemma enter_namespaces_other b : all_calls (λ c, life_other c = true) (enter_namespaces b).
Proof.
  assert (forall l f, all_calls (λ c, life_other c = true) (collect_namespaces l f)) as Hc.
  { induction l as [|Desc l IH]; intros f; cbn [collect_namespaces]; [done|].
    unfold UpdateFlags. calls_walk; try done. by destruct (namespace_flag _). }
  assert (forall l, all_calls (λ c, life_other c = true) (join_namespaces l)) as Hj
    by (induction l as [|[] l IH]; cbn [join_namespaces]; calls_walk; done).
  unfold enter_namespaces. calls_walk; done.
Qed.

(** The exit code of the process: that of the published state, or a failure. *)
Definition exit_ok (code : Z) (l : life) : Prop :=
  match life_phase l with PhStopped s => code = ExitCode s | _ => code = EXIT_FAILURE end.

Lemma setCreated_seq {B} l s (k : State -> prog B) Q :
  (forall t pid, acc l (k (to_created s t pid)) Q) -> acc l (setCreated s ≫= k) Q.
Proof.
  intros Hk. apply accepts_bind. unfold setCreated. apply timestamp_skip. intros t.
  apply accepts_idle_call; [by apply life_other_idle|]. intros r. apply Hk.
Qed.

Lemma setRunning_seq {B} l s (k : State -> prog B) Q :
  (forall t, acc l (k (to_running s t)) Q) -> acc l (setRunning s ≫= k) Q.
Proof. intros Hk. apply accepts_bind. apply timestamp_skip. intros t. apply Hk. Qed.

Lemma setStopped_seq {B} l s code (k : State -> prog B) Q :
  (forall t, acc l (k (to_stopped s code t)) Q) -> acc l (setStopped s code ≫= k) Q.
Proof. intros Hk. apply accepts_bind. apply timestamp_skip. intros t. apply Hk. Qed.

Lemma execute_life fuel s pend fifo :
  acc (Life (PhWoken s) pend fifo) (execute fuel s StateFile) exit_ok.
Proof.
  unfold execute. apply setRunning_seq. intros t.
  eapply accepts_seq; [apply publish_life, pub_running|].
  intros [] [ph pend1 fifo1] [Hph _]; cbn in Hph; subst ph; [|done]. cbn [ensure].
  apply accepts_call. intros Res. eexists. split; [apply life_execute|].
  eapply accepts_seq; [apply (life_accepts_other _ (if Res then _ else _))|].
  { destruct Res; [|done]. calls_walk. done. }
  intros Code ? ->. apply setStopped_seq. intros t2.
  eapply accepts_seq; [apply publish_life, pub_stopped|].
  intros [] [ph pend2 fifo2] [Hph _]; cbn in Hph; subst ph; done.
Qed.

Lemma wait_exec_fifo_life s pend fd :
  0 <= fd ->
  acc (Life (PhCreated s) pend (Some fd)) (wait_exec_fifo fd)
    (λ ok l, life_phase l = (if (ok : bool) then PhWoken s else PhCreated s)).
Proof.
  intros Hfd. unfold wait_exec_fifo. destruct (Z.ltb_spec fd 0); [lia|].
  destruct (FD_SETSIZE <=? fd); [done|].
  apply accepts_idle_call; [by apply life_other_idle|]. intros r. destruct (ret r <? 0); [done|].
  apply accepts_call. intros [r1 data]. destruct (wakes r1) eqn:Hw.
  - eexists. split; [by apply life_wake|]. unfold wakes in Hw. cbn.
    destruct (Z.ltb_spec (ret r1) 0), (Z.leb_spec 0 (ret r1)); try lia; [|done].
    cbn in Hw. by rewrite Hw.
  - eexists. split; [apply life_read|]. unfold wakes in Hw. apply orb_false_iff in Hw as [Hw1 Hw2].
    apply Z.leb_gt in Hw1. cbn. destruct (Z.ltb_spec (ret r1) 0); [|lia]. by rewrite Hw2.
Qed.

Lemma run_container_life fuel Cid PidFile s pend fd :
  PidFile <> StateFile -> 0 <= fd ->
  acc (Life (PhCreating s) pend (Some fd)) (run_container fuel Cid PidFile s StateFile fd) exit_ok.
Proof.
  intros Hpid Hfd. unfold run_container.
  eapply accepts_seq; [apply create_other_life; [done|by calls_walk]|].
  intros ok [ph pend1 fifo1] [Hph Hfifo]; cbn in Hph, Hfifo; subst. destruct ok; [|done].
  cbn [ensure]. apply setCreated_seq. intros t pid.
  apply life_skip; [apply enter_namespaces_other|]. intros []; [|done]. cbn [ensure].
  apply life_skip; [apply enter_other|]. intros [|]; [done|].
  eapply accepts_seq; [apply publish_life, pub_created|].
  intros ok [ph pend2 fifo2] [Hph Hfifo]; cbn in Hph, Hfifo; subst. destruct ok; [|done].
  cbn [ensure]. eapply accepts_seq; [by apply wait_exec_fifo_life|].
  intros [] [ph pend3 fifo3] Hph; cbn in Hph; subst; [|done]. apply execute_life.
Qed.

Lemma doRunInternal_life fuel Cid PidFile s pend fd :
  PidFile <> StateFile -> 0 <= fd ->
  acc (Life (PhCreating s) pend (Some fd)) (doRunInternal fuel Cid PidFile s StateFile fd)
    (λ code l, exit_ok code l \/ life_phase l = PhCreating s).
Proof.
  intros Hpid Hfd. unfold doRunInternal.
  apply life_skip.
  { unfold prepare_wasi. calls_walk; try done; [by destruct (Args _)|].
    induction (Cmds (Config s)); cbn [for_each_call]; calls_walk; done. }
  intros WasmPath. apply life_skip.
  { unfold compile_module, compile_child, wait_compiler. calls_walk; done. }
  intros [SoPath|]; [|by right].
  do 3 (apply accepts_idle_call; [by apply life_other_idle|]; intros []; [cbn [ensure]|by right]).
  apply accepts_idle_call; [by apply life_other_idle|]. intros r.
  destruct (ret r <? 0); [by right|]. destruct (0 <? ret r); [by right|].
  eapply accepts_mono; [|by apply run_container_life]. by left.
Qed.

End Refinement.

Section Create.
Context `{SJ : Simdjson} (Id Path StateFile FifoFile : string).
Local Abbreviation acc := (accepts (life_step Id Path StateFile FifoFile)).

Lemma scope_exit_skip {A} l (body : prog A) fin Q :
  (forall a, all_calls (λ c, life_other c = true) (fin a)) ->
  acc l body Q -> acc l (scope_exit body fin) Q.
Proof.
  intros Hfin Hbody. unfold scope_exit. eapply accepts_seq; [exact Hbody|].
  intros a l' HQ. by apply life_skip.
Qed.

Lemma close_fd_other fd : all_calls (λ c, life_other c = true) (close_fd fd).
Proof. unfold close_fd. calls_walk. done. Qed.

Lemma create_daemon_life fuel PidFile Console s pend fd pw :
  PidFile <> StateFile -> 0 <= fd ->
  acc (Life (PhCreating s) pend (Some fd))
    (create_daemon fuel Id PidFile Console s StateFile fd pw) (λ _ _, True).
Proof.
  intros Hpid Hfd. unfold create_daemon. apply life_skip.
  { unfold connect_console. calls_walk; done. }
  intros [cfd ok]. apply scope_exit_skip; [intros; apply close_fd_other|]. destruct ok; [|done].
  eapply accepts_seq; [by apply doRunInternal_life|]. intros code l _.
  do 2 (apply accepts_idle_call; [by apply life_other_idle|]; intros _). done.
Qed.

Lemma create_fork_life fuel PidFile Console s pend fd :
  PidFile <> StateFile -> 0 <= fd ->
  acc (Life (PhCreating s) pend (Some fd))
    (create_fork fuel Id PidFile Console s StateFile fd) (λ _ _, True).
Proof.
  intros Hpid Hfd. unfold create_fork.
  apply accepts_idle_call; [by apply life_other_idle|]. intros [r [pr pw]].
  destruct (ret r <? 0); [done|].
  apply accepts_idle_call; [by apply life_other_idle|]. intros r1.
  destruct (ret r1 <? 0); [done|]. destruct (0 <? ret r1).
  - unfold create_parent. do 2 (apply accepts_idle_call; [by apply life_other_idle|]; intros _).
    apply accepts_call. intros [r2 data]. eexists. split; [apply life_read|].
    destruct (_ && _); [done|]. apply life_skip.
    { calls_walk. by destruct (bytes_int data). }
    intros []; [done|]. apply accepts_idle_call; [by apply life_other_idle|]. done.
  - apply accepts_idle_call; [by apply life_other_idle|]. intros _.
    apply accepts_idle_call; [by apply life_other_idle|]. intros r2. destruct (ret r2 <? 0); [done|].
    apply accepts_idle_call; [by apply life_other_idle|]. intros r3. destruct (ret r3 <? 0); [done|].
    destruct (0 <? ret r3); [done|]. by apply create_daemon_life.
Qed.

Lemma loadBundle_seq {B} l s Cfg (k : State * bool -> prog B) Q :
  (forall b ok, acc l (k (s <| Config := b |>, ok)) Q) -> acc l (loadBundle s Cfg ≫= k) Q.
Proof.
  intros Hk. do 2 apply accepts_bind.
  apply accepts_idle_call; [by apply life_other_idle|]. intros r.
  change (acc l (let '(b, ok) := get_then (sj_bind r get_object) loadConfig (Config s) in
    mret (s <| Config := b |>, ok)) (λ a l', acc l' (k a) Q)).
  destruct (get_then _ _ _) as [b ok]. apply Hk.
Qed.

Lemma create_body_life fuel Root Systemd Cfg Console PidFile :
  StateFile = path_append Root "state.json" -> FifoFile = path_append Root "exec.fifo" ->
  PidFile <> StateFile ->
  acc life_start (create_body fuel Root Systemd Cfg Id Path Console PidFile) (λ _ _, True).
Proof.
  intros Hsf Hff Hpid. unfold create_body. rewrite <- Hsf, <- Hff.
  apply loadBundle_seq. intros b ok. destruct ok; [cbn [negb]|done].
  eapply accepts_seq; [by apply create_life, pub_creating|].
  intros ok [ph pend fifo] [Hph Hfifo]; cbn in Hph, Hfifo; subst ph fifo. destruct ok; [cbn [negb]|done].
  apply accepts_idle_call; [by apply life_other_idle|]. intros r1. destruct (ret r1 <? 0); [done|].
  apply accepts_call. intros r2. eexists. split; [apply life_open|].
  apply scope_exit_skip; [intros; apply close_fd_other|].
  destruct (Z.ltb_spec (ret r2) 0); [done|]. by apply create_fork_life.
Qed.

End Create.

Lemma doCreate_life `{SJ : Simdjson} fuel Root Systemd Cfg Id Path Console PidFile :
  PidFile <> state_file Root Id ->
  accepts (life_step Id Path (state_file Root Id) (exec_fifo Root Id)) life_start
    (doCreate fuel Root Systemd Cfg Id Path Console PidFile) (λ _ _, True).
Proof.
  intros Hpid. unfold doCreate.
  apply accepts_idle_call; [by apply life_other_idle|]. intros [created ?].
  destruct created; [cbn [ensure]|done].
  eapply accepts_seq; [apply scope_exit_skip; [|by apply create_body_life]|].
  - intros [code Success]. calls_walk; done.
  - by intros [code ?] l _.
Qed.

(** The texts that can be published from each phase on. *)
Section Future.
Context (Id Path : string).

Lemma future_stopped s l : future Id Path (PhStopped s) l -> l = [].
Proof. inversion 1 as [|? ? ? ? Hp| |]; [done|inversion Hp]. Qed.

Lemma future_exited s l :
  future Id Path (PhExited s) l -> exists c t, l `prefix_of` [State_print (to_stopped s c t)].
Proof.
  inversion 1 as [|? ? ? ? Hp Hf| |]; subst; [exists 0, EmptyString; apply prefix_nil|].
  inversion Hp; subst. apply future_stopped in Hf as ->. by exists c, t.
Qed.

Lemma future_running s l :
  future Id Path (PhRunning s) l -> exists c t, l `prefix_of` [State_print (to_stopped s c t)].
Proof.
  inversion 1 as [|? ? ? ? Hp Hf| |]; subst;
    [exists 0, EmptyString; apply prefix_nil|inversion Hp|by apply future_exited].
Qed.

Lemma future_woken s l :
  future Id Path (PhWoken s) l ->
  exists t c t', l `prefix_of` State_print <$> [to_running s t; to_stopped (to_running s t) c t'].
Proof.
  inversion 1 as [|? ? ? ? Hp Hf| |]; subst;
    [exists EmptyString, 0, EmptyString; apply prefix_nil|].
  inversion Hp; subst. apply future_running in Hf as (c & t' & Hl).
  exists t, c, t'. by apply prefix_cons.
Qed.

Lemma future_created s l :
  future Id Path (PhCreated s) l ->
  exists t c t', l `prefix_of` State_print <$> [to_running s t; to_stopped (to_running s t) c t'].
Proof.
  inversion 1 as [|? ? ? ? Hp Hf| |]; subst;
    [exists EmptyString, 0, EmptyString; apply prefix_nil|inversion Hp|by apply future_woken].
Qed.

Lemma future_creating s l :
  future Id Path (PhCreating s) l ->
  exists t1 pid t2 c t3,
    let s1 := to_created s t1 pid in
    let s2 := to_running s1 t2 in
    l `prefix_of` State_print <$> [s1; s2; to_stopped s2 c t3].
Proof.
  inversion 1 as [|? ? ? ? Hp Hf| |]; subst;
    [exists EmptyString, 0, EmptyString, 0, EmptyString; apply prefix_nil|].
  inversion Hp; subst. apply future_created in Hf as (t2 & c & t3 & Hl).
  exists t, pid, t2, c, t3. by apply prefix_cons.
Qed.

End Future.

Lemma future_none Id Path l :
  future Id Path PhNone l ->
  exists s0 t1 pid t2 code t3,
    Status s0 = Creating /\ ContainerId s0 = Id /\ BundlePath s0 = Path /\
    let s1 := to_created s0 t1 pid in
    let s2 := to_running s1 t2 in
    l `prefix_of` State_print <$> [s0; s1; s2; to_stopped s2 code t3].
Proof.
  inversion 1 as [|? ? ? ? Hp Hf| |]; subst.
  { exists (setCreating (new_State Id Path)), EmptyString, 0, EmptyString, 0, EmptyString.
    split_and!; try done. apply prefix_nil. }
  inversion Hp; subst. apply future_creating in Hf as (t1 & pid & t2 & c & t3 & Hl).
  eexists _, t1, pid, t2, c, t3. split_and!; [done..|]. by apply prefix_cons.
Qed.

(** ** Properties *)

Lemma executed_twice `{SJ : Simdjson} t1 t2 (e : event) :
  executes e = true -> (length (List.filter executes (t1 ++ e :: t2)) <= 1)%nat ->
  forall e', executes e' = true -> e' ∉ t1 ++ t2.
Proof.
  intros He Hle e' He' Hin. rewrite List.filter_app in Hle. cbn in Hle.
  rewrite He in Hle. rewrite length_app in Hle. cbn in Hle.
  assert (e' ∈ List.filter executes (t1 ++ t2)) as Hf
    by (apply list_elem_of_In, List.filter_In; split; [by apply list_elem_of_In|done]).
  rewrite List.filter_app, elem_of_app in Hf.
  destruct (List.filter executes t1), (List.filter executes t2); cbn in *; try lia; set_solver.
Qed.

Section Properties.
Context `{SJ : Simdjson} {W : Type} {OS : Os W}.
Context (fuel : nat) (Root : string) (Systemd : bool) (Cfg Id Path Console PidFile : string).

(** C12: the life cycle of the state file. Whatever the environment does, and in
    each of the processes that [doCreate] forks, the texts put in place as the state
    file are an initial part of: a creating state of this container, the same state
    as created with a process id, as running, and as stopped with an exit code. The
    pid file is another file than the state file. *)
Theorem doCreate_lifecycle (w : W) :
  PidFile <> state_file Root Id ->
  exists s0 t1 pid t2 code t3,
    Status s0 = Creating /\ ContainerId s0 = Id /\ BundlePath s0 = Path /\
    let s1 := to_created s0 t1 pid in
    let s2 := to_running s1 t2 in
    let s3 := to_stopped s2 code t3 in
    published (state_file Root Id) None (trace (doCreate fuel Root Systemd Cfg Id Path Console PidFile) w)
      `prefix_of` State_print <$> [s0; s1; s2; s3].
Proof.
  intros Hpid. apply future_none.
  destruct (accepts_run _ _ _ _ w (doCreate_life fuel Root Systemd Cfg Id Path Console PidFile Hpid))
    as (l & Hs & _).
  by apply steps_published in Hs.
Qed.

(** C13: the module of the container runs only after the container was started:
    before every execution the process has opened the exec FIFO and a read from
    it has returned, and the running state has been put in place; and it is
    executed at most once. *)
Theorem doCreate_execute_after_start (w : W) t1 f r t2 :
  PidFile <> state_file Root Id ->
  trace (doCreate fuel Root Systemd Cfg Id Path Console PidFile) w
    = t1 ++ existT (P := resp) (Wm (VmExecute f)) r :: t2 ->
  woken_by (exec_fifo Root Id) t1 /\ running_published (state_file Root Id) t1 /\
  (forall g r', (existT (P := resp) (Wm (VmExecute g)) r' : event) ∉ t1 ++ t2).
Proof.
  intros Hpid Ht.
  destruct (accepts_run _ _ _ _ w (doCreate_life fuel Root Systemd Cfg Id Path Console PidFile Hpid))
    as (l & Hs & _).
  rewrite Ht in Hs. pose proof (steps_executions _ _ _ _ _ _ _ Hs) as Hcount.
  apply steps_app in Hs as (l1 & Hs1 & Hs2).
  pose proof (life_inv_steps _ _ _ _ [] _ _ _ Hs1 (life_inv_start _ _)) as Hinv.
  inversion Hs2 as [|? ? l2 ? ? He Hs3]; subst.
  inversion He; subst; simplify_eq. destruct Hinv as [_ _ Hw Hr]. cbn [life_phase] in Hw, Hr.
  split_and!; [done|done|]. intros g r' Hin.
  by apply (executed_twice t1 t2 (existT (P := resp) (Wm (VmExecute f)) r) eq_refl Hcount
    (existT (P := resp) (Wm (VmExecute g)) r') eq_refl).
Qed.

End Properties.

(** *** The hypotheses can hold *)

(** A bundle with a compiled module, and a container root that is empty. *)
Definition demo_config : string :=
  lit "{`process`:{`args`:[`a.wasm`],`cwd`:`/`},`root`:{`path`:`/rootfs`},`linux`:{`namespaces`:[{`type`:`ipc`}]}}".
Definition create_files : files :=
  <["/bundle/config.json" := Reg demo_config]>
    (<["/cache/module.so" := Reg "so"]> {[ "/run" := Dir ]}).
Definition create_demo : sim plain_fs := sim_start plain_fs create_files.
Definition create_trace : list (event (SJ := ref_simdjson)) :=
  trace (doCreate 1 "/run" false "config.json" "c1" "/bundle" EmptyString "/run/c1.pid") create_demo.

Lemma doCreate_lifecycle_witness :
  length (published (state_file "/run" "c1") None create_trace) = 4%nat /\
  exists s0 t1 pid t2 code t3,
    Status s0 = Creating /\ ContainerId s0 = "c1" /\ BundlePath s0 = "/bundle" /\
    let s1 := to_created s0 t1 pid in
    let s2 := to_running s1 t2 in
    published (state_file "/run" "c1") None create_trace
      `prefix_of` State_print <$> [s0; s1; s2; to_stopped s2 code t3].
Proof.
  split; [vm_compute; reflexivity|].
  apply (doCreate_lifecycle 1 "/run" false "config.json" "c1" "/bundle" EmptyString "/run/c1.pid"
    create_demo).
  vm_compute. discriminate.
Defined.

Lemma doCreate_execute_after_start_witness :
  woken_by (exec_fifo "/run" "c1") (take 94 create_trace) /\
  running_published (state_file "/run" "c1") (take 94 create_trace).
Proof.
  destruct (doCreate_execute_after_start 1 "/run" false "config.json" "c1" "/bundle" EmptyString
    "/run/c1.pid" create_demo (take 94 create_trace) "_start" true (drop 95 create_trace))
    as (Hw & Hr & _).
  - vm_compute. discriminate.
  - symmetry. apply take_drop_middle. vm_compute. reflexivity.
  - split; [exact Hw|exact Hr].
Defined.
