(* ===== verification/ContainerProps.v ===== *)
(** Properties of [doCreate] and of the parts of [doRunInternal]: what a failed
    or successful creation leaves behind, the namespace flags, and the answers
    of the operating system that are misread. *)
From S2P Require Import Prelude Cpp Path Json JsonRef Prog Logic Sim FileOps Loader.
From S2P Require Import Bundle Time State StateProps SDBus CGroup Container Descriptors.

(** ** Lemmas *)

Section Create.
Context `{SJ : Simdjson}.

(** The daemon has reported an exit code to the parent. *)
Definition reported (h : list event) : Prop :=
  exists fd code r, (existT (P := resp) (Px (Write fd (int_bytes code))) r : event) ∈ h.

(** The parent has read from the pipe, and what it has read is not a failure. *)
Definition no_failure_read (h : list event) : Prop :=
  exists fd r data, (existT (P := resp) (Px (Read fd 4)) (r, data) : event) ∈ h /\
    (ret r = 0 \/ (ret r < 0 /\ errno r = EINTR) \/ (0 < ret r /\ bytes_int data = Val 0)).

(** How the body of [doCreate] can return. *)
Definition body_ok (res : Z * bool) (h : list event) : Prop :=
  res = (EXIT_FAILURE, false) \/
  (res = (EXIT_FAILURE, true) /\ reported h) \/
  (res = (EXIT_SUCCESS, true) /\ no_failure_read h).

Lemma body_ok_mono res h h' : h ⊆ h' -> body_ok res h -> body_ok res h'.
Proof.
  intros Hs [->|[(-> & fd & code & r & H)|(-> & fd & r & data & H & ?)]].
  - by left.
  - right; left. split; [done|]. exists fd, code, r. by apply Hs.
  - right; right. split; [done|]. exists fd, r, data. split; [by apply Hs|done].
Qed.

Lemma scope_exit_body {A} h (body : prog A) fin (P : A -> list event -> Prop) :
  (forall a h1 h2, h1 ⊆ h2 -> P a h1 -> P a h2) ->
  accepts hist_step h body P -> accepts hist_step h (scope_exit body fin) P.
Proof.
  intros Hmono Hbody. unfold scope_exit. eapply accepts_seq; [exact Hbody|]. intros a h1 HP.
  eapply accepts_seq; [apply accepts_hist_grows, (accepts_hist_any _ _ (λ _ _, True)); done|].
  intros u h2 [_ Hs]. by eapply Hmono.
Qed.

Lemma create_parent_ok h pid pr pw : accepts hist_step h (create_parent pid pr pw) body_ok.
Proof.
  unfold create_parent. apply accepts_hist_call. intros x1. apply accepts_hist_call. intros x2.
  apply accepts_hist_call. intros [r data].
  match goal with |- accepts _ ?x _ _ => remember x as h1 eqn:Hh1 end.
  assert ((existT (P := resp) (Px (Read pr 4)) (r, data) : event) ∈ h1) as Hin by (rewrite Hh1; set_solver).
  destruct ((ret r <? 0) && negb (errno r =? EINTR)) eqn:Hfail; [by left|].
  apply accepts_bind. destruct (Z.ltb_spec 0 (ret r)).
  - destruct (bytes_int data) as [x|] eqn:Hx; [|done]. change (accepts hist_step h1
      (if negb (x =? 0) then mret (EXIT_FAILURE, false)
       else _ ← do_call (Px (Close pr)) : prog sysret; mret (EXIT_SUCCESS, true)) body_ok).
    destruct (Z.eqb_spec x 0) as [->|]; [|by left]. apply accepts_hist_call. intros x3.
    right; right. split; [done|]. exists pr, r, data. split; [set_solver|auto].
  - apply accepts_hist_call. intros x4. right; right. split; [done|].
    exists pr, r, data. split; [set_solver|]. apply andb_false_iff in Hfail as [Hf|Hf].
    + left. apply Z.ltb_ge in Hf. lia.
    + apply negb_false_iff, Z.eqb_eq in Hf.
      destruct (Z.eq_dec (ret r) 0); [by left|right; left; split; [lia|done]].
Qed.

Lemma create_daemon_ok fuel Id PidFile Console s StateFile fd pw h :
  accepts hist_step h (create_daemon fuel Id PidFile Console s StateFile fd pw) body_ok.
Proof.
  unfold create_daemon.
  eapply accepts_seq; [apply (accepts_hist_any _ _ (λ _ _, True)); done|]. intros [cfd ok] h1 _.
  apply scope_exit_body; [apply body_ok_mono|]. destruct ok; [|by left]. cbn [negb].
  eapply accepts_seq; [apply (accepts_hist_any _ _ (λ _ _, True)); done|]. intros code h2 _.
  apply accepts_hist_call. intros r. apply accepts_hist_call. intros x5. right; left. split; [done|].
  exists pw, code, r. set_solver.
Qed.

Lemma create_body_ok fuel Root Systemd Cfg Id Path Console PidFile h :
  accepts hist_step h (create_body fuel Root Systemd Cfg Id Path Console PidFile) body_ok.
Proof.
  unfold create_body.
  eapply accepts_seq; [apply (accepts_hist_any _ _ (λ _ _, True)); done|]. intros [s ok] h1 _.
  destruct ok; [cbn [negb]|by left].
  eapply accepts_seq; [apply (accepts_hist_any _ _ (λ _ _, True)); done|]. intros ok h2 _.
  destruct ok; [cbn [negb]|by left].
  apply accepts_hist_call. intros r. destruct (ret r <? 0); [by left|].
  apply accepts_hist_call. intros r1. apply scope_exit_body; [apply body_ok_mono|].
  destruct (ret r1 <? 0); [by left|]. unfold create_fork.
  apply accepts_hist_call. intros [r2 [pr pw]]. destruct (ret r2 <? 0); [by left|].
  apply accepts_hist_call. intros r3. destruct (ret r3 <? 0); [by left|].
  destruct (0 <? ret r3); [apply create_parent_ok|].
  apply accepts_hist_call. intros x6. apply accepts_hist_call. intros r4.
  destruct (ret r4 <? 0); [by left|]. apply accepts_hist_call. intros r5.
  destruct (ret r5 <? 0); [by left|]. destruct (0 <? ret r5); [done|]. apply create_daemon_ok.
Qed.

(** *** What the parent has read *)

(** What the parent takes for the report of a success: the code 0, but also the end
    of the pipe and an interrupted read. *)
Definition no_failure (r : sysret) (data : string) : bool :=
  (ret r =? 0) || ((ret r <? 0) && (errno r =? EINTR)) ||
  ((0 <? ret r) && match bytes_int data with Val code => code =? 0 | UB => false end).

(** The pipe of create is read at most once. *)
Definition report_step (st : option bool) (e : event) (st' : option bool) : Prop :=
  match projT1 e as c return resp c -> Prop with
  | Px (Read _ n) => λ '(r, data), if n =? 4 then st = None /\ st' = Some (no_failure r data) else st' = st
  | _ => λ _, st' = st
  end (projT2 e).

Definition no_report (c : call) : bool := match c with Px (Read _ n) => negb (n =? 4) | _ => true end.

Lemma no_report_idle st c : no_report c = true -> idle report_step st c.
Proof.
  intros Hc r. destruct c as [|[]| | |]; try done. destruct r as [r data]. unfold report_step. cbn in *.
  by destruct (n =? 4).
Qed.

Lemma acc_no_report {A B} st (p : prog A) (f : A -> prog B) Q :
  all_calls (λ c, no_report c = true) p -> (forall a, accepts report_step st (f a) Q) ->
  accepts report_step st (p ≫= f) Q.
Proof.
  intros Hp Hf. eapply accepts_seq; [apply accepts_idle|by intros a ? ->].
  eapply all_calls_mono; [|exact Hp]. intros c. apply no_report_idle.
Qed.

(** A success is a report without failure. *)
Definition as_reported (code : Z) (st : option bool) : Prop := code = EXIT_SUCCESS <-> st = Some true.

Lemma create_parent_report pid pr pw :
  accepts report_step None (create_parent pid pr pw) (λ res, as_reported res.1).
Proof.
  unfold create_parent. apply acc_no_report; [by repeat split|]. intros x1.
  apply acc_no_report; [by repeat split|]. intros x2.
  apply accepts_call. intros [r data]. exists (Some (no_failure r data)). split; [done|]. unfold no_failure.
  destruct ((ret r <? 0) && negb (errno r =? EINTR)) eqn:Hfail.
  { split; [done|]. intros [= H]. bool_lia. }
  apply accepts_bind. destruct (Z.ltb_spec 0 (ret r)) as [Hr|Hr].
  - destruct (bytes_int data) as [x|]; [|done]. cbn [lift_cpp]. cbn. destruct (Z.eqb_spec x 0) as [->|Hx]; cbn.
    + intros x3. eexists. split; [done|]. split; [intros _; f_equal; bool_lia|done].
    + split; [done|]. intros [= H]. bool_lia.
  - cbn. intros x4. eexists. split; [done|]. split; [|done]. intros _. f_equal. bool_lia.
Qed.
Ltac skip_call := apply acc_no_report; [by repeat split|]; intros ?.

Lemma failed_report res st : res = EXIT_FAILURE -> st <> Some true -> as_reported res st.
Proof. intros ->. by split. Qed.

Lemma create_daemon_report fuel Id PidFile Console s StateFile fd pw :
  accepts report_step None (create_daemon fuel Id PidFile Console s StateFile fd pw) (λ res, as_reported res.1).
Proof.
  unfold create_daemon, scope_exit. apply acc_no_report; [unfold connect_console; calls_walk; done|].
  intros [cfd ok]. eapply (accepts_seq _ _ _ _ (λ res st, st = None /\ res.1 = EXIT_FAILURE)).
  - destruct ok; [cbn [negb]|done]. apply acc_no_report; [|intros code; by repeat skip_call].
    eapply all_calls_mono; [|apply doRunInternal_contained]. intros [|[]| | |]; try done. cbn.
    by destruct (Z.eqb_spec n 1) as [->|].
  - intros res st [-> Hres]. apply acc_no_report; [unfold close_fd; calls_walk; done|]. intros _.
    by apply failed_report.
Qed.

Lemma create_fork_report fuel Id PidFile Console s StateFile fd :
  accepts report_step None (create_fork fuel Id PidFile Console s StateFile fd) (λ res, as_reported res.1).
Proof.
  unfold create_fork. apply acc_no_report; [by repeat split|]. intros [r [pr pw]].
  destruct (ret r <? 0); [by apply failed_report|]. apply acc_no_report; [by repeat split|]. intros r1.
  destruct (ret r1 <? 0); [by apply failed_report|]. destruct (0 <? ret r1); [apply create_parent_report|].
  skip_call. skip_call. destruct (ret _ <? 0); [by apply failed_report|]. skip_call.
  destruct (ret _ <? 0); [by apply failed_report|]. destruct (0 <? _); [done|]. apply create_daemon_report.
Qed.

Lemma doCreate_report fuel Root Systemd Cfg Id Path Console PidFile :
  accepts report_step None (doCreate fuel Root Systemd Cfg Id Path Console PidFile) as_reported.
Proof.
  unfold doCreate, scope_exit. apply acc_no_report; [by repeat split|]. intros [[] err]; [|by apply failed_report].
  cbn [ensure]. eapply (accepts_seq _ _ _ _ (λ res, as_reported res.1)).
  2:{ intros [code Success] st Hres. exact Hres. }
  eapply (accepts_seq _ _ _ _ (λ res, as_reported res.1)).
  2:{ intros [code Success] st Hres. apply acc_no_report; [by destruct Success; calls_walk|]. by intros _. }
  unfold create_body, scope_exit. apply acc_no_report; [unfold loadBundle, Bundle_load; calls_walk; done|].
  intros [s ok]. destruct ok; [cbn [negb]|by apply failed_report].
  apply acc_no_report.
  { eapply all_calls_mono; [|by apply atomicCreate_ordinary]. by intros [|[]| | |]. }
  intros ok. destruct ok; [cbn [negb]|by apply failed_report].
  skip_call. destruct (ret _ <? 0); [by apply failed_report|]. skip_call.
  eapply (accepts_seq _ _ _ _ (λ res, as_reported res.1)).
  2:{ intros res st Hres. apply acc_no_report; [unfold close_fd; calls_walk; done|]. by intros _. }
  destruct (ret _ <? 0); [by apply failed_report|]. apply create_fork_report.
Qed.

(** The one report of a run. *)
Lemma report_steps_read st t st' fd r data :
  steps report_step st t st' -> (existT (P := resp) (Px (Read fd 4)) (r, data) : event) ∈ t ->
  st' = Some (no_failure r data).
Proof.
  assert (forall x t st', steps report_step (Some x) t st' -> st' = Some x /\ forall fd r data,
    (existT (P := resp) (Px (Read fd 4)) (r, data) : event) ∉ t) as Hone.
  { intros x t1 st1 Hs. remember (Some x) as st0 eqn:Hst0. revert Hst0.
    induction Hs as [st0|st0 e st2 t1 st1 He Hs IH]; intros ->; [split; [done|]; intros; set_solver|].
    destruct e as [c y]. unfold report_step in He.
    assert (st2 = Some x /\ forall fd, c <> Px (Read fd 4)) as [-> Hc].
    { destruct c as [|[]| | |]; try done. cbn in He. destruct y as [r1 data1].
      destruct (Z.eqb_spec n 4) as [->|Hn]; [by destruct He|]. split; [done|]. by intros fd1 [= _ ->]. }
    destruct (IH eq_refl) as [-> Hno]. split; [done|]. intros fd1 r1 data1 [Heq|Hin]%elem_of_cons; [|by eapply Hno].
    apply (f_equal (λ e : event, projT1 e)) in Heq. by destruct (Hc fd1). }
  intros Hs. induction Hs as [st0|st0 e st2 t st1 He Hs IH]; intros Hin; [set_solver|].
  apply elem_of_cons in Hin as [<-|Hin]; [|auto]. unfold report_step in He. cbn in He. destruct He as [_ ->].
  by apply Hone in Hs as [-> _].
Qed.

Lemma report_steps_some t b :
  steps report_step None t (Some b) ->
  exists fd r data, (existT (P := resp) (Px (Read fd 4)) (r, data) : event) ∈ t /\ b = no_failure r data.
Proof.
  intros Hs. remember None as st eqn:Hst. remember (Some b) as st' eqn:Hst'. revert Hst Hst'.
  induction Hs as [st0|st0 e st2 t st1 He Hs IH]; intros Hst Hst'; [congruence|]. subst. destruct e as [c y]. unfold report_step in He.
  assert (st2 = None \/ exists fd r data, (existT c y : event) = existT (P := resp) (Px (Read fd 4)) (r, data)) as [->|Hr].
  { destruct c as [|[]| | |]; auto. cbn in He. destruct y as [r data]. destruct (Z.eqb_spec n 4) as [->|]; [right; eauto|by left]. }
  - destruct (IH eq_refl eq_refl) as (fd & r & data & Hin & Hb). exists fd, r, data. split; [by apply list_elem_of_further|done].
  - destruct Hr as (fd & r & data & Heq). exists fd, r, data. rewrite Heq. split; [apply list_elem_of_here|].
    assert (steps report_step None (existT c y :: t) (Some b)) as Hall by (by econstructor).
    rewrite Heq in Hall. eapply report_steps_read in Hall; [|apply list_elem_of_here]. by injection Hall.
Qed.

Lemma no_failure_spec r data :
  no_failure r data = true <->
  ret r = 0 \/ (ret r < 0 /\ errno r = EINTR) \/ (0 < ret r /\ bytes_int data = Val 0).
Proof.
  unfold no_failure. destruct (bytes_int data) as [code|]; [destruct (Z.eqb_spec code 0) as [->|]|];
    rewrite ?andb_true_r, ?andb_false_r, ?orb_false_r; rewrite ?orb_true_iff, ?andb_true_iff, ?Z.ltb_lt, ?Z.eqb_eq;
    naive_solver.
Qed.

End Create.

(** ** Properties *)

Section Properties.
Context `{SJ : Simdjson} {W : Type} {OS : Os W}.

(** C17: what a creation leaves behind.  When [doCreate] returns, then either the
    directory could not be created and nothing else was done; or it failed and
    its last action was to remove the directory of the container; or this is
    the daemon, which has reported an exit code through the pipe; or it
    succeeded, and the parent has read from the pipe something other than a
    failure. *)
Theorem doCreate_outcome fuel Root Systemd Cfg Id Path Console PidFile (w : W) code w' :
  let CR := path_append Root Id in
  let t := trace (doCreate fuel Root Systemd Cfg Id Path Console PidFile) w in
  run (doCreate fuel Root Systemd Cfg Id Path Console PidFile) w = (Done code, w') ->
  (code = EXIT_FAILURE /\ exists err,
     t = [existT (P := resp) (Fs (FsCreateDirectories CR)) (false, err)]) \/
  (code = EXIT_FAILURE /\ exists t0 err,
     t = t0 ++ [existT (P := resp) (Fs (FsRemoveAll CR)) err]) \/
  (code = EXIT_FAILURE /\ reported t) \/
  (code = EXIT_SUCCESS /\ no_failure_read t).
Proof.
  intros CR t Hrun. revert Hrun. unfold t. generalize code w'. intros c w2 Hrun.
  pattern c, (trace (doCreate fuel Root Systemd Cfg Id Path Console PidFile) w).
  eapply accepts_hist_run; [|exact Hrun].
  unfold doCreate. apply accepts_hist_call. intros [[] err]; cbn [ensure]; [|left; eauto].
  apply accepts_bind. unfold scope_exit. eapply accepts_seq; [apply create_body_ok|].
  intros [res Success] h Hb. apply accepts_bind. destruct Success.
  - destruct Hb as [[=]|[([= ->] & ?)|([= ->] & ?)]]; [right; right; left|right; right; right]; done.
  - destruct Hb as [[= ->]|[([=] & _)|([=] & _)]]. apply accepts_hist_call. intros r.
    right; left. split; [done|]. by exists h, r.
Qed.

(** C37: [doCreate] reports success exactly when the parent has read something other
    than a failure from its pipe: the code 0 of the daemon, but also the end of
    the pipe, which the daemon leaves behind when it dies or gives up without a
    report, and a read that was interrupted. *)
Theorem doCreate_success_iff fuel Root Systemd Cfg Id Path Console PidFile (w : W) code w' :
  run (doCreate fuel Root Systemd Cfg Id Path Console PidFile) w = (Done code, w') ->
  code = EXIT_SUCCESS <-> no_failure_read (trace (doCreate fuel Root Systemd Cfg Id Path Console PidFile) w).
Proof.
  intros Hrun.
  destruct (accepts_run _ _ _ _ w (doCreate_report fuel Root Systemd Cfg Id Path Console PidFile)) as (st & Hsteps & HQ).
  pose proof (HQ _ _ Hrun) as Hcode. unfold as_reported in Hcode. rewrite Hcode. clear HQ Hrun Hcode. split.
  - intros ->. apply report_steps_some in Hsteps as (fd & r & data & Hin & Hb). exists fd, r, data.
    split; [done|]. by apply no_failure_spec.
  - intros (fd & r & data & Hin & Hr). rewrite (report_steps_read _ _ _ _ _ _ Hsteps Hin). f_equal.
    by apply no_failure_spec.
Qed.

(** An id that is taken is refused: when the directory of the container
    exists, [doCreate] fails and changes no file. *)
Theorem doCreate_existing `{!OsLaws W} fuel Root Systemd Cfg Id Path Console PidFile (w : W) :
  files_of w !! path_append Root Id <> None ->
  exists w', run (doCreate fuel Root Systemd Cfg Id Path Console PidFile) w = (Done EXIT_FAILURE, w') /\
    files_of w' = files_of w /\
    calls (doCreate fuel Root Systemd Cfg Id Path Console PidFile) w
      = [Fs (FsCreateDirectories (path_append Root Id))].
Proof.
  intros Hex. unfold doCreate. cbn -[create_body path_append].
  destruct (os_call (Fs (FsCreateDirectories (path_append Root Id))) w) as [[created err] w1] eqn:E.
  apply os_step in E as (_ & _ & _ & _ & _ & Hkeep). destruct (Hkeep Hex) as [-> Hf].
  by exists w1.
Qed.

(** A compiler process that was killed by a signal is taken for one that has
    succeeded. *)
Theorem wait_compiler_signal pid SoPath (w : W) r sig w' :
  os_call (Px (Waitpid pid)) w = ((r, sig), w') -> 0 <= ret r -> 1 <= sig <= 126 ->
  run (wait_compiler pid SoPath) w = (Done (Some SoPath), w').
Proof.
  intros E Hr Hsig. unfold wait_compiler. cbn. rewrite E.
  destruct (Z.ltb_spec (ret r) 0); [lia|].
  assert (WEXITSTATUS sig = 0) as ->; [|done].
  unfold WEXITSTATUS. rewrite Z.shiftr_div_pow2 by lia.
  by rewrite Z.div_small by lia.
Qed.

End Properties.

(** The table of namespace types. *)
Definition namespace_types : list (string * Z) :=
  [("cgroup", CLONE_NEWCGROUP); ("ipc", CLONE_NEWIPC); ("mount", CLONE_NEWNS);
   ("network", CLONE_NEWNET); ("pid", CLONE_NEWPID); ("time", CLONE_NEWTIME);
   ("uts", CLONE_NEWUTS); ("user", CLONE_NEWUSER)].

Fixpoint lookup_type (l : list (string * Z)) (t : string) : option Z :=
  match l with
  | [] => None
  | (name, flag) :: l => if String.eqb t name then Some flag else lookup_type l t
  end.

Lemma namespace_flag_lookup t :
  namespace_flag t = if is_empty t then UB else Val (lookup_type namespace_types t).
Proof.
  destruct t as [|c t]; [done|]. cbn [is_empty]. unfold namespace_types. cbn [lookup_type].
  repeat match goal with |- context [String.eqb (String c t) ?n] =>
    lazymatch goal with
    | H : String c t <> n |- _ => fail
    | _ => destruct (String.eqb_spec (String c t) n) as [->|]; [reflexivity|]
    end end.
  unfold namespace_flag. f_equal.
  repeat match goal with H : String c t <> ?n |- _ => apply String.eqb_neq in H; rewrite H; clear H end.
  cbn [switch]. by repeat case_match.
Qed.

(** The nested switch finds exactly the eight namespace types; other types
    are ignored and the empty type is undefined. *)
Theorem namespace_flag_table t :
  (t = EmptyString -> namespace_flag t = UB) /\
  (forall flag, (t, flag) ∈ namespace_types -> namespace_flag t = Val (Some flag)) /\
  (t <> EmptyString -> (forall flag, (t, flag) ∉ namespace_types) -> namespace_flag t = Val None).
Proof.
  rewrite namespace_flag_lookup. split_and!; [by intros ->| |].
  - intros flag Hin. unfold namespace_types in Hin.
    repeat (apply elem_of_cons in Hin as [[= -> ->]|Hin]; [reflexivity|]). by apply elem_of_nil in Hin.
  - intros Ht Hno. destruct t as [|c t]; [done|]. cbn [is_empty]. f_equal.
    destruct (lookup_type namespace_types (String c t)) as [flag|] eqn:E; [|done].
    exfalso. apply (Hno flag). revert E. generalize namespace_types.
    induction l as [|[name f] l IH]; cbn [lookup_type]; [done|].
    destruct (String.eqb_spec (String c t) name) as [<-|]; [intros [= ->]|intros ?%IH]; set_solver.
Qed.

Section Namespaces.
Context `{SJ : Simdjson} {W : Type} {OS : Os W}.

(** The flag of a namespace, 0 for a type that is ignored. *)
Definition flag_of (Desc : NamespaceDesc) : Z :=
  default 0 (lookup_type namespace_types (ns_Type Desc)).

(** The namespaces of a bundle that name no path are unshared together: the
    flags passed on are the disjunction of the flags of their types, and no
    file is opened. *)
Theorem collect_namespaces_unshare l u ns (w : W) :
  Forall (λ Desc, ns_Path Desc = EmptyString /\ ns_Type Desc <> EmptyString) l ->
  run (collect_namespaces l (u, ns)) w
    = (Done (Some (foldl (λ u Desc, Z.lor u (flag_of Desc)) u l, ns)), w).
Proof.
  intros Hl. revert u. induction Hl as [|Desc l [Hp Ht] Hl IH]; intros u; [done|].
  cbn [collect_namespaces]. rewrite run_bind.
  assert (namespace_flag (ns_Type Desc) = Val (lookup_type namespace_types (ns_Type Desc))) as ->.
  { rewrite namespace_flag_lookup. by destruct (ns_Type Desc). }
  cbn [lift_cpp run run_cont foldl]. unfold flag_of.
  destruct (lookup_type namespace_types (ns_Type Desc)) as [flag|]; cbn [default from_option id].
  - unfold UpdateFlags. rewrite Hp. cbn. apply IH.
  - rewrite Z.lor_0_r. apply IH.
Qed.

(** The result of a [setns] event. *)
Definition setns_ret (e : event) : option Z :=
  match projT1 e as c return resp c -> option Z with
  | Px (Setns _ _) => λ r, Some (ret r)
  | _ => λ _, None
  end (projT2 e).

(** C40: Every namespace descriptor is joined and then closed, in order, whatever
    [setns] answers; the loop reports a failure exactly when some [setns] has
    failed. *)
Theorem join_namespaces_closes l (w : W) :
  calls (join_namespaces l) w
    = l ≫= (λ '(Fd, Flag), [Px (Setns Fd Flag); Px (Close Fd)]) /\
  exists b w', run (join_namespaces l) w = (Done b, w') /\
    (b = true <-> exists Fd Flag r,
       (existT (P := resp) (Px (Setns Fd Flag)) r : event) ∈ trace (join_namespaces l) w /\ ret r < 0).
Proof.
  revert w. induction l as [|[Fd Flag] l IH]; intros w.
  { split; [done|]. exists false, w. split; [done|]. split; [done|]. intros (?&?&?&Hin&_).
    by apply elem_of_nil in Hin. }
  cbn. destruct (os_call (Px (Setns Fd Flag)) w) as [r w1].
  destruct (os_call (Px (Close Fd)) w1) as [r' w2].
  destruct (IH w2) as (Hcalls & b & w3 & Hrun & Hb).
  change (prog_bind ?f ?p) with (p ≫= f).
  rewrite calls_bind, run_bind, trace_bind, Hrun, Hcalls. cbn.
  split; [by rewrite app_nil_r|]. eexists _, w3. split; [done|]. rewrite app_nil_r.
  rewrite orb_true_iff, Hb, Z.ltb_lt. split.
  - intros [Hr|(fd & fl & r2 & Hin & Hr)]; [exists Fd, Flag, r|exists fd, fl, r2]; set_solver.
  - intros (fd & fl & r2 & Hin & Hr). rewrite !elem_of_cons in Hin.
    destruct Hin as [Heq|[Heq|Hin]]; [left|by inversion Heq|right; eauto].
    apply (f_equal setns_ret) in Heq. cbn in Heq. injection Heq as Heq. lia.
Qed.

End Namespaces.

(** *** Misread answers *)

(** The parent process of [doCreate]; the pipe is closed without a byte, as when
    the daemon was killed or failed to connect to its console. *)
Definition px_parent_eof (n : nat) (c : posix_call) : posix_resp c :=
  match c with
  | Fork => SysRet 5 0
  | Read _ _ => (SysRet 0 0, EmptyString)
  | c => sim_px_ok n c
  end.

Definition bundle_files : files :=
  <["/bundle/config.json" := Reg "{}"]> {[ "/run" := Dir ]}.

Definition parent_eof : sim plain_fs :=
  Sim bundle_files 0 (λ _, "a"%char) px_parent_eof sim_sd_ok sim_wm_ok.

(** *** The hypotheses can hold *)

Lemma doCreate_outcome_witness :
  no_failure_read (trace (doCreate (SJ := ref_simdjson) 1 "/run" false "config.json" "c1" "/bundle"
    EmptyString "/run/c1.pid") parent_eof).
Proof.
  destruct (doCreate_outcome (SJ := ref_simdjson) 1 "/run" false "config.json" "c1" "/bundle"
    EmptyString "/run/c1.pid" parent_eof EXIT_SUCCESS
    (run (doCreate (SJ := ref_simdjson) 1 "/run" false "config.json" "c1" "/bundle"
       EmptyString "/run/c1.pid") parent_eof).2) as [[H _]|[[H _]|[[H _]|[_ H]]]];
    try discriminate H; [|exact H].
  vm_compute. reflexivity.
Defined.

(** The end of the pipe, without a report. *)
Lemma doCreate_success_iff_witness :
  (run (doCreate (SJ := ref_simdjson) 1 "/run" false "config.json" "c1" "/bundle" EmptyString "/run/c1.pid")
     parent_eof).1 = Done EXIT_SUCCESS /\
  no_failure_read (trace (doCreate (SJ := ref_simdjson) 1 "/run" false "config.json" "c1" "/bundle"
    EmptyString "/run/c1.pid") parent_eof).
Proof.
  split; [vm_compute; reflexivity|].
  apply (doCreate_success_iff (SJ := ref_simdjson) 1 "/run" false "config.json" "c1" "/bundle" EmptyString "/run/c1.pid"
    parent_eof EXIT_SUCCESS (run (doCreate (SJ := ref_simdjson) 1 "/run" false "config.json" "c1" "/bundle"
       EmptyString "/run/c1.pid") parent_eof).2); [vm_compute; reflexivity|reflexivity].
Defined.

Lemma doCreate_existing_witness :
  exists w', run (doCreate (SJ := ref_simdjson) 1 "/" false "config.json" "run" "/bundle"
                    EmptyString "/run/c1.pid") parent_eof = (Done EXIT_FAILURE, w') /\
    files_of w' = bundle_files.
Proof.
  destruct (doCreate_existing (SJ := ref_simdjson) 1 "/" false "config.json" "run" "/bundle"
    EmptyString "/run/c1.pid" parent_eof) as (w' & Hr & Hf & _).
  - vm_compute. discriminate.
  - exists w'. split; [exact Hr|exact Hf].
Defined.

(** SIGKILL. *)
Definition px_killed (n : nat) (c : posix_call) : posix_resp c :=
  match c with Waitpid p => (SysRet p 0, 9) | c => sim_px_ok n c end.

Lemma wait_compiler_signal_witness :
  (run (SJ := ref_simdjson) (wait_compiler 5 "/cache/m.so")
    (Sim (cfg := plain_fs) bundle_files 0 (λ _, "a"%char) px_killed sim_sd_ok sim_wm_ok)).1
    = Done (Some "/cache/m.so").
Proof.
  erewrite (wait_compiler_signal 5 "/cache/m.so"); [reflexivity|vm_compute; reflexivity| |];
    cbn; lia.
Defined.

Lemma collect_namespaces_unshare_witness :
  (run (SJ := ref_simdjson) (collect_namespaces
     [Build_NamespaceDesc "pid" EmptyString; Build_NamespaceDesc "network" EmptyString] (0, []))
     parent_eof).1
    = Done (Some (Z.lor CLONE_NEWPID CLONE_NEWNET, [])).
Proof.
  rewrite (collect_namespaces_unshare
    [Build_NamespaceDesc "pid" EmptyString; Build_NamespaceDesc "network" EmptyString] 0 [] parent_eof).
  - reflexivity.
  - repeat constructor; discriminate.
Defined.
