(* ===== verification/Commands.v ===== *)
(** The commands of runw and its entry point: [doDelete], [doKill], [doStart],
    [doState] and [main] of src/runw.cpp. *)
From S2P Require Import Prelude Cpp Signals Path Json Prog FileOps Loader Bundle State.
From S2P Require Import SDBus CGroup Container.

Section Commands.
Context `{SJ : Simdjson}.

Definition doDelete (Root ContainerId : string) (Force : bool) : prog Z :=
  let ContainerRoot := path_append Root ContainerId in
  '(directory, _) ← is_directory ContainerRoot;
  ensure ((directory : bool) || Force) (
  ErrCode ← do_call (Fs (FsRemoveAll ContainerRoot)) : prog errc;
  ensure ((ErrCode =? 0) || Force) (
  _ ← do_call (Wm (CacheClear ContainerId)) : prog unit;
  mret EXIT_SUCCESS)).

Definition doKill (Root ConfigFileName ContainerId SignalName : string) : prog Z :=
  Signal ← lift_cpp (parseSignal SignalName);
  if Signal <? 0 then mret EXIT_FAILURE
  else
    let ContainerRoot := path_append Root ContainerId in
    let StateFile := path_append ContainerRoot "state.json" in
    '(regular, _) ← is_regular_file StateFile;
    ensure regular (
    '(s, ok) ← State_load default_State StateFile ConfigFileName;
    ensure ok (
    let PidValue := Pid s in
    if PidValue <? 0 then mret EXIT_FAILURE
    else
      r ← do_call (Px (Kill PidValue Signal)) : prog sysret;
      ensure (ret r =? 0) (mret EXIT_SUCCESS))).

(** The descriptor is closed explicitly and again by the scope exit. *)
Definition doStart (Root ConfigFileName ContainerId : string) : prog Z :=
  let ContainerRoot := path_append Root ContainerId in
  let StateFile := path_append ContainerRoot "state.json" in
  '(regular, _) ← is_regular_file StateFile;
  ensure regular (
  '(s, ok) ← State_load default_State StateFile ConfigFileName;
  ensure ok (
  let ExecFifoFile := path_append ContainerRoot "exec.fifo" in
  r ← do_call (Px (Open ExecFifoFile (Z.lor O_WRONLY O_NONBLOCK))) : prog sysret;
  let ExecFifoFd := ret r in
  scope_exit
    (if ExecFifoFd <? 0 then mret EXIT_FAILURE
     else
       r ← do_call (Px (Unlink ExecFifoFile)) : prog sysret;
       if ret r <? 0 then mret EXIT_FAILURE
       else
         r ← do_call (Px (Write ExecFifoFd (chr "000"))) : prog sysret;
         if ret r <? 0 then mret EXIT_FAILURE
         else
           _ ← do_call (Px (Close ExecFifoFd)) : prog sysret;
           mret EXIT_SUCCESS)
    (λ _, close_fd ExecFifoFd))).

Definition doState (Root ContainerId : string) : prog Z :=
  let ContainerRoot := path_append Root ContainerId in
  '(directory, _) ← is_directory ContainerRoot;
  ensure directory (
  Data ← FileOps.readAll (path_append ContainerRoot "state.json");
  ensure (negb (is_empty Data)) (
  _ ← do_call (Fs (Cout (Data +:+ chr "010"))) : prog unit;
  mret EXIT_SUCCESS)).

End Commands.

(** ** [main] *)

(** Options and subcommands as they are declared to the parser; an option
    added without a name is positional. *)
Inductive option_decl :=
| StringOption (Description MetaVar : string) (DefaultValue : option string)
| ToggleOption (Description : string).
Inductive parser_decl :=
| add_option (Name : option string) (Opt : option_decl)
| begin_subcommand (Description Name : string)
| end_subcommand.

(** What the option parser of WasmEdge leaves in the options. *)
Record Options := {
  isVersion : bool;
  opt_Root : string;
  opt_SystemdCgroup : bool;
  opt_ConfigFileName : string;
  opt_ContainerId : string;
  opt_Path : string;
  opt_ConsoleSocket : string;
  opt_PidFile : string;
  opt_Force : bool;
  opt_Signal : string;
  Start_selected : bool;
  Create_selected : bool;
  Delete_selected : bool;
  Kill_selected : bool;
  State_selected : bool;
}.

Section Main.
Context `{SJ : Simdjson}.
(** The option parser is not part of the sources: it fills in the options, and
    [default_argument] resets one to its default.  The version and the directory
    come from the build.  [basic_logger_mt] of spdlog opens the log file; it throws an
    exception when it cannot. *)
Context (basic_logger_mt : string -> bool).
Context (parse : list parser_decl -> list string -> option Options).
Context (default_argument : option_decl -> string).
Context (CPACK_PACKAGE_VERSION CMAKE_INSTALL_FULL_LOCALSTATEDIR : string).

Definition kVersionString : string := CPACK_PACKAGE_VERSION.
Definition kContainerDir : string := CMAKE_INSTALL_FULL_LOCALSTATEDIR +:+ "/lib/runw/containers".
(** Two strings of the configuration that no code uses. *)
Definition kInstallPluginDir (CMAKE_INSTALL_FULL_LIBDIR : string) : string := CMAKE_INSTALL_FULL_LIBDIR +:+ "/runw".
Definition kStateDir (CMAKE_INSTALL_FULL_RUNSTATEDIR : string) : string := CMAKE_INSTALL_FULL_RUNSTATEDIR +:+ "/runw".

Definition opt_decl_ConfigFileName : option_decl :=
  StringOption "Override the config file name" "FILENAME" (Some "config.json").

(** The option texts, defaults and subcommands, in the order they are added. *)
Definition Parser : list parser_decl :=
  let Root := StringOption "Root path" "PATH" (Some kContainerDir) in
  let SystemdCgroup := ToggleOption
    ("enable systemd cgroup support, expects cgroupsPath to be of form " +:+
     chr dq +:+ "slice:prefix:name" +:+ chr dq +:+ " for e.g. " +:+
     chr dq +:+ "system.slice:runc:434234" +:+ chr dq) in
  let ContainerId := StringOption "Container ID" "ID" None in
  let Path := StringOption
    "Path to the root of the bundle directory, defaults to the current directory" "PATH" None in
  let ConsoleSocket := StringOption
    ("Path to an AF_UNIX socket which will receive a file descriptor " +:+
     "referencing the master end of the console's pseudoterminal") "FD" (Some EmptyString) in
  let PidFile := StringOption "Specify the file to write the process id to" "PATH" None in
  let Force := ToggleOption
    "Forcibly deletes the container if it is still running (uses SIGKILL)" in
  let Signal := StringOption "Signal name" "SIGNAL" (Some "SIGTERM") in
  [ add_option (Some "root") Root;
    add_option (Some "systemd-cgroup") SystemdCgroup;
    add_option (Some "config") opt_decl_ConfigFileName;
    begin_subcommand "Create a container" "create";
    add_option None ContainerId;
    add_option (Some "bundle") Path;
    add_option (Some "console-socket") ConsoleSocket;
    add_option (Some "pid-file") PidFile;
    end_subcommand;
    begin_subcommand "Delete any resources held by the container" "delete";
    add_option None ContainerId;
    add_option (Some "force") Force;
    end_subcommand;
    begin_subcommand "Kill sends the specified signal to the container's init process" "kill";
    add_option None ContainerId;
    add_option None Signal;
    end_subcommand;
    begin_subcommand "Executes the user defined process in a created container" "start";
    add_option None ContainerId;
    end_subcommand;
    begin_subcommand "Output the state of a container" "state";
    add_option None ContainerId;
    end_subcommand ].

Definition main (fuel : nat) (Argv : list string) : prog Z :=
  if negb (basic_logger_mt "/tmp/runw.log") then Terminate else
  match parse Parser Argv with
  | None => mret EXIT_FAILURE
  | Some o =>
      if isVersion o then
        _ ← do_call (Fs (Cout (hd EmptyString Argv +:+ " version " +:+ kVersionString +:+ chr "010")))
          : prog unit;
        mret EXIT_SUCCESS
      else
        let ConfigFileName :=
          if is_empty (opt_ConfigFileName o) then default_argument opt_decl_ConfigFileName
          else opt_ConfigFileName o in
        if Start_selected o then doStart (opt_Root o) ConfigFileName (opt_ContainerId o)
        else if Create_selected o then
          doCreate fuel (opt_Root o) (opt_SystemdCgroup o) ConfigFileName (opt_ContainerId o)
            (opt_Path o) (opt_ConsoleSocket o) (opt_PidFile o)
        else if Delete_selected o then doDelete (opt_Root o) (opt_ContainerId o) (opt_Force o)
        else if Kill_selected o then
          doKill (opt_Root o) ConfigFileName (opt_ContainerId o) (opt_Signal o)
        else if State_selected o then doState (opt_Root o) (opt_ContainerId o)
        else mret EXIT_FAILURE
  end.

(** The whole program: the static member [CGroup::CGroupMode] is initialised
    before [main] starts. *)
Definition program (fuel : nat) (Argv : list string) : prog Z :=
  CGroupMode ← checkMode;
  main fuel Argv.

End Main.
