(* ===== verification/CommandsProps.v ===== *)
(** Properties of the commands: which process [doKill] signals, what [doDelete]
    removes, that a container is started at most once, and that [doState]
    prints the state file. *)
From S2P Require Import Prelude Cpp Signals Path Json JsonRef Prog Logic Sim FileOps.
From S2P Require Import Loader Bundle Time State StateProps SDBus CGroup Container.
From S2P Require Import Commands.

Section Lemmas.
Context `{SJ : Simdjson} {W : Type} {OS : Os W} {L : OsLaws W}.

Definition no_kill (c : call) : bool := match c with Px (Kill _ _) => false | _ => true end.

(** A call of a sequence that its first part does not make. *)
Lemma calls_bind_in {A B} (p : prog A) (f : A -> prog B) (w : W) c :
  c ∈ calls (p ≫= f) w -> all_calls (λ d, d <> c) p ->
  exists a w1, run p w = (Done a, w1) /\ c ∈ calls (f a) w1.
Proof.
  rewrite calls_bind, elem_of_app. intros [Hin|Hin] Hp.
  - eapply all_calls_run, Forall_forall in Hp; eauto. done.
  - destruct (run p w) as [[a| | | |] w1]; cbn in Hin; try by apply elem_of_nil in Hin. eauto.
Qed.

Lemma State_load_calls (P : call -> Prop) s Path Cfg :
  (forall p, P (JsonLoad p)) -> all_calls P (State_load s Path Cfg).
Proof.
  intros HP. unfold State_load, loadBundle, Bundle_load. calls_walk; auto.
Qed.

(** A loaded state with a process id belongs to a live container. *)
Lemma loaded_pid f Path s :
  loaded_from f Path default_State s -> 0 <= Pid s -> Status s = Created \/ Status s = Running.
Proof.
  intros (text & doc & s1 & _ & _ & Hd%load_document_sound & ->) Hp.
  destruct Hd as (Hst & _ & Hpid & _). destruct s1 as [? ? ? ? ? ? st ? ? ?]. cbn in *.
  destruct st; cbn in *; subst; auto; lia.
Qed.

(** After the checks and the load, a command continues with a state that comes
    from the state file. *)
Lemma load_state_seq (I : W -> Prop) (w : W) StateFile Cfg
    (k : State -> prog Z) (Q : outcome Z -> W -> Prop) :
  (forall w', files_of w' = files_of w -> I w') ->
  (forall w', files_of w' = files_of w -> Q (Done EXIT_FAILURE) w') ->
  (forall s w', files_of w' = files_of w -> loaded_from (files_of w) StateFile default_State s ->
     spec I w' (k s) Q) ->
  spec I w ('(regular, _) ← is_regular_file StateFile;
            ensure regular ('(s, ok) ← State_load default_State StateFile Cfg; ensure ok (k s))) Q.
Proof.
  intros HI HF Hk. apply spec_bind.
  eapply spec_mono; [|apply is_regular_file_spec; auto].
  intros o w1 (b & err & -> & Hf & _). cbn [then_post].
  destruct b; [cbn [ensure]|apply spec_ret; auto]. apply spec_bind.
  eapply spec_mono; [|apply State_load_spec; intros w' Hw'; apply HI; congruence].
  intros o w2 (Hf2 & s & ok & -> & Hl). cbn [then_post]. rewrite Hf in Hf2, Hl.
  destruct ok; [cbn [ensure]|apply spec_ret; auto]. auto.
Qed.

End Lemmas.

(** ** [doKill] *)

Section Kill.
Context `{SJ : Simdjson} {W : Type} {OS : Os W} {L : OsLaws W}.

(** C16: the target of a kill.  Whenever [doKill] sends a signal, the signal is the
    one that was named, and the process is the one recorded in the state file of
    the container, which says that the container is created or running. *)
Theorem doKill_target Root Cfg Id Name (w : W) pid sig :
  Px (Kill pid sig) ∈ calls (doKill Root Cfg Id Name) w ->
  parseSignal Name = Val sig /\ 0 <= sig /\ 0 <= pid /\
  exists s, loaded_from (files_of w) (state_file Root Id) default_State s /\ Pid s = pid /\
    (Status s = Created \/ Status s = Running).
Proof.
  unfold doKill. intros Hin.
  destruct (parseSignal Name) as [Signal|]; [|by apply elem_of_nil in Hin].
  cbn [lift_cpp mbind prog_mbind prog_bind] in Hin.
  destruct (Z.ltb_spec Signal 0); [by apply elem_of_nil in Hin|].
  apply calls_bind_in in Hin as ([regular err] & w1 & Hr1 & Hin);
    [|unfold is_regular_file; by calls_walk].
  apply (spec_run (λ _, True) w _ _ _ _ (is_regular_file_spec _ _ _ I (λ _ _, I))) in Hr1
    as (b & e & [= -> ->] & Hf1 & _).
  destruct b; [cbn [ensure] in Hin|by apply elem_of_nil in Hin].
  apply calls_bind_in in Hin as ([s ok] & w2 & Hr2 & Hin); [|by apply State_load_calls].
  apply (spec_run (λ _, True) w1 _ _ _ _ (State_load_spec _ _ _ _ _ (λ _ _, I))) in Hr2
    as (Hf2 & s' & b & [= <- <-] & Hl).
  destruct ok; [cbn [ensure] in Hin|by apply elem_of_nil in Hin].
  specialize (Hl eq_refl). rewrite Hf1 in Hl.
  destruct (Z.ltb_spec (Pid s) 0); [by apply elem_of_nil in Hin|]. cbn in Hin.
  destruct (os_call (Px (Kill (Pid s) Signal)) w2) as [r w3].
  assert (calls (ensure (ret r =? 0) (mret EXIT_SUCCESS)) w3 = []) as E by (by destruct (_ =? _)).
  rewrite E in Hin. apply list_elem_of_singleton in Hin as [= -> ->].
  split_and!; [done|done|done|]. exists s. eauto using loaded_pid.
Qed.

End Kill.

(** ** [doDelete] *)

Section Delete.
Context `{SJ : Simdjson} {W : Type} {OS : Os W}.

(** [doDelete] never sends a signal, also when it is forced. *)
Theorem doDelete_no_kill Root Id Force (w : W) pid sig :
  Px (Kill pid sig) ∉ calls (doDelete Root Id Force) w.
Proof.
  intros Hin.
  assert (all_calls (λ c, c <> Px (Kill pid sig)) (doDelete Root Id Force)) as Hall
    by (unfold doDelete, is_directory, ensure; calls_walk; done).
  eapply all_calls_run, Forall_forall in Hall; eauto.
Qed.

(** WasmEdge keeps its cache outside of the directory [Root]. *)
Definition cache_outside `{!OsLaws W} (Root : string) : Prop :=
  forall id (w : W) q, under Root q = true ->
    files_of (os_call (Wm (CacheClear id)) w).2 !! q = files_of w !! q.

(** C25: delete removes the directory of the container.  Without --force, a success
    means that the directory was there and nothing of it is left.  With --force the
    command always succeeds, whether or not there was a directory and whether or
    not it could be removed; nothing is left if the removal reported no error.  In
    all cases files of the container only disappear, and a failed delete changes
    no other file.  The cache of WasmEdge is outside of the directory. *)
Theorem doDelete_removes `{!OsLaws W} Root Id Force (w : W) :
  let CR := path_append Root Id in
  cache_outside CR ->
  exists code w', run (doDelete Root Id Force) w = (Done code, w') /\
    (code = EXIT_SUCCESS \/ code = EXIT_FAILURE /\ Force = false) /\
    (code = EXIT_SUCCESS -> Force = false -> files_of w !! CR = Some Dir /\
       forall q, under CR q = true -> files_of w' !! q = None) /\
    (existT (P := resp) (Fs (FsRemoveAll CR)) 0 ∈ trace (doDelete Root Id Force) w ->
       forall q, under CR q = true -> files_of w' !! q = None) /\
    (forall q, under CR q = true -> files_of w' !! q = None \/ files_of w' !! q = files_of w !! q) /\
    (code = EXIT_FAILURE -> forall q, under CR q = false -> files_of w' !! q = files_of w !! q).
Proof.
  intros CR Hcache. unfold doDelete, is_directory. fold CR. cbn.
  destruct (os_call (Fs (FsStatus CR)) w) as [[ty err] w1] eqn:E1. cbn.
  apply os_step in E1 as [Hf1 Hty].
  assert (ty = FT_directory -> files_of w !! CR = Some Dir) as Hdir.
  { intros ->. destruct Hty as [Hty|?]; [|done]. by destruct (files_of w !! CR) as [[]|]. }
  destruct (bool_decide (ty = FT_directory) || Force) eqn:Hgo; cbn; cycle 1.
  { apply orb_false_iff in Hgo as [_ ->]. exists EXIT_FAILURE, w1. rewrite Hf1. split_and!; auto; try done.
    by intros [=]%list_elem_of_singleton. }
  destruct (os_call (Fs (FsRemoveAll CR)) w1) as [err2 w2] eqn:E2. cbn.
  apply os_step in E2 as (Hsub & Hout & Hrm). rewrite Hf1 in Hout, Hsub.
  assert (forall q, files_of w2 !! q = None \/ files_of w2 !! q = files_of w !! q) as Hkeep.
  { intros q. destruct (files_of w2 !! q) as [n|] eqn:Hq; [right|by left]. symmetry. by eapply lookup_weaken. }
  assert (forall l, existT (P := resp) (Fs (FsRemoveAll CR)) 0 ∈
    existT (P := resp) (Fs (FsStatus CR)) (ty, err) :: existT (P := resp) (Fs (FsRemoveAll CR)) err2 :: l ->
    Forall (λ e, projT1 e <> Fs (FsRemoveAll CR)) l -> err2 = 0) as Hzero.
  { intros l Hin Hl. apply elem_of_cons in Hin as [[=]|[H%answer_inj|Hin]%elem_of_cons]; [done|].
    by eapply Forall_forall in Hin; [|exact Hl]. }
  destruct ((err2 =? 0) || Force) eqn:Hdone; cbn; cycle 1.
  { apply orb_false_iff in Hdone as [Hne ->]. exists EXIT_FAILURE, w2. split_and!; auto; try done.
    intros H%Hzero; [subst; done|constructor]. }
  pose proof (Hcache Id w2) as Hc. destruct (os_call (Wm (CacheClear Id)) w2) as [u w3]. cbn in Hc.
  exists EXIT_SUCCESS, w3. split_and!; [done|by left|..|done].
  - intros _ ->. rewrite orb_false_r in Hgo, Hdone. apply bool_decide_eq_true in Hgo. apply Z.eqb_eq in Hdone.
    split; [auto|]. intros q Hq. rewrite Hc; auto.
  - intros H%Hzero; [|by repeat constructor]. intros q Hq. rewrite Hc; auto.
  - intros q Hq. rewrite Hc; auto.
Qed.

End Delete.

(** ** [doStart] *)

Section Start.
Context `{SJ : Simdjson} {W : Type} {OS : Os W} {L : OsLaws W}.

Lemma scope_exit_close (w : W) (body : prog Z) fd (P : Z -> files -> Prop) :
  spec (λ _, True) w body (λ o w', exists code, o = Done code /\ P code (files_of w')) ->
  spec (λ _, True) w (scope_exit body (λ _, close_fd fd))
    (λ o w', exists code, o = Done code /\ P code (files_of w')).
Proof.
  intros Hb. unfold scope_exit. apply spec_bind. eapply spec_mono; [|exact Hb].
  intros o w1 (code & -> & HP). cbn [then_post]. apply spec_bind. unfold close_fd.
  destruct (0 <=? fd); [|apply spec_ret; [done|]; apply spec_ret; eauto].
  step_call as r w2 E2; [done|]. apply os_step in E2. cbn in E2.
  apply spec_ret; [done|]. apply spec_ret; [done|]. exists code. by rewrite E2.
Qed.

(** What a run of [doStart] does to the FIFO. *)
Lemma doStart_fifo Root Cfg Id (w : W) :
  spec (λ _, True) w (doStart Root Cfg Id) (λ o w', exists code, o = Done code /\
    (code = EXIT_SUCCESS \/ code = EXIT_FAILURE) /\
    (code = EXIT_SUCCESS ->
       files_of w !! exec_fifo Root Id <> None /\
       files_of w' = delete (exec_fifo Root Id) (files_of w) /\
       exists s, loaded_from (files_of w) (state_file Root Id) default_State s)).
Proof.
  unfold doStart. apply load_state_seq; [done| |].
  { intros w' _. exists EXIT_FAILURE. split_and!; auto; done. }
  intros s w1 Hf1 Hl. fold (exec_fifo Root Id).
  step_call as r w2 E2; [done|]. apply os_step in E2 as [Hf2 Hex]. rewrite Hf1 in Hf2, Hex.
  apply (scope_exit_close w2 _ _ (λ code f, (code = EXIT_SUCCESS \/ code = EXIT_FAILURE) /\
    (code = EXIT_SUCCESS -> files_of w !! exec_fifo Root Id <> None /\
       f = delete (exec_fifo Root Id) (files_of w) /\ _))).
  assert (forall w', spec (λ _, True) w' (mret EXIT_FAILURE) (λ o w', exists code, o = Done code /\
    (code = EXIT_SUCCESS \/ code = EXIT_FAILURE) /\ (code = EXIT_SUCCESS ->
      files_of w !! exec_fifo Root Id <> None /\
       files_of w' = delete (exec_fifo Root Id) (files_of w) /\
       exists s, loaded_from (files_of w) (state_file Root Id) default_State s))) as Hfail.
  { intros w'. apply spec_ret; [done|]. exists EXIT_FAILURE. split_and!; auto; done. }
  destruct (Z.ltb_spec (ret r) 0); [apply Hfail|].
  step_call as r3 w3 E3; [done|]. apply os_step in E3 as [Hun Hno]. rewrite Hf2 in Hun, Hno.
  destruct (Z.ltb_spec (ret r3) 0); [apply Hfail|].
  step_call as r4 w4 E4; [done|]. apply os_step in E4. cbn in E4.
  destruct (Z.ltb_spec (ret r4) 0); [apply Hfail|].
  step_call as r5 w5 E5; [done|]. apply os_step in E5. cbn in E5.
  apply spec_ret; [done|]. exists EXIT_SUCCESS. split_and!; [done|by left|]. intros _.
  destruct Hun as [_ Hdel]; [done|]. split_and!; [by apply Hex|congruence|by exists s].
Qed.

(** C39: A container is started at most once: a successful [doStart] has removed the
    exec FIFO, and as long as the files stay as they are, every further
    [doStart] fails. *)
Theorem doStart_once Root Cfg Id (w w' : W) :
  run (doStart Root Cfg Id) w = (Done EXIT_SUCCESS, w') ->
  files_of w' !! exec_fifo Root Id = None /\
  forall Cfg2 w2, files_of w2 = files_of w' ->
    exists w3, run (doStart Root Cfg2 Id) w2 = (Done EXIT_FAILURE, w3).
Proof.
  intros Hr. apply (spec_run _ _ _ _ _ _ (doStart_fifo Root Cfg Id w)) in Hr
    as (code & [= <-] & _ & Hs).
  destruct (Hs eq_refl) as (_ & Hdel & _).
  assert (files_of w' !! exec_fifo Root Id = None) as Hnone by (by rewrite Hdel, lookup_delete_eq).
  split; [done|]. intros Cfg2 w2 Hw2.
  destruct (doStart_fifo Root Cfg2 Id w2) as [_ (code & Ho & [->| ->] & Hs2)].
  - destruct (Hs2 eq_refl) as [Hex _]. by rewrite Hw2 in Hex.
  - exists (run (doStart Root Cfg2 Id) w2).2. rewrite <- Ho. apply surjective_pairing.
Qed.

(** A successful [doStart] closes the descriptor of the FIFO twice. *)
Theorem doStart_double_close Root Cfg Id (w w' : W) :
  run (doStart Root Cfg Id) w = (Done EXIT_SUCCESS, w') ->
  exists fd l, calls (doStart Root Cfg Id) w = l ++ [Px (Close fd); Px (Close fd)].
Proof.
  intros Hr. rewrite <- trace_calls.
  eapply (accepts_hist_run _ (λ code h, code = EXIT_SUCCESS ->
    exists fd l, projT1 <$> h = l ++ [Px (Close fd); Px (Close fd)])); [|exact Hr|done].
  unfold doStart.
  eapply accepts_seq; [apply (accepts_hist_any _ _ (λ _ _, True)); done|]. intros [[] ?] h1 _; [|done].
  eapply accepts_seq; [apply (accepts_hist_any _ _ (λ _ _, True)); done|]. intros [s []] h2 _; [|done].
  apply accepts_hist_call. intros r. unfold scope_exit.
  assert (forall h, accepts hist_step h (close_fd (ret r);; mret EXIT_FAILURE)
    (λ code h, code = EXIT_SUCCESS ->
       exists fd l, projT1 <$> h = l ++ [Px (Close fd); Px (Close fd)])) as Hfail.
  { intros h. apply accepts_bind, accepts_hist_any. done. }
  destruct (Z.ltb_spec (ret r) 0); [apply Hfail|]. apply accepts_bind.
  apply accepts_hist_call. intros r3. destruct (ret r3 <? 0); [apply Hfail|].
  apply accepts_hist_call. intros r4. destruct (ret r4 <? 0); [apply Hfail|].
  apply accepts_hist_call. intros r5. apply accepts_bind. unfold close_fd.
  destruct (Z.leb_spec 0 (ret r)); [|lia]. apply accepts_hist_call. intros r6 _.
  eexists (ret r), _. rewrite !fmap_app. cbn [fmap list_fmap projT1].
  by rewrite <- app_assoc.
Qed.

End Start.

(** ** [doState] *)




(** ** Where the commands act *)

Section Confinement.
Context `{SJ : Simdjson} {W : Type} {OS : Os W}.

Lemma doDelete_remove_all Root Id Force (w : W) p :
  Fs (FsRemoveAll p) ∈ calls (doDelete Root Id Force) w -> p = path_append Root Id.
Proof.
  intros Hin.
  assert (all_calls (λ c, c = Fs (FsRemoveAll p) -> p = path_append Root Id) (doDelete Root Id Force))
    as Hall by (unfold doDelete, is_directory, ensure; calls_walk; congruence).
  eapply all_calls_run, Forall_forall in Hall; eauto.
Qed.

(** For an id that is a plain file name, [doDelete] removes only a directory
    strictly below the root of the containers. *)
Theorem doDelete_confined Root Id Force (w : W) p :
  plain_name Id = true -> Fs (FsRemoveAll p) ∈ calls (doDelete Root Id Force) w ->
  under Root p = true /\ p <> Root.
Proof.
  intros Hid ->%doDelete_remove_all. pose proof (plain_name_relative Id Hid) as Hrel. split.
  - destruct (under_app Root Id); congruence.
  - unfold path_append. rewrite Hrel. destruct (has_filename Root); apply sapp_ne_self; [done|].
    by intros ->.
Qed.

(** An absolute id leaves the root of the containers: the directory it names
    is removed, wherever it is. *)
Theorem doDelete_absolute_id Root Id (w : W) :
  is_absolute Id = true -> Fs (FsRemoveAll Id) ∈ calls (doDelete Root Id true) w.
Proof.
  intros Hid. unfold doDelete. assert (path_append Root Id = Id) as ->
    by (unfold path_append; by rewrite Hid).
  cbn. destruct (os_call (Fs (FsStatus Id)) w) as [[ty err] w1]. cbn. rewrite orb_true_r. cbn.
  destruct (os_call (Fs (FsRemoveAll Id)) w1) as [err2 w2]. set_solver.
Qed.

End Confinement.

(** *** The hypotheses can hold *)

Definition running_state : State :=
  (new_State "c1" "/bundle") <| Status := Running |> <| Pid := 4242 |>
    <| CreatedTimestamp := "2021-01-02T03:04:05Z" |> <| StartedTimestamp := "2021-01-02T03:04:06Z" |>.

Definition command_files : files :=
  <["/run/c1/state.json" := Reg (State_print running_state)]>
    (<["/run/c1/exec.fifo" := Fifo]>
      (<["/bundle/config.json" := Reg "{}"]> {[ "/run/c1" := Dir ]})).

Definition command_demo : sim plain_fs := sim_start plain_fs command_files.

Lemma doKill_target_witness :
  Px (Kill 4242 15) ∈ calls (doKill (SJ := ref_simdjson) "/run" "config.json" "c1" "TERM") command_demo /\
  parseSignal "TERM" = Val 15 /\ 0 <= 4242 /\
  exists s, loaded_from command_files "/run/c1/state.json" default_State s /\ Pid s = 4242.
Proof.
  assert (Px (Kill 4242 15) ∈ calls (doKill (SJ := ref_simdjson) "/run" "config.json" "c1" "TERM")
    command_demo) as Hin.
  { apply list_elem_of_In. vm_compute. tauto. }
  destruct (doKill_target (SJ := ref_simdjson) "/run" "config.json" "c1" "TERM" command_demo 4242 15 Hin)
    as (Hs & _ & Hp & s & Hl & Hpid & _).
  split; [exact Hin|]. split; [exact Hs|]. split; [exact Hp|]. exists s. split; [exact Hl|exact Hpid].
Defined.

Lemma doDelete_removes_witness :
  exists w', run (doDelete (SJ := ref_simdjson) "/run" "c1" false) command_demo = (Done EXIT_SUCCESS, w') /\
    files_of w' !! "/run/c1/state.json" = None.
Proof.
  destruct (doDelete_removes (SJ := ref_simdjson) "/run" "c1" false command_demo)
    as (code & w' & Hr & Hcode & Hs & _).
  - intros id w q _. reflexivity.
  - assert (code = EXIT_SUCCESS) as ->.
    { pose proof (f_equal fst Hr) as E. vm_compute in E. injection E as E. symmetry. exact E. }
    exists w'. split; [exact Hr|]. apply Hs; reflexivity.
Defined.

Lemma doStart_once_witness :
  exists w', run (doStart (SJ := ref_simdjson) "/run" "config.json" "c1") command_demo
      = (Done EXIT_SUCCESS, w') /\
    exists w3, run (doStart (SJ := ref_simdjson) "/run" "config.json" "c1") w' = (Done EXIT_FAILURE, w3).
Proof.
  eexists. split; [vm_compute; reflexivity|].
  eapply (doStart_once (SJ := ref_simdjson) "/run" "config.json" "c1" command_demo);
    [vm_compute; reflexivity|reflexivity].
Defined.

Lemma doStart_double_close_witness :
  exists fd l, calls (doStart (SJ := ref_simdjson) "/run" "config.json" "c1") command_demo
    = l ++ [Px (Close fd); Px (Close fd)].
Proof.
  eapply (doStart_double_close (SJ := ref_simdjson) "/run" "config.json" "c1" command_demo).
  vm_compute. reflexivity.
Defined.

Lemma doDelete_confined_witness : under "/run" "/run/c1" = true /\ "/run/c1" <> "/run".
Proof.
  apply (doDelete_confined (SJ := ref_simdjson) "/run" "c1" false command_demo).
  - reflexivity.
  - apply list_elem_of_In. vm_compute. tauto.
Defined.

Lemma doDelete_absolute_id_witness :
  Fs (FsRemoveAll "/etc") ∈ calls (doDelete (SJ := ref_simdjson) "/run" "/etc" true) command_demo.
Proof. apply (doDelete_absolute_id (SJ := ref_simdjson) "/run" "/etc" command_demo). reflexivity. Defined.
