(* ===== verification/Platform.v ===== *)
(** The platforms of the sources: the macros of include/defines.h, and the code that
    depends on them, in [parseSignal], [Bundle::load], [State::setCreated] and
    [doKill].  The other files model the Linux build; here it is selected from
    the macros of the compiler. *)
From S2P Require Import Prelude Cpp Signals Path Json JsonRef Loader Prog Bundle Container.

(** ** Macros *)

(** The macros that the compiler predefines. *)
Section Macros.
Context (defined : string -> bool).

Definition RUNW_OS_WINDOWS : bool :=
  defined "_WIN32" || defined "_WIN64" || defined "__WIN32__" || defined "__TOS_WIN__" || defined "__WINDOWS__".
Definition RUNW_OS_LINUX : bool :=
  defined "linux" || defined "__linux" || defined "__linux__" || defined "__gnu_linux__".
Definition RUNW_OS_SOLARIS : bool := defined "sun" || defined "__sun".
Definition RUNW_OS_MACOS : bool :=
  defined "macintosh" || defined "Macintosh" || (defined "__APPLE__" && defined "__MACH__").

(** ** Signals *)

(** The names in the table of signals. *)
Definition signal_names : list string :=
  if RUNW_OS_LINUX then
    [ "SIGABRT"; "SIGALRM"; "SIGBUS"; "SIGCHLD"; "SIGCONT"; "SIGFPE"; "SIGHUP"; "SIGILL"; "SIGINT"; "SIGIO";
      "SIGKILL"; "SIGPIPE"; "SIGPROF"; "SIGPWR"; "SIGQUIT"; "SIGSEGV"; "SIGSTKFLT"; "SIGSTOP"; "SIGSYS"; "SIGTERM";
      "SIGTRAP"; "SIGTSTP"; "SIGTTIN"; "SIGTTOU"; "SIGURG"; "SIGUSR1"; "SIGUSR2"; "SIGVTALRM"; "SIGWINCH"; "SIGXCPU";
      "SIGXFSZ" ]
  else if RUNW_OS_MACOS then
    [ "SIGABRT"; "SIGALRM"; "SIGBUS"; "SIGCHLD"; "SIGCONT"; "SIGEMT"; "SIGFPE"; "SIGHUP"; "SIGILL"; "SIGINFO"; "SIGINT";
      "SIGIO"; "SIGKILL"; "SIGPIPE"; "SIGPROF"; "SIGQUIT"; "SIGSEGV"; "SIGSTOP"; "SIGSYS"; "SIGTERM"; "SIGTRAP";
      "SIGTSTP"; "SIGTTIN"; "SIGTTOU"; "SIGURG"; "SIGUSR1"; "SIGUSR2"; "SIGVTALRM"; "SIGWINCH"; "SIGXCPU"; "SIGXFSZ" ]
  else if RUNW_OS_SOLARIS then
    [ "SIGALRM"; "SIGBUS"; "SIGCANCEL"; "SIGCHLD"; "SIGCONT"; "SIGEMT"; "SIGFPE"; "SIGFREEZE"; "SIGHUP"; "SIGILL";
      "SIGINT"; "SIGJVM1"; "SIGJVM2"; "SIGKILL"; "SIGLOST"; "SIGLWP"; "SIGPIPE"; "SIGPOLL"; "SIGPROF"; "SIGPWR";
      "SIGQUIT"; "SIGSEGV"; "SIGSTOP"; "SIGSYS"; "SIGTERM"; "SIGTHAW"; "SIGTRAP"; "SIGTSTP"; "SIGTTIN"; "SIGTTOU";
      "SIGURG"; "SIGUSR1"; "SIGUSR2"; "SIGVTALRM"; "SIGWAITING"; "SIGWINCH"; "SIGXCPU"; "SIGXFSZ"; "SIGXRES" ]
  else if RUNW_OS_WINDOWS then [ "SIGABRT"; "SIGFPE"; "SIGILL"; "SIGINT"; "SIGSEGV"; "SIGTERM" ]
  else [].

(** The numbers are macros of the signal.h of the platform. *)
Definition signal_table (signo : string -> Z) : list (string * Z) := (λ name, (name, signo name)) <$> signal_names.

(** ** The configuration *)

Section Platform.
Context `{SJ : Simdjson}.

Definition loadSolaris (Solaris : list (string * element)) : loader Bundle :=
  for_each (λ '(Key, Element), switch (first_char Key) [] ok) Solaris.

Definition loadWindows (Windows : list (string * element)) : loader Bundle :=
  for_each (λ '(Key, Element), switch (first_char Key) [] ok) Windows.

(** One member of the configuration document. *)
Definition loadConfigField_on (field : string * element) : loader Bundle :=
  let '(Key, Element) := field in
  switch (first_char Key)
    ([ ("a"%char, if String.eqb Key "annotations" then loadAnnotations Element else ok);
       ("m"%char, if String.eqb Key "mounts" then
          get_then (get_array Element) loadMounts else ok);
       ("o"%char, if String.eqb Key "ociVersion" then
          get_then (get_string Element) (λ v, modify (λ b, b <| OCIVersion := v |>))
        else ok);
       ("p"%char, if String.eqb Key "process" then
          get_then (get_object Element) loadProcess else ok);
       ("r"%char, if String.eqb Key "root" then
          get_then (get_object Element) loadRoot else ok) ] ++
     (if RUNW_OS_LINUX then
        [("l"%char, if String.eqb Key "linux" then get_then (get_object Element) loadLinux else ok)]
      else []) ++
     (if RUNW_OS_SOLARIS then
        [("s"%char, if String.eqb Key "solaris" then get_then (get_object Element) loadSolaris else ok)]
      else []) ++
     (if RUNW_OS_WINDOWS then
        [("w"%char, if String.eqb Key "windows" then get_then (get_object Element) loadWindows else ok)]
      else [])) ok.

Definition loadConfig_on (Config : list (string * element)) : loader Bundle := for_each loadConfigField_on Config.

(** ** Processes *)

(** The process id that [setCreated] stores; [None] is the [#error]. *)
Definition getpid_on : option (prog sysret) :=
  if RUNW_OS_LINUX || RUNW_OS_MACOS then Some (do_call (Px Getpid) : prog sysret)
  else if RUNW_OS_WINDOWS then Some (do_call (Px Getpid) : prog sysret)
  else None.

(** The end of [doKill]. *)
Definition send_signal (PidValue Signal : Z) : prog Z :=
  if RUNW_OS_LINUX || RUNW_OS_MACOS || RUNW_OS_SOLARIS then
    r ← do_call (Px (Kill PidValue Signal)) : prog sysret;
    ensure (ret r =? 0) (mret EXIT_SUCCESS)
  else if RUNW_OS_WINDOWS then mret EXIT_FAILURE
  else mret EXIT_SUCCESS.

End Platform.
End Macros.

(** ** Properties *)

(** The macros of a compiler for Linux. *)
Definition linux_compiler (defined : string -> bool) : Prop :=
  RUNW_OS_LINUX defined = true /\ RUNW_OS_WINDOWS defined = false /\ RUNW_OS_SOLARIS defined = false /\
  RUNW_OS_MACOS defined = false.

(** With the macros of a compiler for Linux, the sources are what the other files
    model: the configuration is loaded by [loadConfig], [parseSignal] uses the table
    of Linux, [setCreated] compiles, and [doKill] sends the signal. *)
Theorem linux_build `{SJ : Simdjson} defined (signo : string -> Z) :
  linux_compiler defined -> (forall name n, (name, n) ∈ kSignalNames -> signo name = n) ->
  (forall Config b, loadConfig_on defined Config b = loadConfig Config b) /\
  (forall Name, parseSignal_in (signal_table defined signo) Name = parseSignal Name) /\
  getpid_on defined = Some (do_call (Px Getpid)) /\
  forall Pid Signal, send_signal defined Pid Signal =
    (r ← do_call (Px (Kill Pid Signal)) : prog sysret; ensure (ret r =? 0) (mret EXIT_SUCCESS)).
Proof.
  intros (Hl & Hw & Hs & Hm) Hsig. split_and!.
  - unfold loadConfig_on, loadConfig. induction Config as [|[Key Element] Config IH]; intros b; [done|].
    cbn [for_each]. unfold and_then.
    replace (loadConfigField_on defined (Key, Element) b) with (loadConfigField (Key, Element) b)
      by (unfold loadConfigField_on; by rewrite Hl, Hs, Hw).
    destruct (loadConfigField _ b) as [b' []]; [apply IH|done].
  - intros Name. unfold parseSignal. f_equal. unfold signal_table, signal_names. rewrite Hl. cbn [fmap list_fmap].
    unfold kSignalNames. repeat f_equal; apply Hsig; unfold kSignalNames; set_solver.
  - unfold getpid_on. by rewrite Hl.
  - intros Pid Signal. unfold send_signal. by rewrite Hl.
Qed.

(** Where only the macros of Solaris are defined, the sources do not compile, although
    they have code for it. *)
Lemma solaris_rejected `{SJ : Simdjson} :
  let defined := λ name, String.eqb name "sun" || String.eqb name "__sun" in
  RUNW_OS_SOLARIS defined = true /\ getpid_on defined = None /\ signal_names defined <> [].
Proof. by split_and!. Qed.

Lemma linux_build_witness :
  let defined := λ name, String.eqb name "__linux__" in
  linux_compiler defined /\
  parseSignal_in (signal_table defined (λ name, default 0 (findSignal kSignalNames name))) "term" = Val 15.
Proof.
  split; [by split_and!|]. change (Val 15) with (parseSignal "term").
  refine (proj1 (proj2 (linux_build (SJ := ref_simdjson) (λ name, String.eqb name "__linux__")
    (λ name, default 0 (findSignal kSignalNames name)) _ _)) "term"); [by split_and!|].
  intros name n Hin. unfold kSignalNames in Hin. rewrite !elem_of_cons, elem_of_nil in Hin.
  by repeat destruct Hin as [[= -> ->]|Hin].
Defined.
