(* ===== verification/Fuel.v ===== *)
(** The bounds on loops do not matter.

    A program with a larger bound does the same as long as the smaller bound is
    not reached: it makes the same calls and has the same outcome.  So what is
    proved for some bound that is not reached holds for the unbounded loop. *)
From S2P Require Import Prelude Cpp Path Json JsonRef Prog Logic Sim FileOps Loader Bundle State.
From S2P Require Import SDBus CGroup Container Lifecycle Commands.

Section Approx.
Context `{SJ : Simdjson}.

(** [p] is [q], or ends before [q] because a bound is reached. *)
Inductive approx {A} : prog A -> prog A -> Prop :=
| ap_fuel q : approx Fuel q
| ap_ret a : approx (Ret a) (Ret a)
| ap_exit status : approx (Exit status) (Exit status)
| ap_undef : approx Undef Undef
| ap_terminate : approx Terminate Terminate
| ap_call c k k' : (forall r, approx (k r) (k' r)) -> approx (Call c k) (Call c k').

Lemma approx_refl {A} (p : prog A) : approx p p.
Proof. induction p; constructor; auto. Qed.

Lemma approx_bind {A B} (p q : prog A) (f g : A -> prog B) :
  approx p q -> (forall a, approx (f a) (g a)) -> approx (p ≫= f) (q ≫= g).
Proof. intros Hp Hf. induction Hp; try constructor; [apply Hf|auto]. Qed.

Lemma approx_run {A W} {OS : Os W} (p q : prog A) (w : W) :
  approx p q -> (run p w).1 <> OutOfFuel -> run q w = run p w /\ trace q w = trace p w.
Proof.
  intros Hp. revert w. induction Hp as [| | | | |c k k' _ IH]; intros w Hw; try done.
  cbn in *. destruct (os_call c w) as [r w']. destruct (IH r w' Hw) as [-> ->]. done.
Qed.

(** ** The loops *)

Lemma getTempFilename_approx n m Prefix :
  (n <= m)%nat -> approx (getTempFilename n Prefix) (getTempFilename m Prefix).
Proof.
  revert m. induction n as [|n IH]; intros m Hm; [constructor|]. destruct m as [|m]; [lia|].
  cbn [getTempFilename]. apply approx_bind; [apply approx_refl|]. intros s.
  apply approx_bind; [apply approx_refl|]. intros pos. destruct (pos =? 0); [constructor|apply IH; lia].
Qed.

Lemma check_loop_approx n m Bus Path f :
  (n <= m)%nat -> approx (check_loop n Bus Path f) (check_loop m Bus Path f).
Proof.
  revert m f. induction n as [|n IH]; intros m f Hm.
  { cbn. destruct (Job_Terminated f) eqn:E; [|constructor]. destruct m; cbn; rewrite E; constructor. }
  destruct m as [|m]; [lia|]. cbn [check_loop]. destruct (Job_Terminated f); [constructor|].
  apply approx_bind; [apply approx_refl|]. intros [f' [e|[]]]; [constructor|apply IH; lia|].
  apply approx_bind; [apply approx_refl|]. intros [e|[]]; [constructor|apply IH; lia].
Qed.

(** ** The programs *)

End Approx.

Create HintDb approx.
#[export] Hint Resolve approx_refl getTempFilename_approx check_loop_approx : approx.

(** Walk over two programs of the same shape. *)
Ltac approx_walk :=
  repeat match goal with
    | |- approx ?p ?p => apply approx_refl
    | |- approx (_ ≫= _) (_ ≫= _) => apply approx_bind; [|intros ?]
    | |- approx (match ?x with _ => _ end) _ => destruct x
    | |- approx _ _ => solve [eauto with approx]
    end.

Section Programs.
Context `{SJ : Simdjson} (n m : nat) (Hnm : (n <= m)%nat).

Lemma writeTempAndRename_approx Path Func :
  approx (writeTempAndRename n Path Func) (writeTempAndRename m Path Func).
Proof. unfold writeTempAndRename. approx_walk. Qed.
#[local] Hint Resolve writeTempAndRename_approx : approx.

Lemma atomicUpdateFile_approx Path Func :
  approx (atomicUpdateFile n Path Func) (atomicUpdateFile m Path Func).
Proof. unfold atomicUpdateFile. approx_walk. Qed.

Lemma atomicCreateAndWriteFile_approx Path Func :
  approx (atomicCreateAndWriteFile n Path Func) (atomicCreateAndWriteFile m Path Func).
Proof. unfold atomicCreateAndWriteFile. approx_walk. Qed.
#[local] Hint Resolve atomicUpdateFile_approx atomicCreateAndWriteFile_approx : approx.

Lemma on_ok_approx {A B} (p q : prog (expected A)) cl (k k' : A -> prog (expected B)) :
  approx p q -> (forall a, approx (k a) (k' a)) -> approx (on_ok p cl k) (on_ok q cl k').
Proof. intros. unfold on_ok. approx_walk. Qed.

Lemma enter_approx Id s : approx (enter n Id s) (enter m Id s).
Proof.
  unfold enter. apply on_ok_approx; [apply approx_refl|]. intros Bus. unfold scope_exit.
  apply approx_bind; [|intros; apply approx_refl]. unfold enter_with_bus, check.
  repeat (apply on_ok_approx; [apply approx_refl|]; intros ?; approx_walk; cbv zeta).
Qed.
#[local] Hint Resolve enter_approx : approx.

Lemma run_container_approx Id PidFile s StateFile fd :
  approx (run_container n Id PidFile s StateFile fd) (run_container m Id PidFile s StateFile fd).
Proof. unfold run_container, execute, publish, ensure. approx_walk. Qed.
#[local] Hint Resolve run_container_approx : approx.

Lemma doCreate_approx Root Systemd Cfg Id Path Console PidFile :
  approx (doCreate n Root Systemd Cfg Id Path Console PidFile)
    (doCreate m Root Systemd Cfg Id Path Console PidFile).
Proof.
  unfold doCreate, create_body, create_fork, create_daemon, doRunInternal, scope_exit, ensure.
  cbv zeta. approx_walk.
Qed.

End Programs.

(** ** Property *)

(** The whole program does not depend on the bounds of its loops: when it does
    not reach them, it has the same outcome, makes the same calls with the same
    answers and leaves the same environment for all larger bounds. *)
Theorem program_fuel `{SJ : Simdjson} `{OS : Os W} logger parse default_argument Version StateDir Argv n m (w : W) :
  let prog := program logger parse default_argument Version StateDir in
  (n <= m)%nat -> (run (prog n Argv) w).1 <> OutOfFuel ->
  run (prog m Argv) w = run (prog n Argv) w /\ trace (prog m Argv) w = trace (prog n Argv) w.
Proof.
  intros prog Hnm. apply approx_run. unfold prog, program, main. apply approx_bind; [apply approx_refl|].
  intros _. pose proof (λ Root, doCreate_approx n m Hnm Root) as Hcreate.
  destruct (negb _); [apply approx_refl|]. destruct (parse _ _) as [o|]; [|apply approx_refl].
  repeat match goal with
    | |- approx ?p ?p => apply approx_refl
    | |- approx (if ?b then _ else _) _ => destruct b
    end.
  apply Hcreate.
Qed.

(** A parser that has found a create command. *)
Definition demo_options (_ : list parser_decl) (_ : list string) : option Options :=
  Some (Build_Options false "/run" false EmptyString "c1" "/bundle" EmptyString "/run/c1.pid" false
    "SIGTERM" false true false false false).

Lemma program_fuel_witness :
  let prog := program (SJ := ref_simdjson) (λ _, true) demo_options (λ _, "config.json") "0.1" "/var" in
  (100 < length (trace (prog 1%nat ["runw"]) create_demo))%nat /\
  trace (prog 7%nat ["runw"]) create_demo = trace (prog 1%nat ["runw"]) create_demo.
Proof.
  split; [vm_compute; lia|].
  apply (program_fuel (SJ := ref_simdjson) (λ _, true) demo_options (λ _, "config.json") "0.1" "/var" ["runw"] 1 7
    create_demo); [lia|]. vm_compute. discriminate.
Defined.
