(* ===== verification/Kernel.v ===== *)
(** Several processes at once.

    A run of a program of [Prog] is a run of one process.  Here the processes
    of a container and of the commands about it share one kernel: a file
    system, the data inside pipes and FIFOs, and a table of descriptors for
    every process.  A step lets one process make one call; the kernel answers
    with any of the documented results.  [fork] continues the same program
    twice, a process can be killed at any time, removing a directory takes one
    step for each of its entries, and other programs change files, and use
    FIFOs and pipes, outside of the directory [Home] of the container at any
    time. *)
From S2P Require Import Prelude Cpp Path Json Prog Logic.

(** ** Kernel objects *)

(** What a descriptor refers to: an end of a pipe, a FIFO with the name it was
    opened under, or something that is not shared. *)
Inductive fd_obj : Set :=
| PipeRd (n : nat) | PipeWr (n : nat)
| FifoRd (p : string) (n : nat) | FifoWr (p : string) (n : nat)
| OtherFd.

Abbreviation fds := (gmap Z fd_obj).

(** The bytes inside a pipe or FIFO, and whether it ever had a writer. *)
Record channel : Set := Channel { ch_data : string; ch_opened : bool }.

Record kernel : Set := Kernel {
  k_files : files;
  k_fifos : gmap string nat;      (* the channel of a FIFO *)
  k_chans : gmap nat channel;
}.

Definition with_files (k : kernel) (f : files) : kernel := Kernel f (k_fifos k) (k_chans k).
Definition with_chan (k : kernel) (n : nat) (ch : channel) : kernel :=
  Kernel (k_files k) (k_fifos k) (<[n := ch]> (k_chans k)).

(** The channel behind a descriptor that can be read, or written. *)
Definition rd_chan (o : option fd_obj) : option nat :=
  match o with Some (PipeRd n) | Some (FifoRd _ n) => Some n | _ => None end.
Definition wr_chan (o : option fd_obj) : option nat :=
  match o with Some (PipeWr n) | Some (FifoWr _ n) => Some n | _ => None end.

(** [flags] of open(2): opened for writing only. *)
Definition opens_write (flags : Z) : bool := Z.land flags 3 =? 1.

Section Kernel.
Context `{SJ : Simdjson}.
(** The directory that other programs, WasmEdge and the module leave alone. *)
Context (Home : string).

Definition home (q : string) : bool := under Home q.

(** ** Answers *)

(** The files a call can change. *)
Definition fs_touches (c : fs_call) (q : string) : bool :=
  match c with
  | FsCreateDirectories p => under q p
  | FsRemoveAll p => under p q
  | FsRename a b => under a q || under b q
  | FsRemove p | OfstreamAppendTellp p | OfstreamOpen p | OfstreamWrite p _ => String.eqb p q
  | _ => false
  end.
Definition touches (c : call) (q : string) : bool :=
  match c with
  | Fs c => fs_touches c q
  | Px (Mkfifo p _) | Px (Unlink p) => String.eqb p q
  | Wm _ => negb (home q)
  | _ => false
  end.

(** The part of an answer that concerns the process alone: new descriptors are
    unused numbers, a read from an open pipe fails only when it is interrupted,
    texts are shorter than 4 GB and are written completely, random letters are
    letters, and the cache of WasmEdge is elsewhere. *)
Definition px_local (T : fds) (c : posix_call) : posix_resp c -> fds -> Prop :=
  match c with
  | Pipe => λ '(r, (a, b)) T',
      if 0 <=? ret r then
        a <> b /\ T !! a = None /\ T !! b = None /\
        exists n, T' = <[a := PipeRd n]> (<[b := PipeWr n]> T)
      else T' = T
  | Socket => λ r T',
      if 0 <=? ret r then T !! ret r = None /\ T' = <[ret r := OtherFd]> T else T' = T
  | Open p flags => λ r T',
      if 0 <=? ret r then
        T !! ret r = None /\
        exists o, T' = <[ret r := o]> T /\
          (o = OtherFd \/ exists n, o = if opens_write flags then FifoWr p n else FifoRd p n)
      else T' = T
  | Close fd => λ _ T', T' = delete fd T
  | Read fd n => λ '(r, data) T',
      T' = T /\ ((exists m, T !! fd = Some (PipeRd m)) -> ret r < 0 -> errno r = EINTR)
  | _ => λ _ T', T' = T
  end.

Definition local_answer (T : fds) (c : call) : resp c -> fds -> Prop :=
  match c with
  | Px c => px_local T c
  | Fs (OfstreamWrite _ s) => λ (ok : bool) T',
      ok = true /\ Z.of_nat (String.length s) < 2 ^ 32 /\ T' = T
  | Fs RandomLetter => λ (c : ascii) T', T' = T /\ 97 <= code c <= 122
  | Wm (CacheGetPath _ _) => λ (o : option string) T',
      T' = T /\ forall p, o = Some p -> home (parent_path (replace_extension p ".so")) = false
  | _ => λ _ T', T' = T
  end.

(** The part of an answer about pipes and FIFOs; [writer n] says that some
    process can write to channel [n].  A FIFO is ready when it holds data, or
    when it had a writer and has none any more. *)
Definition px_chans (pid : Z) (writer : nat -> Prop) (T : fds) (k : kernel) (c : posix_call) :
    posix_resp c -> fds -> kernel -> Prop :=
  let same k' := k_fifos k' = k_fifos k /\ k_chans k' = k_chans k in
  match c with
  | Pipe => λ '(r, (a, b)) T' k',
      if 0 <=? ret r then
        exists n, T' !! a = Some (PipeRd n) /\ k_chans k !! n = None /\
          k_fifos k' = k_fifos k /\ k_chans k' = <[n := Channel EmptyString true]> (k_chans k)
      else same k'
  | Open p flags => λ r T' k',
      if 0 <=? ret r then
        match T' !! ret r with
        | Some (FifoRd _ n) => k_fifos k !! p = Some n /\ same k'
        | Some (FifoWr _ n) =>
            k_fifos k !! p = Some n /\ k_fifos k' = k_fifos k /\
            exists ch, k_chans k !! n = Some ch /\
              k_chans k' = <[n := Channel (ch_data ch) true]> (k_chans k)
        | _ => same k' /\ k_files k !! p <> Some Fifo
        end
      else same k'
  | Mkfifo p _ => λ r T' k',
      if 0 <=? ret r then
        exists n, k_chans k !! n = None /\ k_fifos k' = <[p := n]> (k_fifos k) /\
          k_chans k' = <[n := Channel EmptyString false]> (k_chans k)
      else same k'
  | Read fd n => λ '(r, data) T' k',
      k_fifos k' = k_fifos k /\
      match rd_chan (T !! fd) with
      | Some m =>
          if 0 <? ret r then
            exists rest op, data <> EmptyString /\ Z.of_nat (String.length data) <= n /\
              k_chans k !! m = Some (Channel (data +:+ rest) op) /\
              (Z.of_nat (String.length data) = n \/ rest = EmptyString) /\
              k_chans k' = <[m := Channel rest op]> (k_chans k)
          else k_chans k' = k_chans k /\
            (ret r = 0 -> ~ writer m /\ exists op, k_chans k !! m = Some (Channel EmptyString op))
      | None => k_chans k' = k_chans k
      end
  | Write fd s => λ r T' k',
      k_fifos k' = k_fifos k /\
      match wr_chan (T !! fd) with
      | Some m =>
          if 0 <=? ret r then
            exists data op, k_chans k !! m = Some (Channel data op) /\
              k_chans k' = <[m := Channel (data +:+ s) op]> (k_chans k)
          else k_chans k' = k_chans k
      | None => k_chans k' = k_chans k
      end
  | Select fd => λ r T' k',
      same k' /\ forall m, rd_chan (T !! fd) = Some m -> 0 <= ret r ->
        exists ch, k_chans k !! m = Some ch /\
          ch_opened ch = true /\ (ch_data ch <> EmptyString \/ ~ writer m)
  | Getpid => λ r T' k', same k' /\ ret r = pid
  | _ => λ _ _ k', same k'
  end.

(** Files exist only inside of directories that exist. *)
Definition rooted (f : files) : Prop :=
  forall q, home q = true -> f !! q <> None -> f !! Home = Some Dir.

(** Changing files, as documented for the call. *)
Definition files_answer (c : call) (f : files) (r : resp c) (f' : files) : Prop :=
  call_effect c f r f' /\ (forall q, touches c q = false -> f' !! q = f !! q) /\ rooted f'.

Definition chans_answer (pid : Z) (writer : nat -> Prop) (T : fds) (k : kernel) (c : call) :
    resp c -> fds -> kernel -> Prop :=
  match c with
  | Px c => px_chans pid writer T k c
  | _ => λ _ _ k', k_fifos k' = k_fifos k /\ k_chans k' = k_chans k
  end.

(** ** The system *)

Record process : Type := Process { p_prog : prog Z; p_fds : fds }.

Definition running (p : process) : bool :=
  match p_prog p with Call _ _ | Fuel => true | _ => false end.

(** A running process holds a descriptor for writing to channel [n]. *)
Definition has_writer (ps : gmap Z process) (n : nat) : Prop :=
  exists pid p fd, ps !! pid = Some p /\ running p = true /\ wr_chan (p_fds p !! fd) = Some n.

Record system : Type := System { s_kernel : kernel; s_procs : gmap Z process }.

(** Channels that other programs cannot reach: the pipes of the processes, and the
    FIFOs in [Home]. *)
Definition private (s : system) (n : nat) : Prop :=
  (exists pid p fd o, s_procs s !! pid = Some p /\ p_fds p !! fd = Some o /\
     match o with
     | PipeRd m | PipeWr m => m = n
     | FifoRd q m | FifoWr q m => m = n /\ home q = true
     | OtherFd => False
     end) \/
  exists q, home q = true /\ k_fifos (s_kernel s) !! q = Some n.

(** What other programs do: they change files, make FIFOs and pipes and use them,
    all of it outside of [Home]. *)
Record others_answer (s : system) (k' : kernel) : Prop := {
  oa_files q : home q = true -> k_files k' !! q = k_files (s_kernel s) !! q;
  oa_fifos q : home q = true -> k_fifos k' !! q = k_fifos (s_kernel s) !! q;
  oa_made q n : k_fifos k' !! q = Some n ->
    k_fifos (s_kernel s) !! q = Some n \/ (k_chans (s_kernel s) !! n = None /\ is_Some (k_chans k' !! n));
  oa_chans n ch : k_chans (s_kernel s) !! n = Some ch ->
    exists ch', k_chans k' !! n = Some ch' /\ (ch_opened ch = true -> ch_opened ch' = true) /\
      (private s n -> ch' = ch);
}.

(** What a step does: a call of a process with its answer, or something that
    no process learns about. *)
Inductive label : Type := LCall (pid : Z) (e : event) | LSilent.

(** Calls that take one step and do not create a process. *)
Definition simple_call (c : call) : bool :=
  match c with Px Fork | Fs (FsRemoveAll _) => false | _ => true end.

Inductive sys_step : system -> label -> system -> Prop :=
| step_call s pid c k T r T' k' :
    s_procs s !! pid = Some (Process (Call c k) T) -> simple_call c = true ->
    local_answer T c r T' ->
    files_answer c (k_files (s_kernel s)) r (k_files k') ->
    chans_answer pid (has_writer (s_procs s)) T (s_kernel s) c r T' k' ->
    sys_step s (LCall pid (existT (P := resp) c r))
      (System k' (<[pid := Process (k r) T']> (s_procs s)))
| step_fork s pid k T r child :
    s_procs s !! pid = Some (Process (Call (Px Fork) k) T) ->
    0 < ret r -> in_type Int32 (ret r) -> child = ret r -> s_procs s !! child = None ->
    sys_step s (LCall pid (existT (P := resp) (Px Fork) r))
      (System (s_kernel s)
        (<[child := Process (k (SysRet 0 0)) T]> (<[pid := Process (k r) T]> (s_procs s))))
| step_fork_fails s pid k T r :
    s_procs s !! pid = Some (Process (Call (Px Fork) k) T) -> ret r < 0 ->
    sys_step s (LCall pid (existT (P := resp) (Px Fork) r))
      (System (s_kernel s) (<[pid := Process (k r) T]> (s_procs s)))
| step_remove_entry s pid p k T q f' :
    s_procs s !! pid = Some (Process (Call (Fs (FsRemoveAll p)) k) T) ->
    under p q = true -> q <> p -> f' = delete q (k_files (s_kernel s)) -> rooted f' ->
    sys_step s LSilent (System (with_files (s_kernel s) f') (s_procs s))
| step_remove_done s pid p k T f' :
    s_procs s !! pid = Some (Process (Call (Fs (FsRemoveAll p)) k) T) ->
    (forall q, under p q = true -> q <> p -> k_files (s_kernel s) !! q = None) ->
    f' = delete p (k_files (s_kernel s)) -> rooted f' ->
    sys_step s (LCall pid (existT (P := resp) (Fs (FsRemoveAll p)) 0))
      (System (with_files (s_kernel s) f') (<[pid := Process (k 0) T]> (s_procs s)))
| step_remove_fails s pid p k T err :
    s_procs s !! pid = Some (Process (Call (Fs (FsRemoveAll p)) k) T) -> err <> 0 ->
    sys_step s (LCall pid (existT (P := resp) (Fs (FsRemoveAll p)) err))
      (System (s_kernel s) (<[pid := Process (k err) T]> (s_procs s)))
| step_killed s pid p status :
    s_procs s !! pid = Some p ->
    sys_step s LSilent (System (s_kernel s) (<[pid := Process (Exit status) (p_fds p)]> (s_procs s)))
| step_others s k' :
    others_answer s k' -> sys_step s LSilent (System k' (s_procs s)).

(** ** Descriptors *)

(** An end of a pipe. *)
Definition pipe_end (n : nat) (o : fd_obj) : Prop := o = PipeRd n \/ o = PipeWr n.

(** A call gives a process no end of a pipe that exists. *)
Lemma own_gains pid w T k c r T' k' n o fd :
  local_answer T c r T' -> chans_answer pid w T k c r T' k' -> is_Some (k_chans k !! n) ->
  pipe_end n o -> T' !! fd = Some o -> T !! fd = Some o.
Proof.
  intros Hl Hch [ch Hn] Ho HT. assert (T' = T -> T !! fd = Some o) as Hsame by (by intros <-).
  destruct c as [[]|c|[]|[]|]; cbn in Hl; try (apply Hsame; by destruct_and?).
  destruct c; cbn in Hl, Hch; try (apply Hsame; by destruct_and?).
  - destruct r as [r [a b]]. destruct (0 <=? ret r); [|by apply Hsame].
    destruct Hl as (Hab & _ & _ & m & ->). destruct Hch as (m' & Hm & Hnone & _).
    rewrite lookup_insert_eq in Hm. injection Hm as <-. assert (m <> n) by congruence.
    apply lookup_insert_Some in HT as [[_ <-]|[_ [[_ <-]|[_ ?]]%lookup_insert_Some]]; [..|done];
      destruct Ho; congruence.
  - destruct (0 <=? ret r); [|by apply Hsame]. destruct Hl as [_ ->].
    apply lookup_insert_Some in HT as [[_ <-]|[_ ?]]; [|done]. by destruct Ho.
  - subst T'. by apply lookup_delete_Some in HT as [_ ?].
  - destruct (0 <=? ret r); [|by apply Hsame]. destruct Hl as (_ & o' & -> & Ho').
    apply lookup_insert_Some in HT as [[_ ->]|[_ ?]]; [|done].
    destruct Ho' as [->|[m ->]], Ho; try done; by destruct (opens_write flags).
  - destruct r as [r data]. apply Hsame, Hl.
Qed.

(** What a call does to a channel: it stays, it keeps its writer, and it keeps its
    data unless it is read from. *)
Lemma chan_step pid w T k c r T' k' n ch :
  chans_answer pid w T k c r T' k' -> k_chans k !! n = Some ch ->
  exists ch', k_chans k' !! n = Some ch' /\ (ch_opened ch = true -> ch_opened ch' = true) /\
    (ch_data ch <> EmptyString -> ch_data ch' <> EmptyString \/
       exists fd sz, c = Px (Read fd sz) /\ rd_chan (T !! fd) = Some n).
Proof.
  intros Hch Hn. match goal with |- ?G => assert (k_chans k' = k_chans k -> G) as Hsame by (intros ->; eauto) end.
  match goal with |- ?G => assert (forall m ch', k_chans k' = <[m := ch']> (k_chans k) ->
    (m = n -> (ch_opened ch = true -> ch_opened ch' = true) /\
      (ch_data ch <> EmptyString -> ch_data ch' <> EmptyString \/
         exists fd sz, c = Px (Read fd sz) /\ rd_chan (T !! fd) = Some n)) -> G) as Hins end.
  { intros m ch' -> H. destruct (decide (m = n)) as [->|]; [|rewrite lookup_insert_ne by done; eauto].
    rewrite lookup_insert_eq. exists ch'. auto. }
  destruct c as [|c| | |]; try (by apply Hsame, Hch).
  destruct c; cbn in Hch; try (by apply Hsame, Hch).
  - destruct r as [r [a b]]. destruct (0 <=? ret r); [|by apply Hsame, Hch]. destruct Hch as (m & _ & Hm & _ & Hch).
    eapply Hins; [exact Hch|]. intros ->. congruence.
  - destruct (0 <=? ret r); [|by apply Hsame, Hch]. destruct (T' !! ret r) as [[]|]; try (by apply Hsame, Hch).
    destruct Hch as (_ & _ & ch0 & Hm & Hch). eapply Hins; [exact Hch|]. intros ->. simplify_eq. auto.
  - destruct (0 <=? ret r); [|by apply Hsame, Hch]. destruct Hch as (m & Hm & _ & Hch).
    eapply Hins; [exact Hch|]. intros ->. congruence.
  - destruct r as [r data]. destruct Hch as [_ Hch]. destruct (rd_chan _) as [m|] eqn:Hfd; [|by apply Hsame].
    destruct (0 <? ret r); [|by apply Hsame, Hch]. destruct Hch as (rest & op & _ & _ & Hm & _ & Hch).
    eapply Hins; [exact Hch|]. intros ->. simplify_eq. split; [done|]. right. eauto.
  - destruct Hch as [_ Hch]. destruct (wr_chan _) as [m|]; [|by apply Hsame].
    destruct (0 <=? ret r); [|by apply Hsame]. destruct Hch as (data & op & Hm & Hch).
    eapply Hins; [exact Hch|]. intros ->. simplify_eq. split; [done|]. cbn. left. by destruct data.
Qed.

(** An execution: its steps and the states after each of them. *)
Inductive execution : system -> list (label * system) -> Prop :=
| exec_nil s : execution s []
| exec_cons s l s1 t : sys_step s l s1 -> execution s1 t -> execution s ((l, s1) :: t).

Definition labels (t : list (label * system)) : list label := t.*1.
(** The state at the end. *)
Fixpoint final (s : system) (t : list (label * system)) : system :=
  match t with [] => s | (_, s1) :: t => final s1 t end.

(** ** The calls of an execution *)

(** How many calls of a list of steps satisfy [P]. *)
Definition call_of (P : event -> bool) (l : label) : bool :=
  match l with LCall _ e => P e | LSilent => false end.
Definition count_calls (P : event -> bool) (t : list label) : nat :=
  length (filter (λ l, call_of P l = true) t).

Lemma count_calls_app P t l :
  count_calls P (t ++ [l]) = (count_calls P t + Nat.b2n (call_of P l))%nat.
Proof.
  unfold count_calls. rewrite filter_app, length_app. f_equal. rewrite filter_cons.
  by destruct (call_of P l).
Qed.

(** The calls of one process. *)
Definition events_of (pid : Z) (t : list label) : list event :=
  omap (λ l, match l with LCall pid' e => if decide (pid' = pid) then Some e else None | LSilent => None end) t.

(** A specification of one process alone holds of it among others: until it is
    killed, it goes on as specified. *)
Section Alone.
Context {St : Type} (step : St -> event -> St -> Prop).

Lemma step_accepts pid p h Q s l s' :
  sys_step s l s' -> s_procs s !! pid = Some p -> accepts step h (p_prog p) Q ->
  exists p' h', s_procs s' !! pid = Some p' /\ steps step h (events_of pid [l]) h' /\
    accepts step h' (p_prog p') Q.
Proof.
  intros Hstep Hp Hacc.
  assert (forall pid' c (k : resp c -> prog Z) T r T' (ps : gmap Z process), s_procs s !! pid' = Some (Process (Call c k) T) ->
    s_procs s !! pid = ps !! pid ->
    exists p' h', <[pid' := Process (k r) T']> ps !! pid = Some p' /\
      steps step h (events_of pid [LCall pid' (existT (P := resp) c r)]) h' /\
      accepts step h' (p_prog p') Q) as Hmove.
  { intros pid' c k T r T' ps Hp' Hps. cbn. destruct (decide (pid' = pid)) as [->|Hne].
    - rewrite lookup_insert_eq. rewrite Hp in Hp'. injection Hp' as ->.
      destruct (Hacc r) as (h' & Hs & Hk). eexists _, h'. split_and!; [done|econstructor; [done|constructor]|done].
    - rewrite lookup_insert_ne by done. exists p, h. rewrite <- Hps. split_and!; [done|constructor|done]. }
  assert (steps step h [] h) as Hnil by constructor.
  destruct Hstep; cbn [s_procs] in *; eauto.
  - subst child. rewrite insert_insert_ne by congruence. eapply Hmove; [done|].
    rewrite lookup_insert_ne by congruence. done.
  - destruct (decide (pid0 = pid)) as [->|Hne].
    + rewrite lookup_insert_eq. eexists _, h. split_and!; [done|constructor|done].
    + rewrite lookup_insert_ne by done. by exists p, h.
Qed.

Lemma execution_accepts pid p h Q s tr :
  execution s tr -> s_procs s !! pid = Some p -> accepts step h (p_prog p) Q ->
  exists p' h', s_procs (final s tr) !! pid = Some p' /\
    steps step h (events_of pid (labels tr)) h' /\ accepts step h' (p_prog p') Q.
Proof.
  intros Hex. revert p h. induction Hex as [s|s l s1 tr Hstep Hex IH]; intros p h Hp Hacc.
  { exists p, h. split_and!; [done|constructor|done]. }
  destruct (step_accepts _ _ _ _ _ _ _ Hstep Hp Hacc) as (p1 & h1 & Hp1 & Hs1 & Hacc1).
  destruct (IH _ _ Hp1 Hacc1) as (p' & h' & Hp' & Hs' & Hacc'). exists p', h'. split_and!; [done| |done].
  change (labels ((l, s1) :: tr)) with ([l] ++ labels tr). unfold events_of in *. rewrite omap_app.
  by eapply steps_trans.
Qed.

End Alone.

End Kernel.
