(* ===== verification/Roles.v ===== *)
(** Who may do what to a container, when several processes share it.

    Every process has a role.  The owner of the container is the process that
    made its directory, or the one it passed the ownership on to when it forked;
    only the owner changes the state file, makes the FIFO, runs the module and
    removes the directory.  A [create] that has forked waits for the exit code;
    when it reads a failure, the ownership comes back to it with the message.
    [rok] lists the calls each role may make and the role that follows from the
    answer; [wp] is the program logic for programs with a role. *)
From S2P Require Import Prelude Cpp Path Json Prog Logic FileOps Loader Bundle Time State.
From S2P Require Import StateProps SDBus CGroup Container Lifecycle Kernel.

(** Descriptors that a call does not close. *)
Definition keeps (K : fds) (c : call) : Prop :=
  match c with Px (Close fd) => K !! fd = None | _ => True end.

Lemma local_keeps `{SJ : Simdjson} Home (K T T' : fds) c r :
  keeps K c -> K ⊆ T -> local_answer Home T c r T' -> K ⊆ T'.
Proof.
  intros Hk HK.
  assert (forall fd o, T !! fd = None -> K ⊆ <[fd := o]> T) as Hins.
  { intros fd o HT. etrans; [exact HK|]. by apply insert_subseteq. }
  destruct c as [[]|[]|[]|[]|]; cbn in *; try (by intros ->); try (by intros [_ ->]);
    try (by intros [-> _]).
  - by intros (_ & _ & ->).
  - destruct r as [r [a b]]. destruct (0 <=? ret r); [|by intros ->].
    intros (Hab & Ha & Hb & n & ->). etrans; [by apply (Hins b (PipeWr n))|].
    apply insert_subseteq. by rewrite lookup_insert_ne.
  - destruct (0 <=? ret r); [|by intros ->]. intros [? ->]. auto.
  - intros ->. apply map_subseteq_spec. intros fd' o Hfd'.
    rewrite lookup_delete_ne by congruence. by eapply lookup_weaken.
  - destruct (0 <=? ret r); [|by intros ->]. intros (? & o & -> & _). auto.
  - destruct r as [r data]. by intros [-> _].
Qed.

(** ** A logic for programs with a role *)

Section Wp.
Context `{SJ : Simdjson} {R : Type}.
(** The answers a process can get, with the descriptors after them. *)
Context (answers : fds -> forall c : call, resp c -> fds -> Prop).
(** The calls a role may make with a table of descriptors, and the role after
    each answer. *)
Context (ok_call : R -> fds -> forall c : call, (resp c -> R) -> Prop).

Fixpoint wp {A} (ro : R) (T : fds) (p : prog A) (Q : A -> R -> fds -> Prop) : Prop :=
  match p with
  | Ret a => Q a ro T
  | Call c k => exists F, ok_call ro T c F /\
      forall r T', answers T c r T' -> wp (F r) T' (k r) Q
  | _ => True
  end.

Lemma wp_mono {A} ro T (p : prog A) (Q Q' : A -> R -> fds -> Prop) :
  (forall a ro' T', Q a ro' T' -> Q' a ro' T') -> wp ro T p Q -> wp ro T p Q'.
Proof.
  intros HQ. revert ro T. induction p as [a|c k IH| | | |]; intros ro T Hp; cbn in *; auto.
  destruct Hp as (F & Hok & Hk). eauto.
Qed.

Lemma wp_bind {A B} ro T (p : prog A) (f : A -> prog B) Q :
  wp ro T p (λ a ro' T', wp ro' T' (f a) Q) -> wp ro T (p ≫= f) Q.
Proof.
  revert ro T. induction p as [a|c k IH| | | |]; intros ro T Hp; try done.
  cbn in *. destruct Hp as (F & Hok & Hk). exists F. split; [done|]. intros r T' Hl. by apply IH, Hk.
Qed.

Lemma wp_seq {A B} ro T (p : prog A) (f : A -> prog B) P Q :
  wp ro T p P -> (forall a ro' T', P a ro' T' -> wp ro' T' (f a) Q) -> wp ro T (p ≫= f) Q.
Proof. intros Hp Hf. apply wp_bind. by eapply wp_mono. Qed.

Lemma wp_call {A} ro T c F (f : resp c -> prog A) Q :
  ok_call ro T c F ->
  (forall r T', answers T c r T' -> wp (F r) T' (f r) Q) ->
  wp ro T (do_call c ≫= f) Q.
Proof. intros Hok Hf. exists F. split; [done|]. intros r T' Hl. by apply Hf. Qed.

(** A program whose calls leave the role and some descriptors alone. *)
Lemma wp_idle {A} (K T : fds) ro (p : prog A) :
  (forall T c r T', answers T c r T' -> keeps K c -> K ⊆ T -> K ⊆ T') ->
  all_calls (λ c, (forall T, ok_call ro T c (λ _, ro)) /\ keeps K c) p -> K ⊆ T ->
  wp ro T p (λ _ ro' T', ro' = ro /\ K ⊆ T').
Proof.
  intros Hans. revert T. induction p as [a|c k IH| | | |]; intros T Hp HK; cbn in *; auto.
  destruct Hp as [[Hc Hkeep] Hk]. exists (λ _, ro). split; [done|]. intros r T' Hl.
  apply IH; [done|]. by eapply Hans.
Qed.

End Wp.

(** ** Roles *)

(** The temporary file of an update. *)
Inductive tmp_state : Type := TNone | TOpen (tmp : string) | TText (tmp text : string).

(** What the owner knows: the phase of the container ([None] when it has given
    up), the temporary file, whether the FIFO was made, whether a process waits
    for the exit code, and its own process id if it has asked for it. *)
Record owner : Type := OwnerSt {
  o_phase : option phase;
  o_tmp : tmp_state;
  o_fifo : bool;
  o_waited : bool;
  o_self : option Z;
}.
Definition owner_start : owner := OwnerSt (Some PhNone) TNone false false None.
Definition owner_over : owner := OwnerSt None TNone true true None.

Definition set_tmp (o : owner) (t : tmp_state) : owner :=
  OwnerSt (o_phase o) t (o_fifo o) (o_waited o) (o_self o).
Definition set_phase (o : owner) (ph : phase) : owner :=
  OwnerSt (Some ph) (o_tmp o) (o_fifo o) (o_waited o) (o_self o).
Definition set_self (o : owner) (z : option Z) : owner :=
  OwnerSt (o_phase o) (o_tmp o) (o_fifo o) (o_waited o) z.
Definition set_fifo (o : owner) : owner :=
  OwnerSt (o_phase o) (o_tmp o) true (o_waited o) (o_self o).
Definition set_waited (o : owner) : owner :=
  OwnerSt (o_phase o) (o_tmp o) (o_fifo o) true (o_self o).

Definition is_zero (c : ascii) : bool := Ascii.eqb c "000".

(** The first four bytes of some data are not the [int] 0. *)
Definition failure (data : string) : bool := negb (str_all is_zero (substr data 0 4)).

(** One publication of the state, by the process [self]. *)
Inductive pub (Id : string) (Bundles : string -> Prop) (self : option Z) : phase -> State -> phase -> Prop :=
| pb_creating s :
    Status s = Creating -> ContainerId s = Id -> Bundles (BundlePath s) ->
    pub Id Bundles self PhNone s (PhCreating s)
| pb_created s t pid :
    self = Some pid ->
    pub Id Bundles self (PhCreating s) (to_created s t (to_int32 pid)) (PhCreated (to_created s t (to_int32 pid)))
| pb_running s t : pub Id Bundles self (PhWoken s) (to_running s t) (PhRunning (to_running s t))
| pb_stopped s c t : pub Id Bundles self (PhExited s) (to_stopped s c t) (PhStopped (to_stopped s c t)).

(** A state that can be read back, if its names can be written at all. *)
Definition state_ok (s : State) : Prop :=
  text_ok (ContainerId s) = true -> text_ok (BundlePath s) = true -> wf_state s.

Section Roles.
Context `{SJ : Simdjson} (Root Id : string).
(** The bundles of the commands. *)
Context (Bundles : string -> Prop).

Definition container_dir : string := path_append Root Id.
Local Abbreviation CR := container_dir.
Local Abbreviation SF := (state_file Root Id).
Local Abbreviation FF := (exec_fifo Root Id).

Inductive role : Type :=
| Outsider
| Loaded (r : sj_result element)     (* has read the state file *)
| Starter                            (* a start command *)
| Visitor                            (* a kill or state command *)
| Owner (o : owner)
| Waiter (n : nat).                  (* waits for the exit code in pipe [n] *)

(** The roles of commands that never become the owner, nor wait for it. *)
Definition guest (ro : role) : bool :=
  match ro with Loaded _ | Starter | Visitor => true | _ => false end.

(** Calls that any role may make: they do not change the container's files, or
    what is in a pipe or FIFO. *)
Definition harmless (c : call) : Prop :=
  (forall q, home CR q = true -> touches CR c q = false) /\
  match c with
  | Px Fork | Px (Write _ _) | Px (Read _ _) | Px (Kill _ _) | Wm (VmExecute _)
  | Fs (FsRemoveAll _) => False
  | Px (Open _ flags) => opens_write flags = false
  | _ => True
  end.

(** How the role is divided between the two processes after a [fork]: the
    parent's and the child's. *)
Inductive rfork (T : fds) : role -> role -> role -> Prop :=
| rf_outsider : rfork T Outsider Outsider Outsider
| rf_parent o : rfork T (Owner o) (Owner o) Outsider
| rf_child o : rfork T (Owner o) Outsider (Owner (set_self o None))
| rf_waiter o fd n :
    o_waited o = false -> T !! fd = Some (PipeRd n) ->
    rfork T (Owner o) (Waiter n) (Owner (set_self (set_waited o) None)).

Inductive rok : role -> fds -> forall c : call, (resp c -> role) -> Prop :=
| rk_harmless ro T c : harmless c -> rok ro T c (λ _, ro)
| rk_fork ro rp rc T :
    rfork T ro rp rc ->
    rok ro T (Px Fork) (λ r, if ret r <? 0 then ro else if ret r =? 0 then rc else rp)
| rk_mkdir T :
    (forall fd n, T !! fd <> Some (PipeRd n)) ->
    rok Outsider T (Fs (FsCreateDirectories CR))
      (λ r : bool * errc, if r.1 then Owner owner_start else Outsider)
| rk_load T : rok Visitor T (JsonLoad SF) Loaded
| rk_kill e s T pid sig :
    load_document e default_State = (s, true) -> has_pid (Status s) = true -> Pid s = pid ->
    rok (Loaded (inr e)) T (Px (Kill pid sig)) (λ _, Loaded (inr e))
| rk_tellp o T q :
    temp_name SF q ->
    rok (Owner o) T (Fs (OfstreamAppendTellp q))
      (λ pos : Z, Owner (set_tmp o (if pos =? 0 then TOpen q else TNone)))
| rk_open o T q :
    o_tmp o = TOpen q -> rok (Owner o) T (Fs (OfstreamOpen q)) (λ _, Owner o)
| rk_write_tmp o T q text :
    o_tmp o = TOpen q ->
    rok (Owner o) T (Fs (OfstreamWrite q text)) (λ _, Owner (set_tmp o (TText q text)))
| rk_publish o T q s ph ph' :
    o_tmp o = TText q (State_print s) -> o_phase o = Some ph ->
    state_ok s -> pub Id Bundles (o_self o) ph s ph' ->
    rok (Owner o) T (Fs (FsRename q SF))
      (λ err : Z, if err =? 0 then Owner (set_phase (set_tmp o TNone) ph') else Owner (set_tmp o TNone))
| rk_remove_tmp o T q :
    temp_name SF q -> rok (Owner o) T (Fs (FsRemove q)) (λ _, Owner (set_tmp o TNone))
| rk_mkfifo o T m :
    o_fifo o = false ->
    rok (Owner o) T (Px (Mkfifo FF m)) (λ r, if 0 <=? ret r then Owner (set_fifo o) else Owner o)
| rk_start_open T flags : rok Starter T (Px (Open FF flags)) (λ _, Starter)
| rk_start_unlink T : rok Starter T (Px (Unlink FF)) (λ _, Starter)
| rk_write_zero ro T fd s :
    ro = Outsider \/ ro = Starter -> str_all is_zero s = true ->
    rok ro T (Px (Write fd s)) (λ _, ro)
| rk_write_code o T fd s : rok (Owner o) T (Px (Write fd s)) (λ _, Outsider)
| rk_read_fifo ro T fd p n k :
    T !! fd = Some (FifoRd p n) -> rok ro T (Px (Read fd k)) (λ _, ro)
| rk_wait n T fd :
    T !! fd = Some (PipeRd n) ->
    rok (Waiter n) T (Px (Read fd 4))
      (λ r : sysret * string, if (0 <? ret r.1) && failure r.2 then Owner owner_over else Outsider)
| rk_wake o s T fd n :
    o_phase o = Some (PhCreated s) -> T !! fd = Some (FifoRd FF n) ->
    rok (Owner o) T (Px (Select fd))
      (λ r, if 0 <=? ret r then Owner (set_phase o (PhWoken s)) else Owner o)
| rk_execute o s T f :
    o_phase o = Some (PhRunning s) ->
    rok (Owner o) T (Wm (VmExecute f)) (λ _, Owner (set_phase o (PhExited s)))
| rk_getpid o T : rok (Owner o) T (Px Getpid) (λ r, Owner (set_self o (Some (ret r))))
| rk_remove_all o T :
    rok (Owner o) T (Fs (FsRemoveAll CR)) (λ err : Z, if err =? 0 then Outsider else Owner owner_over).

(** The answers in a container directory in which only FIFOs have the name of
    the FIFO. *)
Definition seen (T : fds) (c : call) (r : resp c) (T' : fds) : Prop :=
  local_answer CR T c r T' /\
  match c as c return resp c -> Prop with
  | Px (Open p flags) => λ r, p = FF -> opens_write flags = false -> 0 <= ret r ->
      exists n, T' !! ret r = Some (FifoRd FF n)
  | _ => λ _, True
  end r.

End Roles.
