(* ===== verification/RolesInv.v ===== *)
(** The invariant of a system whose processes keep to their roles: there is at
    most one owner of the container at any time, whether a process or a message
    in a pipe; the state file holds the state the owner has published last; and
    a FIFO has a writer only when a start command has opened it. *)
From S2P Require Import Prelude Cpp Path Json Prog Logic FileOps Loader Bundle Time State.
From S2P Require Import StateProps SDBus CGroup Container Lifecycle Kernel Roles.

(** ** The life cycle as others see it *)

(** What happens to the state file of a container: [None] is no file. *)
Inductive life_edge (Id : string) : option State -> option State -> Prop :=
| le_creating s :
    Status s = Creating -> ContainerId s = Id -> life_edge Id None (Some s)
| le_created s t pid :
    Status s = Creating -> life_edge Id (Some s) (Some (to_created s t pid))
| le_running s t : Status s = Created -> life_edge Id (Some s) (Some (to_running s t))
| le_stopped s c t : Status s = Running -> life_edge Id (Some s) (Some (to_stopped s c t))
| le_removed s : life_edge Id (Some s) None.

Definition phase_state (ph : phase) : option State :=
  match ph with
  | PhNone => None
  | PhCreating s | PhCreated s | PhWoken s | PhRunning s | PhExited s | PhStopped s => Some s
  end.
Definition phase_ok (ph : phase) : Prop :=
  match ph with
  | PhNone => True
  | PhCreating s => Status s = Creating
  | PhCreated s | PhWoken s => Status s = Created
  | PhRunning s | PhExited s => Status s = Running
  | PhStopped s => Status s = Stopped
  end.
Definition phase_woken (ph : phase) : Prop :=
  match ph with PhWoken _ | PhRunning _ | PhExited _ | PhStopped _ => True | _ => False end.

(** Where the ownership is. *)
Inductive token : Type := TkFree | TkProc (pid : Z) | TkChan (n : nat) | TkLost.

Section Inv.
Context `{SJ : Simdjson} (Root Id : string) (Bundles : string -> Prop).
(** The processes that are start commands, and those that are no create commands. *)
Context (starters guests : Z -> Prop).

Local Abbreviation CR := (container_dir Root Id).
Local Abbreviation SF := (state_file Root Id).
Local Abbreviation FF := (exec_fifo Root Id).
Local Abbreviation wpr := (wp (seen Root Id) (rok Root Id Bundles)).

(** A start command has opened the FIFO for writing. *)
Definition started (t : list label) : Prop :=
  exists pid flags r, starters pid /\ opens_write flags = true /\ 0 <= ret r /\
    LCall pid (existT (P := resp) (Px (Open FF flags)) r) ∈ t.

(** The process named in a state has put a state file in place itself. *)
Definition author (t : list label) (s : State) : Prop :=
  has_pid (Status s) = true -> exists pid tmp, Pid s = to_int32 pid /\
    LCall pid (existT (P := resp) (Fs (FsRename tmp SF)) 0) ∈ t.

Record good (t : list label) (s : State) : Prop := {
  gd_ok : state_ok s;
  gd_len : Z.of_nat (String.length (State_print s)) < 2 ^ 32;
  gd_id : ContainerId s = Id;
  gd_bundle : Bundles (BundlePath s);
  gd_status : Status s <> Unknown;
  gd_author : author t s;
}.

Definition tmp_ok (ts : tmp_state) (f : files) : Prop :=
  match ts with
  | TNone => True
  | TOpen q => temp_name SF q /\ f !! q = Some (Reg EmptyString)
  | TText q text =>
      temp_name SF q /\ f !! q = Some (Reg text) /\ Z.of_nat (String.length text) < 2 ^ 32
  end.

Definition owner_files (o : owner) (f : files) (a : option State) : Prop :=
  tmp_ok (o_tmp o) f /\
  match o_phase o with
  | None => True
  | Some ph => a = phase_state ph /\ phase_ok ph
  end.

Lemma tmp_ok_same ts f f' :
  (forall q, temp_name SF q -> f' !! q = f !! q) -> tmp_ok ts f -> tmp_ok ts f'.
Proof. clear Bundles starters guests. intros Hq. destruct ts; cbn; [done|..]; intros H; rewrite Hq; tauto. Qed.

(** The process is about to make a call other than removing the directory. *)
Definition active (p : prog Z) : Prop :=
  match p with Call (Fs (FsRemoveAll _)) _ => False | Call _ _ => True | _ => False end.

(** *** Channels *)

Definition obj_ok (pipes : gset nat) (chans : gmap nat channel) (o : fd_obj) : Prop :=
  match o with
  | PipeRd n | PipeWr n => n ∈ pipes
  | FifoRd _ n | FifoWr _ n => (n ∉ pipes) /\ is_Some (chans !! n)
  | OtherFd => True
  end.

Record chans_ok (pipes : gset nat) (k : kernel) (ps : gmap Z process) : Prop := {
  co_fds pid p fd o : ps !! pid = Some p -> p_fds p !! fd = Some o -> obj_ok pipes (k_chans k) o;
  co_pipes n : n ∈ pipes -> is_Some (k_chans k !! n);
  co_fifos q n : k_fifos k !! q = Some n -> (n ∉ pipes) /\ is_Some (k_chans k !! n);
}.

(** The channels that the FIFO of the container has or had. *)
Definition fifo_chan (k : kernel) (ps : gmap Z process) (n : nat) : Prop :=
  k_fifos k !! FF = Some n \/
  exists pid p fd, ps !! pid = Some p /\ p_fds p !! fd = Some (FifoRd FF n).

(** *** The invariant *)

Record inv (t : list label) (s : system) (a : option State) (tok : token)
    (roles : gmap Z role) (pipes : gset nat) : Prop := {
  iv_rooted : rooted CR (k_files (s_kernel s));
  iv_view : k_files (s_kernel s) !! SF = (λ s, Reg (State_print s)) <$> a;
  iv_temps q : temp_name SF q ->
    k_files (s_kernel s) !! q = None \/ exists u, k_files (s_kernel s) !! q = Some (Reg u);
  iv_free : k_files (s_kernel s) !! CR = None <-> tok = TkFree;
  iv_good st : a = Some st -> good t st;
  iv_wp pid p : s_procs s !! pid = Some p ->
    exists ro, roles !! pid = Some ro /\ wpr ro (p_fds p) (p_prog p) (λ _ _ _, True);
  iv_dom pid : s_procs s !! pid = None -> roles !! pid = None;
  iv_owner pid o : roles !! pid = Some (Owner o) -> tok = TkProc pid;
  iv_files pid o p : roles !! pid = Some (Owner o) -> s_procs s !! pid = Some p ->
    active (p_prog p) -> owner_files o (k_files (s_kernel s)) a;
  iv_self pid o z : roles !! pid = Some (Owner o) -> o_self o = Some z -> z = pid;
  iv_woken pid o ph : roles !! pid = Some (Owner o) -> o_phase o = Some ph -> phase_woken ph ->
    started t;
  iv_unwaited pid o p fd n : roles !! pid = Some (Owner o) -> s_procs s !! pid = Some p ->
    o_waited o = false -> p_fds p !! fd = Some (PipeRd n) ->
    (forall pid', roles !! pid' <> Some (Waiter n)) /\
    (forall ch, k_chans (s_kernel s) !! n = Some ch -> failure (ch_data ch) = false);
  iv_waiter pid n : roles !! pid = Some (Waiter n) -> n ∈ pipes;
  iv_waiter_data pid p fd n ch : roles !! pid = Some (Waiter n) -> s_procs s !! pid = Some p ->
    p_fds p !! fd = Some (PipeRd n) -> k_chans (s_kernel s) !! n = Some ch ->
    failure (ch_data ch) = true -> tok = TkChan n;
  iv_waiter_one pid pid' n :
    roles !! pid = Some (Waiter n) -> roles !! pid' = Some (Waiter n) -> pid' = pid;
  iv_chans : chans_ok pipes (s_kernel s) (s_procs s);
  iv_opened n ch : fifo_chan (s_kernel s) (s_procs s) n -> k_chans (s_kernel s) !! n = Some ch -> ch_opened ch = true ->
    started t;
  iv_starter pid : roles !! pid = Some Starter -> starters pid;
  iv_loaded pid e : roles !! pid = Some (Loaded (inr e)) ->
    exists st, parse (State_print st) = inr e /\ good t st;
  iv_guest pid : guests pid -> exists ro, roles !! pid = Some ro /\ guest ro = true;
}.

(** ** Facts about the invariant *)

Lemma started_mono t l : started t -> started (t ++ [l]).
Proof. clear Bundles guests. intros (pid & fl & r & ? & ? & ? & ?). exists pid, fl, r. set_solver. Qed.

Lemma good_mono t l s : good t s -> good (t ++ [l]) s.
Proof. clear starters guests.
  intros []. split; try done. intros Hp. destruct (gd_author0 Hp) as (pid & tmp & ? & ?).
  exists pid, tmp. set_solver.
Qed.

Lemma home_state_file : home CR SF = true.
Proof. unfold state_file. fold CR. rewrite (path_append_prefix CR) by done. apply under_prefix. Qed.

Lemma home_exec_fifo : home CR FF = true.
Proof. unfold exec_fifo. fold CR. rewrite (path_append_prefix CR) by done. apply under_prefix. Qed.

Lemma home_temp q : temp_name SF q -> home CR q = true.
Proof.
  intros (u & -> & _). unfold state_file. fold CR.
  rewrite (path_append_prefix CR), sapp_assoc by done. apply under_prefix.
Qed.

Lemma home_dir : home CR CR = true.
Proof. apply under_refl. Qed.

Lemma dir_not_temp q : temp_name SF q -> q <> CR.
Proof.
  intros (u & -> & _) Heq. unfold state_file in Heq. fold CR in Heq.
  rewrite (path_append_prefix CR) in Heq by done. unfold dir_prefix in Heq.
  destruct (has_filename CR); rewrite !sapp_assoc in Heq; by apply sapp_ne_self in Heq.
Qed.

Lemma dir_not_state : SF <> CR.
Proof.
  unfold state_file. fold CR. rewrite (path_append_prefix CR) by done. unfold dir_prefix.
  destruct (has_filename CR); rewrite ?sapp_assoc; by apply sapp_ne_self.
Qed.

Lemma dir_not_fifo : CR <> FF.
Proof.
  intros Heq. symmetry in Heq. revert Heq.
  unfold exec_fifo. fold CR. rewrite (path_append_prefix CR) by done. unfold dir_prefix.
  destruct (has_filename CR); rewrite ?sapp_assoc; by apply sapp_ne_self.
Qed.

Lemma temp_not_fifo q : temp_name SF q -> q <> FF.
Proof.
  intros (u & -> & Hu & _) Heq. unfold state_file, exec_fifo in Heq. fold CR in Heq.
  rewrite !(path_append_prefix CR), sapp_assoc in Heq by done. by apply sapp_inj_l in Heq.
Qed.

Lemma state_not_fifo : SF <> FF.
Proof.
  unfold state_file, exec_fifo. fold CR. rewrite !(path_append_prefix CR) by done.
  intros Heq. by apply sapp_inj_l in Heq.
Qed.

(** ** Channels *)

(** What a call of a process with the descriptors [T] does to channel [n]. *)
Inductive chan_change (T : fds) (e : event) (n : nat) : channel -> channel -> Prop :=
| cc_same ch : chan_change T e n ch ch
| cc_write fd u r ch :
    e = existT (P := resp) (Px (Write fd u)) r -> wr_chan (T !! fd) = Some n ->
    chan_change T e n ch (Channel (ch_data ch +:+ u) (ch_opened ch))
| cc_read fd m r u ch :
    e = existT (P := resp) (Px (Read fd m)) r -> rd_chan (T !! fd) = Some n ->
    chan_change T e n ch (Channel u (ch_opened ch))
| cc_open q flags r ch :
    e = existT (P := resp) (Px (Open q flags)) r -> opens_write flags = true -> 0 <= ret r ->
    chan_change T e n ch (Channel (ch_data ch) true).

(** The channels after a call: the old ones, changed as above, and new ones
    that are empty and, unless they are pipes, have no writer. *)
Definition chans_next (T : fds) (e : event) (pipes pipes' : gset nat) (k k' : kernel) : Prop :=
  pipes ⊆ pipes' /\ (forall n, n ∈ pipes' -> n ∉ pipes -> k_chans k !! n = None) /\
  forall n ch', k_chans k' !! n = Some ch' ->
    (exists ch, k_chans k !! n = Some ch /\ chan_change T e n ch ch') \/
    (k_chans k !! n = None /\ ch_data ch' = EmptyString /\ (n ∈ pipes' \/ ch_opened ch' = false)).

Lemma obj_ok_mono pipes pipes' c c' o :
  obj_ok pipes c o -> pipes ⊆ pipes' -> (forall n, n ∈ pipes' -> n ∉ pipes -> c !! n = None) ->
  (forall n, is_Some (c !! n) -> is_Some (c' !! n)) -> obj_ok pipes' c' o.
Proof. clear Bundles starters guests.
  intros Ho Hs Hnew Hdom. destruct o; cbn in *; [by apply Hs|by apply Hs| | |done].
  all: destruct Ho as [Hn Hc]; split; [|auto]; intros Hin;
    destruct Hc as [ch Hc]; rewrite Hnew in Hc; done.
Qed.

(** The general shape of a step on channels. *)
Lemma chans_ok_update pipes pipes' k k' ps pid p prog' T' :
  chans_ok pipes k ps -> ps !! pid = Some p -> pipes ⊆ pipes' ->
  (forall n, n ∈ pipes' -> n ∉ pipes -> k_chans k !! n = None) ->
  (forall n, n ∈ pipes' -> is_Some (k_chans k' !! n)) ->
  (forall n, is_Some (k_chans k !! n) -> is_Some (k_chans k' !! n)) ->
  (forall q n, k_fifos k' !! q = Some n ->
     k_fifos k !! q = Some n \/ ((n ∉ pipes') /\ is_Some (k_chans k' !! n))) ->
  (forall fd o, T' !! fd = Some o -> p_fds p !! fd = Some o \/ obj_ok pipes' (k_chans k') o) ->
  chans_ok pipes' k' (<[pid := Process prog' T']> ps).
Proof. clear Bundles starters guests.
  intros [Hfds Hp Hf] Hpid Hs Hnew Hp' Hdom Hf' HT. split; [|done|].
  - intros pid1 p1 fd o Hp1 Ho. apply lookup_insert_Some in Hp1 as [[<- <-]|[_ Hp1]].
    + destruct (HT fd o Ho) as [Ho1|Ho1]; [|done]. eapply obj_ok_mono; eauto.
    + eapply obj_ok_mono; eauto.
  - intros q n Hq. destruct (Hf' q n Hq) as [Hq1|]; [|done]. destruct (Hf q n Hq1) as [Hn Hc].
    split; [|auto]. intros Hin. destruct Hc as [ch Hc]. by rewrite Hnew in Hc.
Qed.

(** A call that leaves the channels alone; new descriptors are no channels. *)
Lemma chans_call_same pipes k k' ps pid p prog' T' e :
  chans_ok pipes k ps -> ps !! pid = Some p ->
  k_fifos k' = k_fifos k -> k_chans k' = k_chans k ->
  (forall fd o, T' !! fd = Some o -> p_fds p !! fd = Some o \/ obj_ok pipes (k_chans k) o) ->
  exists pipes', chans_ok pipes' k' (<[pid := Process prog' T']> ps) /\
    chans_next (p_fds p) e pipes pipes' k k'.
Proof. clear Bundles starters guests.
  intros Hok Hp Hf Hc HT. exists pipes. split.
  - pose proof Hok as [_ Hpi _].
    eapply chans_ok_update; eauto; rewrite ?Hc, ?Hf; try set_solver; auto.
  - split_and!; [done|set_solver|]. rewrite Hc. intros n ch' Hn. left. exists ch'. split; [done|constructor].
Qed.

(** A call that changes the data of one channel. *)
Lemma chans_call_change pipes k k' ps pid p prog' e n ch ch' :
  chans_ok pipes k ps -> ps !! pid = Some p ->
  k_fifos k' = k_fifos k -> k_chans k !! n = Some ch -> k_chans k' = <[n := ch']> (k_chans k) ->
  chan_change (p_fds p) e n ch ch' ->
  exists pipes', chans_ok pipes' k' (<[pid := Process prog' (p_fds p)]> ps) /\
    chans_next (p_fds p) e pipes pipes' k k'.
Proof. clear Bundles starters guests.
  intros Hok Hp Hf Hn Hc Hch. exists pipes.
  assert (forall m, is_Some (k_chans k !! m) -> is_Some (k_chans k' !! m)) as Hdom.
  { intros m Hm. rewrite Hc. destruct (decide (m = n)) as [->|]; [by rewrite lookup_insert_eq|].
    by rewrite lookup_insert_ne. }
  split.
  - pose proof Hok as [_ Hpi _]. eapply chans_ok_update; eauto; try set_solver; rewrite ?Hf; auto.
  - split_and!; [done|set_solver|]. rewrite Hc. intros m chm Hm. left.
    apply lookup_insert_Some in Hm as [[<- <-]|[_ Hm]]; [by exists ch|].
    exists chm. split; [done|constructor].
Qed.

(** A call that makes a channel. *)
Lemma chans_call_new pipes pipes' k k' ps pid p prog' T' e n op :
  chans_ok pipes k ps -> ps !! pid = Some p -> k_chans k !! n = None ->
  k_chans k' = <[n := Channel EmptyString op]> (k_chans k) ->
  (pipes' = pipes /\ op = false \/ pipes' = {[ n ]} ∪ pipes) ->
  (forall q m, k_fifos k' !! q = Some m -> k_fifos k !! q = Some m \/ (m = n /\ pipes' = pipes)) ->
  (forall fd o, T' !! fd = Some o -> p_fds p !! fd = Some o \/ obj_ok pipes' (k_chans k') o) ->
  chans_ok pipes' k' (<[pid := Process prog' T']> ps) /\ chans_next (p_fds p) e pipes pipes' k k'.
Proof. clear Bundles starters guests.
  intros Hok Hp Hn Hc Hpipes Hf HT. pose proof Hok as [_ Hpi _].
  assert (n ∉ pipes) as Hnp by (intros Hin; destruct (Hpi n Hin); congruence).
  assert (forall m, is_Some (k_chans k !! m) -> is_Some (k_chans k' !! m)) as Hdom.
  { intros m Hm. rewrite Hc. destruct (decide (m = n)) as [->|]; [by rewrite lookup_insert_eq|].
    by rewrite lookup_insert_ne. }
  assert (is_Some (k_chans k' !! n)) by (rewrite Hc, lookup_insert_eq; done).
  split.
  - eapply chans_ok_update; eauto.
    + destruct Hpipes as [[-> _]| ->]; set_solver.
    + destruct Hpipes as [[-> _]| ->]; set_solver.
    + intros m Hm. destruct Hpipes as [[-> _]| ->]; [auto|].
      apply elem_of_union in Hm as [->%elem_of_singleton|]; auto.
    + intros q m Hq. destruct (Hf q m Hq) as [|[-> ->]]; auto.
  - split_and!; [destruct Hpipes as [[-> _]| ->]; set_solver..|].
    rewrite Hc. intros m chm Hm. apply lookup_insert_Some in Hm as [[<- <-]|[_ Hm]].
    + right. split_and!; [done|done|]. destruct Hpipes as [[_ ->]| ->]; [by right|left; set_solver].
    + left. exists chm. split; [done|constructor].
Qed.

(** Opening a file. *)
Lemma chans_call_open pipes k k' ps pid p prog' w q flags (r : sysret) T' :
  chans_ok pipes k ps -> ps !! pid = Some p -> (0 <=? ret r) = true ->
  local_answer CR (p_fds p) (Px (Open q flags)) r T' ->
  chans_answer pid w (p_fds p) k (Px (Open q flags)) r T' k' ->
  exists pipes', chans_ok pipes' k' (<[pid := Process prog' T']> ps) /\
    chans_next (p_fds p) (existT (P := resp) (Px (Open q flags)) r) pipes pipes' k k'.
Proof. clear Bundles starters guests.
  intros Hok Hp Hr Hl Hc. cbn in Hl, Hc. rewrite Hr in Hl, Hc. pose proof Hok as [_ Hpi Hfi].
  destruct Hl as (Hnone & o & -> & Ho). rewrite lookup_insert_eq in Hc. apply Z.leb_le in Hr.
  assert (forall fd o', <[ret r:=o]> (p_fds p) !! fd = Some o' ->
    p_fds p !! fd = Some o' \/ o' = o) as HT.
  { intros fd o' [[_ <-]|[_ ?]]%lookup_insert_Some; auto. }
  destruct Ho as [->|[n Ho]].
  + destruct Hc as [[Hf Hch] _]. eapply chans_call_same; eauto.
    intros fd o' [| ->]%HT; [by left|by right].
  + destruct (opens_write flags) eqn:Hfl; subst o.
    * destruct Hc as (Hq & Hf & ch & Hn & Hch). destruct (Hfi _ _ Hq) as [Hnp _].
      exists pipes. split.
      -- eapply chans_ok_update; [done|done|done|set_solver|rewrite Hch..|].
         ++ intros m Hm. destruct (decide (m = n)) as [->|]; [done|]. rewrite lookup_insert_ne; auto.
         ++ intros m Hm. destruct (decide (m = n)) as [->|]; [by rewrite lookup_insert_eq|].
            by rewrite lookup_insert_ne.
         ++ rewrite Hf. auto.
         ++ intros fd o' [| ->]%HT; [by left|right]. cbn. by rewrite Hch, lookup_insert_eq.
      -- split_and!; [done|set_solver|]. rewrite Hch. intros m chm Hm. left.
         apply lookup_insert_Some in Hm as [[<- <-]|[_ Hm]];
           [exists ch; split; [done|by eapply cc_open]|]. exists chm. split; [done|constructor].
    * destruct Hc as (Hq & Hf & Hch). eapply chans_call_same; eauto.
      intros fd o' [| ->]%HT; [by left|right]. cbn. eauto.
Qed.

Lemma chans_ok_call pipes k k' ps pid p prog' w c r T' :
  chans_ok pipes k ps -> ps !! pid = Some p ->
  local_answer CR (p_fds p) c r T' -> chans_answer pid w (p_fds p) k c r T' k' ->
  exists pipes', chans_ok pipes' k' (<[pid := Process prog' T']> ps) /\
    chans_next (p_fds p) (existT (P := resp) c r) pipes pipes' k k'.
Proof. clear Bundles starters guests.
  intros Hok Hp Hl Hc.
  assert (k_fifos k' = k_fifos k -> k_chans k' = k_chans k -> T' = p_fds p ->
    exists pipes', chans_ok pipes' k' (<[pid := Process prog' T']> ps) /\
      chans_next (p_fds p) (existT (P := resp) c r) pipes pipes' k k') as Hsame.
  { intros ?? ->. eapply chans_call_same; eauto. }
  pose proof Hok as [_ Hpi Hfi].
  destruct c as [[]|c|[]|[]|]; cbn in Hl, Hc; try (destruct Hc; apply Hsame; by destruct_and?).
  destruct c; cbn in Hl, Hc; try (destruct Hc; apply Hsame; by destruct_and?).
  - destruct r as [r [a b]]. destruct (0 <=? ret r) eqn:Hr; [|by destruct Hc; apply Hsame].
    destruct Hl as (Hab & Ha & Hb & n & ->), Hc as (n' & Hn' & Hnone & Hf & Hch).
    rewrite lookup_insert_eq in Hn'. injection Hn' as <-.
    exists ({[ n ]} ∪ pipes). apply (chans_call_new pipes _ k _ _ _ _ _ _ _ n true);
      [done..|by right|rewrite Hf; auto|].
    intros fd o [[_ <-]|[_ [[_ <-]|[_ Ho]]%lookup_insert_Some]]%lookup_insert_Some;
      [right; cbn; set_solver..|by left].
  - destruct (0 <=? ret r) eqn:Hr; cbn in Hc; destruct Hc as [Hf Hch];
      eapply chans_call_same; eauto; [|by subst T'; auto].
    destruct Hl as [_ ->]. intros fd o [[_ <-]|[_ Ho]]%lookup_insert_Some; [by right|by left].
  - destruct Hc as [Hf Hch]. eapply chans_call_same; eauto. subst T'.
    intros fd' o [_ Ho]%lookup_delete_Some. by left.
  - destruct (0 <=? ret r) eqn:Hr; [|destruct Hc; by apply Hsame].
    apply (chans_call_open pipes k k' ps pid p prog' w); [done..|cbn; by rewrite Hr|cbn; by rewrite Hr].
  - destruct (0 <=? ret r) eqn:Hr; [|destruct Hc; by apply Hsame]. subst T'.
    destruct Hc as (n & Hn & Hf & Hch). exists pipes. eapply chans_call_new; eauto.
    rewrite Hf. intros q m [[_ <-]|[_ ?]]%lookup_insert_Some; auto.
  - destruct r as [r data]. destruct Hl as [-> _], Hc as [Hf Hc].
    destruct (rd_chan _) as [m|] eqn:Hm; [|by apply Hsame].
    destruct (0 <? ret r); [|destruct Hc; by apply Hsame].
    destruct Hc as (rest & op & _ & _ & Hn & _ & Hch).
    eapply chans_call_change; eauto. by eapply (cc_read _ _ _ _ _ _ _ (Channel _ _)).
  - subst T'. destruct Hc as [Hf Hc]. destruct (wr_chan _) as [m|] eqn:Hm; [|by apply Hsame].
    destruct (0 <=? ret r); [|by apply Hsame]. destruct Hc as (data & op & Hn & Hch).
    eapply chans_call_change; eauto. by eapply (cc_write _ _ _ _ _ _ (Channel _ _)).
Qed.

(** ** Steps of one process *)

(** What the new role of a process must satisfy. *)
Record role_ok (t : list label) (roles : gmap Z role) (pid : Z) (ro ro' : role) (T' : fds)
    (p' : prog Z) (k' : kernel) (a' : option State) (tok' : token) : Prop := {
  ro_wp : wpr ro' T' p' (λ _ _ _, True);
  ro_owner o : ro' = Owner o -> tok' = TkProc pid;
  ro_files o : ro' = Owner o -> active p' -> owner_files o (k_files k') a';
  ro_self o z : ro' = Owner o -> o_self o = Some z -> z = pid;
  ro_woken o ph : ro' = Owner o -> o_phase o = Some ph -> phase_woken ph -> started t;
  ro_unwaited o fd n : ro' = Owner o -> o_waited o = false -> T' !! fd = Some (PipeRd n) ->
    (forall pid', roles !! pid' <> Some (Waiter n)) /\
    (forall ch, k_chans k' !! n = Some ch -> failure (ch_data ch) = false);
  ro_waiter n : ro' = Waiter n -> ro = Waiter n;
  ro_starter : ro' = Starter -> ro = Starter;
  ro_loaded e : ro' = Loaded (inr e) -> exists st, parse (State_print st) = inr e /\ good t st;
  ro_guest : guest ro = true -> guest ro' = true;
}.

Lemma inv_update t s a tok roles pipes pid p ro l k' ro' T' p' a' tok' pipes' :
  inv t s a tok roles pipes ->
  s_procs s !! pid = Some p -> roles !! pid = Some ro ->
  rooted CR (k_files k') ->
  k_files k' !! SF = (λ s, Reg (State_print s)) <$> a' ->
  (forall q, temp_name SF q -> k_files k' !! q = None \/ exists u, k_files k' !! q = Some (Reg u)) ->
  (k_files k' !! CR = None <-> tok' = TkFree) ->
  (forall st, a' = Some st -> good (t ++ [l]) st) ->
  role_ok (t ++ [l]) roles pid ro ro' T' p' k' a' tok' ->
  (forall pid' o, pid' <> pid -> roles !! pid' = Some (Owner o) ->
     tok' = tok /\ a' = a /\
     (forall q, temp_name SF q -> k_files k' !! q = k_files (s_kernel s) !! q) /\
     forall n ch', n ∈ pipes -> (forall pid2, roles !! pid2 <> Some (Waiter n)) ->
       k_chans k' !! n = Some ch' -> failure (ch_data ch') = true ->
       exists ch, k_chans (s_kernel s) !! n = Some ch /\ failure (ch_data ch) = true) ->
  chans_ok pipes' k' (<[pid := Process p' T']> (s_procs s)) -> pipes ⊆ pipes' ->
  (forall pid' p1 fd n ch, <[pid := ro']> roles !! pid' = Some (Waiter n) ->
     <[pid := Process p' T']> (s_procs s) !! pid' = Some p1 -> p_fds p1 !! fd = Some (PipeRd n) ->
     k_chans k' !! n = Some ch -> failure (ch_data ch) = true -> tok' = TkChan n) ->
  (forall n ch, fifo_chan k' (<[pid := Process p' T']> (s_procs s)) n ->
     k_chans k' !! n = Some ch -> ch_opened ch = true -> started (t ++ [l])) ->
  inv (t ++ [l]) (System k' (<[pid := Process p' T']> (s_procs s))) a' tok' (<[pid := ro']> roles) pipes'.
Proof.
  intros Hinv Hp Hro Hroot Hview Htmp Hfree Hgood [Hwp Ho1 Ho2 Ho3 Ho4 Ho5 Hw Hst Hld Hg] Hother Hch Hpipes
    Hwd Hop.
  destruct Hinv as [I1 I2 I3 I4 I5 I6 I7 I8 I9 I10 I11 I12 I13 I14 I15 I16 I17 I18 I19 I20].
  assert (forall pid' n, <[pid := ro']> roles !! pid' = Some (Waiter n) ->
    roles !! pid' = Some (Waiter n)) as Hwold.
  { intros pid' n [[<- ->]|[_ ?]]%lookup_insert_Some; [|done]. by rewrite Hro, (Hw n). }
  split; cbn [s_kernel s_procs]; try done.
  - intros pid' p1 [[<- <-]|[Hne H]]%lookup_insert_Some.
    + exists ro'. by rewrite lookup_insert_eq.
    + rewrite lookup_insert_ne by done. by apply I6.
  - intros pid' [H Hne]%lookup_insert_None. rewrite lookup_insert_ne by done. by apply I7.
  - intros pid' o [[<- ->]|[Hne H]]%lookup_insert_Some; [by eapply Ho1|].
    destruct (Hother pid' o) as [-> _]; [done|done|]. by eapply I8.
  - intros pid' o p1 [[<- ->]|[Hne H]]%lookup_insert_Some.
    + rewrite lookup_insert_eq. intros [= <-]. cbn. by eapply Ho2.
    + rewrite lookup_insert_ne by done. intros Hp1 Hact. pose proof (I9 _ _ _ H Hp1 Hact) as Hf.
      destruct (Hother pid' o) as (_ & -> & Hq & _); [done|done|]. destruct Hf as [Hf ?].
      split; [|done]. by apply (tmp_ok_same _ (k_files (s_kernel s))).
  - intros pid' o z [[<- ->]|[Hne H]]%lookup_insert_Some; [by eapply Ho3|by eapply I10].
  - intros pid' o ph [[<- ->]|[Hne H]]%lookup_insert_Some; [by eapply Ho4|].
    intros. apply started_mono. by eapply I11.
  - intros pid' o p1 fd n [[<- ->]|[Hne H]]%lookup_insert_Some.
    + rewrite lookup_insert_eq. intros [= <-] Hw1 Hn. destruct (Ho5 o fd n eq_refl Hw1 Hn) as [H1 H2].
      split; [|done]. intros pid' ?%Hwold. by eapply H1.
    + rewrite lookup_insert_ne by done. intros Hp1 Hw1 Hn. destruct (I12 _ _ _ _ _ H Hp1 Hw1 Hn) as [H1 H2].
      split; [intros pid'' ?%Hwold; by eapply H1|]. intros ch' Hch'.
      destruct (Hother pid' o) as (_ & _ & _ & Hd); [done|done|].
      destruct (failure (ch_data ch')) eqn:E; [|done].
      destruct (Hd n ch') as (ch & ? & Hf); [|done|done|done|].
      { destruct I16 as [Hfds _ _]. apply (Hfds _ _ _ _ Hp1 Hn). }
      by rewrite (H2 ch) in Hf.
  - intros pid' n ?%Hwold. apply Hpipes. by eapply I13.
  - intros pid1 pid2 n ?%Hwold ?%Hwold. by eapply I15.
  - intros pid' [[<- Hs]|[Hne H]]%lookup_insert_Some; [|auto]. apply I18. by rewrite Hro, Hst.
  - intros pid' e [[<- ->]|[Hne H]]%lookup_insert_Some; [by apply Hld|].
    destruct (I19 _ _ H) as (st & ? & ?). exists st. eauto using good_mono.
  - intros pid' (ro1 & H1 & H2)%I20. destruct (decide (pid' = pid)) as [->|Hne].
    + exists ro'. rewrite lookup_insert_eq. split; [done|]. apply Hg. congruence.
    + exists ro1. by rewrite lookup_insert_ne.
Qed.

Lemma failure_zeros data u :
  str_all is_zero u = true -> failure (data +:+ u) = true -> failure data = true.
Proof.
  intros Hu. unfold failure. rewrite !negb_true_iff. intros H.
  apply not_true_iff_false. intros Hz. apply not_true_iff_false in H. apply H. clear H.
  revert Hz. generalize 4%nat as m. induction data as [|c data IH]; intros m Hz.
  - rewrite sapp_nil_l. clear -Hu. revert m. induction u as [|c u IH]; intros [|m]; cbn; try done.
    cbn in Hu. apply andb_true_iff in Hu as [-> Hu]. by apply IH.
  - rewrite sapp_cons. destruct m as [|m]; [done|]. cbn in *.
    apply andb_true_iff in Hz as [-> Hz]. by apply IH.
Qed.

(** The result of opening a file. *)
Definition open_ret (e : event) : option sysret :=
  match projT1 e as c return resp c -> option sysret with
  | Px (Open _ _) => λ r, Some r
  | _ => λ _, None
  end (projT2 e).

(** Calls that change no pipe a process waits on, and open no FIFO for writing
    unless a start command does. *)
Definition chan_quiet (t : list label) (pipes : gset nat) (T : fds) (e : event) : Prop :=
  (forall n ch ch', n ∈ pipes -> chan_change T e n ch ch' ->
     failure (ch_data ch') = true -> failure (ch_data ch) = true) /\
  (forall q flags r, e = existT (P := resp) (Px (Open q flags)) r -> opens_write flags = true ->
     0 <= ret r -> started t).

Lemma call_active c (k : resp c -> prog Z) : simple_call c = true -> active (Call c k).
Proof. by destruct c as [[]|[]|[]|[]|]. Qed.

Lemma failure_app data u : failure data = true -> failure (data +:+ u) = true.
Proof.
  unfold failure. rewrite !negb_true_iff. intros H.
  apply not_true_iff_false. intros Hz. apply not_true_iff_false in H. apply H. clear H.
  revert Hz. generalize 4%nat as m. induction data as [|c data IH]; intros m Hz; [by destruct m|].
  rewrite sapp_cons in Hz. destruct m as [|m]; [done|]. cbn in *.
  apply andb_true_iff in Hz as [-> Hz]. by apply IH.
Qed.

Section Step.
Context (t : list label) (s : system) (a : option State) (tok : token) (roles : gmap Z role)
  (pipes : gset nat) (Hinv : inv t s a tok roles pipes).
Context (pid : Z) (c : call) (k : resp c -> prog Z) (T : fds) (r : resp c) (T' : fds) (k' : kernel).
Context (Hp : s_procs s !! pid = Some (Process (Call c k) T)) (Hsimple : simple_call c = true).
Context (Hl : local_answer CR T c r T').
Context (Hf : files_answer CR c (k_files (s_kernel s)) r (k_files k')).
Context (Hc : chans_answer pid (has_writer (s_procs s)) T (s_kernel s) c r T' k').

Local Abbreviation e := (existT (P := resp) c r).
Local Abbreviation l := (LCall pid e).
Local Abbreviation f := (k_files (s_kernel s)).
Local Abbreviation f' := (k_files k').

(** A descriptor for reading a pipe is old, or its pipe is new. *)
Lemma new_pipe fd n :
  T' !! fd = Some (PipeRd n) ->
  T !! fd = Some (PipeRd n) \/
  (k_chans (s_kernel s) !! n = None /\ forall ch, k_chans k' !! n = Some ch -> ch_data ch = EmptyString).
Proof.
  intros HT. destruct c as [[]|c0|[]|[]|]; cbn in Hl, Hc; try (left; destruct_and?; congruence).
  destruct c0; cbn in Hl, Hc; try (left; destruct_and?; congruence).
  - destruct r as [r1 [x y]]. destruct (0 <=? ret r1); [|left; congruence].
    destruct Hl as (Hxy & Hx & Hy & m & ->), Hc as (m' & Hm' & Hnone & _ & Hch).
    rewrite lookup_insert_eq in Hm'. injection Hm' as <-.
    apply lookup_insert_Some in HT as [[_ [= <-]]|[_ [[_ ?]|[_ HT]]%lookup_insert_Some]]; [|done|by left].
    right. split; [done|]. rewrite Hch, lookup_insert_eq. by intros ? [= <-].
  - destruct (0 <=? ret r); [|left; congruence]. destruct Hl as [_ ->].
    apply lookup_insert_Some in HT as [[_ ?]|[_ HT]]; [done|by left].
  - left. rewrite Hl in HT. by apply lookup_delete_Some in HT as [_ ?].
  - destruct (0 <=? ret r); [|left; congruence]. destruct Hl as (_ & o & -> & Ho).
    apply lookup_insert_Some in HT as [[_ ->]|[_ HT]]; [|by left].
    destruct Ho as [?|[m Hm]]; [done|]. by destruct (opens_write flags).
  - left. destruct r as [r1 data]. destruct Hl as [<- _]. done.
Qed.

(** So a process that waits for the exit code has had its descriptor before. *)
Lemma waiter_back pid' p1 fd n :
  n ∈ pipes -> <[pid := Process (k r) T']> (s_procs s) !! pid' = Some p1 -> p_fds p1 !! fd = Some (PipeRd n) ->
  exists p0, s_procs s !! pid' = Some p0 /\ p_fds p0 !! fd = Some (PipeRd n).
Proof.
  intros Hn [[<- <-]|[_ H1]]%lookup_insert_Some Hfd; [|eauto].
  destruct (new_pipe fd n Hfd) as [?|[Hnone _]]; [eauto|].
  destruct (co_pipes _ _ _ (iv_chans _ _ _ _ _ _ Hinv) n Hn). congruence.
Qed.

(** A channel of the FIFO is old or new. *)
Lemma fifo_chan_back n :
  fifo_chan k' (<[pid := Process (k r) T']> (s_procs s)) n ->
  fifo_chan (s_kernel s) (s_procs s) n \/ k_chans (s_kernel s) !! n = None.
Proof.
  intros H.
  assert (k_fifos k' = k_fifos (s_kernel s) ->
    (forall fd, T' !! fd = Some (FifoRd FF n) -> T !! fd = Some (FifoRd FF n) \/ fifo_chan (s_kernel s) (s_procs s) n) ->
    fifo_chan (s_kernel s) (s_procs s) n) as Hsame.
  { intros Hfi HT. destruct H as [H|(pid' & p' & fd & H & Hfd)]; [left; by rewrite <- Hfi|].
    apply lookup_insert_Some in H as [[<- <-]|[_ H]]; [|right; eauto].
    destruct (HT fd Hfd); [|done]. right. by exists pid, (Process (Call c k) T), fd. }
  assert (k_fifos k' = k_fifos (s_kernel s) -> T' = T -> fifo_chan (s_kernel s) (s_procs s) n) as Hsame'.
  { intros Hfi ->. apply Hsame; auto. }
  destruct c as [[]|c0|[]|[]|]; cbn in Hl, Hc; try (left; apply Hsame'; by destruct_and?).
  destruct c0; cbn in Hl, Hc; try (left; apply Hsame'; by destruct_and?).
  - left. destruct r as [r1 [x y]]. destruct (0 <=? ret r1); [|by apply Hsame'; [apply Hc|]].
    destruct Hl as (_ & _ & _ & m & ->), Hc as (_ & _ & _ & Hfi & _). apply Hsame; [done|]. intros fd HT. left.
    by apply lookup_insert_Some in HT as [[_ ?]|[_ [[_ ?]|[_ HT]]%lookup_insert_Some]].
  - left. destruct (0 <=? ret r); [|by apply Hsame'; [apply Hc|]]. destruct Hl as [_ ->].
    apply Hsame; [apply Hc|]. intros fd HT. left. by apply lookup_insert_Some in HT as [[_ ?]|[_ HT]].
  - left. apply Hsame; [apply Hc|]. intros fd' HT. left. rewrite Hl in HT. by apply lookup_delete_Some in HT as [_ ?].
  - left. destruct (0 <=? ret r); [|by apply Hsame'; [apply Hc|]]. destruct Hl as (_ & o & -> & Ho).
    rewrite lookup_insert_eq in Hc. apply Hsame; [by destruct o; destruct_and?|].
    intros fd HT. apply lookup_insert_Some in HT as [[_ ->]|[_ HT]]; [right|by left]. left.
    destruct Ho as [?|[m Hm]]; [done|]. destruct (opens_write flags); [done|]. injection Hm as <- <-. apply Hc.
  - destruct (0 <=? ret r); [|left; by apply Hsame'; [apply Hc|]]. destruct Hc as (m & Hm & Hfi & _). subst T'.
    destruct H as [H|(pid' & p' & fd & H & Hfd)].
    + rewrite Hfi in H. apply lookup_insert_Some in H as [[_ <-]|[_ H]]; [by right|by left; left].
    + left; right. apply lookup_insert_Some in H as [[<- <-]|[_ H]]; [|eauto].
      by exists pid, (Process (Call (Px (Mkfifo p mode)) k) T), fd.
  - left. destruct r as [r1 data]. by apply Hsame'; [apply Hc|apply Hl].
Qed.

(** It has a writer only when a start command has opened it. *)
Lemma opened_next pipes' :
  chans_ok pipes' k' (<[pid := Process (k r) T']> (s_procs s)) -> chans_next T e pipes pipes' (s_kernel s) k' ->
  (forall q flags r, e = existT (P := resp) (Px (Open q flags)) r -> opens_write flags = true ->
     0 <= ret r -> started (t ++ [l])) ->
  forall n ch, fifo_chan k' (<[pid := Process (k r) T']> (s_procs s)) n ->
    k_chans k' !! n = Some ch -> ch_opened ch = true -> started (t ++ [l]).
Proof.
  intros Hok (_ & _ & Hch) Hopen n ch' Hn Hch' Hop.
  destruct (Hch n ch' Hch') as [(ch & Hch1 & Hcc)|(_ & _ & [Hin|Hfa])]; [| |congruence].
  - destruct (fifo_chan_back n Hn) as [Hold|?]; [|congruence].
    destruct Hcc as [| |?|q flags r' ch He Hfl Hr]; cbn in Hop; try (by eapply Hopen);
      apply started_mono; eapply iv_opened; eauto.
  - exfalso. destruct Hok as [Hfds _ Hfi]. destruct Hn as [Hn|(pid' & p' & fd & Hp' & Hfd)].
    + by destruct (Hfi _ _ Hn).
    + by destruct (Hfds _ _ _ _ Hp' Hfd).
Qed.

(** A step that leaves the channels as they should be, whatever it does to the
    files; the other processes are told that there is no other owner, or that
    nothing has changed for it. *)
Lemma step_files ro ro' a' tok' :
  roles !! pid = Some ro ->
  f' !! SF = (λ s, Reg (State_print s)) <$> a' ->
  (forall q, temp_name SF q -> f' !! q = None \/ exists u, f' !! q = Some (Reg u)) ->
  (f' !! CR = None <-> tok' = TkFree) ->
  (forall st, a' = Some st -> good (t ++ [l]) st) ->
  role_ok (t ++ [l]) roles pid ro ro' T' (k r) k' a' tok' ->
  (forall pid' o, pid' <> pid -> roles !! pid' = Some (Owner o) ->
     tok' = tok /\ a' = a /\ (forall q, temp_name SF q -> f' !! q = f !! q)) ->
  (forall pid' n, roles !! pid' = Some (Waiter n) -> tok = TkChan n -> tok' = TkChan n) ->
  chan_quiet (t ++ [l]) pipes T e ->
  exists pipes', inv (t ++ [l]) (System k' (<[pid := Process (k r) T']> (s_procs s))) a' tok'
    (<[pid := ro']> roles) pipes'.
Proof.
  intros Hro Hview Htmp Hfree Hgood Hrok Hother Hwait [Hq1 Hq2].
  destruct Hf as (_ & _ & Hroot).
  destruct (chans_ok_call _ _ _ _ _ _ (k r) _ _ _ _ (iv_chans _ _ _ _ _ _ Hinv) Hp Hl Hc)
    as (pipes' & Hok & Hsub & Hnew & Hch).
  exists pipes'.
  assert (forall n ch', n ∈ pipes -> k_chans k' !! n = Some ch' -> failure (ch_data ch') = true ->
    exists ch, k_chans (s_kernel s) !! n = Some ch /\ failure (ch_data ch) = true) as Hdata.
  { intros n ch' Hn Hch' Hfail. destruct (Hch n ch' Hch') as [(ch & Hch1 & Hcc)|(_ & Hd & _)].
    - exists ch. split; [done|]. by eapply Hq1.
    - by rewrite Hd in Hfail. }
  eapply inv_update; eauto.
  - intros pid' o ??. destruct (Hother pid' o) as (? & ? & ?); eauto.
  - intros pid' p1 fd n ch' Hw Hp1 Hfd Hch' Hfail.
    assert (roles !! pid' = Some (Waiter n)) as Hw0.
    { apply lookup_insert_Some in Hw as [[<- Hw]|[_ Hw]]; [|done].
      rewrite Hro. f_equal. by eapply ro_waiter. }
    pose proof (iv_waiter _ _ _ _ _ _ Hinv _ _ Hw0) as Hn.
    destruct (Hdata n ch' Hn Hch' Hfail) as (ch & Hch1 & Hfail1).
    destruct (waiter_back _ _ _ _ Hn Hp1 Hfd) as (p0 & Hp0 & Hfd0).
    eapply Hwait; [done|]. by eapply iv_waiter_data.
  - eapply opened_next; [done|by split|]. intros q flags r' He. by eapply Hq2.
Qed.

Lemma unwaited_keep o :
  roles !! pid = Some (Owner o) -> o_waited o = false -> chan_quiet (t ++ [l]) pipes T e ->
  forall fd n, T' !! fd = Some (PipeRd n) ->
    (forall pid', roles !! pid' <> Some (Waiter n)) /\
    (forall ch, k_chans k' !! n = Some ch -> failure (ch_data ch) = false).
Proof.
  intros Ho Hw [Hq _] fd n HT. destruct (new_pipe fd n HT) as [HT0|[Hnone Hdata]].
  - destruct (iv_unwaited _ _ _ _ _ _ Hinv _ _ _ _ _ Ho Hp Hw HT0) as [H1 H2]. split; [done|].
    intros ch' Hch'. destruct (failure (ch_data ch')) eqn:E; [|done].
    destruct (chans_ok_call _ _ _ _ _ _ (k r) _ _ _ _ (iv_chans _ _ _ _ _ _ Hinv) Hp Hl Hc)
      as (pipes' & _ & _ & _ & Hch).
    assert (n ∈ pipes) as Hn by apply (co_fds _ _ _ (iv_chans _ _ _ _ _ _ Hinv) _ _ _ _ Hp HT0).
    destruct (Hch n ch' Hch') as [(ch & Hch1 & Hcc)|(_ & Hd & _)]; [|by rewrite Hd in E].
    by rewrite <- (H2 ch Hch1), (Hq n ch ch' Hn Hcc E).
  - split.
    + intros pid' Hw'. pose proof (iv_waiter _ _ _ _ _ _ Hinv _ _ Hw') as Hn.
      destruct (co_pipes _ _ _ (iv_chans _ _ _ _ _ _ Hinv) n Hn). congruence.
    + intros ch Hch. by rewrite (Hdata ch Hch).
Qed.

(** A role that stays as it is. *)
Lemma role_same ro :
  roles !! pid = Some ro -> (forall q, temp_name SF q -> f' !! q = f !! q) ->
  chan_quiet (t ++ [l]) pipes T e -> wpr ro T' (k r) (λ _ _ _, True) ->
  role_ok (t ++ [l]) roles pid ro ro T' (k r) k' a tok.
Proof.
  intros Hro Htmp Hq Hwp. split; try done.
  - intros o ->. by eapply iv_owner.
  - intros o -> _. pose proof (iv_files _ _ _ _ _ _ Hinv _ _ _ Hro Hp (call_active _ _ Hsimple)) as Ho.
    destruct Ho as [Ho ?]. split; [|done]. by apply (tmp_ok_same _ f).
  - intros o z ->. by eapply iv_self.
  - intros o ph -> ??. apply started_mono. by eapply iv_woken.
  - intros o fd n -> Hw. by eapply unwaited_keep.
  - intros err ->. destruct (iv_loaded _ _ _ _ _ _ Hinv _ _ Hro) as (st & ? & ?).
    exists st. eauto using good_mono.
Qed.

(** A step that changes nothing of the container but possibly its FIFO. *)
Lemma step_quiet ro ro' :
  roles !! pid = Some ro -> (forall q, home CR q = true -> q <> FF -> f' !! q = f !! q) ->
  role_ok (t ++ [l]) roles pid ro ro' T' (k r) k' a tok -> chan_quiet (t ++ [l]) pipes T e ->
  exists pipes', inv (t ++ [l]) (System k' (<[pid := Process (k r) T']> (s_procs s))) a tok
    (<[pid := ro']> roles) pipes'.
Proof.
  intros Hro Hsame Hrole Hq.
  assert (forall q, temp_name SF q -> f' !! q = f !! q) as Htmp.
  { intros q Hq'. apply Hsame; [by apply home_temp|by apply temp_not_fifo]. }
  pose proof Hinv as [I1 I2 I3 I4 I5 _ _ _ _ _ _ _ _ _ _ _ _ _ _ _].
  eapply step_files; eauto.
  - rewrite Hsame; [done|apply home_state_file|apply state_not_fifo].
  - intros q Hq'. rewrite Htmp by done. auto.
  - rewrite Hsame; [done|apply home_dir|apply dir_not_fifo].
  - intros st Hst. apply good_mono. auto.
Qed.

End Step.

(** ** The calls of each role *)

(** A process makes a call in a state that satisfies the invariant. *)
Record call_at (t : list label) (s : system) (a : option State) (tok : token)
    (roles : gmap Z role) (pipes : gset nat) (pid : Z) (c : call) (k : resp c -> prog Z) (T : fds)
    (r : resp c) (T' : fds) (k' : kernel) : Prop := {
  ca_inv : inv t s a tok roles pipes;
  ca_proc : s_procs s !! pid = Some (Process (Call c k) T);
  ca_simple : simple_call c = true;
  ca_local : local_answer CR T c r T';
  ca_files : files_answer CR c (k_files (s_kernel s)) r (k_files k');
  ca_chans : chans_answer pid (has_writer (s_procs s)) T (s_kernel s) c r T' k';
}.

(** The invariant holds after the step, and the state file has taken at most
    one step of its life cycle. *)
Definition stepped (t : list label) (l : label) (s' : system) (a : option State) : Prop :=
  exists a' tok' roles' pipes', inv (t ++ [l]) s' a' tok' roles' pipes' /\
    (a' = a \/ life_edge Id a a').

Section Calls.
Context (t : list label) (s : system) (a : option State) (tok : token) (roles : gmap Z role)
  (pipes : gset nat) (pid : Z) (T T' : fds) (k' : kernel).

Local Abbreviation at_call c k r := (call_at t s a tok roles pipes pid c k T r T' k').
Local Abbreviation after c k r :=
  (stepped t (LCall pid (existT (P := resp) c r)) (System k' (<[pid := Process (k r) T']> (s_procs s))) a).
Local Abbreviation f := (k_files (s_kernel s)).
Local Abbreviation f' := (k_files k').

(** A step after which the container is as before, and the role may be new. *)
Lemma after_quiet c k r ro ro' :
  at_call c k r -> roles !! pid = Some ro ->
  (forall q, home CR q = true -> q <> FF -> f' !! q = f !! q) ->
  role_ok (t ++ [LCall pid (existT (P := resp) c r)]) roles pid ro ro' T' (k r) k' a tok ->
  chan_quiet (t ++ [LCall pid (existT (P := resp) c r)]) pipes T (existT (P := resp) c r) ->
  after c k r.
Proof.
  intros [Hinv Hp Hs Hl Hf Hc] Hro Hsame Hrole Hq.
  edestruct (step_quiet t s a tok roles pipes Hinv pid c k T r T' k') as [pipes' H]; eauto.
  exists a, tok, (<[pid := ro']> roles), pipes'. auto.
Qed.

(** The same with the same role. *)
Lemma after_same c k r ro :
  at_call c k r -> roles !! pid = Some ro -> wpr ro T' (k r) (λ _ _ _, True) ->
  (forall q, home CR q = true -> q <> FF -> f' !! q = f !! q) ->
  chan_quiet (t ++ [LCall pid (existT (P := resp) c r)]) pipes T (existT (P := resp) c r) ->
  after c k r.
Proof.
  intros Hat Hro Hwp Hsame Hq. pose proof Hat as [Hinv Hp Hs Hl Hf Hc].
  eapply after_quiet; eauto. eapply role_same; eauto.
  intros q Hq'. apply Hsame; [by apply home_temp|by apply temp_not_fifo].
Qed.

(** A call that touches no file of the container. *)
Lemma untouched c k r :
  at_call c k r -> (forall q, home CR q = true -> touches CR c q = false) ->
  forall q, home CR q = true -> f' !! q = f !! q.
Proof. intros [_ _ _ _ (_ & Hframe & _) _] Ht q Hq. by apply Hframe, Ht. Qed.

(** Calls other than the ones on channels. *)
Definition chan_call (c : call) : bool :=
  match c with Px (Write _ _) | Px (Read _ _) => true | Px (Open _ fl) => opens_write fl | _ => false end.

Lemma no_chan_quiet t1 c (r : resp c) : chan_call c = false -> chan_quiet t1 pipes T (existT (P := resp) c r).
Proof.
  intros Hc. split.
  - intros n ch ch' _ Hcc. destruct Hcc as [|? ? ? ? He|? ? ? ? ? He|? ? ? ? He]; try done;
      apply (f_equal (@projT1 _ _)) in He; cbn in He; subst c; done.
  - intros q flags r' He Hfl. apply (f_equal (@projT1 _ _)) in He. cbn in He. subst c. cbn in Hc. congruence.
Qed.

Lemma call_harmless c k r ro :
  at_call c k r -> roles !! pid = Some ro -> harmless Root Id c ->
  wpr ro T' (k r) (λ _ _ _, True) -> after c k r.
Proof.
  intros Hat Hro [Ht Hc] Hwp. eapply after_same; eauto.
  - intros q Hq _. by eapply untouched.
  - apply no_chan_quiet. destruct c as [[]|[]|[]|[]|]; done.
Qed.

Lemma call_load k r :
  at_call (JsonLoad SF) k r -> roles !! pid = Some Visitor ->
  wpr (Loaded r) T' (k r) (λ _ _ _, True) -> after (JsonLoad SF) k r.
Proof.
  intros Hat Hro Hwp. pose proof Hat as [Hinv _ _ _ ((Hsame & Hread) & _ & _) _].
  eapply (after_quiet _ _ _ _ (Loaded r)); eauto.
  - intros q _ _. by rewrite Hsame.
  - split; try done. intros e [= ->]. destruct Hread as (text & Hs & He).
    rewrite (iv_view _ _ _ _ _ _ Hinv) in Hs. destruct a as [st|]; [|done]. cbn in Hs.
    injection Hs as <-. exists st. split; [done|]. apply good_mono. by eapply iv_good.
  - by apply no_chan_quiet.
Qed.

Lemma call_mkdir k r :
  at_call (Fs (FsCreateDirectories CR)) k r -> roles !! pid = Some Outsider ->
  (forall fd n, T !! fd <> Some (PipeRd n)) ->
  wpr (if r.1 then Owner owner_start else Outsider) T' (k r) (λ _ _ _, True) ->
  after (Fs (FsCreateDirectories CR)) k r.
Proof.
  intros Hat Hro HT Hwp. pose proof Hat as [Hinv Hp Hs Hl Hf Hc].
  pose proof Hf as (Heff & Hframe & Hroot). destruct r as [created err]. destruct Heff as (_ & _ & Hyes & Hno & _).
  assert (forall q, home CR q = true -> q <> CR -> f' !! q = f !! q) as Hsame.
  { intros q Hq Hne. apply Hframe. cbn. destruct (under q CR) eqn:Hu; [|done].
    destruct Hne. by apply under_antisym. }
  destruct created; cbn in Hwp.
  2:{ eapply after_same; eauto.
      - intros q Hq _. destruct (decide (q = CR)) as [->|]; auto.
      - by apply no_chan_quiet. }
  destruct (Hyes eq_refl) as [Hnone Hdir].
  assert (tok = TkFree) as Htok by (by apply (iv_free _ _ _ _ _ _ Hinv)).
  assert (a = None) as Ha.
  { destruct a as [st|] eqn:Ea; [|done]. pose proof (iv_view _ _ _ _ _ _ Hinv) as Hv.
    pose proof (iv_rooted _ _ _ _ _ _ Hinv SF home_state_file) as Hr.
    rewrite Hv in Hr. rewrite Hr in Hnone by done. done. }
  assert (forall pid' o, roles !! pid' <> Some (Owner o)) as Hnoowner.
  { intros pid' o Ho. pose proof (iv_owner _ _ _ _ _ _ Hinv _ _ Ho). congruence. }
  edestruct (step_files t s a tok roles pipes Hinv pid _ k T (true, err) T' k')
    with (a' := a) (tok' := TkProc pid) (ro' := Owner owner_start) as [pipes' H]; eauto.
  - rewrite Hsame by (apply home_state_file || apply dir_not_state). by eapply iv_view.
  - intros q Hq. rewrite Hsame by (by apply home_temp || by apply dir_not_temp). by eapply iv_temps.
  - rewrite Hdir. done.
  - intros st ->. done.
  - split; try done.
    + intros o [= <-] _. by subst a.
    + by intros o z [= <-].
    + by intros o ph [= <-] [= <-].
    + intros o fd n [= <-] _ Hfd. cbn in Hl. subst T'. by destruct (HT fd n).
  - intros pid' o _ Ho. by destruct (Hnoowner pid' o).
  - intros pid' n _ Ht. congruence.
  - by apply no_chan_quiet.
  - exists a, (TkProc pid), (<[pid := Owner owner_start]> roles), pipes'. auto.
Qed.

(** *** The owner *)

Lemma after_owner c k r o ro' a' :
  at_call c k r -> roles !! pid = Some (Owner o) ->
  f' !! SF = (λ s, Reg (State_print s)) <$> a' ->
  (forall q, temp_name SF q -> f' !! q = None \/ exists u, f' !! q = Some (Reg u)) ->
  f' !! CR = f !! CR ->
  (forall st, a' = Some st -> good (t ++ [LCall pid (existT (P := resp) c r)]) st) ->
  role_ok (t ++ [LCall pid (existT (P := resp) c r)]) roles pid (Owner o) ro' T' (k r) k' a' tok ->
  chan_quiet (t ++ [LCall pid (existT (P := resp) c r)]) pipes T (existT (P := resp) c r) ->
  a' = a \/ life_edge Id a a' ->
  after c k r.
Proof.
  intros [Hinv Hp Hs Hl Hf Hc] Hro Hview Htmp Hdir Hgood Hrole Hq Hedge.
  edestruct (step_files t s a tok roles pipes Hinv pid c k T r T' k')
    with (a' := a') (tok' := tok) (ro' := ro') as [pipes' H]; eauto.
  - rewrite Hdir. by eapply iv_free.
  - intros pid' o' Hne Ho'. pose proof (iv_owner _ _ _ _ _ _ Hinv _ _ Ho').
    pose proof (iv_owner _ _ _ _ _ _ Hinv _ _ Hro). congruence.
  - exists a', tok, (<[pid := ro']> roles), pipes'. auto.
Qed.

(** The parts of a new owner role that only depend on the old one. *)
Lemma role_owner c k r o o' a' :
  at_call c k r -> roles !! pid = Some (Owner o) ->
  chan_quiet (t ++ [LCall pid (existT (P := resp) c r)]) pipes T (existT (P := resp) c r) ->
  wpr (Owner o') T' (k r) (λ _ _ _, True) -> owner_files o' f' a' ->
  (forall z, o_self o' = Some z -> z = pid) -> o_waited o' = o_waited o ->
  (forall ph, o_phase o' = Some ph -> phase_woken ph ->
     started (t ++ [LCall pid (existT (P := resp) c r)])) ->
  role_ok (t ++ [LCall pid (existT (P := resp) c r)]) roles pid (Owner o) (Owner o') T' (k r) k' a' tok.
Proof.
  intros [Hinv Hp Hs Hl Hf Hc] Hro Hq Hwp Hfiles Hself Hw Hwoken. split; try done.
  - intros ? [= <-]. by eapply iv_owner.
  - by intros ? [= <-].
  - intros ? z [= <-]. exact (Hself z).
  - intros ? ph [= <-]. exact (Hwoken ph).
  - intros ? fd n [= <-]. rewrite Hw. intros ??. by eapply unwaited_keep.
Qed.

Lemma owner_woken c k r o ph :
  at_call c k r -> roles !! pid = Some (Owner o) -> o_phase o = Some ph -> phase_woken ph ->
  started (t ++ [LCall pid (existT (P := resp) c r)]).
Proof. intros [Hinv _ _ _ _ _] ???. apply started_mono. by eapply iv_woken. Qed.

(** Changes to a temporary file only. *)
Lemma call_tmp c k r o ts q :
  at_call c k r -> roles !! pid = Some (Owner o) -> chan_call c = false ->
  temp_name SF q -> (forall q', q' <> q -> f' !! q' = f !! q') ->
  (f' !! q = None \/ exists u, f' !! q = Some (Reg u)) ->
  tmp_ok ts f' -> wpr (Owner (set_tmp o ts)) T' (k r) (λ _ _ _, True) -> after c k r.
Proof.
  intros Hat Hro Hch Hq Hsame Hreg Hts Hwp. pose proof Hat as [Hinv Hp Hs Hl Hf Hc].
  assert (SF <> q) as Hsq by (intros <-; by apply temp_name_ne in Hq).
  eapply (after_owner _ _ _ o (Owner (set_tmp o ts)) a); eauto using no_chan_quiet.
  - rewrite Hsame by done. by eapply iv_view.
  - intros q' Hq'. destruct (decide (q' = q)) as [->|]; [done|]. rewrite Hsame by done. by eapply iv_temps.
  - apply Hsame. intros <-. by apply dir_not_temp in Hq.
  - intros st Hst. apply good_mono. by eapply iv_good.
  - eapply role_owner; eauto using no_chan_quiet.
    + pose proof (iv_files _ _ _ _ _ _ Hinv _ _ _ Hro Hp (call_active _ _ Hs)) as Ho.
      destruct Ho as [_ Ho]. split; [done|exact Ho].
    + intros z. exact (iv_self _ _ _ _ _ _ Hinv _ _ z Hro).
    + intros ph. exact (owner_woken _ _ _ _ ph Hat Hro).
Qed.

Lemma owner_now c k r o :
  at_call c k r -> roles !! pid = Some (Owner o) -> owner_files o f a.
Proof.
  intros [Hinv Hp Hs _ _ _] Hro. exact (iv_files _ _ _ _ _ _ Hinv _ _ _ Hro Hp (call_active _ _ Hs)).
Qed.

(** The call only touches the file [q]. *)
Lemma touches_only c k r q :
  at_call c k r -> (forall q', touches CR c q' = String.eqb q q') ->
  forall q', q' <> q -> f' !! q' = f !! q'.
Proof.
  intros [_ _ _ _ (_ & Hframe & _) _] Ht q' Hne. apply Hframe. rewrite Ht.
  apply String.eqb_neq. congruence.
Qed.

Lemma call_tellp q k r o :
  at_call (Fs (OfstreamAppendTellp q)) k r -> roles !! pid = Some (Owner o) -> temp_name SF q ->
  wpr (Owner (set_tmp o (if (r : Z) =? 0 then TOpen q else TNone))) T' (k r) (λ _ _ _, True) ->
  after (Fs (OfstreamAppendTellp q)) k r.
Proof.
  intros Hat Hro Hq Hwp. pose proof Hat as [Hinv _ _ _ (Heff & _ & _) _].
  apply tellp_effect in Heff as (_ & Hself & Hzero).
  pose proof (iv_temps _ _ _ _ _ _ Hinv q Hq) as Hreg.
  eapply call_tmp; eauto.
  - by eapply touches_only.
  - destruct Hself as [-> | ->]; eauto.
  - destruct (Z.eqb_spec r 0) as [->|]; [|done]. split; [done|]. apply Hzero; [done|].
    by destruct Hreg as [-> |[u ->]].
Qed.

Lemma call_open q k r o :
  at_call (Fs (OfstreamOpen q)) k r -> roles !! pid = Some (Owner o) -> o_tmp o = TOpen q ->
  wpr (Owner o) T' (k r) (λ _ _ _, True) -> after (Fs (OfstreamOpen q)) k r.
Proof.
  intros Hat Hro Htmp Hwp. pose proof Hat as [_ _ _ _ ((Hno & Hyes) & _ & _) _].
  destruct (owner_now _ _ _ _ Hat Hro) as [Hts _]. rewrite Htmp in Hts. destruct Hts as [Hq Hempty].
  assert (f' !! q = Some (Reg EmptyString)) as Hnew.
  { destruct (r : bool); [|by rewrite Hno]. rewrite Hempty in Hyes.
    by rewrite (Hyes eq_refl), lookup_insert_eq. }
  eapply (call_tmp _ _ _ _ (TOpen q)); eauto.
  - by eapply touches_only.
  - by split.
  - assert (set_tmp o (TOpen q) = o) as -> by (destruct o; cbn in *; by subst). done.
Qed.

Lemma call_write_tmp q text k r o :
  at_call (Fs (OfstreamWrite q text)) k r -> roles !! pid = Some (Owner o) -> o_tmp o = TOpen q ->
  wpr (Owner (set_tmp o (TText q text))) T' (k r) (λ _ _ _, True) ->
  after (Fs (OfstreamWrite q text)) k r.
Proof.
  intros Hat Hro Htmp Hwp. pose proof Hat as [_ _ _ Hl ((u & _ & Hu & Hw) & _ & _) _].
  destruct Hl as (-> & Hlen & _).
  destruct (owner_now _ _ _ _ Hat Hro) as [Hts _]. rewrite Htmp in Hts. destruct Hts as [Hq Hempty].
  rewrite Hempty, (Hu eq_refl) in Hw.
  assert (f' !! q = Some (Reg text)) as Hnew by (by rewrite Hw, lookup_insert_eq).
  eapply (call_tmp _ _ _ _ (TText q text)); eauto.
  - by eapply touches_only.
  - by split.
Qed.

Lemma call_remove_tmp q k r o :
  at_call (Fs (FsRemove q)) k r -> roles !! pid = Some (Owner o) -> temp_name SF q ->
  wpr (Owner (set_tmp o TNone)) T' (k r) (λ _ _ _, True) -> after (Fs (FsRemove q)) k r.
Proof.
  intros Hat Hro Hq Hwp. pose proof Hat as [Hinv _ _ _ ((Hyes & Hno) & _ & _) _].
  eapply (call_tmp _ _ _ _ TNone); eauto.
  - by eapply touches_only.
  - destruct (Z.eqb_spec r 0) as [->|]; [left; by rewrite Hyes, lookup_delete_eq|].
    rewrite Hno by done. by eapply iv_temps.
  - done.
Qed.

(** What is published is good, and continues the life cycle. *)
Lemma pub_good q st ph ph' o :
  inv t s a tok roles pipes -> roles !! pid = Some (Owner o) -> a = phase_state ph -> phase_ok ph ->
  state_ok st -> Z.of_nat (String.length (State_print st)) < 2 ^ 32 ->
  pub Id Bundles (o_self o) ph st ph' ->
  good (t ++ [LCall pid (existT (P := resp) (Fs (FsRename q SF)) 0)]) st /\
  life_edge Id a (Some st) /\ phase_ok ph' /\ phase_state ph' = Some st.
Proof.
  intros Hinv Hro Ha Hph Hok Hlen Hpub.
  assert (forall s0, a = Some s0 -> good (t ++ [LCall pid (existT (P := resp) (Fs (FsRename q SF)) 0)]) s0)
    as Hgood by (intros s0 Hs0; apply good_mono; by eapply iv_good).
  destruct Hpub as [st Hst Hid Hb|s0 tm pid0 Hself|s0 tm|s0 c tm]; cbn in Ha, Hph.
  - subst a. split_and!; [|by constructor|done|done]. split; try done; [by rewrite Hst|].
    intros Hp. by rewrite Hst in Hp.
  - pose proof (iv_self _ _ _ _ _ _ Hinv _ _ _ Hro Hself) as ->. destruct (Hgood _ Ha).
    split_and!; [|rewrite Ha; by constructor|done|done]. split; try done.
    intros _. exists pid, q. split; [by destruct s0|set_solver].
  - destruct (Hgood _ Ha) as [? ? ? ? ? Hau]. split_and!; [|rewrite Ha; by constructor|done|done].
    split; try done. intros _. unfold author in Hau. rewrite Hph in Hau. destruct (Hau eq_refl) as (pid0 & tmp & ? & ?).
    exists pid0, tmp. by destruct s0.
  - destruct (Hgood _ Ha). split_and!; [|rewrite Ha; by constructor|done|done]. by split.
Qed.

Lemma call_publish q st ph ph' k r o :
  at_call (Fs (FsRename q SF)) k r -> roles !! pid = Some (Owner o) ->
  o_tmp o = TText q (State_print st) -> o_phase o = Some ph -> state_ok st ->
  pub Id Bundles (o_self o) ph st ph' ->
  wpr (if (r : Z) =? 0 then Owner (set_phase (set_tmp o TNone) ph') else Owner (set_tmp o TNone))
    T' (k r) (λ _ _ _, True) ->
  after (Fs (FsRename q SF)) k r.
Proof.
  intros Hat Hro Htmp Hph Hok Hpub Hwp.
  pose proof Hat as [Hinv _ _ _ ((Hyes & _ & Hno) & _ & _) _].
  destruct (owner_now _ _ _ _ Hat Hro) as [Hts Hphase]. rewrite Htmp in Hts. rewrite Hph in Hphase.
  destruct Hts as (Hq & Hq1 & Hlen), Hphase as [Ha Hphok].
  pose proof (temp_name_ne _ _ Hq) as Hne. destruct (Z.eqb_spec r 0) as [->|Hr].
  2:{ specialize (Hno Hr). eapply (call_tmp _ _ _ _ TNone); eauto; rewrite ?Hno; eauto. done. }
  specialize (Hyes eq_refl _ Hq1 Hne).
  destruct (pub_good q st ph ph' o) as (Hgood & Hedge & Hph' & Hst'); try done.
  eapply (after_owner _ _ _ o _ (Some st)); eauto using no_chan_quiet.
  - rewrite Hyes. apply lookup_insert_eq.
  - intros q' Hq'. rewrite Hyes, lookup_insert_ne by (by apply not_eq_sym, temp_name_ne).
    destruct (decide (q' = q)) as [->|]; [left; apply lookup_delete_eq|].
    rewrite lookup_delete_ne by done. by eapply iv_temps.
  - rewrite Hyes, lookup_insert_ne by (apply dir_not_state).
    apply lookup_delete_ne. intros ->. by apply dir_not_temp in Hq.
  - by intros ? [= <-].
  - eapply role_owner; eauto using no_chan_quiet.
    + by split.
    + intros z. exact (iv_self _ _ _ _ _ _ Hinv _ _ z Hro).
    + intros ? [= <-] Hwk. apply (owner_woken _ _ _ _ ph Hat Hro Hph). by destruct Hpub.
Qed.

(** The owner changes what it knows, and nothing else happens. *)
Lemma after_know c k r o o' :
  at_call c k r -> roles !! pid = Some (Owner o) ->
  (forall q, home CR q = true -> q <> FF -> f' !! q = f !! q) -> chan_call c = false ->
  wpr (Owner o') T' (k r) (λ _ _ _, True) ->
  o_tmp o' = o_tmp o -> o_waited o' = o_waited o ->
  match o_phase o' with None => True | Some ph => a = phase_state ph /\ phase_ok ph end ->
  (forall z, o_self o' = Some z -> z = pid) ->
  (forall ph, o_phase o' = Some ph -> phase_woken ph ->
     started (t ++ [LCall pid (existT (P := resp) c r)])) ->
  after c k r.
Proof.
  intros Hat Hro Hsame Hch Hwp Ht Hw Hph Hself Hwoken. pose proof Hat as [Hinv _ _ _ _ _].
  eapply (after_quiet _ _ _ (Owner o) (Owner o')); eauto using no_chan_quiet.
  eapply role_owner; eauto using no_chan_quiet. split; [|done]. rewrite Ht.
  destruct (owner_now _ _ _ _ Hat Hro) as [Hts _].
  apply (tmp_ok_same _ f); [|done]. intros q Hq. apply Hsame; [by apply home_temp|by apply temp_not_fifo].
Qed.

Lemma call_mkfifo m k r o :
  at_call (Px (Mkfifo FF m)) k r -> roles !! pid = Some (Owner o) ->
  wpr (if 0 <=? ret r then Owner (set_fifo o) else Owner o) T' (k r) (λ _ _ _, True) ->
  after (Px (Mkfifo FF m)) k r.
Proof.
  intros Hat Hro Hwp. pose proof Hat as [Hinv _ _ _ _ _].
  destruct (owner_now _ _ _ _ Hat Hro) as [_ Hph].
  assert (exists o', wpr (Owner o') T' (k r) (λ _ _ _, True) /\ o_tmp o' = o_tmp o /\
    o_waited o' = o_waited o /\ o_phase o' = o_phase o /\ o_self o' = o_self o)
    as (o' & Hwp' & Ht & Hw & Hp & Hs) by (destruct (0 <=? ret r); eexists; split; eauto; done).
  eapply after_know; eauto.
  - intros q Hq Hne. eapply touches_only; eauto.
  - by rewrite Hp.
  - intros z. rewrite Hs. exact (iv_self _ _ _ _ _ _ Hinv _ _ z Hro).
  - intros ph. rewrite Hp. exact (owner_woken _ _ _ _ ph Hat Hro).
Qed.

Lemma call_wake fd n st k r o :
  at_call (Px (Select fd)) k r -> roles !! pid = Some (Owner o) ->
  o_phase o = Some (PhCreated st) -> T !! fd = Some (FifoRd FF n) ->
  wpr (if 0 <=? ret r then Owner (set_phase o (PhWoken st)) else Owner o) T' (k r) (λ _ _ _, True) ->
  after (Px (Select fd)) k r.
Proof.
  intros Hat Hro Hph HT Hwp. pose proof Hat as [Hinv Hp _ _ _ [_ Hready]].
  assert (forall q, home CR q = true -> f' !! q = f !! q) as Hsame by (by eapply untouched).
  destruct (0 <=? ret r) eqn:Hr; [|by eapply after_same; eauto using no_chan_quiet].
  destruct (owner_now _ _ _ _ Hat Hro) as [_ Hphase]. rewrite Hph in Hphase.
  eapply after_know; eauto.
  - intros z. exact (iv_self _ _ _ _ _ _ Hinv _ _ z Hro).
  - intros ph [= <-] _. apply started_mono. rewrite HT in Hready. apply Z.leb_le in Hr.
    destruct (Hready n eq_refl Hr) as (ch & Hch & Hop & _).
    apply (iv_opened _ _ _ _ _ _ Hinv n ch); [|done|done]. right. by eexists pid, _, fd.
Qed.

Lemma call_execute fn st k r o :
  at_call (Wm (VmExecute fn)) k r -> roles !! pid = Some (Owner o) ->
  o_phase o = Some (PhRunning st) ->
  wpr (Owner (set_phase o (PhExited st))) T' (k r) (λ _ _ _, True) -> after (Wm (VmExecute fn)) k r.
Proof.
  intros Hat Hro Hph Hwp. pose proof Hat as [Hinv _ _ _ _ _].
  destruct (owner_now _ _ _ _ Hat Hro) as [_ Hphase]. rewrite Hph in Hphase.
  eapply after_know; eauto.
  - intros q Hq _. eapply untouched; eauto. intros q' Hq'. cbn. by rewrite Hq'.
  - intros z. exact (iv_self _ _ _ _ _ _ Hinv _ _ z Hro).
  - intros ph [= <-] _. by apply (owner_woken _ _ _ _ (PhRunning st) Hat Hro).
Qed.

Lemma call_getpid k r o :
  at_call (Px Getpid) k r -> roles !! pid = Some (Owner o) ->
  wpr (Owner (set_self o (Some (ret r)))) T' (k r) (λ _ _ _, True) -> after (Px Getpid) k r.
Proof.
  intros Hat Hro Hwp. pose proof Hat as [Hinv _ _ _ _ [_ Hpid]].
  destruct (owner_now _ _ _ _ Hat Hro) as [_ Hphase].
  eapply after_know; eauto.
  - intros q Hq _. by eapply untouched.
  - cbn. intros z [= <-]. done.
  - intros ph. exact (owner_woken _ _ _ _ ph Hat Hro).
Qed.

(** *** Channels *)

Lemma call_start_open flags k r :
  at_call (Px (Open FF flags)) k r -> roles !! pid = Some Starter ->
  wpr Starter T' (k r) (λ _ _ _, True) -> after (Px (Open FF flags)) k r.
Proof.
  intros Hat Hro Hwp. pose proof Hat as [Hinv _ _ _ _ _]. eapply after_same; eauto.
  - intros q Hq _. by eapply untouched.
  - split.
    + intros n ch ch' _ Hcc. destruct Hcc as [| ? ? ? ? He|? ? ? ? ? He|]; try done;
        by apply (f_equal (@projT1 _ _)) in He.
    + intros q fl r' He Hfl Hr. pose proof (f_equal (@projT1 _ _) He) as [= <- <-].
      pose proof (f_equal open_ret He) as [= <-]. exists pid, flags, r.
      split_and!; [by eapply iv_starter|done|done|set_solver].
Qed.

Lemma call_start_unlink k r :
  at_call (Px (Unlink FF)) k r -> roles !! pid = Some Starter ->
  wpr Starter T' (k r) (λ _ _ _, True) -> after (Px (Unlink FF)) k r.
Proof.
  intros Hat Hro Hwp. eapply after_same; eauto using no_chan_quiet.
  intros q _ Hne. by eapply touches_only.
Qed.

(** The channel behind a descriptor for writing to a pipe. *)
Lemma wr_pipe c k r fd n :
  at_call c k r -> wr_chan (T !! fd) = Some n -> n ∈ pipes -> T !! fd = Some (PipeWr n).
Proof.
  intros [Hinv Hp _ _ _ _] Hfd Hn.
  destruct (T !! fd) as [[]|] eqn:HT; cbn in Hfd; simplify_eq; [done|].
  by destruct (co_fds _ _ _ (iv_chans _ _ _ _ _ _ Hinv) _ _ _ _ Hp HT).
Qed.

Lemma call_write_zero fd u k r ro :
  at_call (Px (Write fd u)) k r -> roles !! pid = Some ro -> str_all is_zero u = true ->
  wpr ro T' (k r) (λ _ _ _, True) -> after (Px (Write fd u)) k r.
Proof.
  intros Hat Hro Hu Hwp. eapply after_same; eauto.
  - intros q Hq _. by eapply untouched.
  - split; [|intros q fl r' He; by apply (f_equal (@projT1 _ _)) in He].
    intros n ch ch' _ Hcc. destruct Hcc as [|fd' u' r' ch He _| ? ? ? ? ? He|? ? ? ? He]; try done;
      pose proof (f_equal (@projT1 _ _) He) as Hc; try done.
    injection Hc as <- <-. cbn. by apply failure_zeros.
Qed.

Lemma call_read_fifo fd m p n k r ro :
  at_call (Px (Read fd m)) k r -> roles !! pid = Some ro -> T !! fd = Some (FifoRd p n) ->
  wpr ro T' (k r) (λ _ _ _, True) -> after (Px (Read fd m)) k r.
Proof.
  intros Hat Hro HT Hwp. pose proof Hat as [Hinv Hp _ _ _ _]. eapply after_same; eauto.
  - intros q Hq _. by eapply untouched.
  - split; [|intros q fl r' He; by apply (f_equal (@projT1 _ _)) in He].
    intros n' ch ch' Hn' Hcc. destruct Hcc as [|? ? ? ? He|fd' m' r' u ch He Hfd|? ? ? ? He]; try done;
      pose proof (f_equal (@projT1 _ _) He) as Hc; try done.
    injection Hc as <- <-. rewrite HT in Hfd. injection Hfd as <-.
    by destruct (co_fds _ _ _ (iv_chans _ _ _ _ _ _ Hinv) _ _ _ _ Hp HT).
Qed.

(** A step on channels that changes no file of the container. *)
Lemma after_chans c k r ro ro' tok' :
  at_call c k r -> roles !! pid = Some ro -> (forall q, home CR q = true -> f' !! q = f !! q) ->
  (tok = TkFree <-> tok' = TkFree) ->
  role_ok (t ++ [LCall pid (existT (P := resp) c r)]) roles pid ro ro' T' (k r) k' a tok' ->
  (forall pid' o, pid' <> pid -> roles !! pid' = Some (Owner o) -> tok' = tok) ->
  (forall n ch ch', n ∈ pipes -> (forall pid2, roles !! pid2 <> Some (Waiter n)) ->
     chan_change T (existT (P := resp) c r) n ch ch' ->
     failure (ch_data ch') = true -> (failure (ch_data ch) = true \/ tok' <> tok)) ->
  (forall pid' n ch ch', pid' <> pid -> roles !! pid' = Some (Waiter n) ->
     chan_change T (existT (P := resp) c r) n ch ch' ->
     (failure (ch_data ch) = true -> tok = TkChan n) -> failure (ch_data ch') = true -> tok' = TkChan n) ->
  (forall n, ro' <> Waiter n) -> (forall q fl, c <> Px (Open q fl)) ->
  after c k r.
Proof.
  intros [Hinv Hp Hs Hl Hf Hc] Hro Hsame Hfree Hrole Hown Hdata Hwait Hnw Hno.
  pose proof Hf as (_ & _ & Hroot).
  destruct (chans_ok_call _ _ _ _ _ _ (k r) _ _ _ _ (iv_chans _ _ _ _ _ _ Hinv) Hp Hl Hc)
    as (pipes' & Hok & Hsub & Hnew & Hch).
  exists a, tok', (<[pid := ro']> roles), pipes'. split; [|by left].
  eapply inv_update; eauto.
  - rewrite Hsame by apply home_state_file. by eapply iv_view.
  - intros q Hq. rewrite Hsame by (by apply home_temp). by eapply iv_temps.
  - rewrite Hsame by apply home_dir. rewrite (iv_free _ _ _ _ _ _ Hinv). tauto.
  - intros st Hst. apply good_mono. by eapply iv_good.
  - intros pid' o Hne Ho. pose proof (Hown pid' o Hne Ho) as Htok. split_and!; [done|done| |].
    + intros q Hq. apply Hsame. by apply home_temp.
    + intros n ch' Hn Hw Hch' Hfail. destruct (Hch n ch' Hch') as [(ch & Hch1 & Hcc)|(_ & Hd & _)].
      * exists ch. split; [done|]. by destruct (Hdata n ch ch' Hn Hw Hcc Hfail).
      * by rewrite Hd in Hfail.
  - intros pid' p1 fd n ch' [[_ Hw]|[Hne Hw]]%lookup_insert_Some Hp1 Hfd Hch' Hfail; [by destruct (Hnw n)|].
    rewrite lookup_insert_ne in Hp1 by done.
    destruct (Hch n ch' Hch') as [(ch & Hch1 & Hcc)|(_ & Hd & _)]; [|by rewrite Hd in Hfail].
    eapply Hwait; eauto. intros Hfail1. by eapply iv_waiter_data.
  - apply (opened_next t s a tok roles pipes Hinv pid c k T r T' k' Hp Hs Hl Hf Hc pipes' Hok); [by split|].
    intros q flags r' He. apply (f_equal (@projT1 _ _)) in He.
    by destruct (Hno q flags).
Qed.

Lemma call_write_code fd u k r o :
  at_call (Px (Write fd u)) k r -> roles !! pid = Some (Owner o) ->
  wpr Outsider T' (k r) (λ _ _ _, True) -> after (Px (Write fd u)) k r.
Proof.
  intros Hat Hro Hwp. pose proof Hat as [Hinv _ _ _ _ _].
  pose proof (iv_owner _ _ _ _ _ _ Hinv _ _ Hro) as Htok.
  set (tok' := match T !! fd with Some (PipeWr n) => TkChan n | _ => TkLost end).
  assert (tok' <> TkFree /\ tok' <> tok) as [Hnf Hnt].
  { rewrite Htok. unfold tok'. destruct (T !! fd) as [[]|]; done. }
  eapply (after_chans _ _ _ (Owner o) Outsider tok'); eauto.
  - by eapply untouched.
  - rewrite Htok. done.
  - by split.
  - intros pid' o' Hne Ho'. pose proof (iv_owner _ _ _ _ _ _ Hinv _ _ Ho'). congruence.
  - intros pid' n ch ch' Hne Hw Hcc Hold Hfail.
    destruct Hcc as [ch|fd' u' r' ch He Hfd| ? ? ? ? ? He|? ? ? ? He];
      [specialize (Hold Hfail); congruence|..];
      pose proof (f_equal (@projT1 _ _) He) as Hc; try done. injection Hc as <- <-.
    pose proof (iv_waiter _ _ _ _ _ _ Hinv _ _ Hw) as Hn.
    unfold tok'. by rewrite (wr_pipe _ _ _ _ _ Hat Hfd Hn).
Qed.

Lemma call_wait fd n k (r : resp (Px (Read fd 4))) :
  at_call (Px (Read fd 4)) k r -> roles !! pid = Some (Waiter n) -> T !! fd = Some (PipeRd n) ->
  wpr (if (0 <? ret r.1) && failure r.2 then Owner owner_over else Outsider) T' (k r) (λ _ _ _, True) ->
  after (Px (Read fd 4)) k r.
Proof.
  intros Hat Hro HT Hwp. pose proof Hat as [Hinv Hp _ _ _ Hc].
  assert (forall q, home CR q = true -> f' !! q = f !! q) as Hsame by (by eapply untouched).
  assert (forall pid' m ch ch', pid' <> pid -> roles !! pid' = Some (Waiter m) ->
    chan_change T (existT (P := resp) (Px (Read fd 4)) r) m ch ch' -> m <> n /\ ch' = ch) as Hother.
  { intros pid' m ch ch' Hne Hw Hcc. assert (m <> n) as Hmn.
    { intros ->. by pose proof (iv_waiter_one _ _ _ _ _ _ Hinv _ _ _ Hro Hw). }
    split; [done|]. destruct Hcc as [|? ? ? ? He|fd' m' r' u ch He Hfd|? ? ? ? He]; [done|..];
      pose proof (f_equal (@projT1 _ _) He) as Hc'; try done.
    injection Hc' as <-. rewrite HT in Hfd. by injection Hfd as <-. }
  destruct r as [r data]. cbn in Hc. rewrite HT in Hc. cbn in Hc, Hwp. destruct Hc as [_ Hc].
  destruct ((0 <? ret r) && failure data) eqn:Hfail.
  - apply andb_true_iff in Hfail as [Hr Hfail]. rewrite Hr in Hc.
    destruct Hc as (rest & op & _ & _ & Hch & _).
    pose proof (iv_waiter_data _ _ _ _ _ _ Hinv _ _ _ _ _ Hro Hp HT Hch (failure_app _ rest Hfail)) as Htok.
    eapply (after_chans _ _ _ (Waiter n) (Owner owner_over) (TkProc pid)); eauto; try by rewrite Htok.
    + split; try done; by intros; simplify_eq.
    + intros pid' o Hne Ho. pose proof (iv_owner _ _ _ _ _ _ Hinv _ _ Ho). congruence.
    + intros ? ? ? ? ? ? ?. right. by rewrite Htok.
    + intros pid' m ch ch' Hne Hw Hcc Hold Hfail'.
      destruct (Hother _ _ _ _ Hne Hw Hcc) as [Hmn ->]. specialize (Hold Hfail'). congruence.
  - eapply (after_chans _ _ _ (Waiter n) Outsider tok); eauto.
    + by split.
    + intros m ch ch' Hm Hnw Hcc Hf'. left.
      destruct Hcc as [|? ? ? ? He|fd' m' r' u ch He Hfd|? ? ? ? He]; [done|..];
        pose proof (f_equal (@projT1 _ _) He) as Hc'; try done.
      injection Hc' as <-. rewrite HT in Hfd. injection Hfd as <-. by destruct (Hnw pid).
    + intros pid' m ch ch' Hne Hw Hcc Hold Hfail'.
      destruct (Hother _ _ _ _ Hne Hw Hcc) as [Hmn ->]. auto.
Qed.

End Calls.

(** Every call that a role may make keeps the invariant. *)
Lemma call_step t s a tok roles pipes pid c k T r T' k' ro F :
  call_at t s a tok roles pipes pid c k T r T' k' -> roles !! pid = Some ro ->
  rok Root Id Bundles ro T c F -> wpr (F r) T' (k r) (λ _ _ _, True) ->
  stepped t (LCall pid (existT (P := resp) c r)) (System k' (<[pid := Process (k r) T']> (s_procs s))) a.
Proof.
  intros Hat Hro Hok Hwp. destruct Hok.
  - by eapply call_harmless.
  - by destruct Hat.
  - by eapply call_mkdir.
  - by eapply call_load.
  - pose proof Hat as [_ _ _ _ _ _]. eapply after_same; eauto using no_chan_quiet.
    intros q Hq _. by eapply untouched.
  - by eapply call_tellp.
  - by eapply call_open.
  - by eapply call_write_tmp.
  - by eapply call_publish.
  - by eapply call_remove_tmp.
  - by eapply call_mkfifo.
  - by eapply call_start_open.
  - by eapply call_start_unlink.
  - by eapply call_write_zero.
  - by eapply call_write_code.
  - by eapply call_read_fifo.
  - by eapply call_wait.
  - by eapply call_wake.
  - by eapply call_execute.
  - by eapply call_getpid.
  - by destruct Hat.
Qed.

End Inv.
