(* ===== verification/RolesStep.v ===== *)
(** Every step of a system whose processes keep to their roles keeps the
    invariant of [RolesInv]: besides single calls these are forks, the removal
    of the directory, kills, and steps of other programs. *)
From S2P Require Import Prelude Cpp Path Json Prog Logic FileOps Loader Bundle Time State.
From S2P Require Import StateProps SDBus CGroup Container Lifecycle Kernel Roles RolesInv.

Section Steps.
Context `{SJ : Simdjson} (Root Id : string) (Bundles : string -> Prop) (starters guests : Z -> Prop).

Local Abbreviation CR := (container_dir Root Id).
Local Abbreviation SF := (state_file Root Id).
Local Abbreviation FF := (exec_fifo Root Id).
Local Abbreviation wpr := (wp (seen Root Id) (rok Root Id Bundles)).
Local Abbreviation INV := (inv Root Id Bundles starters guests).
Local Abbreviation STEPPED := (stepped Root Id Bundles starters guests).

(** ** Steps that change no process *)

Lemma inv_label t s a tok roles pipes l :
  INV t s a tok roles pipes -> INV (t ++ [l]) s a tok roles pipes.
Proof.
  intros [I1 I2 I3 I4 I5 I6 I7 I8 I9 I10 I11 I12 I13 I14 I15 I16 I17 I18 I19 I20].
  split; eauto using started_mono, good_mono.
  intros pid e H. destruct (I19 pid e H) as (st & ? & ?). exists st. eauto using good_mono.
Qed.

Lemma others_chans_ok pipes s k' :
  chans_ok pipes (s_kernel s) (s_procs s) -> others_answer CR s k' -> chans_ok pipes k' (s_procs s).
Proof.
  intros [Hfds Hpi Hf] [_ _ Hmade Hch].
  assert (forall n, is_Some (k_chans (s_kernel s) !! n) -> is_Some (k_chans k' !! n)) as Hdom.
  { intros n [ch Hn]. destruct (Hch n ch Hn) as (ch' & ? & _). eauto. }
  split; [|auto|].
  - intros pid p fd o Hp Ho. pose proof (Hfds _ _ _ _ Hp Ho) as H. destruct o; cbn in *; try done; by destruct H; auto.
  - intros q n Hq. destruct (Hmade q n Hq) as [Hold|[Hnone Hsome]]; [by destruct (Hf _ _ Hold); auto|].
    split; [|done]. intros Hin. destruct (Hpi n Hin). congruence.
Qed.

(** Other programs leave the files of the container, its FIFOs and the pipes of the
    processes as they are. *)
Lemma inv_others t s a tok roles pipes k' :
  INV t s a tok roles pipes -> others_answer CR s k' -> INV t (System k' (s_procs s)) a tok roles pipes.
Proof.
  intros [I1 I2 I3 I4 I5 I6 I7 I8 I9 I10 I11 I12 I13 I14 I15 I16 I17 I18 I19 I20] Hoth.
  pose proof Hoth as [Hsame Hfi Hmade Hch].
  assert (forall n ch, is_Some (k_chans (s_kernel s) !! n) -> private CR s n -> k_chans k' !! n = Some ch ->
    k_chans (s_kernel s) !! n = Some ch) as Hpriv.
  { intros n ch [ch0 H0] Hn H1. destruct (Hch n ch0 H0) as (ch' & ? & _ & Heq). rewrite Heq in * by done. congruence. }
  assert (forall pid p fd n, s_procs s !! pid = Some p -> p_fds p !! fd = Some (PipeRd n) ->
    is_Some (k_chans (s_kernel s) !! n) /\ private CR s n) as Hpipe.
  { intros pid p fd n Hp Hfd. destruct I16 as [Hfds Hpi _]. split; [apply Hpi, (Hfds _ _ _ _ Hp Hfd)|].
    left. by exists pid, p, fd, (PipeRd n). }
  split; cbn [s_kernel s_procs]; try done.
  - intros q Hq. rewrite !Hsame by (done || apply home_dir). by apply I1.
  - by rewrite Hsame by apply home_state_file.
  - intros q Hq. rewrite Hsame by (by apply home_temp). auto.
  - by rewrite Hsame by apply home_dir.
  - intros pid o p Ho Hp Hact. destruct (I9 pid o p Ho Hp Hact) as [H1 H2]. split; [|done].
    apply tmp_ok_same with (f := k_files (s_kernel s)); [|done]. intros q Hq. apply Hsame. by apply (home_temp Root Id).
  - intros pid o p fd n Ho Hp Hw Hfd. destruct (I12 _ _ _ _ _ Ho Hp Hw Hfd) as [H1 H2]. split; [done|].
    intros ch H. apply H2. by apply Hpriv; [apply (Hpipe _ _ _ _ Hp Hfd)..|].
  - intros pid p fd n ch Hw Hp Hfd H. eapply I14; [done..|]. by apply Hpriv; [apply (Hpipe _ _ _ _ Hp Hfd)..|].
  - by apply others_chans_ok.
  - intros n ch Hn H Hop. destruct I16 as [Hfds _ Hf]. eapply I17; [|eapply Hpriv; [..|exact H]|done].
    + destruct Hn as [Hn|Hn]; [left|by right]. by rewrite <- Hfi by apply home_exec_fifo.
    + destruct Hn as [Hn|(pid & p & fd & Hp & Hfd)]; [|apply (Hfds _ _ _ _ Hp Hfd)].
      rewrite Hfi in Hn by apply home_exec_fifo. apply (Hf _ _ Hn).
    + destruct Hn as [Hn|(pid & p & fd & Hp & Hfd)].
      * right. exists FF. rewrite <- Hfi by apply home_exec_fifo. split; [apply home_exec_fifo|done].
      * left. exists pid, p, fd, (FifoRd FF n). split_and!; [done|done|done|apply home_exec_fifo].
Qed.

(** A process with the descriptors of another one. *)
Lemma fifo_chan_copy k (ps : gmap Z process) pid p pid' q n :
  ps !! pid = Some p -> fifo_chan Root Id k (<[pid' := Process q (p_fds p)]> ps) n -> fifo_chan Root Id k ps n.
Proof.
  intros Hp [H|(pid1 & p1 & fd & H & Hfd)]; [by left|right].
  apply lookup_insert_Some in H as [[_ <-]|[_ H]]; eauto.
Qed.

Lemma table_back (ps : gmap Z process) pid p pid' p' p1 fd o :
  ps !! pid = Some p -> <[pid := Process p' (p_fds p)]> ps !! pid' = Some p1 -> p_fds p1 !! fd = Some o ->
  exists p0, ps !! pid' = Some p0 /\ p_fds p0 !! fd = Some o.
Proof. intros Hp [[<- <-]|[_ H1]]%lookup_insert_Some Hfd; eauto. Qed.

(** A process ends. *)
Lemma inv_killed t s a tok roles pipes pid p status :
  INV t s a tok roles pipes -> s_procs s !! pid = Some p ->
  INV t (System (s_kernel s) (<[pid := Process (Exit status) (p_fds p)]> (s_procs s))) a tok roles pipes.
Proof.
  intros [I1 I2 I3 I4 I5 I6 I7 I8 I9 I10 I11 I12 I13 I14 I15 I16 I17 I18 I19 I20] Hp.
  split; cbn [s_kernel s_procs]; try done.
  - intros pid' p' [[<- <-]|[_ H]]%lookup_insert_Some; [|auto].
    destruct (I6 pid p Hp) as (ro & Hro & _). by exists ro.
  - intros pid' [H _]%lookup_insert_None. auto.
  - intros pid' o p' Ho [[<- <-]|[_ H]]%lookup_insert_Some; [done|by eapply I9].
  - intros pid' o p' fd n Ho [[<- <-]|[_ H]]%lookup_insert_Some;
      [exact (I12 _ _ _ _ _ Ho Hp)|exact (I12 _ _ _ _ _ Ho H)].
  - intros pid' p' fd n ch Hw [[<- <-]|[_ H]]%lookup_insert_Some;
      [exact (I14 _ _ _ _ _ Hw Hp)|exact (I14 _ _ _ _ _ Hw H)].
  - destruct I16 as [Hfds Hpi Hfi]. split; [|done|done].
    intros pid' p' fd o [[<- <-]|[_ H]]%lookup_insert_Some; [exact (Hfds _ _ _ _ Hp)|by eapply Hfds].
  - intros n ch Hn%(fifo_chan_copy _ _ _ _ _ _ _ Hp). by eapply I17.
Qed.

(** ** Forks *)

(** A new process. *)
Lemma inv_add t s a tok roles pipes pid p child p' ro :
  INV t s a tok roles pipes -> s_procs s !! pid = Some p -> s_procs s !! child = None ->
  role_ok Root Id Bundles starters t roles child Outsider ro (p_fds p) p' (s_kernel s) a tok ->
  INV t (System (s_kernel s) (<[child := Process p' (p_fds p)]> (s_procs s))) a tok
    (<[child := ro]> roles) pipes.
Proof.
  intros [I1 I2 I3 I4 I5 I6 I7 I8 I9 I10 I11 I12 I13 I14 I15 I16 I17 I18 I19 I20] Hp Hc
    [Hwp Ho1 Ho2 Ho3 Ho4 Ho5 Hw Hst Hld Hg].
  assert (forall pid' n, <[child := ro]> roles !! pid' = Some (Waiter n) ->
    roles !! pid' = Some (Waiter n)) as Hwold.
  { intros pid' n [[<- ->]|[_ ?]]%lookup_insert_Some; [|done]. by specialize (Hw n eq_refl). }
  split; cbn [s_kernel s_procs]; try done.
  - intros pid' p1 [[<- <-]|[Hne H]]%lookup_insert_Some.
    + exists ro. by rewrite lookup_insert_eq.
    + rewrite lookup_insert_ne by done. by apply I6.
  - intros pid' [H Hne]%lookup_insert_None. rewrite lookup_insert_ne by done. by apply I7.
  - intros pid' o [[<- ->]|[Hne H]]%lookup_insert_Some; [by eapply Ho1|by eapply I8].
  - intros pid' o p1 [[<- ->]|[Hne H]]%lookup_insert_Some.
    + rewrite lookup_insert_eq. intros [= <-]. cbn. by eapply Ho2.
    + rewrite lookup_insert_ne by done. by eapply I9.
  - intros pid' o z [[<- ->]|[Hne H]]%lookup_insert_Some; [by eapply Ho3|by eapply I10].
  - intros pid' o ph [[<- ->]|[Hne H]]%lookup_insert_Some; [by eapply Ho4|by eapply I11].
  - intros pid' o p1 fd n [[<- ->]|[Hne H]]%lookup_insert_Some.
    + rewrite lookup_insert_eq. intros [= <-] Hw1 Hn. destruct (Ho5 o fd n eq_refl Hw1 Hn) as [H1 H2].
      split; [|done]. intros pid' ?%Hwold. by eapply H1.
    + rewrite lookup_insert_ne by done. intros Hp1 Hw1 Hn. destruct (I12 _ _ _ _ _ H Hp1 Hw1 Hn) as [H1 H2].
      split; [|done]. intros pid'' ?%Hwold. by eapply H1.
  - intros pid' n ?%Hwold. by eapply I13.
  - intros pid' p1 fd n ch H%Hwold [[<- <-]|[_ H1]]%lookup_insert_Some; [|by eapply I14].
    by rewrite (I7 _ Hc) in H.
  - intros pid1 pid2 n ?%Hwold ?%Hwold. by eapply I15.
  - destruct I16 as [Hfds Hpi Hfi]. split; [|done|done].
    intros pid' p1 fd o [[<- <-]|[_ H]]%lookup_insert_Some; [exact (Hfds _ _ _ _ Hp)|by eapply Hfds].
  - intros n ch Hn%(fifo_chan_copy _ _ _ _ _ _ _ Hp). by eapply I17.
  - intros pid' [[<- Hs]|[Hne H]]%lookup_insert_Some; [|auto]. by specialize (Hst Hs).
  - intros pid' e [[<- ->]|[Hne H]]%lookup_insert_Some; [by apply Hld|by eapply I19].
  - intros pid' (ro1 & H1 & H2)%I20. exists ro1. rewrite lookup_insert_ne; [done|]. intros <-. by rewrite I7 in H1.
Qed.

(** A process starts to wait for the exit code. *)
Lemma inv_wait t s a tok roles pipes pid p p' n :
  INV t s a tok roles pipes -> s_procs s !! pid = Some p -> roles !! pid = Some Outsider ->
  wpr (Waiter n) (p_fds p) p' (λ _ _ _, True) -> n ∈ pipes ->
  (forall ch, k_chans (s_kernel s) !! n = Some ch -> failure (ch_data ch) = false) ->
  (forall pid', roles !! pid' <> Some (Waiter n)) ->
  (forall pid' o, roles !! pid' = Some (Owner o) -> o_waited o = true) ->
  INV t (System (s_kernel s) (<[pid := Process p' (p_fds p)]> (s_procs s))) a tok
    (<[pid := Waiter n]> roles) pipes.
Proof.
  intros [I1 I2 I3 I4 I5 I6 I7 I8 I9 I10 I11 I12 I13 I14 I15 I16 I17 I18 I19 I20] Hp Hro Hwp Hn Hd Hno Hw.
  split; cbn [s_kernel s_procs]; try done.
  - intros pid' p1 [[<- <-]|[Hne Hp1]]%lookup_insert_Some.
    + exists (Waiter n). by rewrite lookup_insert_eq.
    + rewrite lookup_insert_ne by done. by apply I6.
  - intros pid' [H Hne]%lookup_insert_None. rewrite lookup_insert_ne by done. by apply I7.
  - intros pid' o [[_ ?]|[_ H]]%lookup_insert_Some; [done|by eapply I8].
  - intros pid' o p1 [[_ ?]|[? H]]%lookup_insert_Some; [done|].
    rewrite lookup_insert_ne by done. by eapply I9.
  - intros pid' o z [[_ ?]|[_ H]]%lookup_insert_Some; [done|by eapply I10].
  - intros pid' o ph [[_ ?]|[_ H]]%lookup_insert_Some; [done|by eapply I11].
  - intros pid' o p1 fd m [[_ ?]|[_ H]]%lookup_insert_Some; [done|]. by rewrite (Hw _ _ H).
  - intros pid' m [[_ [= <-]]|[_ H]]%lookup_insert_Some; [done|by eapply I13].
  - intros pid' p1 fd m ch [[<- [= <-]]|[Hne H]]%lookup_insert_Some Hp1 Hfd Hch; [by rewrite Hd|].
    rewrite lookup_insert_ne in Hp1 by done. by eapply I14.
  - intros pid1 pid2 m [[<- E1]|[_ H1]]%lookup_insert_Some [[<- E2]|[_ H2]]%lookup_insert_Some;
      [done|simplify_eq; by destruct (Hno pid2)|simplify_eq; by destruct (Hno pid1)|by eapply I15].
  - destruct I16 as [Hfds Hpi Hfi]. split; [|done|done].
    intros pid' p1 fd o [[<- <-]|[_ H]]%lookup_insert_Some; [exact (Hfds _ _ _ _ Hp)|by eapply Hfds].
  - intros m ch Hm%(fifo_chan_copy _ _ _ _ _ _ _ Hp). by eapply I17.
  - intros pid' [[_ ?]|[_ H]]%lookup_insert_Some; [done|auto].
  - intros pid' e [[_ ?]|[_ H]]%lookup_insert_Some; [done|by eapply I19].
  - intros pid' (ro1 & H1 & H2)%I20. exists ro1. rewrite lookup_insert_ne; [done|]. intros <-.
    rewrite Hro in H1. by injection H1 as <-.
Qed.

(** Only the process that forks gets on: the first half of a fork. *)
Lemma inv_fork_self t s a tok roles pipes pid k T p' ro ro' tok' l :
  INV t s a tok roles pipes -> s_procs s !! pid = Some (Process (Call (Px Fork) k) T) ->
  roles !! pid = Some ro ->
  (ro' = ro /\ tok' = tok \/ ro' = Outsider /\ (exists o, ro = Owner o) /\ tok' <> TkFree /\
     forall n, tok' <> TkChan n) ->
  wpr ro' T p' (λ _ _ _, True) ->
  INV (t ++ [l]) (System (s_kernel s) (<[pid := Process p' T]> (s_procs s))) a tok'
    (<[pid := ro']> roles) pipes.
Proof.
  intros Hinv Hp Hro Hcase Hwp. pose proof Hinv as [I1 I2 I3 I4 I5 I6 I7 I8 I9 I10 I11 I12 I13 I14 I15 I16 I17 I18 I19 I20].
  assert (chans_ok pipes (s_kernel s) (<[pid := Process p' T]> (s_procs s))) as Hch.
  { destruct I16 as [Hfds Hpi Hfi]. split; [|done|done].
    intros pid' p1 fd o [[<- <-]|[_ H]]%lookup_insert_Some; [exact (Hfds _ _ _ _ Hp)|by eapply Hfds]. }
  assert (tok = TkFree <-> tok' = TkFree) as Htf.
  { destruct Hcase as [[_ ->]|(_ & [o ->] & Hnf & _)]; [done|]. rewrite (I8 _ _ Hro). done. }
  eapply (inv_update Root Id Bundles starters guests t s a tok); eauto.
  - by rewrite I4.
  - intros st Hst. by apply good_mono, I5.
  - destruct Hcase as [[-> ->]|(-> & [o' ->] & _)]; [|by split]. split; try done.
    + intros o ->. by eapply I8.
    + intros o -> _. by apply (I9 _ _ _ Hro Hp).
    + intros o z ->. by eapply I10.
    + intros o ph -> ??. apply started_mono. by eapply I11.
    + intros o fd n ->. by apply (I12 _ _ _ _ _ Hro Hp).
    + intros e ->. destruct (I19 _ _ Hro) as (st & ? & ?). exists st. eauto using good_mono.
  - intros pid' o Hne Ho. destruct Hcase as [[-> ->]|(_ & [o' ->] & _)]; [by eauto 10|].
    pose proof (I8 _ _ Hro). pose proof (I8 _ _ Ho). congruence.
  - intros pid' p1 fd n ch Hw Hp1 Hfd Hn Hfail.
    destruct (table_back _ _ _ _ _ _ _ _ Hp Hp1 Hfd) as (p0 & Hp0 & Hfd0).
    destruct Hcase as [[-> ->]|(-> & [o ->] & _ & Hnc)].
    + rewrite insert_id in Hw by done. by eapply I14.
    + apply lookup_insert_Some in Hw as [[_ ?]|[_ Hw]]; [done|].
      pose proof (I14 _ _ _ _ _ Hw Hp0 Hfd0 Hn Hfail). pose proof (I8 _ _ Hro). congruence.
  - intros n ch Hn ??. apply started_mono. eapply I17; [|done..]. exact (fifo_chan_copy _ _ _ _ _ _ _ Hp Hn).
Qed.

Lemma rok_fork_inv ro T (F : sysret -> role) :
  rok Root Id Bundles ro T (Px Fork) F ->
  exists rp rc, rfork T ro rp rc /\
    forall r, F r = if ret r <? 0 then ro else if ret r =? 0 then rc else rp.
Proof.
  enough (forall c F, rok Root Id Bundles ro T c F ->
    match c as c return (resp c -> role) -> Prop with
    | Px Fork => λ F, exists rp rc, rfork T ro rp rc /\
        forall r, F r = if ret r <? 0 then ro else if ret r =? 0 then rc else rp
    | _ => λ _, True
    end F) as H by exact (H (Px Fork) F).
  intros c F' Hok. destruct Hok as [? ? c [_ Hc]|ro rp rc T Hf| | | | | | | | | | | | | | | | | | |]; try done.
  - by destruct c as [[]|[]|[]|[]|].
  - by exists rp, rc.
Qed.

(** The child becomes the owner. *)
Lemma fork_owner t s a tok roles pipes pid k T o w l roles' child p' :
  INV t s a tok roles pipes -> s_procs s !! pid = Some (Process (Call (Px Fork) k) T) ->
  roles !! pid = Some (Owner o) -> (o_waited w = false -> o_waited o = false) ->
  o_phase w = o_phase o -> o_tmp w = o_tmp o -> o_self w = None ->
  (forall pid' n, roles' !! pid' = Some (Waiter n) -> roles !! pid' = Some (Waiter n)) ->
  wpr (Owner w) T p' (λ _ _ _, True) ->
  role_ok Root Id Bundles starters (t ++ [l]) roles' child Outsider (Owner w) T p' (s_kernel s) a (TkProc child).
Proof.
  intros [I1 I2 I3 I4 I5 I6 I7 I8 I9 I10 I11 I12 I13 I14 I15 I16 I17 I18 I19 I20] Hp Hro Hw Hph Ht Hself Hold Hwp.
  split; try done.
  - intros ? [= <-] _. destruct (I9 _ _ _ Hro Hp I) as [H1 H2]. unfold owner_files. by rewrite Hph, Ht.
  - intros ? z [= <-]. by rewrite Hself.
  - intros ? ph [= <-] Hph' Hwk. apply started_mono. eapply I11; eauto. by rewrite <- Hph.
  - intros ? fd n [= <-] Hwf Hn. destruct (I12 _ _ _ _ _ Hro Hp (Hw Hwf) Hn) as [H1 H2]. split; [|done].
    intros pid' H%Hold. by eapply H1.
Qed.

(** The second half of a fork: the child appears. *)
Lemma inv_add_child t s a tok roles pipes pid child T p p' ro' :
  INV t (System (s_kernel s) (<[pid := Process p T]> (s_procs s))) a tok roles pipes ->
  pid <> child -> s_procs s !! child = None ->
  role_ok Root Id Bundles starters t roles child Outsider ro' T p' (s_kernel s) a tok ->
  INV t (System (s_kernel s) (<[child := Process p' T]> (<[pid := Process p T]> (s_procs s)))) a tok
    (<[child := ro']> roles) pipes.
Proof.
  intros H1 Hne Hchild H2. apply (inv_add _ _ _ _ _ _ pid (Process p T) _ _ ro' H1); [..|done];
    cbn; [apply lookup_insert_eq|by rewrite lookup_insert_ne].
Qed.

(** The parent waits for the report of the child, which is the owner. *)
Lemma fork_waiter t s a tok roles pipes pid child k T o fd n l p p' :
  INV t s a tok roles pipes -> s_procs s !! pid = Some (Process (Call (Px Fork) k) T) ->
  roles !! pid = Some (Owner o) -> o_waited o = false -> T !! fd = Some (PipeRd n) ->
  pid <> child -> s_procs s !! child = None ->
  wpr (Waiter n) T p (λ _ _ _, True) -> wpr (Owner (set_self (set_waited o) None)) T p' (λ _ _ _, True) ->
  INV (t ++ [l]) (System (s_kernel s) (<[child := Process p' T]> (<[pid := Process p T]> (s_procs s)))) a
    (TkProc child) (<[pid := Waiter n]> (<[child := Owner (set_self (set_waited o) None)]>
      (<[pid := Outsider]> roles))) pipes.
Proof.
  intros Hinv Hp Hro Hw HT Hne Hchild Hpar Hchi.
  destruct (iv_unwaited _ _ _ _ _ _ _ _ _ _ _ Hinv _ _ _ _ _ Hro Hp Hw HT) as [Hno Hdata].
  rewrite <- (insert_insert_eq (s_procs s) pid _ (Process (Exit 0) T)), insert_insert_ne by done.
  pose proof (λ roles', inv_wait (t ++ [l]) (System (s_kernel s) (<[child := Process p' T]>
    (<[pid := Process (Exit 0) T]> (s_procs s)))) a (TkProc child) roles' pipes pid
    (Process (Exit 0) T) p n) as Hwait.
  cbn [s_kernel s_procs p_fds] in Hwait. apply Hwait; clear Hwait.
  - apply inv_add_child; [|done|done|].
    + eapply inv_fork_self; eauto; [right; eauto 10|done].
    + eapply fork_owner; eauto; try done. by intros pid' n' [[_ ?]|[_ ?]]%lookup_insert_Some.
  - cbn [s_procs]. rewrite lookup_insert_ne by done. apply lookup_insert_eq.
  - rewrite lookup_insert_ne by done. apply lookup_insert_eq.
  - done.
  - exact (co_fds _ _ _ (iv_chans _ _ _ _ _ _ _ _ _ _ _ Hinv) _ _ _ _ Hp HT).
  - exact Hdata.
  - intros pid' [[_ ?]|[_ [[_ ?]|[_ ?]]%lookup_insert_Some]]%lookup_insert_Some; [done..|]. by eapply Hno.
  - intros pid' o' [[_ ?]|[_ [[_ ?]|[? Ho]]%lookup_insert_Some]]%lookup_insert_Some; [by simplify_eq|done|].
    pose proof (iv_owner _ _ _ _ _ _ _ _ _ _ _ Hinv _ _ Hro).
    pose proof (iv_owner _ _ _ _ _ _ _ _ _ _ _ Hinv _ _ Ho). congruence.
Qed.

Lemma fork_step t s a tok roles pipes pid k T (r : sysret) :
  INV t s a tok roles pipes -> s_procs s !! pid = Some (Process (Call (Px Fork) k) T) ->
  0 < ret r -> s_procs s !! ret r = None ->
  STEPPED t (LCall pid (existT (P := resp) (Px Fork) r))
    (System (s_kernel s)
      (<[ret r := Process (k (SysRet 0 0)) T]> (<[pid := Process (k r) T]> (s_procs s)))) a.
Proof.
  intros Hinv Hp Hr Hchild. set (l := LCall _ _).
  destruct (iv_wp _ _ _ _ _ _ _ _ _ _ _ Hinv _ _ Hp) as (ro & Hro & F & Hok & Hk).
  apply rok_fork_inv in Hok as (rp & rc & Hf & HF).
  assert (wpr rp T (k r) (λ _ _ _, True)) as Hpar.
  { specialize (Hk r T (conj eq_refl I)). rewrite HF in Hk.
    destruct (Z.ltb_spec (ret r) 0), (Z.eqb_spec (ret r) 0); try lia. done. }
  assert (wpr rc T (k (SysRet 0 0)) (λ _ _ _, True)) as Hchi.
  { specialize (Hk (SysRet 0 0) T (conj eq_refl I)). by rewrite HF in Hk. }
  assert (pid <> ret r) as Hne by (intros ->; congruence).
  exists a. cut (exists tok' roles', INV (t ++ [l]) (System (s_kernel s)
      (<[ret r := Process (k (SysRet 0 0)) T]> (<[pid := Process (k r) T]> (s_procs s)))) a tok' roles' pipes).
  { intros (tok' & roles' & H). exists tok', roles', pipes. auto. }
  pose proof (λ tok' roles' ro', inv_add_child (t ++ [l]) s a tok' roles' pipes pid (ret r) T
    (k r) (k (SysRet 0 0)) ro') as Hadd.
  pose proof (λ p' ro' tok', inv_fork_self t s a tok roles pipes pid k T p' ro ro' tok' l Hinv Hp Hro) as Hself.
  destruct Hf as [|o|o|o fd n Hw HT].
  - exists tok, (<[ret r := Outsider]> (<[pid := Outsider]> roles)). apply Hadd; [by apply Hself; auto|done..|].
    by split.
  - exists tok, (<[ret r := Outsider]> (<[pid := Owner o]> roles)). apply Hadd; [by apply Hself; auto|done..|].
    by split.
  - exists (TkProc (ret r)), (<[ret r := Owner (set_self o None)]> (<[pid := Outsider]> roles)).
    apply Hadd; [apply (Hself _ Outsider); [right; eauto 10|done]|done..|].
    eapply fork_owner; eauto; try done. by intros pid' n' [[_ ?]|[_ ?]]%lookup_insert_Some.
  - do 2 eexists. by eapply fork_waiter.
Qed.

Lemma fork_fails_step t s a tok roles pipes pid k T (r : sysret) :
  INV t s a tok roles pipes -> s_procs s !! pid = Some (Process (Call (Px Fork) k) T) -> ret r < 0 ->
  STEPPED t (LCall pid (existT (P := resp) (Px Fork) r))
    (System (s_kernel s) (<[pid := Process (k r) T]> (s_procs s))) a.
Proof.
  intros Hinv Hp Hr. destruct (iv_wp _ _ _ _ _ _ _ _ _ _ _ Hinv _ _ Hp) as (ro & Hro & F & Hok & Hk).
  apply rok_fork_inv in Hok as (rp & rc & Hf & HF).
  exists a, tok, (<[pid := ro]> roles), pipes. split; [|by left].
  eapply inv_fork_self; eauto. specialize (Hk r T (conj eq_refl I)). rewrite HF in Hk.
  destruct (Z.ltb_spec (ret r) 0); [done|lia].
Qed.

(** ** Removing the directory *)

Lemma rok_remove_inv ro T p (F : Z -> role) :
  rok Root Id Bundles ro T (Fs (FsRemoveAll p)) F ->
  p = CR /\ (exists o, ro = Owner o) /\ forall err, F err = if err =? 0 then Outsider else Owner owner_over.
Proof.
  enough (forall c F, rok Root Id Bundles ro T c F ->
    match c as c return (resp c -> role) -> Prop with
    | Fs (FsRemoveAll p) => λ F, p = CR /\ (exists o, ro = Owner o) /\
        forall err, F err = if err =? 0 then Outsider else Owner owner_over
    | _ => λ _, True
    end F) as H by exact (H (Fs (FsRemoveAll p)) F).
  intros c F' Hok. destruct Hok as [? ? c [_ Hc]| | | | | | | | | | | | | | | | | | | |]; try done.
  - by destruct c as [[]|[]|[]|[]|].
  - eauto.
Qed.

Lemma remove_at t s a tok roles pipes pid p k T :
  INV t s a tok roles pipes -> s_procs s !! pid = Some (Process (Call (Fs (FsRemoveAll p)) k) T) ->
  p = CR /\ tok = TkProc pid /\ (exists o, roles !! pid = Some (Owner o)) /\
  forall err, wpr (if err =? 0 then Outsider else Owner owner_over) T (k err) (λ _ _ _, True).
Proof.
  intros Hinv Hp. destruct (iv_wp _ _ _ _ _ _ _ _ _ _ _ Hinv _ _ Hp) as (ro & Hro & F & Hok & Hk).
  apply rok_remove_inv in Hok as (-> & (o & ->) & HF).
  split_and!; [done|by eapply iv_owner|eauto|]. intros err. rewrite <- HF. apply Hk. by split.
Qed.

Lemma remove_entry_step t s a tok roles pipes pid p k T q :
  INV t s a tok roles pipes -> s_procs s !! pid = Some (Process (Call (Fs (FsRemoveAll p)) k) T) ->
  q <> p -> rooted CR (delete q (k_files (s_kernel s))) ->
  STEPPED t LSilent (System (with_files (s_kernel s) (delete q (k_files (s_kernel s)))) (s_procs s)) a.
Proof.
  intros Hinv Hp Hq Hr. destruct (remove_at _ _ _ _ _ _ _ _ _ _ Hinv Hp) as (-> & Htok & (o & Ho) & _).
  exists (if String.eqb q SF then None else a), tok, roles, pipes. split; cycle 1.
  { destruct (String.eqb q SF); [|by left]. destruct a; [right; constructor|by left]. }
  apply (inv_label _ _ _ _ _ _ LSilent) in Hinv.
  destruct Hinv as [I1 I2 I3 I4 I5 I6 I7 I8 I9 I10 I11 I12 I13 I14 I15 I16 I17 I18 I19 I20].
  split; cbn [s_kernel s_procs with_files k_files k_chans]; try done.
  - destruct (String.eqb_spec q SF) as [->|Hne]; [apply lookup_delete_eq|by rewrite lookup_delete_ne].
  - intros q' Hq'. destruct (decide (q = q')) as [->|]; [left; apply lookup_delete_eq|].
    rewrite lookup_delete_ne by done. auto.
  - by rewrite lookup_delete_ne.
  - intros st. destruct (String.eqb q SF); [done|]. auto.
  - intros pid' o' p' Ho' Hp' Hact. pose proof (I8 _ _ Ho'). assert (pid' = pid) as -> by congruence.
    rewrite Hp in Hp'. by injection Hp' as <-.
  - destruct I16. by split.
Qed.

(** The owner ends its removal: with the directory gone, or with an error. *)
Lemma remove_end_step t s a tok roles pipes pid p k T err f' :
  INV t s a tok roles pipes -> s_procs s !! pid = Some (Process (Call (Fs (FsRemoveAll p)) k) T) ->
  (if err =? 0 then
     (forall q, under p q = true -> q <> p -> k_files (s_kernel s) !! q = None) /\
     f' = delete p (k_files (s_kernel s)) /\ rooted CR f'
   else f' = k_files (s_kernel s)) ->
  STEPPED t (LCall pid (existT (P := resp) (Fs (FsRemoveAll p)) err))
    (System (with_files (s_kernel s) f') (<[pid := Process (k err) T]> (s_procs s))) a.
Proof.
  intros Hinv Hp Hf. destruct (remove_at _ _ _ _ _ _ _ _ _ _ Hinv Hp) as (-> & Htok & (o & Ho) & Hk).
  pose proof Hinv as [I1 I2 I3 I4 I5 I6 I7 I8 I9 I10 I11 I12 I13 I14 I15 I16 I17 I18 I19 I20].
  exists a, (if err =? 0 then TkFree else tok), (<[pid := if err =? 0 then Outsider else Owner owner_over]> roles), pipes.
  split; [|by left].
  assert (forall q, q <> CR -> home CR q = true -> f' !! q = k_files (s_kernel s) !! q) as Hsame.
  { intros q Hq Hh. destruct (err =? 0); [|by subst]. destruct Hf as (Hnone & -> & _).
    by rewrite lookup_delete_ne. }
  eapply inv_update; eauto; cbn [with_files k_files k_chans].
  - destruct (err =? 0); [apply Hf|by subst].
  - by rewrite Hsame by (apply dir_not_state || apply home_state_file).
  - intros q Hq. rewrite Hsame by (by apply dir_not_temp || by apply home_temp). auto.
  - destruct (err =? 0); [destruct Hf as (_ & -> & _); by rewrite lookup_delete_eq|by subst].
  - intros st Hst. by apply good_mono, I5.
  - specialize (Hk err). destruct (err =? 0); split; try done.
    all: by intros; simplify_eq.
  - intros pid' o' Hne Ho'. pose proof (I8 _ _ Ho'). congruence.
  - destruct I16 as [Hfds Hpi Hfi]. split; [|done|done].
    intros pid' p1 fd o' [[<- <-]|[_ H]]%lookup_insert_Some; [exact (Hfds _ _ _ _ Hp)|by eapply Hfds].
  - intros pid' p1 fd n ch Hw Hp1 Hfd Hn Hfail. assert (roles !! pid' = Some (Waiter n)) as Hw'.
    { apply lookup_insert_Some in Hw as [[_ ?]|[_ ?]]; [by destruct (err =? 0)|done]. }
    destruct (table_back _ _ _ _ _ _ _ _ Hp Hp1 Hfd) as (p0 & Hp0 & Hfd0).
    pose proof (I14 _ _ _ _ _ Hw' Hp0 Hfd0 Hn Hfail). congruence.
  - intros n ch Hn ??. apply started_mono. eapply I17; [|done..]. exact (fifo_chan_copy _ _ _ _ _ _ _ Hp Hn).
Qed.

(** ** The name of the FIFO *)

(** Only FIFOs have the name of the FIFO. *)
Definition fifo_ok (s : system) : Prop :=
  k_files (s_kernel s) !! FF = None \/ k_files (s_kernel s) !! FF = Some Fifo.

Lemma fifo_seen s pid c k T r T' k' :
  fifo_ok s -> s_procs s !! pid = Some (Process (Call c k) T) -> local_answer CR T c r T' ->
  files_answer CR c (k_files (s_kernel s)) r (k_files k') ->
  chans_answer pid (has_writer (s_procs s)) T (s_kernel s) c r T' k' ->
  seen Root Id T c r T'.
Proof.
  intros Hff Hp Hl (Heff & _ & _) Hc. split; [done|].
  destruct c as [|[]| | |]; try done. intros -> Hfl Hr.
  destruct Heff as [_ Hex]. specialize (Hex Hr). cbn in Hl, Hc. apply Z.leb_le in Hr. rewrite Hr in Hl, Hc.
  destruct Hl as (_ & o & -> & Ho). rewrite lookup_insert_eq in Hc |- *. rewrite Hfl in Ho.
  destruct Ho as [->|[n ->]]; [|by exists n].
  destruct Hc as [_ Hc]. by destruct Hff.
Qed.

(** Calls that have made the FIFO, or removed its name. *)
Definition made_fifo (e : event) : bool :=
  match projT1 e as c return resp c -> bool with
  | Px (Mkfifo p _) => λ r, String.eqb p FF && (0 <=? ret r)
  | _ => λ _, false
  end (projT2 e).
Definition unlinked_fifo (e : event) : bool :=
  match projT1 e as c return resp c -> bool with
  | Px (Unlink p) => λ r, String.eqb p FF && (0 <=? ret r)
  | _ => λ _, false
  end (projT2 e).

(** What the call [e] did to the name of the FIFO. *)
Definition fifo_change (e : event) (x x' : option node) : Prop :=
  (x' = x /\ unlinked_fifo e = false) \/ (x = None /\ x' = Some Fifo /\ made_fifo e = true /\ unlinked_fifo e = false) \/
  (x <> None /\ x' = None /\ unlinked_fifo e = true).

Lemma fifo_call t s a tok roles pipes pid c k T r T' k' ro F :
  call_at Root Id Bundles starters guests t s a tok roles pipes pid c k T r T' k' -> roles !! pid = Some ro ->
  rok Root Id Bundles ro T c F ->
  fifo_change (existT (P := resp) c r) (k_files (s_kernel s) !! FF) (k_files k' !! FF).
Proof.
  intros Hat Hro Hok. pose proof (home_exec_fifo Root Id) as Hhome.
  pose proof Hat as [Hinv _ Hs _ (Heff & Hframe & _) _].
  assert (unlinked_fifo (existT (P := resp) c r) = false -> touches CR c FF = false ->
    fifo_change (existT (P := resp) c r) (k_files (s_kernel s) !! FF) (k_files k' !! FF)) as Hsame.
  { intros Hu Ht. left. by rewrite Hframe. }
  assert (forall q, temp_name SF q -> String.eqb q FF = false) as Htmp.
  { intros q Hq. apply String.eqb_neq. by apply (temp_not_fifo Root Id). }
  assert (forall o, ro = Owner o -> owner_files Root Id o (k_files (s_kernel s)) a) as Hnow.
  { intros o ->. by eapply owner_now. }
  destruct Hok; try (by apply Hsame); try done.
  - destruct H as [Ht _]. apply Hsame; [|by apply Ht]. specialize (Ht FF Hhome).
    destruct c as [|[]| | |]; try done. cbn in Ht |- *. by rewrite Ht.
  - apply Hsame; [done|]. cbn. destruct (under FF CR) eqn:Hu; [|done].
    exfalso. apply (dir_not_fifo Root Id). by apply under_antisym.
  - apply Hsame; [done|]. cbn. by apply Htmp.
  - apply Hsame; [done|]. cbn. destruct (Hnow o eq_refl) as [Ht _]. rewrite H in Ht. by apply Htmp, Ht.
  - apply Hsame; [done|]. cbn. destruct (Hnow o eq_refl) as [Ht _]. rewrite H in Ht. by apply Htmp, Ht.
  - left. split; [|done].
    destruct (Hnow o eq_refl) as [Ht _]. rewrite H in Ht. destruct Ht as (Hq & Hq1 & _), Heff as (Hyes & _ & Hno).
    destruct (Z.eqb_spec r 0) as [->|Hr]; [|by rewrite Hno].
    rewrite (Hyes eq_refl _ Hq1 (temp_name_ne _ _ Hq)), lookup_insert_ne by apply state_not_fifo.
    apply lookup_delete_ne. by apply (temp_not_fifo Root Id).
  - apply Hsame; [done|]. cbn. by apply Htmp.
  - destruct Heff as [Hyes Hno]. unfold fifo_change, made_fifo. cbn.
    rewrite String.eqb_refl. destruct (Z.leb_spec 0 (ret r)) as [Hr|Hr]; [|left; by rewrite Hno].
    destruct (Hyes Hr) as [Hnone ->]. rewrite lookup_insert_eq. by right; left.
  - destruct Heff as [Hyes Hno]. unfold fifo_change, unlinked_fifo. cbn.
    rewrite String.eqb_refl. destruct (Z.leb_spec 0 (ret r)) as [Hr|Hr]; [|left; by rewrite Hno].
    destruct (Hyes Hr) as [Hsome ->]. rewrite lookup_delete_eq. by right; right.
  - apply Hsame; [done|]. unfold touches. by rewrite Hhome.
Qed.

(** ** Every step *)

Lemma sys_step_stepped t s a tok roles pipes l s' :
  INV t s a tok roles pipes -> fifo_ok s -> sys_step CR s l s' -> STEPPED t l s' a /\ fifo_ok s'.
Proof.
  intros Hinv Hff Hstep.
  assert (forall q, fifo_ok (System (with_files (s_kernel s) (delete q (k_files (s_kernel s)))) (s_procs s))) as Hdel.
  { intros q. unfold fifo_ok. cbn. destruct (decide (q = FF)) as [->|]; [left; apply lookup_delete_eq|].
    by rewrite lookup_delete_ne. }
  destruct Hstep as [s pid c k T r T' k' Hp Hc Hl Hf Hch|s pid k T r ? Hp Hr _ -> Hnone|s pid k T r Hp Hr
    |s pid p k T q ? Hp Hu Hq -> Hrt|s pid p k T ? Hp Hnone -> Hrt|s pid p k T err Hp Herr|s pid p status Hp|s k' Hf].
  - destruct (iv_wp _ _ _ _ _ _ _ _ _ _ _ Hinv _ _ Hp) as (ro & Hro & F & Hok & Hk). split.
    + eapply call_step; eauto; [by split|]. apply Hk. by eapply fifo_seen.
    + destruct (fifo_call t s a tok roles pipes pid c k T r T' k' ro F) as [[H _]|[(_ & H & _)|(_ & H & _)]];
        [by split|done|done|..]; unfold fifo_ok; cbn [s_kernel]; rewrite H; [exact Hff|by right|by left].
  - split; [|done]. by eapply fork_step.
  - split; [|done]. by eapply fork_fails_step.
  - split; [|apply Hdel]. by eapply remove_entry_step.
  - split; [|apply Hdel]. by eapply remove_end_step.
  - split; [|done]. pose proof (remove_end_step _ _ _ _ _ _ _ _ _ _ err (k_files (s_kernel s)) Hinv Hp) as H.
    destruct s as [[] ?]. apply H. by destruct (Z.eqb_spec err 0).
  - split; [|done]. exists a, tok, roles, pipes. split; [|by left]. apply inv_label. by eapply inv_killed.
  - split; [|by unfold fifo_ok; cbn; rewrite (oa_files _ _ _ Hf) by apply home_exec_fifo].
    exists a, tok, roles, pipes. split; [|by left]. apply inv_label. by apply inv_others.
Qed.

Lemma fifo_step t s a tok roles pipes l s' :
  INV t s a tok roles pipes -> fifo_ok s -> sys_step CR s l s' ->
  match l with
  | LCall _ e => fifo_change e (k_files (s_kernel s) !! FF) (k_files (s_kernel s') !! FF)
  | LSilent => k_files (s_kernel s') !! FF = k_files (s_kernel s) !! FF \/ k_files (s_kernel s') !! FF = None
  end.
Proof.
  intros Hinv Hff Hstep.
  destruct Hstep as [s pid c k T r T' k' Hp Hc Hl Hf Hch|s pid k T r ? Hp Hr _ -> Hnone|s pid k T r Hp Hr
    |s pid p k T q ? Hp Hu Hq -> Hrt|s pid p k T ? Hp Hnone -> Hrt|s pid p k T err Hp Herr|s pid p status Hp|s f' Hf];
    try (by left).
  - destruct (iv_wp _ _ _ _ _ _ _ _ _ _ _ Hinv _ _ Hp) as (ro & Hro & F & Hok & Hk).
    eapply fifo_call; eauto. by split.
  - cbn. destruct (decide (q = FF)) as [->|]; [right; apply lookup_delete_eq|left; by rewrite lookup_delete_ne].
  - destruct (remove_at _ _ _ _ _ _ _ _ _ _ Hinv Hp) as (-> & _). left. split; [|done].
    apply lookup_delete_ne, dir_not_fifo.
  - left. cbn. by rewrite (oa_files _ _ _ Hf) by apply home_exec_fifo.
Qed.

(** ** Executions *)

(** Every state of an execution satisfies the invariant. *)
Definition safe (t : list label) (s : system) (a : option State) : Prop :=
  (exists tok roles pipes, INV t s a tok roles pipes) /\ fifo_ok s.

Lemma safe_step t s a l s' :
  safe t s a -> sys_step CR s l s' -> exists a', safe (t ++ [l]) s' a' /\ (a' = a \/ life_edge Id a a').
Proof.
  intros [(tok & roles & pipes & Hinv) Hff] Hstep.
  destruct (sys_step_stepped _ _ _ _ _ _ _ _ Hinv Hff Hstep) as [(a' & tok' & roles' & pipes' & Hinv' & Ha) Hff'].
  exists a'. split; [|done]. split; [eauto|done].
Qed.

(** The states of the file along an execution. *)
Fixpoint life_path (a : option State) (l : list (option State)) : Prop :=
  match l with
  | [] => True
  | b :: l => (b = a \/ life_edge Id a b) /\ life_path b l
  end.

Lemma safe_path t s a tr :
  safe t s a -> execution CR s tr -> exists path, life_path a path /\
    Forall2 (λ s' b, k_files (s_kernel s') !! SF = (λ st, Reg (State_print st)) <$> b) (tr.*2) path.
Proof.
  intros Hs Hex. revert t a Hs. induction Hex as [s|s l s1 tr Hstep Hex IH]; intros t a Hs.
  { by exists []. }
  destruct (safe_step _ _ _ _ _ Hs Hstep) as (b & Hb & Hab).
  destruct (IH _ _ Hb) as (path & Hpath & Hview). exists (b :: path). split; [done|].
  constructor; [|done]. destruct Hb as [(tok & roles & pipes & Hinv) _]. exact (iv_view _ _ _ _ _ _ _ _ _ _ _ Hinv).
Qed.

Lemma safe_at t s a tr1 l s' tr2 :
  safe t s a -> execution CR s (tr1 ++ (l, s') :: tr2) ->
  exists s0 b, safe (t ++ labels tr1) s0 b /\ sys_step CR s0 l s'.
Proof.
  revert t s a. induction tr1 as [|[l1 s1] tr1 IH]; intros t s a Hs Hex; inversion Hex; subst.
  - exists s, a. by rewrite app_nil_r.
  - edestruct (safe_step t s a) as (b & Hb & _); [done..|].
    edestruct (IH _ _ _ Hb) as (s0 & b0 & Hs0 & Hstep); [done|]. exists s0, b0.
    by rewrite <- (assoc (++)) in Hs0.
Qed.

End Steps.
