(* ===== verification/RolesProg.v ===== *)
(** The commands of runw keep to their roles: [doCreate] owns the container it
    makes and passes the ownership on as described in [Roles], [doStart] wakes
    it up, [doKill] sends a signal only to the process the state file names, and
    [doState] only looks. *)
From S2P Require Import Prelude Cpp Signals Path Json Prog Logic FileOps Loader Bundle Time State.
From S2P Require Import StateProps SDBus CGroup Container Lifecycle Commands Kernel Roles.

Section Programs.
Context `{SJ : Simdjson} (Root Id : string) (Bundles : string -> Prop).

Local Abbreviation CR := (container_dir Root Id).
Local Abbreviation SF := (state_file Root Id).
Local Abbreviation FF := (exec_fifo Root Id).
Local Abbreviation wpr := (wp (seen Root Id) (rok Root Id Bundles)).

(** ** Calls that leave the role alone *)

Definition calm (K : fds) (c : call) : Prop := harmless Root Id c /\ keeps K c.

Lemma seen_keeps K T c r T' : seen Root Id T c r T' -> keeps K c -> K ⊆ T -> K ⊆ T'.
Proof. intros [Hl _] Hk HK. by eapply local_keeps. Qed.

Lemma wp_calm {A} K T ro (p : prog A) :
  all_calls (calm K) p -> K ⊆ T -> wpr ro T p (λ _ ro' T', ro' = ro /\ K ⊆ T').
Proof.
  intros Hp. apply wp_idle; [by intros; eapply seen_keeps|].
  eapply all_calls_mono; [|exact Hp]. intros c [Hh Hk]. split; [|done]. intros T'. by apply rk_harmless.
Qed.

Lemma calm_seq {A B} K T ro (p : prog A) (f : A -> prog B) Q :
  all_calls (calm K) p -> K ⊆ T -> (forall a T', K ⊆ T' -> wpr ro T' (f a) Q) -> wpr ro T (p ≫= f) Q.
Proof. intros Hp HK Hf. eapply wp_seq; [by apply wp_calm|]. intros a ro' T' [-> HK']. auto. Qed.

Lemma calm_call {A} K T ro c (f : resp c -> prog A) Q :
  calm K c -> K ⊆ T ->
  (forall r T', seen Root Id T c r T' -> K ⊆ T' -> wpr ro T' (f r) Q) -> wpr ro T (do_call c ≫= f) Q.
Proof.
  intros [Hh Hk] HK Hf. eapply wp_call; [by apply rk_harmless|]. intros r T' Hs.
  apply Hf; [done|]. by eapply seen_keeps.
Qed.

(** Calls that can change the role. *)
Lemma role_call {A} K T ro c F (f : resp c -> prog A) Q :
  rok Root Id Bundles ro T c F -> keeps K c -> K ⊆ T ->
  (forall r T', seen Root Id T c r T' -> K ⊆ T' -> wpr (F r) T' (f r) Q) -> wpr ro T (do_call c ≫= f) Q.
Proof.
  intros Hok Hk HK Hf. eapply wp_call; [exact Hok|]. intros r T' Hs. apply Hf; [done|]. by eapply seen_keeps.
Qed.

Ltac role_step lem HK := eapply role_call; [by eapply lem|done|exact HK|]; cbv beta.

(** Calls that touch no file of the container. *)
Definition untouching (c : call) : bool :=
  match c with
  | Fs (FsStatus _) | Fs (FsFileSize _) | Fs (IfstreamRead _ _) | Fs (FilebufOpen _)
  | Fs (FilebufSgetn _ _ _) | Fs RandomLetter | Fs (Cout _) => true
  | Fs _ => false
  | Px (Mkfifo _ _) | Px (Unlink _) | Px Fork | Px (Write _ _) | Px (Read _ _) | Px (Kill _ _)
  | Px (Close _) => false
  | Px (Open _ flags) => negb (opens_write flags)
  | Wm (VmExecute _) => false
  | _ => true
  end.

Lemma untouching_calm K c : untouching c = true -> calm K c.
Proof.
  intros Hc. split; [split|].
  - intros q Hq. destruct c as [[]|[]|[]|[]|]; try done; cbn; by rewrite Hq.
  - destruct c as [[]|[]|[]|[]|]; try done. by apply negb_true_iff.
  - by destruct c as [[]|[]|[]|[]|].
Qed.

Lemma close_calm K fd : K !! fd = None -> calm K (Px (Close fd)).
Proof. intros HK. by split. Qed.

Lemma all_untouching {A} K (p : prog A) : all_calls (λ c, untouching c = true) p -> all_calls (calm K) p.
Proof. apply all_calls_mono. intros c. apply untouching_calm. Qed.

(** ** Writing files *)

Lemma random_suffix_wp K T ro n :
  K ⊆ T -> wpr ro T (random_suffix n) (λ s ro' T', ro' = ro /\ K ⊆ T' /\
    String.length s = n /\ str_all letter s = true).
Proof.
  revert T. induction n as [|n IH]; intros T HK; cbn [random_suffix]; [done|].
  eapply calm_call; [by apply untouching_calm|exact HK|]. intros c T1 [[_ Hc] _] HK1.
  eapply wp_seq; [by apply IH|]. intros s ro2 T2 (-> & HK2 & Hl & Hs).
  split_and!; [done|done|by cbn; rewrite Hl|]. cbn. rewrite Hs. unfold letter. bool_lia.
Qed.

(** The temporary file of the state file. *)
Lemma getTempFilename_owner K T o ts fuel :
  K ⊆ T -> wpr (Owner (set_tmp o ts)) T (getTempFilename fuel SF) (λ q ro' T',
    ro' = Owner (set_tmp o (TOpen q)) /\ K ⊆ T' /\ temp_name SF q).
Proof.
  revert T ts. induction fuel as [|fuel IH]; intros T ts HK; cbn [getTempFilename]; [done|].
  eapply wp_seq; [by apply random_suffix_wp|]. intros u ro1 T1 (-> & HK1 & Hl & Hu). cbn zeta.
  assert (temp_name SF (path_concat SF u)) as Hq by (by exists u).
  role_step rk_tellp HK1. intros pos T2 _ HK2.
  destruct (pos =? 0); [by split; [|split]|]. by apply (IH T2 TNone).
Qed.

(** The owner after it has tried to publish. *)
Definition owner_with (o : owner) (ph : phase) (ts : tmp_state) : owner :=
  OwnerSt (Some ph) ts (o_fifo o) (o_waited o) (o_self o).

Lemma write_state_wp K T o s ph ph' fuel :
  K ⊆ T -> o_phase o = Some ph -> state_ok s -> pub Id Bundles (o_self o) ph s ph' ->
  wpr (Owner o) T (writeTempAndRename fuel SF (mret (State_print s))) (λ ok ro' T',
    K ⊆ T' /\ exists ts, ro' = Owner (owner_with o (if (ok : bool) then ph' else ph) ts)).
Proof.
  intros HK Hph Hok Hpub. unfold writeTempAndRename.
  assert (Owner o = Owner (set_tmp o (o_tmp o))) as -> by (by destruct o).
  eapply wp_seq; [by apply getTempFilename_owner|]. intros q ro1 T1 (-> & HK1 & Hq).
  role_step rk_open HK1. intros ok T2 _ HK2. destruct ok; cbn [negb]; cycle 1.
  { split; [done|]. exists (TOpen q). unfold owner_with. rewrite <- Hph. done. }
  role_step rk_write_tmp HK2. intros w T3 _ HK3.
  role_step rk_publish HK3. intros err T4 _ HK4.
  destruct (err =? 0); cbn [negb]; [by split; [|exists TNone]|].
  role_step rk_remove_tmp HK4. intros e T5 _ HK5.
  split; [done|]. exists TNone. unfold owner_with. rewrite <- Hph. done.
Qed.

Lemma is_regular_file_seq {B} K T ro p (f : bool * errc -> prog B) Q :
  K ⊆ T -> (forall b T', K ⊆ T' -> wpr ro T' (f b) Q) -> wpr ro T (is_regular_file p ≫= f) Q.
Proof.
  intros HK Hf. eapply calm_seq; [|exact HK|exact Hf]. apply all_untouching.
  unfold is_regular_file. calls_walk. done.
Qed.

Lemma publish_wp K T o s ph ph' fuel :
  K ⊆ T -> o_phase o = Some ph -> state_ok s -> pub Id Bundles (o_self o) ph s ph' ->
  wpr (Owner o) T (publish fuel SF s) (λ ok ro' T',
    K ⊆ T' /\ exists ts, ro' = Owner (owner_with o (if (ok : bool) then ph' else ph) ts)).
Proof.
  intros HK Hph Hok Hpub. unfold publish, atomicUpdateFile.
  eapply is_regular_file_seq; [done|]. intros [[] err] T1 HK1; cbn [negb]; [by apply write_state_wp|].
  split; [done|]. exists (o_tmp o). unfold owner_with. rewrite <- Hph. by destruct o.
Qed.

Lemma create_state_wp K T o s ph ph' fuel :
  K ⊆ T -> o_phase o = Some ph -> state_ok s -> pub Id Bundles (o_self o) ph s ph' ->
  wpr (Owner o) T (atomicCreateAndWriteFile fuel SF (mret (State_print s))) (λ ok ro' T',
    K ⊆ T' /\ exists ts, ro' = Owner (owner_with o (if (ok : bool) then ph' else ph) ts)).
Proof.
  intros HK Hph Hok Hpub. unfold atomicCreateAndWriteFile.
  eapply is_regular_file_seq; [done|]. intros [[] err] T1 HK1; [|by apply write_state_wp].
  split; [done|]. exists (o_tmp o). unfold owner_with. rewrite <- Hph. by destruct o.
Qed.

(** *** Files outside of the container *)

(** The file and its temporary files are apart from the container. *)
Definition apart (P : string) : Prop :=
  forall q h, q = P \/ temp_name P q -> home CR h = true -> under q h = false.

Lemma apart_calm K P q c :
  apart P -> q = P \/ temp_name P q ->
  (forall h, touches CR c h = String.eqb q h) \/ (exists a, c = Fs (FsRename a P) /\ (a = P \/ temp_name P a)) ->
  match c with Fs (FsRemoveAll _) => False | Fs _ => True | _ => False end -> calm K c.
Proof.
  intros HP Hq Hc Hfs. split; [split|by destruct c as [[]|[]|[]|[]|]].
  - intros h Hh. destruct Hc as [->|(a & -> & Ha)].
    + apply String.eqb_neq. intros ->. pose proof (HP h h Hq Hh) as Hu. by rewrite under_refl in Hu.
    + cbn. by rewrite (HP a h Ha Hh), (HP P h (or_introl eq_refl) Hh).
  - by destruct c as [[]|[]|[]|[]|].
Qed.

Lemma getTempFilename_elsewhere K T ro P fuel :
  apart P -> K ⊆ T -> wpr ro T (getTempFilename fuel P) (λ q ro' T', ro' = ro /\ K ⊆ T' /\ temp_name P q).
Proof.
  intros HP. revert T. induction fuel as [|fuel IH]; intros T HK; cbn [getTempFilename]; [done|].
  eapply wp_seq; [by apply random_suffix_wp|]. intros u ro1 T1 (-> & HK1 & Hl & Hu). cbn zeta.
  assert (temp_name P (path_concat P u)) as Hq by (by exists u).
  eapply calm_call; [by eapply apart_calm; [done|right; done|left|]|exact HK1|]. intros pos T2 _ HK2.
  destruct (pos =? 0); [done|auto].
Qed.

Lemma create_other_wp K T ro P Func fuel :
  apart P -> all_calls (calm K) Func -> K ⊆ T ->
  wpr ro T (atomicCreateAndWriteFile fuel P Func) (λ _ ro' T', ro' = ro /\ K ⊆ T').
Proof.
  intros HP HF HK. unfold atomicCreateAndWriteFile, writeTempAndRename.
  eapply is_regular_file_seq; [done|]. intros [[] err] T1 HK1; [done|].
  eapply wp_seq; [by apply getTempFilename_elsewhere|]. intros q ro1 T2 (-> & HK2 & Hq).
  eapply calm_call; [by eapply apart_calm; [done|right; done|left|]|exact HK2|]. intros ok T3 _ HK3.
  destruct ok; [cbn [negb]|done].
  eapply calm_seq; [done|exact HK3|]. intros text T4 HK4.
  eapply calm_call; [by eapply apart_calm; [done|right; done|left|]|exact HK4|]. intros w T5 _ HK5.
  eapply calm_call; [eapply apart_calm; [done|right; done|right; eauto|done]|exact HK5|]. intros e T6 _ HK6.
  destruct (e =? 0); [done|cbn [negb]].
  eapply calm_call; [by eapply apart_calm; [done|right; done|left|]|exact HK6|]. done.
Qed.

(** ** The container process *)

Lemma timestamp_seq {B} K T ro (f : string -> prog B) Q :
  K ⊆ T -> (forall t T', K ⊆ T' -> str_all simple_char t = true -> wpr ro T' (f t) Q) ->
  wpr ro T (timestamp ≫= f) Q.
Proof.
  intros HK Hf. apply wp_bind. unfold timestamp.
  eapply calm_call; [by apply untouching_calm|exact HK|]. intros r T1 _ HK1.
  destruct (format_time (ret r)) as [t|] eqn:Ht; [|done]. apply Hf; [done|]. by eapply format_time_simple.
Qed.

Lemma setCreated_wp {B} K T o s (k : State -> prog B) Q :
  K ⊆ T -> (forall t z T', K ⊆ T' -> str_all simple_char t = true ->
    wpr (Owner (set_self o (Some z))) T' (k (to_created s t (to_int32 z))) Q) ->
  wpr (Owner o) T (setCreated s ≫= k) Q.
Proof.
  intros HK Hk. apply wp_bind. unfold setCreated. eapply timestamp_seq; [done|]. intros t T1 HK1 Ht.
  role_step rk_getpid HK1. intros r T2 _ HK2. by apply Hk.
Qed.

Lemma setRunning_wp {B} K T ro s (k : State -> prog B) Q :
  K ⊆ T -> (forall t T', K ⊆ T' -> str_all simple_char t = true -> wpr ro T' (k (to_running s t)) Q) ->
  wpr ro T (setRunning s ≫= k) Q.
Proof. intros HK Hk. apply wp_bind. unfold setRunning. eapply timestamp_seq; [done|]. intros. by apply Hk. Qed.

Lemma setStopped_wp {B} K T ro s code (k : State -> prog B) Q :
  K ⊆ T -> (forall t T', K ⊆ T' -> str_all simple_char t = true -> wpr ro T' (k (to_stopped s code t)) Q) ->
  wpr ro T (setStopped s code ≫= k) Q.
Proof. intros HK Hk. apply wp_bind. unfold setStopped. eapply timestamp_seq; [done|]. intros. by apply Hk. Qed.

Definition fresh_fds (K : fds) (l : list (Z * Z)) : Prop := Forall (λ x, K !! x.1 = None) l.

Lemma collect_namespaces_wp K T ro l f :
  K ⊆ T -> fresh_fds K f.2 -> wpr ro T (collect_namespaces l f) (λ r ro' T',
    ro' = ro /\ K ⊆ T' /\ forall f', r = Some f' -> fresh_fds K f'.2).
Proof.
  revert T f. induction l as [|Desc l IH]; intros T f HK Hf; cbn [collect_namespaces].
  { split_and!; [done|done|]. by intros f' [= <-]. }
  apply wp_bind. destruct (namespace_flag (ns_Type Desc)) as [flag|]; [|done].
  change (wpr ro T (match flag with
    | None => collect_namespaces l f
    | Some Flag => r ← UpdateFlags Flag (ns_Path Desc) f;
        match r with None => mret None | Some f => collect_namespaces l f end
    end) (λ r ro' T', ro' = ro /\ K ⊆ T' /\ forall f', r = Some f' -> fresh_fds K f'.2)).
  destruct flag as [Flag|]; [|by apply IH]. apply wp_bind. unfold UpdateFlags. destruct f as [u fs].
  destruct (is_empty (ns_Path Desc)); [by apply IH|].
  eapply calm_call; [by apply untouching_calm|exact HK|]. intros r T1 [Hl _] HK1.
  destruct (Z.ltb_spec (ret r) 0) as [Hr|Hr]; [done|]. apply IH; [done|].
  cbn in Hl. destruct (Z.leb_spec 0 (ret r)); [|lia]. destruct Hl as [Hnone _].
  apply Forall_app. split; [done|]. constructor; [|done]. by eapply lookup_weaken_None.
Qed.

Lemma join_namespaces_calm K l : fresh_fds K l -> all_calls (calm K) (join_namespaces l).
Proof.
  induction 1 as [|[fd flag] l Hfd _ IH]; cbn [join_namespaces]; [done|].
  calls_walk; [by apply untouching_calm|by apply close_calm|done].
Qed.

Lemma enter_namespaces_seq {B} K T ro b (f : bool -> prog B) Q :
  K ⊆ T -> (forall ok T', K ⊆ T' -> wpr ro T' (f ok) Q) -> wpr ro T (enter_namespaces b ≫= f) Q.
Proof.
  intros HK Hf. apply wp_bind. unfold enter_namespaces.
  eapply wp_seq; [apply (collect_namespaces_wp K _ _ _ (0, [])); [done|by constructor]|].
  intros r ro1 T1 (-> & HK1 & Hr). destruct r as [[u fs]|]; [|by apply Hf].
  eapply calm_seq; [|exact HK1|].
  { destruct (u =? 0); [done|]. calls_walk. by apply untouching_calm. }
  intros x T2 HK2. eapply (calm_seq K); [exact (join_namespaces_calm K fs (Hr (u, fs) eq_refl))|exact HK2|].
  intros ok T3 HK3. by apply Hf.
Qed.

Lemma enter_calm K fuel Cid s : all_calls (calm K) (enter fuel Cid s).
Proof. apply all_untouching. by apply enter_calls. Qed.

(** The states stay readable. *)
Lemma state_ok_created s t z :
  state_ok s -> str_all simple_char t = true -> state_ok (to_created s t (to_int32 z)).
Proof.
  intros Hs Ht H1 H2. destruct s; destruct Hs; [done..|]. split; try done. apply to_int32_range.
Qed.
Lemma state_ok_running s t : state_ok s -> str_all simple_char t = true -> state_ok (to_running s t).
Proof. intros Hs Ht H1 H2. destruct s; destruct Hs; [done..|]. by split. Qed.
Lemma state_ok_stopped s c t :
  state_ok s -> str_all simple_char t = true -> in_type Int32 c -> state_ok (to_stopped s c t).
Proof. intros Hs Ht Hc H1 H2. destruct s; destruct Hs; [done..|]. by split. Qed.

(** The process ends as an owner, or after it has passed on the ownership, with
    success. *)
Definition owner_ends (code : Z) (ro : role) (T : fds) : Prop :=
  (exists o, ro = Owner o) \/ (ro = Outsider /\ code = EXIT_SUCCESS).

Lemma execute_wp T o s fuel :
  o_phase o = Some (PhWoken s) -> state_ok s -> wpr (Owner o) T (execute fuel s SF) owner_ends.
Proof.
  intros Hph Hs. unfold execute. eapply (setRunning_wp ∅); [apply map_empty_subseteq|]. intros t T1 HK1 Ht.
  eapply wp_seq; [eapply publish_wp; [exact HK1|exact Hph|by apply state_ok_running|apply pb_running]|].
  intros ok ro1 T2 [HK2 [ts ->]]. destruct ok; cbn [ensure]; [|left; eauto].
  role_step rk_execute HK2. intros res T3 _ HK3.
  eapply (wp_seq _ _ _ _ _ _ (λ Code ro' T', ro' = Owner (set_phase _ (PhExited (to_running s t))) /\ ∅ ⊆ T' /\ in_type Int32 Code)).
  { destruct (res : bool); [|by split_and!; [|apply map_empty_subseteq|]].
    eapply calm_call; [by apply untouching_calm|exact HK3|]. intros c T4 _ HK4.
    split_and!; [done|done|apply to_int32_range]. }
  intros Code ro2 T4 (-> & HK4 & HC). eapply setStopped_wp; [exact HK4|]. intros t2 T5 HK5 Ht2.
  eapply wp_seq; [eapply publish_wp; [exact HK5|done| |apply pb_stopped]|].
  { apply state_ok_stopped; [by apply state_ok_running|done|done]. }
  intros ok ro3 T6 [_ [ts2 ->]]. destruct ok; left; eauto.
Qed.

Lemma wait_exec_fifo_wp T o s fd n :
  0 <= fd -> {[fd := FifoRd FF n]} ⊆ T -> o_phase o = Some (PhCreated s) ->
  wpr (Owner o) T (wait_exec_fifo fd) (λ ok ro' T',
    ro' = Owner (set_phase o (PhWoken s)) \/ ok = false /\ ro' = Owner o).
Proof.
  intros Hfd HK Hph. unfold wait_exec_fifo. destruct (Z.ltb_spec fd 0); [lia|].
  destruct (FD_SETSIZE <=? fd); [done|].
  assert (forall T' : fds, {[fd := FifoRd FF n]} ⊆ T' -> T' !! fd = Some (FifoRd FF n)) as Hget.
  { intros T' HT'. eapply lookup_weaken; [|exact HT']. apply lookup_singleton_eq. }
  eapply role_call; [eapply rk_wake; [exact Hph|exact (Hget T HK)]|done|exact HK|]. intros r T1 _ HK1. cbv beta.
  destruct (Z.ltb_spec (ret r) 0), (Z.leb_spec 0 (ret r)); try lia; [by right|].
  eapply role_call; [eapply rk_read_fifo, (Hget T1 HK1)|done|exact HK1|]. intros [r2 data] T2 _ HK2.
  destruct (ret r2 <? 0); by left.
Qed.

Lemma run_container_wp T o s fd n fuel Cid PidFile :
  apart PidFile -> 0 <= fd -> {[fd := FifoRd FF n]} ⊆ T -> o_phase o = Some (PhCreating s) ->
  state_ok s -> wpr (Owner o) T (run_container fuel Cid PidFile s SF fd) owner_ends.
Proof.
  intros HP Hfd HK Hph Hs. unfold run_container.
  eapply wp_seq; [apply create_other_wp; [done| |exact HK]|].
  { calls_walk. by apply untouching_calm. }
  intros ok ro1 T1 [-> HK1]. destruct ok; cbn [ensure]; [|left; eauto].
  eapply setCreated_wp; [exact HK1|]. intros t z T2 HK2 Ht.
  eapply enter_namespaces_seq; [exact HK2|]. intros ok T3 HK3. destruct ok; cbn [ensure]; [|left; eauto].
  eapply calm_seq; [apply enter_calm|exact HK3|]. intros [e|[]] T4 HK4; [left; eauto|].
  eapply wp_seq; [eapply publish_wp; [exact HK4|exact Hph|by apply state_ok_created|by apply pb_created]|].
  intros ok ro5 T5 [HK5 [ts ->]]. destruct ok; cbn [ensure]; [|left; eauto].
  eapply wp_seq; [by eapply wait_exec_fifo_wp|].
  intros ok ro6 T6 [->|[-> ->]]; [|left; eauto]. destruct ok; cbn [ensure]; [|left; eauto].
  apply execute_wp; [done|by apply state_ok_created].
Qed.

Lemma prepare_wasi_calm K b : all_calls (calm K) (prepare_wasi b).
Proof.
  apply all_untouching. unfold prepare_wasi. calls_walk; try done; [by destruct (Args _)|].
  induction (Cmds b); cbn [for_each_call]; calls_walk; done.
Qed.

Lemma compile_module_seq {B} K T o Cid Wasm (f : option string -> prog B) Q :
  K ⊆ T -> (forall r T', K ⊆ T' -> wpr (Owner o) T' (f r) Q) ->
  wpr (Owner o) T (compile_module Cid Wasm ≫= f) Q.
Proof.
  intros HK Hf. apply wp_bind. unfold compile_module.
  eapply calm_call; [by apply untouching_calm|exact HK|]. intros [Data|] T1 _ HK1; [|by apply Hf].
  eapply calm_call; [by apply untouching_calm|exact HK1|]. intros [p|] T2 [[_ Hp] _] HK2; [|by apply Hf].
  eapply calm_call; [by apply untouching_calm|exact HK2|]. intros [ty err] T3 _ HK3.
  destruct (bool_decide (ty = FT_none)); [done|]. destruct (bool_decide (ty = FT_regular)); [by apply Hf|].
  eapply calm_call; [|exact HK3|].
  { split; [split|done]; [|done]. intros q Hq. cbn. specialize (Hp p eq_refl).
    destruct (under q _) eqn:Hu; [|done]. pose proof (under_trans _ _ _ Hq Hu) as Hin.
    unfold home in Hp. by rewrite Hp in Hin. }
  intros mk T4 _ HK4. eapply role_call; [apply rk_fork, rf_parent|done|exact HK4|]. intros r T5 _ HK5. cbv beta.
  destruct (ret r <? 0); [by apply Hf|]. destruct (ret r =? 0).
  - unfold compile_child. do 3 (eapply calm_call; [by apply untouching_calm|exact (map_empty_subseteq _)|];
      intros [] ? _ _; [cbn [negb]|done]). done.
  - unfold wait_compiler. eapply calm_call; [by apply untouching_calm|exact HK5|]. intros [r2 st] T6 _ HK6.
    destruct (ret r2 <? 0); [done|]. destruct (negb _); by apply Hf.
Qed.

Lemma doRunInternal_wp T o s fd n fuel Cid PidFile :
  apart PidFile -> 0 <= fd -> {[fd := FifoRd FF n]} ⊆ T -> o_phase o = Some (PhCreating s) ->
  state_ok s -> wpr (Owner o) T (doRunInternal fuel Cid PidFile s SF fd) owner_ends.
Proof.
  intros HP Hfd HK Hph Hs. unfold doRunInternal.
  eapply calm_seq; [apply prepare_wasi_calm|exact HK|]. intros Wasm T1 HK1.
  eapply compile_module_seq; [exact HK1|]. intros [So|] T2 HK2; [|left; eauto].
  do 3 (eapply calm_call; [by apply untouching_calm|exact HK2|]; clear HK2;
    intros [] ? _ HK2; cbn [ensure]; [|left; eauto]).
  eapply role_call; [apply rk_fork, rf_child|done|exact HK2|]. intros r T3 _ HK3. cbv beta.
  destruct (Z.ltb_spec (ret r) 0); [left; eauto|].
  destruct (Z.ltb_spec 0 (ret r)), (Z.eqb_spec (ret r) 0); try lia; [by right|].
  by eapply run_container_wp.
Qed.

(** ** [doCreate] *)

(** When the scope exit removes the directory, the process owns it. *)
Definition body_ends (res : Z * bool) (ro : role) (T : fds) : Prop :=
  res.2 = false -> exists o, ro = Owner o.

Lemma scope_exit_wp {A} ro T (body : prog A) fin P :
  wpr ro T body P ->
  (forall a ro' T', P a ro' T' -> wpr ro' T' (fin a) (λ _, P a)) -> wpr ro T (scope_exit body fin) P.
Proof.
  intros Hb Hf. unfold scope_exit. eapply wp_seq; [exact Hb|]. intros a ro' T' HP.
  eapply wp_seq; [by apply Hf|]. done.
Qed.

Lemma close_fd_wp T ro fd (Q : unit -> role -> fds -> Prop) :
  (forall T', Q tt ro T') -> wpr ro T (close_fd fd) Q.
Proof.
  intros HQ. unfold close_fd. destruct (0 <=? fd); [|apply HQ].
  eapply (calm_call ∅); [by apply close_calm|apply map_empty_subseteq|]. intros. apply HQ.
Qed.

Lemma failure_code data x : bytes_int data = Val x -> x <> 0 -> failure data = true.
Proof.
  destruct data as [|a [|b [|c [|d rest]]]]; try done. intros [= <-] Hx. unfold failure.
  destruct (str_all is_zero _) eqn:Hz; [|done]. destruct Hx. cbn in Hz. unfold is_zero in Hz.
  repeat (apply andb_true_iff in Hz as [?%Ascii.eqb_eq Hz]). by subst.
Qed.

Lemma close_success T ro fd :
  wpr ro T (_ ← do_call (Px (Close fd)) : prog sysret; mret (EXIT_SUCCESS, true)) body_ends.
Proof. eapply (calm_call ∅); [by apply close_calm|apply map_empty_subseteq|]. by intros. Qed.

Lemma create_parent_wp T n child pr pw :
  {[pr := PipeRd n]} ⊆ T -> pw <> pr ->
  wpr (Waiter n) T (create_parent child pr pw) body_ends.
Proof.
  intros HK Hne. unfold create_parent.
  eapply calm_call; [apply close_calm; by apply lookup_singleton_ne|exact HK|]. intros r1 T1 _ HK1.
  eapply calm_call; [by apply untouching_calm|exact HK1|]. intros [r2 st] T2 _ HK2.
  assert (T2 !! pr = Some (PipeRd n)) as Hpr.
  { eapply lookup_weaken; [|exact HK2]. apply lookup_singleton_eq. }
  eapply role_call; [by apply rk_wait|done|exact HK2|]. intros [r data] T3 [[-> Hint] _] HK3. cbv beta.
  destruct (Z.ltb_spec (ret r) 0) as [Hr|Hr]; cbn [andb].
  { rewrite Hint by eauto. destruct (Z.ltb_spec 0 (ret r)); [lia|]. exact (close_success T2 _ pr). }
  cbn [fst snd]. destruct (Z.ltb_spec 0 (ret r)) as [Hpos|]; cbn [andb].
  - apply wp_bind, wp_bind. destruct (bytes_int data) as [x|] eqn:Hx; [|done]. cbn.
    destruct (Z.eqb_spec x 0) as [->|Hx0]; cbn.
    + exact (close_success T2 _ pr).
    + rewrite (failure_code _ _ Hx Hx0). intros _. eauto.
  - exact (close_success T2 _ pr).
Qed.

Lemma create_daemon_wp T o s fd n fuel PidFile Console pw :
  apart PidFile -> 0 <= fd -> {[fd := FifoRd FF n]} ⊆ T -> o_phase o = Some (PhCreating s) ->
  state_ok s -> wpr (Owner o) T (create_daemon fuel Id PidFile Console s SF fd pw) body_ends.
Proof.
  intros HP Hfd HK Hph Hs. unfold create_daemon.
  eapply calm_seq; [|exact HK|].
  { apply all_untouching. unfold connect_console. calls_walk; done. }
  intros [cfd ok] T1 HK1. apply scope_exit_wp; [|intros; by apply close_fd_wp].
  destruct ok; cbn [negb]; [|intros _; eauto].
  eapply wp_seq; [by eapply doRunInternal_wp|]. intros code ro2 T2 Hend.
  assert (forall ro T', wpr ro T' (_ ← do_call (Px (Close pw)) : prog sysret; mret (EXIT_FAILURE, true)) body_ends)
    as Hclose.
  { intros ro T'. eapply (calm_call ∅); [by apply close_calm|apply map_empty_subseteq|]. by intros. }
  destruct Hend as [[o' ->]|[-> ->]].
  - eapply (role_call ∅); [apply rk_write_code|done|apply map_empty_subseteq|]. intros. apply Hclose.
  - eapply (role_call ∅); [apply rk_write_zero; [by left|done]|done|apply map_empty_subseteq|].
    intros. apply Hclose.
Qed.

Lemma create_fork_wp T o s fd n fuel PidFile Console :
  apart PidFile -> 0 <= fd -> {[fd := FifoRd FF n]} ⊆ T -> o_phase o = Some (PhCreating s) ->
  o_waited o = false -> state_ok s ->
  wpr (Owner o) T (create_fork fuel Id PidFile Console s SF fd) body_ends.
Proof.
  intros HP Hfd HK Hph Hw Hs. unfold create_fork.
  assert (forall o' T', wpr (Owner o') T' (mret (EXIT_FAILURE, false)) body_ends) as Hfail by (intros ?? _; eauto).
  eapply calm_call; [by apply untouching_calm|exact HK|]. intros [r [pr pw]] T1 [Hl _] HK1.
  destruct (Z.ltb_spec (ret r) 0) as [|Hr]; [apply Hfail|]. cbn in Hl.
  destruct (Z.leb_spec 0 (ret r)); [|lia]. destruct Hl as (Hne & Hpr & Hpw & m & ->).
  eapply role_call; [eapply rk_fork, (rf_waiter _ _ pr m); [done|apply lookup_insert_eq]|done|exact HK1|].
  intros r2 T2 [-> _] HK2. cbv beta. destruct (Z.ltb_spec (ret r2) 0); [apply Hfail|].
  destruct (Z.ltb_spec 0 (ret r2)), (Z.eqb_spec (ret r2) 0); try lia.
  { apply create_parent_wp; [|done]. apply map_singleton_subseteq_l, lookup_insert_eq. }
  eapply calm_call; [apply close_calm|exact HK2|].
  { apply lookup_singleton_ne. intros ->. apply map_singleton_subseteq_l in HK. congruence. }
  intros r3 T3 _ HK3.
  eapply calm_call; [by apply untouching_calm|exact HK3|]. intros r4 T4 _ HK4.
  destruct (ret r4 <? 0); [apply Hfail|].
  eapply role_call; [apply rk_fork, rf_child|done|exact HK4|]. intros r5 T5 _ HK5. cbv beta.
  destruct (Z.ltb_spec (ret r5) 0); [apply Hfail|].
  destruct (Z.ltb_spec 0 (ret r5)), (Z.eqb_spec (ret r5) 0); try lia; [done|].
  by eapply create_daemon_wp.
Qed.

Lemma loadBundle_wp K T ro s Cfg (Q : State * bool -> role -> fds -> Prop) :
  K ⊆ T -> (forall b ok T', K ⊆ T' -> Q (s <| Config := b |>, ok) ro T') ->
  wpr ro T (loadBundle s Cfg) Q.
Proof.
  intros HK Hf. unfold loadBundle. eapply calm_seq; [|exact HK|].
  { apply all_untouching. unfold Bundle_load. calls_walk; done. }
  intros [b ok] T1 HK1. by apply Hf.
Qed.

Lemma create_body_wp T fuel Systemd Cfg Path Console PidFile :
  apart PidFile -> Bundles Path ->
  wpr (Owner owner_start) T (create_body fuel CR Systemd Cfg Id Path Console PidFile) body_ends.
Proof.
  intros HP Hb. unfold create_body. cbn zeta.
  assert (forall o' T', wpr (Owner o') T' (mret (EXIT_FAILURE, false)) body_ends) as Hfail by (intros ?? _; eauto).
  apply wp_bind. eapply (loadBundle_wp ∅); [apply map_empty_subseteq|]. intros b ok T1 HK1.
  destruct ok; cbn [negb]; [|apply Hfail]. set (s := setCreating _).
  assert (state_ok s) as Hs by (by intros H1 H2; split).
  eapply wp_seq; [apply (create_state_wp ∅ T1 owner_start s PhNone (PhCreating s)); [done|done|done|]|].
  { by apply pb_creating. }
  intros ok ro2 T2 [HK2 [ts ->]]. destruct ok; cbn [negb]; [|apply Hfail].
  eapply (role_call ∅); [by apply rk_mkfifo|done|done|]. intros r3 T3 _ HK3. cbv beta.
  destruct (Z.ltb_spec (ret r3) 0), (Z.leb_spec 0 (ret r3)); try lia; [apply Hfail|].
  eapply calm_call; [by apply untouching_calm|exact HK3|]. intros r4 T4 [Hl4 Hfifo] HK4.
  apply scope_exit_wp; [|intros; by apply close_fd_wp].
  destruct (Z.ltb_spec (ret r4) 0) as [|Hfd]; [apply Hfail|].
  destruct (Hfifo eq_refl eq_refl Hfd) as [n Hn].
  eapply (create_fork_wp _ _ _ _ n); [done|done|by apply map_singleton_subseteq_l|done|done|done].
Qed.

Theorem doCreate_wp T fuel Systemd Cfg Path Console PidFile :
  apart PidFile -> Bundles Path -> (forall fd n, T !! fd <> Some (PipeRd n)) ->
  wpr Outsider T (doCreate fuel Root Systemd Cfg Id Path Console PidFile) (λ _ _ _, True).
Proof.
  intros HP Hb HT. unfold doCreate.
  eapply (role_call ∅); [by apply rk_mkdir|done|apply map_empty_subseteq|]. intros [created err] T1 _ HK1.
  cbv beta. destruct created; cbn [fst ensure]; [|done].
  apply wp_bind, wp_bind. eapply wp_mono; [|by apply create_body_wp]. intros [code ok] ro2 T2 Hend.
  apply wp_bind. destruct ok; [done|]. destruct (Hend eq_refl) as [o ->].
  eapply (role_call ∅); [apply rk_remove_all|done|apply map_empty_subseteq|]. done.
Qed.

(** ** The other commands *)

Lemma State_load_calm K s Path Cfg : all_calls (calm K) (State_load s Path Cfg).
Proof. apply all_untouching. unfold State_load, loadBundle, Bundle_load. calls_walk; done. Qed.

Theorem doStart_wp T Cfg : wpr Starter T (doStart Root Cfg Id) (λ _ _ _, True).
Proof.
  unfold doStart. cbn zeta. eapply (is_regular_file_seq ∅); [apply map_empty_subseteq|].
  intros [[] err] T1 HK1; cbn [ensure]; [|done].
  eapply calm_seq; [apply State_load_calm|exact HK1|]. intros [s ok] T2 HK2.
  destruct ok; cbn [ensure]; [|done].
  role_step rk_start_open HK2. intros r3 T3 _ HK3.
  apply scope_exit_wp; [|intros; by apply close_fd_wp].
  destruct (ret r3 <? 0); [done|].
  role_step rk_start_unlink HK3. intros r4 T4 _ HK4. destruct (ret r4 <? 0); [done|].
  eapply role_call; [apply rk_write_zero; [by right|done]|done|exact HK4|]. intros r5 T5 _ HK5.
  destruct (ret r5 <? 0); [done|].
  eapply (calm_call ∅); [by apply close_calm|exact HK5|]. done.
Qed.

Theorem doState_wp T ro : wpr ro T (doState Root Id) (λ _ _ _, True).
Proof.
  eapply wp_mono; [|apply (wp_calm ∅); [|apply map_empty_subseteq]]; [done|].
  apply all_untouching. unfold doState, is_directory, FileOps.readAll, is_regular_file, ensure. calls_walk; done.
Qed.

Theorem doKill_wp T Cfg Name : wpr Visitor T (doKill Root Cfg Id Name) (λ _ _ _, True).
Proof.
  unfold doKill. apply wp_bind. destruct (parseSignal Name) as [sig|]; [|done].
  change (wpr Visitor T (if sig <? 0 then mret EXIT_FAILURE
    else '(regular, _) ← is_regular_file SF;
      ensure regular ('(s, ok) ← State_load default_State SF Cfg;
        ensure ok (if Pid s <? 0 then mret EXIT_FAILURE
          else r ← do_call (Px (Kill (Pid s) sig)) : prog sysret;
            ensure (ret r =? 0) (mret EXIT_SUCCESS)))) (λ _ _ _, True)).
  destruct (sig <? 0); [done|]. eapply (is_regular_file_seq ∅); [apply map_empty_subseteq|].
  intros [[] err] T1 HK1; cbn [ensure]; [|done]. apply wp_bind. unfold State_load.
  role_step rk_load HK1. intros [er|e] T2 _ HK2; [done|].
  destruct (load_document e default_State) as [s ok] eqn:Hload. destruct ok; [|done].
  eapply loadBundle_wp; [exact HK2|]. intros b ok T3 HK3. destruct ok; cbn [ensure]; [|done].
  destruct (Z.ltb_spec (Pid (s <| Config := b |>)) 0) as [|Hpid]; [done|].
  eapply role_call; [eapply rk_kill; [exact Hload| |by destruct s]|done|exact HK3|].
  - pose proof (load_document_sound _ _ _ Hload) as (_ & _ & Hp & _).
    destruct s as [? ? ? ? ? ? st ? ? ?]. cbn in *. destruct st; cbn in *; try done; lia.
  - intros r T4 _ HK4. by destruct (ret r =? 0).
Qed.

End Programs.
