(* ===== verification/Concurrent.v ===== *)
(** Commands about one container that run at the same time.

    The files and the processes of [Kernel], the roles of [Roles] and the
    invariant of [RolesInv] come together: whatever the order of their calls,
    and whichever of the processes are killed, several create, start, kill and
    state commands take the state file of a container through its life cycle
    and nothing else; a module runs only after a start command; and a kill
    command only reaches the process of a container. *)
From S2P Require Import Prelude Cpp Signals Path Json JsonRef Prog Logic FileOps Loader Bundle Time State.
From S2P Require Import StateProps SDBus CGroup Container Lifecycle Commands Kernel.
From S2P Require Import Roles RolesInv RolesStep RolesProg.

(** ** Commands *)

Inductive command : Set :=
| CmdCreate (fuel : nat) (Systemd : bool) (Cfg Path Console PidFile : string)
| CmdStart (Cfg : string)
| CmdKill (Cfg Signal : string)
| CmdState.

Definition command_prog `{SJ : Simdjson} (Root Id : string) (c : command) : prog Z :=
  match c with
  | CmdCreate fuel Systemd Cfg Path Console PidFile =>
      doCreate fuel Root Systemd Cfg Id Path Console PidFile
  | CmdStart Cfg => doStart Root Cfg Id
  | CmdKill Cfg Signal => doKill Root Cfg Id Signal
  | CmdState => doState Root Id
  end.

(** The descriptors 0, 1 and 2. *)
Definition std_fds : fds := {[ 0 := OtherFd; 1 := OtherFd; 2 := OtherFd ]}.

(** All the commands are about to start. *)
Definition boot `{SJ : Simdjson} (Root Id : string) (f : files) (cmds : gmap Z command) : system :=
  System (Kernel f ∅ ∅) ((λ c, Process (command_prog Root Id c) std_fds) <$> cmds).

Section Concurrent.
Context `{SJ : Simdjson} (Root Id : string) (f : files) (cmds : gmap Z command).

Local Abbreviation CR := (container_dir Root Id).
Local Abbreviation SF := (state_file Root Id).
Local Abbreviation FF := (exec_fifo Root Id).

(** The container does not exist yet, and the pid files are elsewhere. *)
Record boot_ok : Prop := {
  bo_free q : home CR q = true -> f !! q = None;
  bo_apart pid fuel Systemd Cfg Path Console PidFile :
    cmds !! pid = Some (CmdCreate fuel Systemd Cfg Path Console PidFile) -> apart Root Id PidFile;
  bo_pids pid : is_Some (cmds !! pid) -> in_type Int32 pid;
}.

Definition is_start (pid : Z) : Prop := exists Cfg, cmds !! pid = Some (CmdStart Cfg).
(** Commands that never own the container. *)
Definition is_guest (pid : Z) : Prop :=
  exists c, cmds !! pid = Some c /\ match c with CmdCreate _ _ _ _ _ _ => False | _ => True end.
Definition is_bundle (b : string) : Prop :=
  exists pid fuel Systemd Cfg Console PidFile,
    cmds !! pid = Some (CmdCreate fuel Systemd Cfg b Console PidFile).

Definition first_role (c : command) : role :=
  match c with CmdCreate _ _ _ _ _ _ => Outsider | CmdStart _ => Starter | _ => Visitor end.

Lemma std_fds_other fd o : std_fds !! fd = Some o -> o = OtherFd.
Proof.
  unfold std_fds. intros [[_ <-]|[_ [[_ <-]|[_ [_ <-]%lookup_singleton_Some]]%lookup_insert_Some]]%lookup_insert_Some;
    done.
Qed.

Lemma command_wp pid c :
  boot_ok -> cmds !! pid = Some c ->
  wp (seen Root Id) (rok Root Id is_bundle) (first_role c) std_fds (command_prog Root Id c) (λ _ _ _, True).
Proof.
  intros Hok Hc. destruct c; cbn [command_prog first_role].
  - apply doCreate_wp; [by eapply bo_apart|by repeat eexists|].
    intros fd n H%std_fds_other. done.
  - apply doStart_wp.
  - apply doKill_wp.
  - apply doState_wp.
Qed.

Lemma boot_safe : boot_ok -> safe Root Id is_bundle is_start is_guest [] (boot Root Id f cmds) None.
Proof.
  intros Hok. pose proof Hok as [Hfree _ _]. split; [|left; apply Hfree, home_exec_fifo].
  exists TkFree, (first_role <$> cmds), ∅.
  assert (forall pid ro, (first_role <$> cmds) !! pid = Some ro -> ro = Outsider \/ ro = Starter \/ ro = Visitor) as Hroles.
  { intros pid ro (c & <- & _)%lookup_fmap_Some. destruct c; auto. }
  assert (forall pid o, (first_role <$> cmds) !! pid <> Some (Owner o)) as Hown
    by (by intros pid o [|[|]]%Hroles).
  assert (forall pid n, (first_role <$> cmds) !! pid <> Some (Waiter n)) as Hwait
    by (by intros pid n [|[|]]%Hroles).
  split; cbn [boot s_kernel s_procs k_files k_chans]; try done;
    try (intros; exfalso; match goal with
      | H : _ !! _ = Some (Owner _) |- _ => exact (Hown _ _ H)
      | H : _ !! _ = Some (Waiter _) |- _ => exact (Hwait _ _ H)
      end).
  - intros q Hq Hne. by rewrite Hfree in Hne.
  - apply Hfree, home_state_file.
  - intros q Hq. left. apply Hfree. by apply home_temp.
  - by rewrite (Hfree CR) by apply home_dir.
  - intros pid p (c & <- & Hc)%lookup_fmap_Some. exists (first_role c). rewrite lookup_fmap, Hc.
    split; [done|]. by eapply command_wp.
  - intros pid. rewrite !lookup_fmap. by destruct (cmds !! pid).
  - split; [|set_solver|done].
    intros pid p fd o (c & <- & Hc)%lookup_fmap_Some Ho%std_fds_other. by subst.
  - intros pid (c & Hs & Hc)%lookup_fmap_Some. destruct c; try done. by exists Cfg.
  - intros pid e H. by apply Hroles in H as [|[|]].
  - intros pid (c & Hc & Hg). exists (first_role c). rewrite lookup_fmap, Hc. by destruct c.
Qed.

(** ** The life cycle *)

(** C1: The state file goes through the life cycle: it is absent until one of the
    create commands has written the state [creating] of the container, then it
    holds the states [created], [running] and [stopped] of that container one
    after the other, and it can only be removed in between; at every moment of
    every execution it holds exactly one of these states.  The container does not
    exist at the beginning, and the pid files are not in its directory. *)
Theorem concurrent_lifecycle tr :
  boot_ok -> execution CR (boot Root Id f cmds) tr ->
  exists path, life_path Id None path /\
    Forall2 (λ s a, k_files (s_kernel s) !! SF = (λ st, Reg (State_print st)) <$> a) (tr.*2) path.
Proof. intros Hok Hex. by eapply safe_path; [apply boot_safe|]. Qed.

(** ** Running the module *)

Lemma rok_execute_inv ro T fn (F : bool -> role) :
  rok Root Id (is_bundle) ro T (Wm (VmExecute fn)) F ->
  exists o s, ro = Owner o /\ o_phase o = Some (PhRunning s).
Proof.
  enough (forall c F, rok Root Id is_bundle ro T c F ->
    match c with
    | Wm (VmExecute fn) => exists o s, ro = Owner o /\ o_phase o = Some (PhRunning s)
    | _ => True
    end) as H by exact (H (Wm (VmExecute fn)) F).
  intros c F' Hok. destruct Hok as [? ? c [_ Hc]| | | | | | | | | | | | | | | | | | | |]; try done.
  - by destruct c as [[]|[]|[]|[]|].
  - eauto.
Qed.

(** A step that is a call of a process. *)
Lemma call_role t s a pid c r s' :
  safe Root Id is_bundle is_start is_guest t s a -> sys_step CR s (LCall pid (existT (P := resp) c r)) s' ->
  exists ro T F tok roles pipes, inv Root Id is_bundle is_start is_guest t s a tok roles pipes /\
    roles !! pid = Some ro /\ rok Root Id is_bundle ro T c F.
Proof.
  intros [(tok & roles & pipes & Hinv) _] Hstep.
  assert (exists k T, s_procs s !! pid = Some (Process (Call c k) T)) as (k & T & Hp).
  { remember (LCall pid (existT (P := resp) c r)) as l eqn:Hl.
    destruct Hstep; try done; injection Hl as -> He; subst c; eauto. }
  destruct (iv_wp _ _ _ _ _ _ _ _ _ _ _ Hinv _ _ Hp) as (ro & Hro & F & Hok & _).
  exists ro, T, F, tok, roles, pipes. done.
Qed.

(** C6: A module runs only after one of the start commands has opened the FIFO of
    the container for writing. *)
Theorem concurrent_start tr1 pid fn r s tr2 :
  boot_ok ->
  execution CR (boot Root Id f cmds)
    (tr1 ++ (LCall pid (existT (P := resp) (Wm (VmExecute fn)) r), s) :: tr2) ->
  exists pid' Cfg flags r',
    cmds !! pid' = Some (CmdStart Cfg) /\ opens_write flags = true /\ 0 <= ret r' /\
    LCall pid' (existT (P := resp) (Px (Open FF flags)) r') ∈ labels tr1.
Proof.
  intros Hok Hex. destruct (safe_at _ _ _ _ _ _ _ _ _ _ _ _ (boot_safe Hok) Hex) as (s0 & b & Hs & Hstep).
  destruct (call_role _ _ _ _ _ _ _ Hs Hstep) as (ro & T & F & tok & roles & pipes & Hinv & Hro & Hrok).
  apply rok_execute_inv in Hrok as (o & st & -> & Hph).
  destruct (iv_woken _ _ _ _ _ _ _ _ _ _ _ Hinv _ _ _ Hro Hph I) as (pid' & flags & r' & [Cfg Hc] & ? & ? & ?).
  by exists pid', Cfg, flags, r'.
Qed.

(** ** Sending signals *)

Lemma rok_kill_inv ro T pid sig (F : sysret -> role) :
  rok Root Id is_bundle ro T (Px (Kill pid sig)) F ->
  exists e s, ro = Loaded (inr e) /\ load_document e default_State = (s, true) /\
    has_pid (Status s) = true /\ Pid s = pid.
Proof.
  enough (forall c F, rok Root Id is_bundle ro T c F ->
    match c with
    | Px (Kill pid sig) => exists e s, ro = Loaded (inr e) /\ load_document e default_State = (s, true) /\
        has_pid (Status s) = true /\ Pid s = pid
    | _ => True
    end) as H by exact (H (Px (Kill pid sig)) F).
  intros c F' Hok. destruct Hok as [? ? c [_ Hc]| | | | | | | | | | | | | | | | | | | |]; try done.
  - by destruct c as [[]|[]|[]|[]|].
  - eauto 10.
Qed.

Lemma good_load `{!SimdjsonLaws} t st e s :
  text_ok Id = true -> (forall b, is_bundle b -> text_ok b = true) ->
  good Root Id is_bundle t st -> parse (State_print st) = inr e ->
  load_document e default_State = (s, true) -> has_pid (Status s) = true ->
  has_pid (Status st) = true /\ Pid s = Pid st.
Proof.
  intros HId Hb [Hok Hlen Hid Hbun Hst _] Hpar Hload Hp.
  destruct (state_text_loads st) as (doc & Hdoc & Hl); [|done..|].
  - apply Hok; [by rewrite Hid|by apply Hb].
  - rewrite Hpar in Hdoc. injection Hdoc as <-. rewrite Hl in Hload. injection Hload as <-.
    cbn in *. by rewrite Hp.
Qed.

(** Every call is made by a process with a number that fits a [pid_t]. *)
Lemma execution_pids s tr pid e :
  execution CR s tr -> (forall pid, is_Some (s_procs s !! pid) -> in_type Int32 pid) ->
  LCall pid e ∈ labels tr -> in_type Int32 pid.
Proof.
  intros Hex. induction Hex as [s|s l s1 tr Hstep Hex IH]; intros Hs Hin; [by apply elem_of_nil in Hin|].
  apply elem_of_cons in Hin as [Heq|Hin].
  - cbn in Heq. destruct Hstep; simplify_eq; apply Hs; eauto.
  - apply IH; [|done]. clear IH Hin Hex. intros pid'. destruct Hstep; cbn [s_procs]; try apply Hs.
    all: try (intros [p' [[<- _]|[_ H']]%lookup_insert_Some]; apply Hs; by eauto).
    intros [p' [[<- _]|[_ [[<- _]|[_ H']]%lookup_insert_Some]]%lookup_insert_Some];
      [by subst|apply Hs; by eauto..].
Qed.

(** C9: every signal a kill command sends goes to a process of the container: a
    process that has itself put the state file in place. The id of the container and
    the paths of the bundles are texts that survive JSON: UTF-8, without control
    characters other than the five that are escaped. *)
Theorem concurrent_kill `{!SimdjsonLaws} tr1 pid target sig r s tr2 :
  boot_ok -> text_ok Id = true -> (forall b, is_bundle b -> text_ok b = true) ->
  execution CR (boot Root Id f cmds)
    (tr1 ++ (LCall pid (existT (P := resp) (Px (Kill target sig)) r), s) :: tr2) ->
  exists tmp, LCall target (existT (P := resp) (Fs (FsRename tmp SF)) 0) ∈ labels tr1.
Proof.
  intros Hok HId Hb Hex. destruct (safe_at _ _ _ _ _ _ _ _ _ _ _ _ (boot_safe Hok) Hex) as (s0 & b & Hs & Hstep).
  destruct (call_role _ _ _ _ _ _ _ Hs Hstep) as (ro & T & F & tok & roles & pipes & Hinv & Hro & Hrok).
  apply rok_kill_inv in Hrok as (e & st & -> & Hload & Hp & <-).
  destruct (iv_loaded _ _ _ _ _ _ _ _ _ _ _ Hinv _ _ Hro) as (st0 & Hpar & Hgood).
  destruct (good_load _ _ _ _ HId Hb Hgood Hpar Hload Hp) as [Hp0 Hpid].
  destruct (gd_author _ _ _ _ _ Hgood Hp0) as (pid0 & tmp & Hpid0 & Hin). exists tmp.
  rewrite Hpid, Hpid0. cbn [app] in Hin. rewrite to_int32_id; [done|].
  eapply execution_pids with (s := boot Root Id f cmds); [exact Hex| |].
  - intros pid' [p Hp']. cbn in Hp'. rewrite lookup_fmap in Hp'. apply (bo_pids Hok).
    by destruct (cmds !! pid').
  - unfold labels in *. rewrite fmap_app. apply elem_of_app. by left.
Qed.

End Concurrent.
