(* ===== verification/Observe.v ===== *)
(** What a state command prints while others work on the container. *)
From S2P Require Import Prelude Cpp Signals Path Json JsonRef Prog Logic FileOps Loader Bundle Time State.
From S2P Require Import StateProps SDBus CGroup Container Lifecycle Commands Kernel.
From S2P Require Import Roles RolesInv RolesStep RolesProg Concurrent.

Section Observe.
Context `{SJ : Simdjson} (Root Id : string) (f : files) (cmds : gmap Z command).

Local Abbreviation CR := (container_dir Root Id).
Local Abbreviation SF := (state_file Root Id).

(** What a state command may do: it prints what it has read from the state file
    last, and a newline. *)
Definition print_step (read : option string) (e : event) (read' : option string) : Prop :=
  match projT1 e as c return resp c -> Prop with
  | Fs (IfstreamRead p _) => λ o, p = SF /\ read' = o
  | Fs (Cout text) => λ _, read' = read /\
      exists u, read = Some u /\ u <> EmptyString /\ text = u +:+ chr "010"
  | _ => λ _, read' = read
  end (projT2 e).

Lemma print_step_read o t o' :
  steps print_step o t o' ->
  o' = o \/ exists n, (existT (P := resp) (Fs (IfstreamRead SF n)) o' : event) ∈ t.
Proof.
  induction 1 as [|o e o1 t o2 Hstep _ [->|[n Hin]]]; [by left| |right; exists n; by right].
  destruct e as [c r]. destruct c as [[]|[]|[]|[]|]; cbn in Hstep; auto.
  - destruct Hstep as [-> ->]. right. exists n. by left.
  - left. apply Hstep.
Qed.

Lemma doState_prints_read : accepts print_step None (doState Root Id) (λ _ _, True).
Proof.
  unfold doState, is_directory. apply accepts_bind, accepts_call. intros [ty err]. eexists. split; [done|].
  cbn [mret prog_mret accepts]. destruct (bool_decide _); [|done]. cbn [ensure].
  unfold FileOps.readAll, is_regular_file. apply accepts_bind, accepts_bind, accepts_call. intros [ty2 err2].
  eexists. split; [done|]. cbn [mret prog_mret accepts]. destruct (_ || _); [done|].
  apply accepts_call. intros [Size err3]. eexists. split; [done|]. destruct (negb _); [done|].
  apply accepts_call. intros o. exists o. split; [done|]. destruct o as [u|]; cbn [mret prog_mret accepts]; [|done].
  destruct (is_empty u) eqn:Hu; cbn [negb ensure]; [done|]. apply accepts_call. intros r. exists (Some u).
  split; [|done]. split; [done|]. exists u. split_and!; [done| |done]. by intros ->.
Qed.

(** An event of a process is a step of the execution. *)
Lemma events_of_elem pid e t : e ∈ events_of pid t -> LCall pid e ∈ t.
Proof.
  unfold events_of. intros (l & Hl & He)%list_elem_of_omap. destruct l as [pid' e'|]; [|done].
  case_decide; by simplify_eq.
Qed.

(** Reading a file gives the beginning of what is in it, and changes nothing. *)
Lemma step_read s l s' :
  sys_step CR s l s' ->
  match l with
  | LCall _ e =>
      match projT1 e as c return resp c -> Prop with
      | Fs (IfstreamRead p n) => λ o,
          k_files (s_kernel s') = k_files (s_kernel s) /\
          (o <> None -> k_files (s_kernel s) !! p <> None) /\
          forall t u, k_files (s_kernel s) !! p = Some (Reg t) -> o = Some u -> initial_part u t
      | _ => λ _, True
      end (projT2 e)
  | LSilent => True
  end.
Proof.
  destruct 1 as [s pid c k T r T' k' _ _ _ Hf _| | | | | | |]; try done.
  destruct c as [[]| | | |]; cbn; try done. destruct Hf as [(Hf & Ho & Hr) _]. split_and!; [done|done|].
  intros t u Ht Hu. rewrite (Hr t u Ht Hu). exists (String.substring (Z.to_nat n) (String.length t) t).
  rewrite substring_split, substring_full by lia. done.
Qed.

(** C11: A state command prints the beginning of a state of the container and a
    newline: at some moment before, the text of that state was the whole state
    file.  (It can be a proper part: [state_prints_part].) *)
Theorem concurrent_state tr1 pid text r s tr2 :
  boot_ok Root Id f cmds -> cmds !! pid = Some CmdState ->
  execution CR (boot Root Id f cmds)
    (tr1 ++ (LCall pid (existT (P := resp) (Fs (Cout text)) r), s) :: tr2) ->
  exists u st s1, text = u +:+ chr "010" /\ u <> EmptyString /\ initial_part u (State_print st) /\
    ContainerId st = Id /\ s1 ∈ tr1.*2 /\ k_files (s_kernel s1) !! SF = Some (Reg (State_print st)).
Proof.
  intros Hok Hc Hex.
  destruct (execution_accepts CR print_step pid (Process (doState Root Id) std_fds) None (λ _ _, True) _ _ Hex)
    as (_ & o & _ & Hsteps & _); [cbn; by rewrite lookup_fmap, Hc|apply doState_prints_read|].
  unfold labels in Hsteps. rewrite fmap_app in Hsteps. unfold events_of in Hsteps. rewrite omap_app in Hsteps.
  apply steps_app in Hsteps as (o1 & Hs1 & Hs2). cbn in Hs2. rewrite decide_True in Hs2 by done.
  inversion Hs2 as [|? ? ? ? ? Hprint _]; subst. destruct Hprint as [_ (u & -> & Hu & ->)].
  apply print_step_read in Hs1 as [?|[n Hin]]; [done|]. apply events_of_elem in Hin.
  apply list_elem_of_fmap in Hin as ([l s1] & Hl & Hin). cbn [fst] in Hl. subst l.
  apply list_elem_of_split in Hin as (tra & trb & ->). rewrite <- app_assoc in Hex. cbn [app] in Hex.
  destruct (safe_at _ _ _ _ _ _ _ _ _ _ _ _ (boot_safe _ _ _ _ Hok) Hex) as (s0 & a & [(tok & roles & pipes & Hinv) _] & Hstep).
  apply step_read in Hstep. cbn [projT1 projT2] in Hstep. destruct Hstep as (Heq & Hne & Hread).
  rewrite (iv_view _ _ _ _ _ _ _ _ _ _ _ Hinv) in Hne, Hread. destruct a as [st|]; [|by destruct Hne].
  exists u, st, s1. split_and!; [done|done|by apply Hread| |set_solver|].
  - by destruct (iv_good _ _ _ _ _ _ _ _ _ _ _ Hinv st eq_refl).
  - rewrite Heq. apply (iv_view _ _ _ _ _ _ _ _ _ _ _ Hinv).
Qed.

End Observe.
