(* ===== verification/Starts.v ===== *)
(** Start commands that race: at most as many of them succeed as there are
    create commands.  A start succeeds only after it has removed the name of
    the FIFO, which takes effect once for every FIFO that was made, and a
    create command makes at most one FIFO. *)
From S2P Require Import Prelude Cpp Signals Path Json JsonRef Prog Logic FileOps Loader Bundle Time State.
From S2P Require Import StateProps SDBus CGroup Container Descriptors Lifecycle Commands Kernel.
From S2P Require Import Roles RolesInv RolesStep RolesProg Concurrent.

(** ** How many FIFOs a program makes *)

Section Budget.
Context `{SJ : Simdjson}.

Definition is_mkfifo (c : call) : bool := match c with Px (Mkfifo _ _) => true | _ => false end.
Definition is_fork (c : call) : bool := match c with Px Fork => true | _ => false end.

(** The program makes at most [n] FIFOs, and none after a fork. *)
Fixpoint at_most {A} (p : prog A) (n : nat) : Prop :=
  match p with
  | Call c k =>
      if is_mkfifo c then exists m, n = S m /\ forall r, at_most (k r) m
      else if is_fork c then forall r, at_most (k r) 0
      else forall r, at_most (k r) n
  | _ => True
  end.

Lemma at_most_none {A} (p : prog A) n : all_calls (λ c, is_mkfifo c = false) p -> at_most p n.
Proof.
  revert n. induction p as [a|c k IH| | | |]; intros n Hp; cbn in *; try done.
  destruct Hp as [-> Hk]. destruct (is_fork c); auto.
Qed.

Lemma at_most_0 {A} (p : prog A) n : at_most p 0 -> at_most p n.
Proof.
  revert n. induction p as [a|c k IH| | | |]; intros n Hp; cbn in *; try done.
  destruct (is_mkfifo c); [by destruct Hp as (m & ? & _)|]. destruct (is_fork c); auto.
Qed.

Lemma at_most_after {A B} (p : prog A) (f : A -> prog B) n :
  all_calls (λ c, is_mkfifo c = false /\ is_fork c = false) p -> (forall a, at_most (f a) n) ->
  at_most (p ≫= f) n.
Proof.
  intros Hp Hf. induction p as [a|c k IH| | | |]; cbn in *; try done. destruct Hp as [[-> ->] Hk].
  intros r. by apply IH.
Qed.

Lemma at_most_before {A B} (p : prog A) (f : A -> prog B) n :
  at_most p n -> (forall a, at_most (f a) 0) -> at_most (p ≫= f) n.
Proof.
  intros Hp Hf. revert n Hp. induction p as [a|c k IH| | | |]; intros n Hp; cbn in *; try done.
  { by apply at_most_0. }
  destruct (is_mkfifo c).
  - destruct Hp as (m & -> & Hk). exists m. split; [done|]. intros r. by apply IH.
  - destruct (is_fork c); intros r; by apply IH.
Qed.

Lemma at_most_mkfifo {A} p m (f : sysret -> prog A) :
  (forall r, all_calls (λ c, is_mkfifo c = false) (f r)) -> at_most (do_call (Px (Mkfifo p m)) ≫= f) 1.
Proof. intros Hf. exists 0%nat. split; [done|]. intros r. exact (at_most_none (f r) 0 (Hf r)). Qed.

(** Everything but [create_body] makes none. *)
Local Abbreviation plain := (λ c, is_mkfifo c = false /\ is_fork c = false).
Local Abbreviation none := (λ c, is_mkfifo c = false).

Lemma plain_none {A} (p : prog A) : all_calls plain p -> all_calls none p.
Proof. apply all_calls_mono. by intros c []. Qed.

Lemma ordinary_plain {A} (p : prog A) : all_calls (λ c, ordinary c = true) p -> all_calls plain p.
Proof. apply all_calls_mono. by intros [|[]| | |]. Qed.

Lemma enter_namespaces_plain b : all_calls plain (enter_namespaces b).
Proof.
  assert (forall l f, all_calls plain (collect_namespaces l f)) as Hc.
  { induction l as [|Desc l IH]; intros f; cbn [collect_namespaces]; [done|].
    unfold UpdateFlags. calls_walk; try done. by destruct (namespace_flag _). }
  assert (forall l, all_calls plain (join_namespaces l)) as Hj
    by (induction l as [|[] l IH]; cbn [join_namespaces]; calls_walk; done).
  unfold enter_namespaces. calls_walk; done.
Qed.

Lemma run_container_plain fuel Cid PidFile s SFile fd : all_calls plain (run_container fuel Cid PidFile s SFile fd).
Proof.
  unfold run_container, wait_exec_fifo, ensure.
  calls_walk; try done; try apply enter_namespaces_plain; apply ordinary_plain;
    auto using publish_ordinary, setCreated_ordinary, enter_ordinary, execute_ordinary.
  by apply atomicCreate_ordinary.
Qed.

Lemma doRunInternal_none fuel Cid PidFile s SFile fd : all_calls none (doRunInternal fuel Cid PidFile s SFile fd).
Proof.
  unfold doRunInternal, prepare_wasi, compile_module, compile_child, wait_compiler, ensure.
  calls_walk; try done; [by destruct (Args _)| |apply plain_none, run_container_plain].
  induction (Cmds (Config s)); cbn [for_each_call]; calls_walk; done.
Qed.

Lemma create_fork_none fuel Id PidFile Console s SFile fd : all_calls none (create_fork fuel Id PidFile Console s SFile fd).
Proof.
  unfold create_fork, create_parent, create_daemon, connect_console, scope_exit, close_fd.
  calls_walk; try done; [|apply doRunInternal_none]. by destruct (bytes_int _).
Qed.

Lemma doCreate_one fuel Root Systemd Cfg Id Path Console PidFile :
  at_most (doCreate fuel Root Systemd Cfg Id Path Console PidFile) 1.
Proof.
  unfold doCreate, create_body, ensure. apply at_most_after; [by apply all_calls_do|].
  intros [[] err]; [|done]. apply at_most_before; [|intros [code ?]; done]. unfold scope_exit.
  apply at_most_before.
  2:{ intros [code []]; [done|]. apply at_most_none. calls_walk. done. }
  apply at_most_after; [unfold loadBundle, Bundle_load; calls_walk; done|].
  intros [s []]; [|done]. cbn [negb]. apply at_most_after; [by apply ordinary_plain, atomicCreate_ordinary|].
  intros []; [|done]. cbn [negb]. apply at_most_mkfifo. intros r.
  destruct (ret r <? 0); [done|]. calls_walk; [done|apply create_fork_none|].
  unfold close_fd. calls_walk. done.
Qed.

End Budget.

(** ** Counting *)

Section Starts.
Context `{SJ : Simdjson} (Root Id : string) (f : files) (cmds : gmap Z command).

Local Abbreviation CR := (container_dir Root Id).
Local Abbreviation FF := (exec_fifo Root Id).

(** The processes that have made a call. *)
Definition callers (P : event -> bool) (t : list label) : list Z :=
  omap (λ l, match l with LCall pid e => if P e then Some pid else None | LSilent => None end) t.

Lemma callers_count P t : length (callers P t) = count_calls P t.
Proof.
  unfold count_calls. induction t as [|[pid e|] t IH]; [done| |]; rewrite filter_cons; cbn [call_of].
  - unfold callers in *. cbn [omap list_omap]. destruct (P e) eqn:HP.
    + rewrite decide_True by done. cbn [length]. by rewrite IH.
    + rewrite decide_False by congruence. exact IH.
  - exact IH.
Qed.

Lemma events_callers P pid e t : e ∈ events_of pid t -> P e = true -> pid ∈ callers P t.
Proof.
  unfold events_of, callers. rewrite !list_elem_of_omap. intros (l & Hl & He) HP. exists l. split; [done|].
  destruct l as [pid' e'|]; [|done]. destruct (decide (pid' = pid)) as [->|]; [|done].
  injection He as ->. by rewrite HP.
Qed.

Definition is_create (c : command) : bool := match c with CmdCreate _ _ _ _ _ _ => true | _ => false end.
Definition creates : gmap Z command := filter (λ kc, is_create kc.2 = true) cmds.

(** Every process has made no more FIFOs than its program could. *)
Record makers_ok (t : list label) (s : system) : Prop := {
  mk_nodup : NoDup (callers (made_fifo Root Id) t);
  mk_create pid : pid ∈ callers (made_fifo Root Id) t -> pid ∈ dom creates;
  mk_left pid p : s_procs s !! pid = Some p ->
    at_most (p_prog p)
      (if decide (pid ∈ dom creates /\ pid ∉ callers (made_fifo Root Id) t) then 1 else 0);
}.

Lemma makers_boot : makers_ok [] (boot Root Id f cmds).
Proof.
  split; [constructor|by intros ? ?%elem_of_nil|].
  intros pid p (c & <- & Hc)%lookup_fmap_Some. cbn [p_prog].
  destruct c; cbn [command_prog];
    [|apply at_most_none; unfold doStart, doKill, doState, State_load, loadBundle, Bundle_load,
        is_directory, is_regular_file, FileOps.readAll, scope_exit, close_fd, is_regular_file, ensure;
      calls_walk; try done; by destruct (parseSignal _)..].
  rewrite decide_True; [apply doCreate_one|]. split; [|by apply not_elem_of_nil].
  apply elem_of_dom. exists (CmdCreate fuel Systemd Cfg Path Console PidFile).
  by apply map_lookup_filter_Some.
Qed.

Lemma callers_app P t l : callers P (t ++ [l]) = callers P t ++ callers P [l].
Proof. apply omap_app. Qed.

(** A process goes on, without making a FIFO. *)
Lemma makers_same t s l ps :
  makers_ok t s -> callers (made_fifo Root Id) [l] = [] ->
  (forall pid p, ps !! pid = Some p -> at_most (p_prog p) 0 \/ exists p0, s_procs s !! pid = Some p0 /\
     forall n, at_most (p_prog p0) n -> at_most (p_prog p) n) ->
  forall k, makers_ok (t ++ [l]) (System k ps).
Proof.
  intros [H1 H2 H3] Hl Hps k. split; rewrite callers_app, Hl, app_nil_r; [done|done|].
  intros pid p Hp. cbn in Hp. destruct (Hps pid p Hp) as [H0|(p0 & Hp0 & Himp)]; [by apply at_most_0|].
  apply Himp. by apply H3.
Qed.

Lemma makers_move t s l pid p0 p k :
  makers_ok t s -> s_procs s !! pid = Some p0 -> callers (made_fifo Root Id) [l] = [] ->
  (forall n, at_most (p_prog p0) n -> at_most (p_prog p) n) ->
  makers_ok (t ++ [l]) (System k (<[pid := p]> (s_procs s))).
Proof.
  intros Hm Hp Hl Himp. eapply makers_same; [done|done|].
  intros pid' p' [[<- <-]|[_ H]]%lookup_insert_Some; right; eauto.
Qed.

Lemma makers_keep t s l k :
  makers_ok t s -> callers (made_fifo Root Id) [l] = [] -> makers_ok (t ++ [l]) (System k (s_procs s)).
Proof. intros Hm Hl. eapply makers_same; [done|done|]. intros pid' p' H. right; eauto. Qed.

(** A process makes a FIFO, or tries to. *)
Lemma makers_mkfifo t s pid c k T r T' k' :
  makers_ok t s -> s_procs s !! pid = Some (Process (Call c k) T) -> is_mkfifo c = true ->
  makers_ok (t ++ [LCall pid (existT (P := resp) c r)]) (System k' (<[pid := Process (k r) T']> (s_procs s))).
Proof.
  intros [H1 H2 H3] Hp Hmk. pose proof (H3 _ _ Hp) as Hn. cbn in Hn. rewrite Hmk in Hn.
  destruct Hn as (m & Hn & Hk). destruct (decide _) as [[Hcr Hno]|]; [|done]. injection Hn as <-.
  assert (callers (made_fifo Root Id) [LCall pid (existT (P := resp) c r)] = [] \/
    callers (made_fifo Root Id) [LCall pid (existT (P := resp) c r)] = [pid]) as Hcase.
  { cbn. destruct (made_fifo _ _ _); auto. }
  split; rewrite callers_app.
  - destruct Hcase as [-> | ->]; [by rewrite app_nil_r|]. apply NoDup_app. split_and!; [done| |apply NoDup_singleton].
    intros x Hx ->%list_elem_of_singleton. done.
  - intros pid'. destruct Hcase as [-> | ->]; [rewrite app_nil_r; auto|].
    rewrite elem_of_app, list_elem_of_singleton. intros [| ->]; auto.
  - cbn [s_procs]. intros pid' p' [[<- <-]|[Hne H]]%lookup_insert_Some; [apply at_most_0, Hk|].
    specialize (H3 _ _ H). destruct (decide (pid' ∈ dom creates /\ pid' ∉ callers _ t)) as [[Hc Hnc]|];
      [|by apply at_most_0]. rewrite decide_True; [done|]. split; [done|].
    destruct Hcase as [-> | ->]; [by rewrite app_nil_r|]. rewrite elem_of_app, list_elem_of_singleton. naive_solver.
Qed.

Lemma makers_step t s l s' : makers_ok t s -> sys_step CR s l s' -> makers_ok (t ++ [l]) s'.
Proof.
  intros Hm Hstep.
  destruct Hstep as [s pid c k T r T' k' Hp Hc Hl Hf Hch|s pid k T r ? Hp Hr _ -> Hnone|s pid k T r Hp Hr
    |s pid p k T q ? Hp Hu Hq -> Hrt|s pid p k T ? Hp Hnone -> Hrt|s pid p k T err Hp Herr|s pid p status Hp|s f' Hf].
  - destruct (is_mkfifo c) eqn:Hmk; [by eapply makers_mkfifo|].
    eapply makers_move; [done|exact Hp|by destruct c as [|[]| | |]|]. intros n. cbn. rewrite Hmk.
    replace (is_fork c) with false by (by destruct c as [|[]| | |]). auto.
  - eapply makers_same; [done|done|].
    intros pid' p' [[<- <-]|[_ [[<- <-]|[_ H]]%lookup_insert_Some]]%lookup_insert_Some; [..|right; eauto].
    all: left; pose proof (mk_left _ _ Hm _ _ Hp) as Hn; apply Hn.
  - eapply makers_move; [done|exact Hp|done|]. intros n Hn. apply at_most_0, Hn.
  - by apply makers_keep.
  - eapply makers_move; [done|exact Hp|done|]. cbn. auto.
  - eapply makers_move; [done|exact Hp|done|]. cbn. auto.
  - by eapply makers_move.
  - by apply makers_keep.
Qed.

Lemma makers_execution t s tr : makers_ok t s -> execution CR s tr -> makers_ok (t ++ labels tr) (final s tr).
Proof.
  intros Hm Hex. revert t Hm. induction Hex as [s|s l s1 tr Hstep Hex IH]; intros t Hm.
  { by rewrite app_nil_r. }
  unfold labels. cbn [fmap list_fmap fst final]. rewrite cons_middle, (assoc_L (++)). by apply IH, (makers_step _ s).
Qed.

Definition present (x : option node) : nat := match x with Some _ => 1 | None => 0 end.

(** The name of the FIFO is removed at most once after it was made. *)
Lemma unlinks_bounded t s a tr :
  safe Root Id (is_bundle cmds) (is_start cmds) (is_guest cmds) t s a -> execution CR s tr ->
  (count_calls (unlinked_fifo Root Id) t + present (k_files (s_kernel s) !! FF) <=
    count_calls (made_fifo Root Id) t)%nat ->
  (count_calls (unlinked_fifo Root Id) (t ++ labels tr) <= count_calls (made_fifo Root Id) (t ++ labels tr))%nat.
Proof.
  intros Hs Hex. revert t a Hs. induction Hex as [s|s l s1 tr Hstep Hex IH]; intros t a Hs Hle.
  { unfold labels. cbn [fmap list_fmap]. rewrite app_nil_r. lia. }
  destruct (safe_step _ _ _ _ _ _ _ _ _ _ Hs Hstep) as (b & Hb & _).
  destruct Hs as [(tok & roles & pipes & Hinv) Hff].
  pose proof (fifo_step _ _ _ _ _ _ _ _ _ _ _ _ _ Hinv Hff Hstep) as Hch.
  unfold labels. cbn [fmap list_fmap fst]. rewrite cons_middle, (assoc_L (++)).
  apply (IH _ _ Hb). rewrite !count_calls_app. clear IH Hex Hb.
  destruct l as [pid e|]; cbn [call_of].
  - destruct Hch as [[-> Hu]|[(Hx & -> & Hm & Hu)|(Hx & -> & Hu)]].
    + rewrite Hu. cbn [Nat.b2n]. lia.
    + rewrite Hm, Hu. rewrite Hx in Hle. cbn [Nat.b2n present] in *. lia.
    + rewrite Hu. destruct (k_files (s_kernel s) !! FF); [|done]. cbn [Nat.b2n present] in *. lia.
  - cbn [Nat.b2n]. destruct Hch as [->| ->]; cbn [present]; lia.
Qed.

(** A start command that succeeds has removed the name of the FIFO. *)
Definition start_post (code : Z) (h : list event) : Prop :=
  code = EXIT_SUCCESS -> exists e, e ∈ h /\ unlinked_fifo Root Id e = true.

Lemma doStart_unlinks Cfg h : accepts hist_step h (doStart Root Cfg Id) start_post.
Proof.
  unfold doStart, is_regular_file. cbn zeta.
  eapply accepts_seq; [apply (accepts_hist_any _ _ (λ _ _, True)); done|]. intros [[] err] h1 _; [|done].
  cbn [ensure]. eapply accepts_seq; [apply (accepts_hist_any _ _ (λ _ _, True)); done|].
  intros [s []] h2 _; [|done]. cbn [ensure]. apply accepts_hist_call. intros r3.
  unfold scope_exit. eapply accepts_seq with (P := start_post).
  - destruct (ret r3 <? 0); [done|]. apply accepts_hist_call. intros r4.
    destruct (Z.ltb_spec (ret r4) 0) as [|Hr]; [done|].
    apply accepts_hist_call. intros r5. destruct (ret r5 <? 0); [done|].
    apply accepts_hist_call. intros r6 _. eexists (existT (P := resp) (Px (Unlink FF)) r4).
    split; [set_solver|]. unfold unlinked_fifo. cbn. rewrite String.eqb_refl. cbn. by apply Z.leb_le.
  - intros code h' Hcode. unfold close_fd. destruct (0 <=? ret r3); [|done].
    apply accepts_bind, accepts_hist_call. intros r7 Hsucc. destruct (Hcode Hsucc) as (e & He & Hu).
    exists e. set_solver.
Qed.

(** C19: However many start commands run at the same time, at most as many succeed as
    there are create commands. *)
Theorem concurrent_start_once tr winners :
  boot_ok Root Id f cmds -> execution CR (boot Root Id f cmds) tr -> NoDup winners ->
  (forall pid, pid ∈ winners -> is_start cmds pid /\
     exists T, s_procs (final (boot Root Id f cmds) tr) !! pid = Some (Process (Ret EXIT_SUCCESS) T)) ->
  (length winners <= size creates)%nat.
Proof.
  intros Hok Hex Hnd Hwin. set (t := labels tr).
  assert (winners ⊆ callers (unlinked_fifo Root Id) t) as Hsub.
  { intros pid Hpid. destruct (Hwin pid Hpid) as ([Cfg Hc] & T & Hfin).
    destruct (execution_accepts CR hist_step pid (Process (doStart Root Cfg Id) std_fds) [] start_post _ tr Hex)
      as (p' & h & Hp' & ->%steps_hist & Hacc); [cbn; by rewrite lookup_fmap, Hc|apply doStart_unlinks|].
    rewrite Hfin in Hp'. injection Hp' as <-. destruct (Hacc eq_refl) as (e & He & Hu). by eapply events_callers. }
  assert (length winners <= length (callers (unlinked_fifo Root Id) t))%nat as H1
    by (by apply submseteq_length, NoDup_submseteq).
  pose proof (unlinks_bounded [] _ _ tr (boot_safe _ _ _ _ Hok) Hex) as H2.
  destruct (makers_execution [] _ tr makers_boot Hex) as [H3 H4 _].
  rewrite callers_count in H1. cbn [app] in *.
  assert (count_calls (made_fifo Root Id) t <= size creates)%nat as H5.
  { rewrite <- callers_count, <- size_dom, <- (size_list_to_set (C := gset Z)) by done.
    apply subseteq_size. intros pid Hp%elem_of_list_to_set. by apply H4. }
  cbn [boot s_kernel k_files] in H2. rewrite (bo_free _ _ _ _ Hok) in H2 by apply home_exec_fifo.
  specialize (H2 (le_n _)). subst t. lia.
Qed.

End Starts.
