(* ===== verification/Fair.v ===== *)
(** Fair executions.

    Infinite executions in which every process that can go on makes its call in
    the end.  Programs are finite trees, so a process ends unless it waits for
    ever. *)
From S2P Require Import Prelude Cpp Path Json Prog Logic Kernel.

Section Fair.
Context `{SJ : Simdjson} (Home : string).

(** The process is about to make a call that does not have to wait. *)
Definition can_go (s : system) (pid : Z) : Prop :=
  match s_procs s !! pid with
  | Some (Process (Call c _) T) =>
      match c with
      | Px (Select fd) => forall n, rd_chan (T !! fd) = Some n -> exists ch, k_chans (s_kernel s) !! n = Some ch /\
          ch_opened ch = true /\ (ch_data ch <> EmptyString \/ ~ has_writer (s_procs s) n)
      | Px (Read fd _) => forall n, rd_chan (T !! fd) = Some n -> exists ch, k_chans (s_kernel s) !! n = Some ch /\
          (ch_data ch <> EmptyString \/ ~ has_writer (s_procs s) n)
      | Px (Waitpid z) => exists p, s_procs s !! z = Some p /\ running p = false
      | _ => True
      end
  | _ => False
  end.

(** An infinite execution in which every process that can go on makes its call
    in the end, or cannot go on any more. *)
Record fair_run (s0 : system) (st : nat -> system) (lb : nat -> label) : Prop := {
  fr_start : st 0%nat = s0;
  fr_step i : sys_step Home (st i) (lb i) (st (S i));
  fr_fair pid i : exists j, (i <= j)%nat /\ (~ can_go (st j) pid \/ exists e, lb j = LCall pid e);
}.

(** The next call of a process, and its continuation, are determined. *)
Lemma call_inj c (k k' : resp c -> prog Z) T T' :
  Process (Call c k) T = Process (Call c k') T' -> k = k' /\ T = T'.
Proof. intros [= Hk ->]. split; [|done]. by apply (Eqdep_dec.inj_pair2_eq_dec _ call_eq_dec) in Hk. Qed.

Lemma label_inj pid pid' e e' : LCall pid e = LCall pid' e' -> pid = pid' /\ e = e'.
Proof. by intros [= -> ->]. Qed.

(** A step that is a call of a process. *)
Lemma own_step s pid c k T r s' :
  sys_step Home s (LCall pid (existT (P := resp) c r)) s' -> s_procs s !! pid = Some (Process (Call c k) T) ->
  match c as c return (resp c -> prog Z) -> resp c -> Prop with
  | Px Fork => λ k r, s_kernel s' = s_kernel s /\
      ((ret r < 0 /\ s_procs s' = <[pid := Process (k r) T]> (s_procs s)) \/
       (0 < ret r /\ s_procs s !! ret r = None /\
        s_procs s' = <[ret r := Process (k (SysRet 0 0)) T]> (<[pid := Process (k r) T]> (s_procs s))))
  | Fs (FsRemoveAll _) => λ k r, k_chans (s_kernel s') = k_chans (s_kernel s) /\
      s_procs s' = <[pid := Process (k r) T]> (s_procs s)
  | c => λ k r, exists T' k', local_answer Home T c r T' /\
      chans_answer pid (has_writer (s_procs s)) T (s_kernel s) c r T' k' /\
      s' = System k' (<[pid := Process (k r) T']> (s_procs s))
  end k r.
Proof.
  intros Hstep Hp. remember (LCall pid (existT (P := resp) c r)) as l eqn:Hl.
  destruct Hstep as [s pid' c' k1 T1 r1 T' k' Hp' Hc Hloc _ Hch|s pid' k1 T1 r1 child Hp' Hr _ -> Hn
    |s pid' k1 T1 r1 Hp' Hr| |s pid' p k1 T1 f' Hp' _ _ _|s pid' p k1 T1 err Hp' _| |]; try discriminate Hl;
    apply label_inj in Hl as [-> Hl];
    (assert (projT1 (existT (P := resp) c r) = c) as Hc' by done); rewrite <- Hl in Hc'; cbn [projT1] in Hc'; subst c;
    apply answer_inj in Hl as <-; rewrite Hp in Hp'; apply (inj Some) in Hp'; apply call_inj in Hp' as [-> ->].
  - destruct c' as [[]|[]| | |]; try discriminate Hc; exact (ex_intro _ T' (ex_intro _ k' (conj Hloc (conj Hch eq_refl)))).
  - split; [done|]. right. done.
  - split; [done|]. by left.
  - done.
  - done.
Qed.

(** Its descriptors after it. *)
Lemma own_fds s pid c k T r s' :
  sys_step Home s (LCall pid (existT (P := resp) c r)) s' -> s_procs s !! pid = Some (Process (Call c k) T) ->
  exists T', s_procs s' !! pid = Some (Process (k r) T') /\ (local_answer Home T c r T' \/ T' = T).
Proof.
  intros Hstep Hp. pose proof (own_step _ _ _ _ _ _ _ Hstep Hp) as H.
  assert ((exists T' k', local_answer Home T c r T' /\
      chans_answer pid (has_writer (s_procs s)) T (s_kernel s) c r T' k' /\
      s' = System k' (<[pid := Process (k r) T']> (s_procs s))) ->
    exists T', s_procs s' !! pid = Some (Process (k r) T') /\ (local_answer Home T c r T' \/ T' = T)) as Hsimple.
  { intros (T' & k' & Hl & _ & ->). exists T'. cbn [s_procs]. rewrite lookup_insert_eq. auto. }
  destruct c as [[]|[]| | |]; try exact (Hsimple H); clear Hsimple.
  - destruct H as [_ ->]. exists T. rewrite lookup_insert_eq. auto.
  - destruct H as [_ [[_ ->]|(_ & Hn & ->)]]; exists T; [by rewrite lookup_insert_eq; auto|].
    rewrite lookup_insert_ne, lookup_insert_eq by congruence. auto.
Qed.

(** What a step does to a process. *)
Lemma step_process s l s' pid c k T :
  sys_step Home s l s' -> s_procs s !! pid = Some (Process (Call c k) T) ->
  (s_procs s' !! pid = Some (Process (Call c k) T) /\ forall e, l <> LCall pid e) \/
  (exists r T', l = LCall pid (existT (P := resp) c r) /\ s_procs s' !! pid = Some (Process (k r) T')) \/
  (exists status, l = LSilent /\ s_procs s' !! pid = Some (Process (Exit status) T)).
Proof.
  intros Hstep Hp.
  assert (forall pid' c' (k' : resp c' -> prog Z) T1 r T2 (ps : gmap Z process),
    s_procs s !! pid' = Some (Process (Call c' k') T1) -> ps !! pid = s_procs s !! pid ->
    (<[pid' := Process (k' r) T2]> ps !! pid = Some (Process (Call c k) T) /\
       forall e, LCall pid' (existT (P := resp) c' r) <> LCall pid e) \/
    (exists r' T', LCall pid' (existT (P := resp) c' r) = LCall pid (existT (P := resp) c r') /\
       <[pid' := Process (k' r) T2]> ps !! pid = Some (Process (k r') T')) \/
    (exists status, LCall pid' (existT (P := resp) c' r) = LSilent /\
       <[pid' := Process (k' r) T2]> ps !! pid = Some (Process (Exit status) T))) as Hmove.
  { intros pid' c' k' T1 r T2 ps Hp' Hps. destruct (decide (pid' = pid)) as [->|Hne].
    - right; left. rewrite Hp in Hp'. injection Hp' as <- Hk <-.
      apply (Eqdep_dec.inj_pair2_eq_dec _ call_eq_dec) in Hk as <-. exists r, T2. by rewrite lookup_insert_eq.
    - left. rewrite lookup_insert_ne, Hps by done. split; [done|]. by intros e [= -> _]. }
  destruct Hstep; cbn [s_procs] in *; eauto.
  - subst child. rewrite insert_insert_ne by congruence. eapply Hmove; [done|].
    rewrite lookup_insert_ne by congruence. done.
  - destruct (decide (pid0 = pid)) as [->|Hne].
    + right; right. rewrite lookup_insert_eq. simplify_eq. by eexists.
    + left. by rewrite lookup_insert_ne.
Qed.

(** A process that has ended stays as it is. *)
Lemma step_ended s l s' pid p :
  sys_step Home s l s' -> s_procs s !! pid = Some p -> running p = false ->
  exists p', s_procs s' !! pid = Some p' /\ running p' = false.
Proof.
  intros Hstep Hp Hr.
  assert (forall pid' c (k : resp c -> prog Z) T p' (ps : gmap Z process),
    s_procs s !! pid' = Some (Process (Call c k) T) -> ps !! pid = s_procs s !! pid ->
    exists p1, <[pid' := p']> ps !! pid = Some p1 /\ running p1 = false) as Hmove.
  { intros pid' c k T p' ps Hp' Hps. exists p. rewrite lookup_insert_ne, Hps; [done|].
    intros ->. rewrite Hp in Hp'. by simplify_eq. }
  destruct Hstep; cbn [s_procs] in *; eauto.
  - subst child. rewrite insert_insert_ne by congruence. eapply Hmove; [done|].
    rewrite lookup_insert_ne by congruence. done.
  - destruct (decide (pid0 = pid)) as [->|Hne]; [rewrite lookup_insert_eq; eauto|].
    rewrite lookup_insert_ne by done. eauto.
Qed.

(** A FIFO that was opened for writing stays so. *)
Lemma step_opened s l s' n ch :
  sys_step Home s l s' -> k_chans (s_kernel s) !! n = Some ch -> ch_opened ch = true ->
  exists ch', k_chans (s_kernel s') !! n = Some ch' /\ ch_opened ch' = true.
Proof.
  intros Hstep Hn Ho. destruct Hstep as [s pid c k T r T' k' Hp Hc Hl Hf Hch| | | | | | |s k' Hf]; eauto.
  - destruct (chan_step _ _ _ _ _ _ _ _ _ _ Hch Hn) as (ch' & ? & ? & _). eauto.
  - destruct (oa_chans _ _ _ Hf n ch Hn) as (ch' & ? & ? & _). eauto.
Qed.

End Fair.

(** Calls that never wait, and make no process. *)
Definition quiet_call (c : call) : bool :=
  match c with Px Fork | Px (Select _) | Px (Read _ _) | Px (Waitpid _) => false | _ => true end.

Section Quiet.
Context `{SJ : Simdjson}.

Fixpoint quiet {A} (p : prog A) : Prop :=
  match p with
  | Call c k => quiet_call c = true /\ forall r, quiet (k r)
  | Fuel => False
  | _ => True
  end.

Lemma quiet_bind {A B} (p : prog A) (g : A -> prog B) : quiet p -> (forall a, quiet (g a)) -> quiet (p ≫= g).
Proof. intros Hp Hg. induction p as [a|c k IH| | | |]; cbn in *; try done. destruct Hp. auto. Qed.

End Quiet.

Ltac quiet_walk :=
  repeat first [apply quiet_bind; [|intros ?] | match goal with
    | |- quiet (do_call _) => split; [reflexivity|done]
    | |- quiet (mret _) => exact I
    | |- quiet (match ?x with _ => _ end) => destruct x
    end].

(** ** What happens in the end *)

Section Run.
Context `{SJ : Simdjson} (Home : string) (s0 : system) (st : nat -> system) (lb : nat -> label).
Context (Hrun : fair_run Home s0 st lb).

(** The process is at a call. *)
Definition at_call (i : nat) (pid : Z) (c : call) (k : resp c -> prog Z) (T : fds) : Prop :=
  s_procs (st i) !! pid = Some (Process (Call c k) T).

(** The call is made, or the process is killed, at step [m]. *)
Definition moves (pid : Z) (c : call) (k : resp c -> prog Z) (T : fds) (m : nat) : Prop :=
  (exists r T', lb m = LCall pid (existT (P := resp) c r) /\ s_procs (st (S m)) !! pid = Some (Process (k r) T')) \/
  (exists status, lb m = LSilent /\ s_procs (st (S m)) !! pid = Some (Process (Exit status) T)).

(** It stays at the call from [i] to [j]. *)
Definition stays (i : nat) (pid : Z) (c : call) (k : resp c -> prog Z) (T : fds) (j : nat) : Prop :=
  (forall j', (i <= j' <= j)%nat -> at_call j' pid c k T) /\
  (forall j' e, (i <= j' < j)%nat -> lb j' <> LCall pid e).

(** It stays until it moves. *)
Definition leaves (i : nat) (pid : Z) (c : call) (k : resp c -> prog Z) (T : fds) (m : nat) : Prop :=
  (i <= m)%nat /\ stays i pid c k T m /\ moves pid c k T m.

Lemma stays_or_leaves pid c k T i d :
  at_call i pid c k T ->
  stays i pid c k T (i + d) \/ exists m, (m < i + d)%nat /\ leaves i pid c k T m.
Proof.
  intros Hp. induction d as [|d [[IH Hno]|(m & Hm & IH)]].
  - left. split; [|lia]. intros j Hj. by replace j with i by lia.
  - destruct (step_process Home _ _ _ _ _ _ _ (fr_step _ _ _ _ Hrun (i + d)%nat) (IH (i + d)%nat ltac:(lia)))
      as [[H Hl]|H].
    + left. split.
      * intros j Hj. destruct (decide (j = S (i + d))) as [->|]; [done|]. apply IH. lia.
      * intros j e Hj. destruct (decide (j = i + d)%nat) as [->|]; [apply Hl|]. apply Hno. lia.
    + right. exists (i + d)%nat. split; [lia|]. split_and!; [lia|done..|exact H].
  - right. exists m. split; [lia|done].
Qed.

Lemma eventually_leaves pid c k T i J :
  at_call i pid c k T ->
  (forall j, (J <= j)%nat -> (i <= j)%nat -> stays i pid c k T j -> can_go (st j) pid) ->
  exists m, leaves i pid c k T m.
Proof.
  intros Hp Hgo. destruct (fr_fair _ _ _ _ Hrun pid (Nat.max i J)) as (j & Hij & Hj).
  destruct (stays_or_leaves pid c k T i (j - i) Hp) as [H|(m & _ & ?)]; [|by exists m].
  replace (i + (j - i))%nat with j in H by lia.
  assert (at_call j pid c k T) as Hat by (apply H; lia). exists j. split_and!; [lia|done|].
  destruct Hj as [Hj|[e He]]; [destruct Hj; apply Hgo; [lia|lia|done]|].
  destruct (step_process Home _ _ _ _ _ _ _ (fr_step _ _ _ _ Hrun j) Hat) as [[_ Hno]|Hm]; [by destruct (Hno e)|exact Hm].
Qed.

(** A call that never waits is made. *)
Lemma quiet_leaves pid c k T i :
  quiet_call c = true \/ c = Px Fork -> at_call i pid c k T -> exists m, leaves i pid c k T m.
Proof.
  intros Hc Hp. apply (eventually_leaves _ _ _ _ _ 0 Hp). intros j _ Hij [Hj _].
  unfold can_go. rewrite (Hj j) by lia.
  destruct Hc as [Hc| ->]; [|done]. by destruct c as [|[]| | |].
Qed.

Definition over (pid : Z) (j : nat) : Prop :=
  exists p, s_procs (st j) !! pid = Some p /\ running p = false.

Lemma over_stays pid i j : over pid i -> (i <= j)%nat -> over pid j.
Proof.
  intros Ho Hj. replace j with (i + (j - i))%nat by lia.
  induction (j - i)%nat as [|d (p & Hp & Hr)]; [by rewrite Nat.add_0_r|].
  rewrite Nat.add_succ_r. exact (step_ended Home _ _ _ _ _ (fr_step _ _ _ _ Hrun _) Hp Hr).
Qed.

Lemma quiet_ends pid p T i :
  quiet p -> s_procs (st i) !! pid = Some (Process p T) -> exists j, over pid j.
Proof.
  revert T i. induction p as [a|c k IH| | | |]; intros T i Hq Hp; try done; try (by exists i; eexists).
  destruct Hq as [Hc Hk]. destruct (quiet_leaves pid c k T i (or_introl Hc) Hp) as (m & _ & _ & Hm).
  destruct Hm as [(r & T' & _ & Hm)|(status & _ & Hm)]; [by eapply IH|].
  exists (S m), (Process (Exit status) T). done.
Qed.

End Run.
