(* ===== verification/Isolation.v ===== *)
(** Commands about one container leave the others alone.

    The theorems about concurrent commands are about one container.  Here the
    commands are about any other containers of the same root directory, [delete]
    included: whatever the order of their calls, no file of the container they
    are not about changes.  The ids of the containers are single path components
    ([plain_name]); the program does not check this, and an absolute id makes
    delete remove any directory. *)
From S2P Require Import Prelude Cpp Signals Path Json JsonRef Prog Logic FileOps Loader Bundle Time State.
From S2P Require Import StateProps SDBus CGroup Container Lifecycle Commands Kernel.
From S2P Require Import Roles RolesInv RolesProg Concurrent.

(** All the commands of runw. *)
Inductive any_command : Set :=
| Some_command (c : command)
| CmdDelete (Force : bool).

Definition any_prog `{SJ : Simdjson} (Root Id : string) (c : any_command) : prog Z :=
  match c with
  | Some_command c => command_prog Root Id c
  | CmdDelete Force => doDelete Root Id Force
  end.

(** Commands about one container are about to start. *)
Definition boot_any `{SJ : Simdjson} (Root Id : string) (f : files) (cmds : gmap Z any_command) : system :=
  System (Kernel f ∅ ∅) ((λ c, Process (any_prog Root Id c) std_fds) <$> cmds).

(** Commands, each with the container it is about, are about to start. *)
Definition boot_all `{SJ : Simdjson} (Root : string) (f : files) (cmds : gmap Z (string * any_command)) : system :=
  System (Kernel f ∅ ∅) ((λ c, Process (any_prog Root c.1 c.2) std_fds) <$> cmds).

(** ** Names *)

Lemma plain_name_noslash s t u v :
  str_all (λ c, negb (Ascii.eqb c slash)) s = true -> str_all (λ c, negb (Ascii.eqb c slash)) t = true ->
  u = EmptyString \/ (exists u', u = String slash u') -> v = EmptyString \/ (exists v', v = String slash v') ->
  s +:+ u = t +:+ v -> s = t.
Proof.
  intros Hs Ht Hu Hv. revert t Ht. induction s as [|c s IH]; intros [|d t] Ht Heq; cbn in *.
  - done.
  - apply andb_true_iff in Ht as [Hd _]. destruct Hu as [->|[u' ->]]; [done|]. injection Heq as <- _.
    by rewrite Ascii.eqb_refl in Hd.
  - apply andb_true_iff in Hs as [Hc _]. destruct Hv as [->|[v' ->]]; [done|]. injection Heq as -> _.
    by rewrite Ascii.eqb_refl in Hc.
  - apply andb_true_iff in Hs as [_ Hs], Ht as [_ Ht]. injection Heq as <- Heq. f_equal. eauto.
Qed.

Lemma last_char_all P s c : str_all P s = true -> last_char s = Some c -> P c = true.
Proof.
  induction s as [|d s IH]; [done|]. cbn. intros [Hd Hs]%andb_true_iff. destruct s; [by intros [= <-]|by apply IH].
Qed.

Lemma plain_name_entry Root s :
  plain_name s = true -> has_filename (path_append Root s) = true /\ path_append Root s = dir_prefix Root +:+ s /\
    str_all (λ c, negb (Ascii.eqb c slash)) s = true.
Proof.
  intros Hs. pose proof (plain_name_relative s Hs) as Hrel. unfold plain_name in Hs.
  rewrite !andb_true_iff in Hs. destruct Hs as [[[Hne Hall] _] _].
  split_and!; [|by apply path_append_prefix|done]. rewrite has_filename_append by done. unfold has_filename.
  destruct (last_char s) as [c|] eqn:Hc; [exact (last_char_all _ _ _ Hall Hc)|]. exfalso. clear Hrel Hall.
  induction s as [|c [|d s] IH]; try done. by apply IH.
Qed.

(** Two entries of a directory have no file in common. *)
Lemma entries_disjoint Root Id Id' q :
  plain_name Id = true -> plain_name Id' = true ->
  under (path_append Root Id) q = true -> under (path_append Root Id') q = true -> Id = Id'.
Proof.
  intros (Hf & Hp & Hs)%(plain_name_entry Root) (Hf' & Hp' & Hs')%(plain_name_entry Root) Hu Hu'.
  assert (forall p, has_filename p = true -> under p q = true ->
    exists u, q = p +:+ u /\ (u = EmptyString \/ exists u', u = String slash u')) as Hend.
  { intros p H1 H2. apply under_inv in H2 as [->|[t ->]]; [|by exists (String slash t); eauto|done].
    exists EmptyString. rewrite sapp_nil_r. auto. }
  destruct (Hend _ Hf Hu) as (u & Hq & Hu1), (Hend _ Hf' Hu') as (v & Hq' & Hv).
  rewrite Hq, Hp, Hp', !sapp_assoc in Hq'. apply sapp_inj_l in Hq'. exact (plain_name_noslash _ _ _ _ Hs Hs' Hu1 Hv Hq').
Qed.

(** ** Calls that spare a container *)

Section Spare.
Context `{SJ : Simdjson} (Root Id Other : string).

Local Abbreviation H := (container_dir Root Other).

Context (Hid : plain_name Id = true) (Hother : plain_name Other = true) (Hne : Id <> Other).

Definition spares (c : call) : Prop := forall q, home H q = true -> touches H c q = false.

(** A call that leaves the files and FIFOs of the other container alone. *)
Definition off (T : fds) (c : call) : Prop :=
  spares c /\
  match c with
  | Px (Read fd _) => forall q n, T !! fd = Some (FifoRd q n) -> home H q = false
  | Px (Open q flags) => opens_write flags = true -> home H q = false
  | _ => True
  end.

Local Abbreviation wpo := (wp (local_answer H) (λ _ T c (_ : resp c -> unit), off T c) tt).

(** The program leaves the other container alone, and some descriptors open. *)
Definition sp {A} (K T : fds) (p : prog A) : Prop := wpo T p (λ _ _ T', K ⊆ T').

Lemma sp_seq {A B} K T (p : prog A) (f : A -> prog B) Q :
  sp K T p -> (forall a T', K ⊆ T' -> wpo T' (f a) Q) -> wpo T (p ≫= f) Q.
Proof. intros Hp Hf. eapply wp_seq; [exact Hp|]. intros a [] T' HK. by apply Hf. Qed.

Lemma sp_call {A} K T c (f : resp c -> prog A) Q :
  off T c -> keeps K c -> K ⊆ T ->
  (forall r T', local_answer H T c r T' -> K ⊆ T' -> wpo T' (f r) Q) -> wpo T (do_call c ≫= f) Q.
Proof.
  intros Hc Hk HK Hf. eapply (wp_call _ _ _ _ _ (λ _, tt)); [done|]. intros r T' Hl.
  apply Hf; [done|]. by eapply local_keeps.
Qed.

Lemma sp_do K T c : off T c -> keeps K c -> K ⊆ T -> sp K T (do_call c).
Proof. intros Hc Hk HK. exists (λ _, tt). split; [done|]. intros r T' Hl. by eapply local_keeps. Qed.

Lemma sp_any {A} K T (p : prog A) : sp K T p -> sp ∅ T p.
Proof. apply wp_mono. intros. apply map_empty_subseteq. Qed.

Lemma sp_calls {A} K T (p : prog A) :
  all_calls (λ c, (forall T, off T c) /\ keeps K c) p -> K ⊆ T -> sp K T p.
Proof.
  revert T. induction p as [a|c k IH| | | |]; intros T Hp HK; try done. destruct Hp as [[Hc Hk] Hp].
  exists (λ _, tt). split; [done|]. intros r T' Hl. apply IH; [done|]. by eapply local_keeps.
Qed.

(** Calls that change no file, or only files that the container does not see. *)
Definition still (c : call) : bool :=
  match c with
  | Fs (FsStatus _) | Fs (FsFileSize _) | Fs (IfstreamRead _ _) | Fs (FilebufOpen _)
  | Fs (FilebufSgetn _ _ _) | Fs RandomLetter | Fs (Cout _) => true
  | Fs _ | Px (Mkfifo _ _) | Px (Unlink _) | Px (Read _ _) | Px (Close _) => false
  | Px (Open _ flags) => negb (opens_write flags)
  | _ => true
  end.

Lemma still_off K T c : still c = true -> off T c /\ keeps K c.
Proof.
  intros Hc. split; [split|]; destruct c as [[]|[]|[]|[]|]; try done; try (by intros q Hq; cbn; rewrite Hq).
  cbn in Hc |- *. by destruct (opens_write flags).
Qed.

Lemma all_still {A} K T (p : prog A) : all_calls (λ c, still c = true) p -> K ⊆ T -> sp K T p.
Proof.
  intros Hp. apply sp_calls. eapply all_calls_mono; [|exact Hp]. intros c Hc. split; [|by apply (still_off K ∅)].
  intros T'. by apply (still_off K T').
Qed.

Lemma calm_sp {A} K T (p : prog A) : all_calls (calm Root Other K) p -> K ⊆ T -> sp K T p.
Proof.
  intros Hp. apply sp_calls. eapply all_calls_mono; [|exact Hp]. intros c [[Hc Hm] Hk]. split; [|done].
  intros T'. split; [exact Hc|]. destruct c as [[]|[]|[]|[]|]; try done. congruence.
Qed.

(** The files of another container. *)
Lemma mine_apart q h : under (container_dir Root Id) q = true -> home H h = true -> under q h = false.
Proof.
  intros Hq Hh. destruct (under q h) eqn:Hu; [|done]. destruct Hne.
  eapply entries_disjoint; [done|done|by eapply under_trans|exact Hh].
Qed.

Lemma mine_below q h : under (container_dir Root Id) q = true -> home H h = true -> under h q = false.
Proof.
  intros Hq Hh. destruct (under h q) eqn:Hu; [|done]. destruct Hne.
  eapply entries_disjoint; [done|done|exact Hq|by eapply under_trans].
Qed.

(** ** The programs *)

Lemma random_suffix_sp K T n :
  K ⊆ T -> wpo T (random_suffix n) (λ s _ T', K ⊆ T' /\ String.length s = n /\ str_all letter s = true).
Proof.
  revert T. induction n as [|n IH]; intros T HK; cbn [random_suffix]; [done|].
  apply (sp_call K); [by apply (still_off K)..|done|]. intros c T1 [_ Hc] HK1.
  eapply wp_seq; [by apply IH|]. intros s [] T2 (HK2 & Hl & Hs). split_and!; [done|by cbn; rewrite Hl|].
  cbn. rewrite Hs. unfold letter. bool_lia.
Qed.

Lemma file_call {A} K T P q c (f : resp c -> prog A) Q :
  apart Root Other P -> temp_name P q ->
  (forall h, touches H c h = String.eqb q h) \/ (exists a, c = Fs (FsRename a P) /\ (a = P \/ temp_name P a)) ->
  match c with Fs (FsRemoveAll _) => False | Fs _ => True | _ => False end -> K ⊆ T ->
  (forall r T', K ⊆ T' -> wpo T' (f r) Q) -> wpo T (do_call c ≫= f) Q.
Proof.
  intros HP Hq Hc Hfs HK Hf. destruct (apart_calm _ _ K P q c HP (or_intror Hq) Hc Hfs) as [[Hs _] Hk].
  apply (sp_call K); [|done|done|eauto]. split; [exact Hs|]. by destruct c as [|[]| | |].
Qed.

Ltac file_call HP HK := eapply file_call; [exact HP|eassumption|first [by left|right; eauto]|done|exact HK|].

Lemma getTempFilename_sp K T P fuel :
  apart Root Other P -> K ⊆ T -> wpo T (getTempFilename fuel P) (λ q _ T', K ⊆ T' /\ temp_name P q).
Proof.
  intros HP. revert T. induction fuel as [|fuel IH]; intros T HK; cbn [getTempFilename]; [done|].
  eapply wp_seq; [by apply random_suffix_sp|]. intros u [] T1 (HK1 & Hl & Hu). cbn zeta.
  assert (temp_name P (path_concat P u)) as Hq by (by exists u).
  file_call HP HK1. intros pos T2 HK2. destruct (pos =? 0); [done|by apply IH].
Qed.

Lemma writeTempAndRename_sp K T P Func fuel :
  apart Root Other P -> (forall T, K ⊆ T -> sp K T Func) -> K ⊆ T -> sp K T (writeTempAndRename fuel P Func).
Proof.
  intros HP HF HK. unfold writeTempAndRename.
  eapply wp_seq; [by apply getTempFilename_sp|]. intros q [] T1 [HK1 Hq].
  file_call HP HK1. intros ok T2 HK2. destruct ok; [cbn [negb]|done].
  eapply sp_seq; [by apply HF|]. intros text T3 HK3.
  file_call HP HK3. intros w T4 HK4. file_call HP HK4. intros e T5 HK5.
  destruct (e =? 0); [done|cbn [negb]]. file_call HP HK5. done.
Qed.

Lemma is_regular_file_still p : all_calls (λ c, still c = true) (is_regular_file p).
Proof. unfold is_regular_file. calls_walk. done. Qed.

Lemma atomicCreate_sp K T P Func fuel :
  apart Root Other P -> (forall T, K ⊆ T -> sp K T Func) -> K ⊆ T -> sp K T (atomicCreateAndWriteFile fuel P Func).
Proof.
  intros HP HF HK. unfold atomicCreateAndWriteFile. eapply sp_seq; [by apply all_still; [apply is_regular_file_still|]|].
  intros [[] err] T1 HK1; [done|by apply writeTempAndRename_sp].
Qed.

Lemma publish_sp K T fuel P s : apart Root Other P -> K ⊆ T -> sp K T (publish fuel P s).
Proof.
  intros HP HK. unfold publish, atomicUpdateFile. eapply sp_seq; [by apply all_still; [apply is_regular_file_still|]|].
  intros [[] err] T1 HK1; [|done]. by apply writeTempAndRename_sp.
Qed.

Ltac sp_walk K :=
  repeat match goal with
    | |- sp _ _ (_ ≫= _) => apply (sp_seq K); [|intros ? ? ?]
    | |- wp _ _ _ _ (_ ≫= _) _ => apply (sp_seq K); [|intros ? ? ?]
    | |- sp _ _ (do_call _) => apply sp_do; [by apply (still_off K)|by apply (still_off K ∅)|assumption]
    | |- wp _ _ _ _ (do_call _) _ => apply (sp_do K); [by apply (still_off K)|by apply (still_off K ∅)|assumption]
    | |- sp _ _ (publish _ _ _) => by apply publish_sp
    | |- sp _ _ (match ?x with _ => _ end) => destruct x
    | |- wp _ _ _ _ (match ?x with _ => _ end) _ => destruct x
    | |- sp _ _ _ => first [exact I|assumption]
    | |- wp _ _ _ _ _ _ => first [exact I|assumption]
    end.

(** *** The container *)

Lemma state_file_apart : apart Root Other (state_file Root Id).
Proof.
  intros q h Hq Hh. apply mine_apart; [|done]. destruct Hq as [->|Hq]; [apply home_state_file|by apply home_temp].
Qed.

Lemma execute_sp K T fuel s : K ⊆ T -> sp K T (execute fuel s (state_file Root Id)).
Proof.
  intros HK. pose proof state_file_apart as HS. unfold execute, setRunning, setStopped, timestamp, ensure, lift_cpp.
  sp_walk K.
Qed.

Lemma collect_namespaces_sp K T l f :
  K ⊆ T -> fresh_fds K f.2 ->
  wpo T (collect_namespaces l f) (λ r _ T', K ⊆ T' /\ forall f', r = Some f' -> fresh_fds K f'.2).
Proof.
  revert T f. induction l as [|Desc l IH]; intros T f HK Hf; cbn [collect_namespaces].
  { split; [done|]. by intros f' [= <-]. }
  apply wp_bind. destruct (namespace_flag (ns_Type Desc)) as [flag|]; [|done]. cbn [lift_cpp wp].
  destruct flag as [Flag|]; [|by apply IH]. apply wp_bind. unfold UpdateFlags. destruct f as [u fs].
  destruct (is_empty (ns_Path Desc)); [by apply IH|].
  apply (sp_call K); [by apply (still_off K)|done|exact HK|]. intros r T1 Hl HK1.
  destruct (Z.ltb_spec (ret r) 0) as [Hr|Hr]; [done|]. apply IH; [done|].
  cbn in Hl. destruct (Z.leb_spec 0 (ret r)); [|lia]. destruct Hl as [Hnone _].
  apply Forall_app. split; [done|]. constructor; [|done]. by eapply lookup_weaken_None.
Qed.

Lemma enter_namespaces_sp K T b : K ⊆ T -> sp K T (enter_namespaces b).
Proof.
  intros HK. unfold enter_namespaces.
  eapply wp_seq; [apply (collect_namespaces_sp K _ _ (0, [])); [done|by constructor]|].
  intros r [] T1 [HK1 Hr]. destruct r as [[u fs]|]; [|done]. apply (sp_seq K).
  { destruct (u =? 0); sp_walk K. }
  intros _ T2 HK2. apply (sp_seq K); [|done].
  apply calm_sp; [|done]. apply (join_namespaces_calm Root Other K fs), (Hr (u, fs) eq_refl).
Qed.

(** An object that is not a FIFO of the other container. *)
Definition outside (o : fd_obj) : Prop := match o with FifoRd q _ => home H q = false | _ => True end.

Lemma wait_exec_fifo_sp T fd o : {[fd := o]} ⊆ T -> outside o -> sp ∅ T (wait_exec_fifo fd).
Proof.
  intros HK Ho. unfold wait_exec_fifo. set (K := {[fd := o]}) in *. pose proof (map_empty_subseteq T) as H0.
  destruct (fd <? 0); [done|]. destruct (FD_SETSIZE <=? fd); [done|].
  apply (sp_seq K); [by apply sp_do|]. intros r T1 HK1. destruct (ret r <? 0); [exact (map_empty_subseteq _)|].
  apply (sp_seq ∅); [|intros [r1 ?] T2 HK2; by destruct (ret r1 <? 0)].
  apply sp_do; [|done|apply map_empty_subseteq]. split; [done|]. intros q n Hq.
  apply map_singleton_subseteq_l in HK1. rewrite HK1 in Hq. by injection Hq as ->.
Qed.

Lemma run_container_sp T fuel Cid PidFile s fd o :
  apart Root Other PidFile -> {[fd := o]} ⊆ T -> outside o ->
  sp ∅ T (run_container fuel Cid PidFile s (state_file Root Id) fd).
Proof.
  intros HP HK Ho. pose proof state_file_apart as HS. unfold run_container, setCreated, timestamp, ensure, lift_cpp.
  set (K := {[fd := o]}) in *. assert (forall T' (z : Z), sp ∅ T' (mret z)) as Hret by (intros; apply map_empty_subseteq).
  apply (sp_seq K); [apply atomicCreate_sp; [done| |done]; intros; by sp_walk K|].
  intros ok T1 HK1. destruct ok; [|apply Hret].
  apply (sp_seq K); [by sp_walk K|]. intros s' T2 HK2. apply (sp_seq K); [by apply enter_namespaces_sp|].
  intros ok T3 HK3. destruct ok; [|apply Hret]. apply (sp_seq K); [by apply calm_sp; [apply enter_calm|]|].
  intros [e|[]] T4 HK4; [apply Hret|]. apply (sp_seq K); [by apply publish_sp|]. intros ok T5 HK5.
  destruct ok; [|apply Hret]. apply (sp_seq ∅); [by eapply wait_exec_fifo_sp|]. intros ok T6 HK6.
  destruct ok; [|apply Hret]. by apply execute_sp.
Qed.

Lemma compile_module_sp K T Cid Wasm : K ⊆ T -> sp K T (compile_module Cid Wasm).
Proof.
  intros HK. unfold compile_module. apply (sp_call K); [by apply (still_off K)|done|done|]. intros [Data|] T1 _ HK1; [|done].
  apply (sp_call K); [by apply (still_off K)|done|done|]. intros [p|] T2 [_ Hp] HK2; [|done].
  assert (forall T', off T' (Fs (FsCreateDirectories (parent_path (replace_extension p ".so"))))) as Hmk.
  { intros T'. split; [|done]. intros q Hq. cbn. specialize (Hp p eq_refl). destruct (under q _) eqn:Hu; [|done].
    pose proof (under_trans _ _ _ Hq Hu) as Hin. unfold home in Hp. by rewrite Hp in Hin. }
  apply (sp_seq K); [by sp_walk K|]. intros [ty err] T3 HK3.
  destruct (bool_decide (ty = FT_none)); [done|]. destruct (bool_decide (ty = FT_regular)); [done|].
  apply (sp_call K); [apply Hmk|done|done|]. intros mk T4 _ HK4.
  unfold compile_child, wait_compiler. sp_walk K.
Qed.

Lemma doRunInternal_sp T fuel Cid PidFile s fd o :
  apart Root Other PidFile -> {[fd := o]} ⊆ T -> outside o ->
  sp ∅ T (doRunInternal fuel Cid PidFile s (state_file Root Id) fd).
Proof.
  intros HP HK Ho. unfold doRunInternal, ensure. set (K := {[fd := o]}) in *.
  assert (forall T' (z : Z), sp ∅ T' (mret z)) as Hret by (intros; apply map_empty_subseteq).
  apply (sp_seq K); [by apply calm_sp; [apply prepare_wasi_calm|]|]. intros Wasm T1 HK1.
  apply (sp_seq K); [by apply compile_module_sp|]. intros [So|] T2 HK2; [|apply Hret].
  do 3 (apply (sp_seq K); [by sp_walk K|]; clear HK2; intros [] ? HK2; [|apply Hret]).
  apply (sp_seq K); [by sp_walk K|]. intros r T3 HK3. destruct (ret r <? 0); [apply Hret|].
  destruct (0 <? ret r); [apply Hret|]. by eapply run_container_sp.
Qed.

(** *** The commands *)

Lemma mine_off T c q :
  under (container_dir Root Id) q = true ->
  match c with
  | Fs (FsCreateDirectories p) | Fs (FsRemoveAll p) | Px (Mkfifo p _) | Px (Unlink p) | Px (Open p _) => p = q
  | _ => False
  end -> off T c.
Proof.
  intros Hq Hc. assert (forall h, home H h = true -> q <> h) as Hno.
  { intros h Hh <-. pose proof (mine_apart q q Hq Hh) as Hu. by rewrite under_refl in Hu. }
  split; destruct c as [[]|[]| | |]; try done; cbn in Hc; subst q; try (intros h Hh; cbn).
  - by apply mine_below.
  - by apply mine_apart.
  - by apply String.eqb_neq, Hno.
  - by apply String.eqb_neq, Hno.
  - intros _. apply not_true_iff_false. intros Hh. by apply (Hno _ Hh).
Qed.

Lemma close_fd_sp T fd : sp ∅ T (close_fd fd).
Proof.
  unfold close_fd. destruct (0 <=? fd); [|apply map_empty_subseteq].
  apply (sp_seq ∅); [by apply sp_do; [by split|done|apply map_empty_subseteq]|]. done.
Qed.

Lemma close_sp K T fd : K !! fd = None -> K ⊆ T -> sp K T (do_call (Px (Close fd))).
Proof. intros Hfd HK. by apply sp_do. Qed.

Lemma create_parent_sp T child pr pw n :
  {[pr := PipeRd n]} ⊆ T -> pw <> pr -> sp ∅ T (create_parent child pr pw).
Proof.
  intros HK Hpw. unfold create_parent, lift_cpp. set (K := {[pr := PipeRd n]}) in *.
  apply (sp_seq K); [apply close_sp; [by apply lookup_singleton_ne|done]|]. intros r1 T1 HK1.
  apply (sp_seq K); [by apply sp_do|]. intros r2 T2 HK2.
  apply (sp_seq ∅).
  { apply sp_do; [|done|apply map_empty_subseteq]. split; [done|]. intros q m Hq.
    apply map_singleton_subseteq_l in HK2. congruence. }
  intros [r data] T3 HK3. destruct ((ret r <? 0) && negb _); [done|].
  apply (sp_seq ∅); [by sp_walk (∅ : fds)|]. intros bad T4 HK4. destruct bad; [done|].
  apply (sp_seq ∅); [by apply close_sp|]. done.
Qed.

Lemma create_daemon_sp T fuel Cid PidFile Console s fd o pw :
  apart Root Other PidFile -> {[fd := o]} ⊆ T -> outside o ->
  sp ∅ T (create_daemon fuel Cid PidFile Console s (state_file Root Id) fd pw).
Proof.
  intros HP HK Ho. unfold create_daemon, scope_exit. set (K := {[fd := o]}) in *.
  apply (sp_seq K); [unfold connect_console; by sp_walk K|]. intros [cfd ok] T1 HK1.
  apply (sp_seq ∅); [|intros x T2 HK2; by apply (sp_seq ∅); [apply close_fd_sp|]].
  destruct ok; cbn [negb]; [|apply map_empty_subseteq].
  apply (sp_seq ∅); [by eapply doRunInternal_sp|]. intros code T2 HK2.
  apply (sp_seq ∅); [by apply sp_do|]. intros w T3 HK3. by apply (sp_seq ∅); [apply close_sp|].
Qed.

Lemma create_fork_sp T fuel Cid PidFile Console s fd o :
  apart Root Other PidFile -> {[fd := o]} ⊆ T -> outside o ->
  sp ∅ T (create_fork fuel Cid PidFile Console s (state_file Root Id) fd).
Proof.
  intros HP HK Ho. unfold create_fork. set (K := {[fd := o]}) in *.
  assert (forall T', sp ∅ T' (mret (EXIT_FAILURE, false))) as Hret by (intros; apply map_empty_subseteq).
  apply (sp_call K); [by apply (still_off K)|done|done|]. intros [r [pr pw]] T1 Hl HK1.
  destruct (Z.ltb_spec (ret r) 0) as [|Hr]; [apply Hret|]. cbn in Hl.
  destruct (Z.leb_spec 0 (ret r)); [|lia]. destruct Hl as (Hne' & Hpr & Hpw & m & HT1).
  apply (sp_call K); [by apply (still_off K)|done|done|]. intros r2 T2 -> HK2.
  destruct (ret r2 <? 0); [apply Hret|]. destruct (0 <? ret r2).
  { eapply create_parent_sp; [|by apply not_eq_sym]. apply map_singleton_subseteq_l. by rewrite HT1, lookup_insert_eq. }
  apply (sp_seq K); [apply close_sp; [|done]|].
  { apply lookup_singleton_ne. intros ->. apply map_singleton_subseteq_l in HK. congruence. }
  intros r3 T3 HK3. apply (sp_seq K); [by apply sp_do|]. intros r4 T4 HK4. destruct (ret r4 <? 0); [apply Hret|].
  apply (sp_seq K); [by apply sp_do|]. intros r5 T5 HK5. destruct (ret r5 <? 0); [apply Hret|].
  destruct (0 <? ret r5); [done|]. by eapply create_daemon_sp.
Qed.

Lemma create_body_sp T fuel Systemd Cfg Path Console PidFile :
  apart Root Other PidFile ->
  sp ∅ T (create_body fuel (container_dir Root Id) Systemd Cfg Id Path Console PidFile).
Proof.
  intros HP. unfold create_body, loadBundle, Bundle_load. cbn zeta. pose proof (map_empty_subseteq T) as HK.
  assert (forall T', sp ∅ T' (mret (EXIT_FAILURE, false))) as Hret by (intros; apply map_empty_subseteq).
  apply (sp_seq ∅); [by sp_walk (∅ : fds)|]. intros [s ok] T1 HK1. destruct ok; cbn [negb]; [|apply Hret].
  apply (sp_seq ∅); [apply atomicCreate_sp; [apply state_file_apart|done|done]|]. intros ok T2 HK2.
  destruct ok; cbn [negb]; [|apply Hret].
  apply (sp_seq ∅); [apply sp_do; [by eapply mine_off; [apply (home_exec_fifo Root Id)|]|done|done]|]. intros r3 T3 HK3.
  destruct (ret r3 <? 0); [apply Hret|].
  apply (sp_call ∅); [by eapply mine_off; [apply (home_exec_fifo Root Id)|]|done|done|]. intros r4 T4 Hl HK4.
  unfold scope_exit. apply (sp_seq ∅); [|intros x T5 HK5; by apply (sp_seq ∅); [apply close_fd_sp|]].
  destruct (Z.ltb_spec (ret r4) 0) as [|Hfd]; [apply Hret|]. cbn in Hl.
  rewrite (proj2 (Z.leb_le _ _) Hfd) in Hl. destruct Hl as (_ & o & -> & Ho).
  eapply (create_fork_sp _ _ _ _ _ _ _ o); [done|apply map_singleton_subseteq_l, lookup_insert_eq|].
  destruct Ho as [->|[n ->]]; [done|]. apply not_true_iff_false. intros Hh.
  pose proof (mine_apart _ _ (home_exec_fifo Root Id) Hh) as Hu. by rewrite under_refl in Hu.
Qed.

Lemma doCreate_sp T fuel Systemd Cfg Path Console PidFile :
  apart Root Other PidFile -> sp ∅ T (doCreate fuel Root Systemd Cfg Id Path Console PidFile).
Proof.
  intros HP. unfold doCreate, scope_exit, ensure. pose proof (map_empty_subseteq T) as HK.
  pose proof (λ T c, mine_off T c _ (under_refl (container_dir Root Id))) as Hdir.
  apply (sp_seq ∅); [by apply sp_do; [apply Hdir|..]|]. intros [[] err] T1 HK1; [|done].
  apply (sp_seq ∅); [|by intros [? ?] T2 HK2].
  apply (sp_seq ∅); [by apply create_body_sp|]. intros [code ok] T2 HK2.
  apply (sp_seq ∅); [|done]. destruct ok; [done|]. by apply (sp_seq ∅); [apply sp_do; [apply Hdir|..]|].
Qed.

Lemma doStart_sp T Cfg : sp ∅ T (doStart Root Cfg Id).
Proof.
  pose proof (map_empty_subseteq T) as HK. pose proof (λ T c, mine_off T c _ (home_exec_fifo Root Id)) as Hfifo.
  unfold doStart, scope_exit, ensure, is_regular_file, State_load, loadBundle, Bundle_load.
  apply (sp_seq ∅); [by sp_walk (∅ : fds)|]. intros [[] err] T1 HK1; [|done].
  apply (sp_seq ∅); [by sp_walk (∅ : fds)|]. intros [s []] T2 HK2; [|done].
  apply (sp_seq ∅); [by apply sp_do; [apply Hfifo|..]|]. intros r3 T3 HK3.
  apply (sp_seq ∅); [|intros x T5 HK5; by apply (sp_seq ∅); [apply close_fd_sp|]].
  destruct (ret r3 <? 0); [done|]. apply (sp_seq ∅); [by apply sp_do; [apply Hfifo|..]|]. intros r4 T4 HK4.
  destruct (ret r4 <? 0); [done|]. apply (sp_seq ∅); [by apply sp_do|]. intros r5 T5 HK5.
  destruct (ret r5 <? 0); [done|]. by apply (sp_seq ∅); [apply close_sp|].
Qed.

(** Every command leaves the other containers alone. *)
Lemma any_sp T c :
  (forall fuel Systemd Cfg Path Console PidFile,
     c = Some_command (CmdCreate fuel Systemd Cfg Path Console PidFile) -> apart Root Other PidFile) ->
  sp ∅ T (any_prog Root Id c).
Proof.
  intros HP. pose proof (map_empty_subseteq T) as HK.
  pose proof (λ T c, mine_off T c _ (under_refl (container_dir Root Id))) as Hdir.
  destruct c as [[]|Force]; cbn [any_prog command_prog]; [by eapply doCreate_sp, HP|apply doStart_sp|..].
  - unfold doKill, is_regular_file, State_load, loadBundle, Bundle_load, ensure, lift_cpp. sp_walk (∅ : fds).
  - unfold doState, is_directory, FileOps.readAll, is_regular_file, ensure. sp_walk (∅ : fds).
  - unfold doDelete, is_directory, ensure. apply (sp_seq ∅); [by sp_walk (∅ : fds)|]. intros [d err] T1 HK1.
    destruct (d || Force); [|done]. apply (sp_seq ∅); [by apply sp_do; [apply Hdir|..]|]. intros e T2 HK2. sp_walk (∅ : fds).
Qed.

End Spare.

(** ** Executions *)

Section Isolation.
Context `{SJ : Simdjson} (Root Other : string) (f : files) (cmds : gmap Z (string * any_command)).

Local Abbreviation H := (container_dir Root Other).
Local Abbreviation SP := (sp Root Other ∅).

(** The ids are single path components, the commands are about other containers,
    and their pid files are elsewhere. *)
Record elsewhere : Prop := {
  el_other : plain_name Other = true;
  el_ids pid Id c : cmds !! pid = Some (Id, c) -> plain_name Id = true /\ Id <> Other;
  el_apart pid Id fuel Systemd Cfg Path Console PidFile :
    cmds !! pid = Some (Id, Some_command (CmdCreate fuel Systemd Cfg Path Console PidFile)) ->
    apart Root Other PidFile;
}.

Lemma sp_next T c (k : resp c -> prog Z) :
  SP T (Call c k) -> off Root Other T c /\ forall r T', local_answer H T c r T' -> SP T' (k r).
Proof.
  intros (F & Hc & Hk). split; [done|]. intros r T' Hr. specialize (Hk r T' Hr). by destruct (F r).
Qed.

(** All processes keep off the files of the container. *)
Record spared (s : system) : Prop := {
  sd_files q : home H q = true -> k_files (s_kernel s) !! q = f !! q;
  sd_procs pid p : s_procs s !! pid = Some p -> SP (p_fds p) (p_prog p);
}.

Lemma spared_next s pid p p' k' :
  spared s -> s_procs s !! pid = Some p -> SP (p_fds p') (p_prog p') ->
  (forall q, home H q = true -> k_files k' !! q = k_files (s_kernel s) !! q) ->
  spared (System k' (<[pid := p']> (s_procs s))).
Proof.
  intros [Hf Hp] Hpid Hp' Hk. split; cbn [s_kernel s_procs].
  - intros q Hq. rewrite Hk by done. auto.
  - intros pid' p1 [[<- <-]|[_ ?]]%lookup_insert_Some; eauto.
Qed.

Lemma spared_step s l s' : spared s -> sys_step H s l s' -> spared s'.
Proof.
  intros Hs Hstep. pose proof Hs as [Hf Hp].
  assert (forall pid c (k : resp c -> prog Z) T, s_procs s !! pid = Some (Process (Call c k) T) ->
    spares Root Other c /\ forall r T', local_answer H T c r T' -> SP T' (k r)) as Hnext.
  { intros pid c k T Hpid. by destruct (sp_next _ _ _ (Hp _ _ Hpid)) as [[Hc _] Hk]. }
  destruct Hstep as [s pid c k T r T' k' Hpid Hc Hl (_ & Hfr & _) Hch|s pid k T r ? Hpid Hr _ -> Hnone|s pid k T r Hpid Hr
    |s pid p k T q ? Hpid Hu Hq -> Hrt|s pid p k T ? Hpid Hnone -> Hrt|s pid p k T err Hpid Herr|s pid p status Hpid|s k' Hfr];
    try (destruct (Hnext _ _ _ _ Hpid) as [Hsp Hk]).
  - eapply spared_next; [done|done|by apply Hk|]. intros q Hq. by apply Hfr, Hsp.
  - destruct (spared_next s pid _ (Process (k r) T) (s_kernel s) Hs Hpid) as [H1 H2]; [by apply Hk|done|].
    split; cbn [s_kernel s_procs] in *; [done|]. intros pid' p' [[<- <-]|[_ ?]]%lookup_insert_Some; [by apply Hk|eauto].
  - eapply spared_next; [done|done|by apply Hk|done].
  - split; cbn [s_kernel s_procs with_files k_files]; [|done]. intros q' Hq'. rewrite lookup_delete_ne; [auto|].
    intros ->. specialize (Hsp _ Hq'). cbn in Hsp. congruence.
  - eapply spared_next; [done|done|by apply Hk|]. intros q Hq. cbn [with_files k_files]. apply lookup_delete_ne.
    intros ->. specialize (Hsp _ Hq). cbn in Hsp. by rewrite under_refl in Hsp.
  - eapply spared_next; [done|done|by apply Hk|done].
  - eapply spared_next; [done|done|done|done].
  - split; cbn [s_kernel s_procs]; [|done]. intros q Hq. rewrite (oa_files _ _ _ Hfr) by done. auto.
Qed.

(** C10: commands about other containers leave the files of a container alone:
    however many create, start, kill, state and delete commands run at the same
    time, and whichever of their processes are killed, no file in the directory of a
    container that none of them is about changes. All ids are single path
    components, which the program does not check (with an absolute id delete removes
    any directory), and the pid files are not in the directory of the container. *)
Theorem isolation tr :
  elsewhere -> execution H (boot_all Root f cmds) tr ->
  Forall (λ s, forall q, home H q = true -> k_files (s_kernel s) !! q = f !! q) tr.*2.
Proof.
  intros Hel Hex. assert (spared (boot_all Root f cmds)) as Hs.
  { split; [done|]. cbn [boot_all s_procs]. intros pid p ([Id c] & <- & Hc)%lookup_fmap_Some. cbn [fst snd p_prog p_fds].
    destruct (el_ids Hel _ _ _ Hc) as [Hid Hne]. apply any_sp; [done|by apply el_other|done|].
    intros fuel Systemd Cfg Path Console PidFile ->. by eapply el_apart. }
  clear Hel. induction Hex as [s|s l s1 tr Hstep Hex IH]; [by constructor|].
  pose proof (spared_step _ _ _ Hs Hstep) as Hs1. constructor; [apply Hs1|by apply IH].
Qed.

End Isolation.
