(* ===== verification/Several.v ===== *)
(** Several containers at once.

    The commands of a system can be about different containers of the same root
    directory.  What the processes of one container do is then an execution of
    the system in which there is no other container: the commands about the
    others are among the other programs of [Kernel].  So the theorems about one
    container hold for each of them. *)
From S2P Require Import Prelude Cpp Signals Path Json JsonRef Prog Logic FileOps Loader Bundle Time State.
From S2P Require Import StateProps SDBus CGroup Container Lifecycle Commands Kernel.
From S2P Require Import Roles RolesInv RolesStep RolesProg Concurrent Isolation.

(** ** The processes of a container *)

Section Projection.
Context `{SJ : Simdjson}.

(** The parent and the child of a fork. *)
Definition forked (l : label) : option (Z * Z) :=
  match l with
  | LCall pid (existT c r) =>
      match c return resp c -> option (Z * Z) with
      | Px Fork => λ r, if 0 <? ret r then Some (pid, ret r) else None
      | _ => λ _, None
      end r
  | LSilent => None
  end.

(** The members of a family of processes after a step. *)
Definition descend (O : gset Z) (l : label) : gset Z :=
  match forked l with
  | Some (pid, child) => if decide (pid ∈ O) then {[child]} ∪ O else O
  | None => O
  end.

Definition only_family (O : gset Z) (s : system) : system :=
  System (s_kernel s) (filter (λ x, x.1 ∈ O) (s_procs s)).

Definition own_label (O : gset Z) (l : label) : label :=
  match l with LCall pid e => if decide (pid ∈ O) then l else LSilent | LSilent => LSilent end.

(** What a family does in an execution. *)
Fixpoint family_trace (O : gset Z) (tr : list (label * system)) : list (label * system) :=
  match tr with
  | [] => []
  | (l, s) :: tr => (own_label O l, only_family (descend O l) s) :: family_trace (descend O l) tr
  end.

Lemma only_lookup O s pid p :
  s_procs (only_family O s) !! pid = Some p <-> s_procs s !! pid = Some p /\ pid ∈ O.
Proof. cbn. by rewrite map_lookup_filter_Some. Qed.

Lemma only_insert O k ps pid p :
  pid ∈ O -> only_family O (System k (<[pid := p]> ps)) = System k (<[pid := p]> (filter (λ x, x.1 ∈ O) ps)).
Proof. intros Hin. unfold only_family. cbn [s_kernel s_procs]. by rewrite map_filter_insert_True. Qed.

Lemma only_insert_other O k ps pid p :
  pid ∉ O -> only_family O (System k (<[pid := p]> ps)) = System k (filter (λ x, x.1 ∈ O) ps).
Proof.
  intros Hin. unfold only_family. cbn [s_kernel s_procs]. f_equal. apply map_filter_insert_not. by intros y.
Qed.

End Projection.

(** ** Families that keep apart *)

Section Apart.
Context `{SJ : Simdjson} (Root Id : string).

Local Abbreviation CR := (container_dir Root Id).
Local Abbreviation SP := (sp Root Id ∅).

Definition fifo_of (o : fd_obj) : option (string * nat) :=
  match o with FifoRd q n | FifoWr q n => Some (q, n) | _ => None end.

(** The processes outside of the family [O] leave the container alone, and share
    no pipe with the family.  [homes] are the channels of the FIFOs of the
    container. *)
Record apart_inv (O : gset Z) (s : system) (pipes homes : gset nat) : Prop := {
  ai_here : O ⊆ dom (s_procs s);
  ai_off pid p : s_procs s !! pid = Some p -> pid ∉ O -> SP (p_fds p) (p_prog p);
  ai_chans : chans_ok pipes (s_kernel s) (s_procs s);
  ai_homes n : n ∈ homes -> (n ∉ pipes) /\ is_Some (k_chans (s_kernel s) !! n);
  ai_names q n : k_fifos (s_kernel s) !! q = Some n -> n ∈ homes <-> home CR q = true;
  ai_fds pid p fd o q n : s_procs s !! pid = Some p -> p_fds p !! fd = Some o -> fifo_of o = Some (q, n) ->
    n ∈ homes <-> home CR q = true;
  ai_pipes pid p fd o pid' p' fd' o' n :
    s_procs s !! pid = Some p -> p_fds p !! fd = Some o -> pipe_end n o -> pid ∈ O ->
    s_procs s !! pid' = Some p' -> p_fds p' !! fd' = Some o' -> pipe_end n o' -> pid' ∈ O;
  ai_writes pid p fd q n : s_procs s !! pid = Some p -> pid ∉ O -> p_fds p !! fd = Some (FifoWr q n) ->
    home CR q = false;
}.

(** What a process outside of the family can change. *)
Lemma not_private O s pipes homes n :
  apart_inv O s pipes homes -> n ∉ homes ->
  (forall pid p fd o, s_procs s !! pid = Some p -> p_fds p !! fd = Some o -> pipe_end n o -> pid ∉ O) ->
  ~ private CR (only_family O s) n.
Proof.
  intros Hi Hh Hp [(pid & p & fd & o & [H1 Hin]%only_lookup & Ho & Hn)|(q & Hq & Hn)].
  - assert (forall q, fifo_of o = Some (q, n) -> home CR q = true -> False) as Hf.
    { intros q Hf Hq. by apply Hh, (ai_fds _ _ _ _ Hi _ _ _ _ _ _ H1 Ho Hf). }
    destruct o; try done; [subst; eapply Hp; [exact H1|exact Ho|by left|done]
      |subst; eapply Hp; [exact H1|exact Ho|by right|done]|..]; destruct Hn as [-> Hq]; by eapply Hf.
  - by apply Hh, (ai_names _ _ _ _ Hi _ _ Hn).
Qed.

Lemma foreign_pipe O s pipes homes pid p fd o n :
  apart_inv O s pipes homes -> s_procs s !! pid = Some p -> pid ∉ O -> p_fds p !! fd = Some o -> pipe_end n o ->
  ~ private CR (only_family O s) n.
Proof.
  intros Hi Hp Hin Ho Hn. eapply not_private; [done|..].
  - intros [Hh _]%(ai_homes _ _ _ _ Hi). pose proof (co_fds _ _ _ (ai_chans _ _ _ _ Hi) _ _ _ _ Hp Ho) as H1.
    by destruct Hn; subst o.
  - intros pid' p' fd' o' Hp' Ho' Hn' Hin'. apply Hin. exact (ai_pipes _ _ _ _ Hi _ _ _ _ _ _ _ _ _ Hp' Ho' Hn' Hin' Hp Ho Hn).
Qed.

Lemma foreign_fifo O s pipes homes n :
  apart_inv O s pipes homes -> n ∉ homes -> n ∉ pipes -> ~ private CR (only_family O s) n.
Proof.
  intros Hi Hh Hn. eapply not_private; [done|done|]. intros pid p fd o Hp Ho Hpi.
  pose proof (co_fds _ _ _ (ai_chans _ _ _ _ Hi) _ _ _ _ Hp Ho) as H1. by destruct Hpi; subst o.
Qed.

(** The channel behind a descriptor of such a process. *)
Lemma foreign_chan O s pipes homes pid p fd o n :
  apart_inv O s pipes homes -> s_procs s !! pid = Some p -> pid ∉ O -> p_fds p !! fd = Some o ->
  (pipe_end n o \/ exists q, fifo_of o = Some (q, n) /\ home CR q = false) ->
  ~ private CR (only_family O s) n.
Proof.
  intros Hi Hp Hin Ho [Hn|(q & Hn & Hq)]; [by eapply foreign_pipe|].
  eapply foreign_fifo; [done|..].
  - intros Hh%(ai_fds _ _ _ _ Hi _ _ _ _ _ _ Hp Ho Hn). congruence.
  - pose proof (co_fds _ _ _ (ai_chans _ _ _ _ Hi) _ _ _ _ Hp Ho) as H1. by destruct o; simplify_eq/=; destruct H1.
Qed.

(** Steps of other programs that change one channel, or make one. *)
Lemma others_one s k' n ch ch' :
  (forall q, home CR q = true -> k_files k' !! q = k_files (s_kernel s) !! q) ->
  k_fifos k' = k_fifos (s_kernel s) -> k_chans (s_kernel s) !! n = Some ch ->
  k_chans k' = <[n := ch']> (k_chans (s_kernel s)) -> (ch_opened ch = true -> ch_opened ch' = true) ->
  ~ private CR s n -> others_answer CR s k'.
Proof.
  intros Hf H1 H2 H3 H4 H5. split; rewrite ?H1; eauto. rewrite H3. intros m chm Hm.
  destruct (decide (m = n)) as [->|]; [rewrite lookup_insert_eq|rewrite lookup_insert_ne by done; eauto].
  exists ch'. simplify_eq. split_and!; [done|done|]. by intros ?%H5.
Qed.

Lemma others_new s k' n ch :
  (forall q, home CR q = true -> k_files k' !! q = k_files (s_kernel s) !! q) ->
  (forall q, home CR q = true -> k_fifos k' !! q = k_fifos (s_kernel s) !! q) ->
  (forall q m, k_fifos k' !! q = Some m -> k_fifos (s_kernel s) !! q = Some m \/ m = n) ->
  k_chans (s_kernel s) !! n = None -> k_chans k' = <[n := ch]> (k_chans (s_kernel s)) -> others_answer CR s k'.
Proof.
  intros Hf H4 H5 H1 H2. split; [done|done|..].
  - intros q m [?| ->]%H5; [by left|right]. rewrite H2, lookup_insert_eq. eauto.
  - intros m chm Hm. rewrite H2, lookup_insert_ne by congruence. eauto.
Qed.

Lemma others_same s k' :
  (forall q, home CR q = true -> k_files k' !! q = k_files (s_kernel s) !! q) ->
  k_fifos k' = k_fifos (s_kernel s) -> k_chans k' = k_chans (s_kernel s) -> others_answer CR s k'.
Proof. intros Hf H1 H2. split; rewrite ?H1, ?H2; eauto. Qed.

(** The calls of a process outside of the family are such steps. *)
Lemma foreign_others O s pipes homes pid c k T r T' k' :
  apart_inv O s pipes homes -> s_procs s !! pid = Some (Process (Call c k) T) -> pid ∉ O ->
  local_answer CR T c r T' -> files_answer CR c (k_files (s_kernel s)) r (k_files k') ->
  chans_answer pid (has_writer (s_procs s)) T (s_kernel s) c r T' k' ->
  others_answer CR (only_family O s) k'.
Proof.
  intros Hi Hp Hin Hl (_ & Hf & _) Hch.
  destruct (sp_next _ _ _ _ _ (ai_off _ _ _ _ Hi _ _ Hp Hin)) as [[Hsp Hoff] _].
  assert (forall q, home CR q = true -> k_files k' !! q = k_files (s_kernel (only_family O s)) !! q) as Hfiles
    by (intros; by apply Hf, Hsp).
  destruct c as [|c| | |]; try (by apply others_same; [|apply Hch..]).
  destruct c; cbn in Hl, Hch, Hoff; try (by apply others_same; [|apply Hch..]).
  - destruct r as [r [a b]]. destruct (0 <=? ret r); [|by apply others_same; [|apply Hch..]].
    destruct Hch as (n & _ & Hn & Hfi & Hch). eapply others_new; [done|by rewrite Hfi|rewrite Hfi; by left|done|done].
  - destruct (0 <=? ret r); [|by apply others_same; [|apply Hch..]]. destruct Hl as (_ & o & -> & Ho).
    rewrite lookup_insert_eq in Hch. destruct Ho as [->|[n ->]]; [by apply others_same; [|apply Hch..]|].
    destruct (opens_write flags); [|by apply others_same; [|apply Hch..]].
    destruct Hch as (Hq & Hfi & ch & Hn & Hch). specialize (Hoff eq_refl).
    eapply others_one; [done|done|exact Hn|exact Hch|done|]. eapply foreign_fifo; [done|..].
    + intros Hh%(ai_names _ _ _ _ Hi _ _ Hq). congruence.
    + apply (co_fifos _ _ _ (ai_chans _ _ _ _ Hi) _ _ Hq).
  - destruct (0 <=? ret r); [|by apply others_same; [|apply Hch..]]. destruct Hch as (n & Hn & Hfi & Hch).
    eapply others_new; [done|..|exact Hn|exact Hch]; rewrite Hfi.
    + intros q Hq. apply lookup_insert_ne. intros ->. specialize (Hsp _ Hq). cbn in Hsp. by rewrite String.eqb_refl in Hsp.
    + intros q m [[_ <-]|[_ ?]]%lookup_insert_Some; auto.
  - destruct r as [r data]. destruct Hch as [Hfi Hch]. destruct (rd_chan _) as [m|] eqn:Hm; [|by apply others_same].
    destruct (0 <? ret r); [|by apply others_same; [|done|apply Hch]].
    destruct Hch as (rest & op & _ & _ & Hn & _ & Hch). eapply others_one; [done|done|exact Hn|exact Hch|done|].
    destruct (T !! fd) as [o|] eqn:Ho; [|done]. eapply (foreign_chan O s pipes homes pid _ fd o m); [done|done|done|done|].
    destruct o; try done; cbn in Hm; injection Hm as ->; [left; by left|right]. eauto.
  - destruct Hch as [Hfi Hch]. destruct (wr_chan _) as [m|] eqn:Hm; [|by apply others_same].
    destruct (0 <=? ret r); [|by apply others_same].
    destruct Hch as (data & op & Hn & Hch). eapply others_one; [done|done|exact Hn|exact Hch|done|].
    destruct (T !! fd) as [o|] eqn:Ho; [|done]. eapply (foreign_chan O s pipes homes pid _ fd o m); [done|done|done|done|].
    destruct o; try done; cbn in Hm; injection Hm as ->; [left; by right|right]. eexists. split; [done|].
    by eapply (ai_writes _ _ _ _ Hi).
Qed.

(** A descriptor of a FIFO is old, or the FIFO was opened under its name. *)
Lemma fifo_gains pid w T k c r T' k' fd o q n :
  local_answer CR T c r T' -> chans_answer pid w T k c r T' k' -> T' !! fd = Some o -> fifo_of o = Some (q, n) ->
  T !! fd = Some o \/
  (k_fifos k !! q = Some n /\ exists flags, c = Px (Open q flags) /\ (o = FifoWr q n -> opens_write flags = true)).
Proof.
  intros Hl Hch HT Ho. assert (T' = T -> T !! fd = Some o) as Hsame by (by intros <-).
  destruct c as [[]|c|[]|[]|]; cbn in Hl; try (left; apply Hsame; by destruct_and?).
  destruct c; cbn in Hl, Hch; try (left; apply Hsame; by destruct_and?).
  - destruct r as [r [a b]]. destruct (0 <=? ret r); [|by left; apply Hsame]. left.
    destruct Hl as (_ & _ & _ & m & ->).
    by apply lookup_insert_Some in HT as [[_ <-]|[_ [[_ <-]|[_ ?]]%lookup_insert_Some]].
  - destruct (0 <=? ret r); [|by left; apply Hsame]. destruct Hl as [_ ->]. left.
    by apply lookup_insert_Some in HT as [[_ <-]|[_ ?]].
  - subst T'. left. by apply lookup_delete_Some in HT as [_ ?].
  - destruct (0 <=? ret r); [|by left; apply Hsame]. destruct Hl as (_ & o' & -> & Ho').
    apply lookup_insert_Some in HT as [[<- ->]|[_ ?]]; [right|by left]. rewrite lookup_insert_eq in Hch.
    destruct Ho' as [->|[m ->]]; [done|]. destruct (opens_write flags) eqn:Hfl; injection Ho as -> ->;
      (split; [apply Hch|]); by exists flags.
  - destruct r as [r data]. left. apply Hsame, Hl.
Qed.

(** New names of FIFOs. *)
Lemma fifo_made pid w T k c r T' k' :
  chans_answer pid w T k c r T' k' ->
  k_fifos k' = k_fifos k \/
  exists q n, k_chans k !! n = None /\ is_Some (k_chans k' !! n) /\ k_fifos k' = <[q := n]> (k_fifos k).
Proof.
  intros Hch. destruct c as [|c| | |]; try (left; by apply Hch).
  destruct c; cbn in Hch; try (left; by apply Hch).
  - destruct r as [r [a b]]. left. destruct (0 <=? ret r); [|apply Hch]. by destruct Hch as (m & _ & _ & ? & _).
  - left. destruct (0 <=? ret r); [|apply Hch]. by destruct (T' !! ret r) as [[]|]; destruct_and?.
  - destruct (0 <=? ret r); [|left; apply Hch]. destruct Hch as (n & Hn & Hfi & Hch). right. exists p, n.
    by rewrite Hch, lookup_insert_eq.
  - destruct r as [r data]. left. apply Hch.
Qed.

(** The channels of the FIFOs of the container after a call. *)
Lemma homes_next O s pipes homes pid w T c r T' k' :
  apart_inv O s pipes homes -> chans_answer pid w T (s_kernel s) c r T' k' ->
  exists homes', homes ⊆ homes' /\ (forall n, n ∈ homes' -> n ∉ homes -> k_chans (s_kernel s) !! n = None) /\
    (forall n, n ∈ homes' -> n ∉ homes -> exists q, k_fifos k' !! q = Some n) /\
    forall q n, k_fifos k' !! q = Some n -> n ∈ homes' <-> home CR q = true.
Proof.
  intros [_ _ I3 I4 I5 _ _ _] Hch.
  destruct (fifo_made _ _ _ _ _ _ _ _ Hch) as [Heq|(q & n & Hn & Hn' & Heq)]; [exists homes; rewrite Heq; set_solver|].
  assert (n ∉ homes) as Hno by (intros [_ [ch H]]%I4; congruence).
  exists (if home CR q then {[n]} ∪ homes else homes). rewrite Heq.
  split_and!; [destruct (home CR q); set_solver| | |].
  - intros m Hm1 Hm2. destruct (home CR q); [|done]. assert (m = n) as -> by set_solver. done.
  - intros m Hm1 Hm2. destruct (home CR q); [|done]. assert (m = n) as -> by set_solver. exists q. apply lookup_insert_eq.
  - intros q' m [[<- <-]|[Hne Hq']]%lookup_insert_Some; [destruct (home CR q); set_solver|].
    assert (m <> n) as Hmn by (intros ->; destruct (co_fifos _ _ _ I3 _ _ Hq') as [_ [? ?]]; congruence).
    rewrite <- (I5 _ _ Hq'). destruct (home CR q); set_solver.
Qed.

(** An end of an old pipe is not new. *)
Lemma pipe_back s pid c k T r T' k' n pid' p' fd o :
  s_procs s !! pid = Some (Process (Call c k) T) -> local_answer CR T c r T' ->
  chans_answer pid (has_writer (s_procs s)) T (s_kernel s) c r T' k' -> is_Some (k_chans (s_kernel s) !! n) ->
  <[pid := Process (k r) T']> (s_procs s) !! pid' = Some p' -> p_fds p' !! fd = Some o -> pipe_end n o ->
  exists p0, s_procs s !! pid' = Some p0 /\ p_fds p0 !! fd = Some o.
Proof.
  intros Hp Hl Hch Hn [[<- <-]|[_ H]]%lookup_insert_Some Ho He; [|eauto].
  exists (Process (Call c k) T). split; [done|]. by eapply own_gains.
Qed.

(** A call of any process keeps the families apart. *)
Lemma apart_call O s pipes homes pid c k T r T' k' :
  apart_inv O s pipes homes -> s_procs s !! pid = Some (Process (Call c k) T) ->
  local_answer CR T c r T' -> chans_answer pid (has_writer (s_procs s)) T (s_kernel s) c r T' k' ->
  exists pipes' homes', apart_inv O (System k' (<[pid := Process (k r) T']> (s_procs s))) pipes' homes'.
Proof.
  intros Hi Hp Hl Hch. pose proof Hi as [I1 I2 I3 I4 I5 I6 I7 I8].
  destruct (chans_ok_call Root Id pipes (s_kernel s) k' (s_procs s) pid _ (k r) _ c r T' I3 Hp Hl Hch)
    as (pipes' & Hok & Hsub & Hnew & _).
  destruct (homes_next _ _ _ _ _ _ _ _ _ _ _ Hi Hch) as (homes' & Hhs & Hhn & Hhf & Hnames).
  exists pipes', homes'. split; cbn [s_kernel s_procs].
  - etrans; [exact I1|]. rewrite dom_insert. set_solver.
  - intros pid' p' [[<- <-]|[_ H]]%lookup_insert_Some Hin; [|eauto].
    by apply (sp_next _ _ _ _ _ (I2 _ _ Hp Hin)).
  - done.
  - intros n Hn. destruct (decide (n ∈ homes)) as [Hold|Hno].
    + destruct (I4 _ Hold) as [Hnp Hsome]. split; [|by destruct Hsome as [ch Hsome];
        destruct (chan_step _ _ _ _ _ _ _ _ _ _ Hch Hsome) as (ch' & ? & _); eauto].
      intros Hin. destruct Hsome as [ch Hsome]. rewrite Hnew in Hsome; done.
    + destruct (Hhf _ Hn Hno) as [q Hq]. by apply (co_fifos _ _ _ Hok _ _ Hq).
  - done.
  - intros pid' p' fd o q n H Ho Hq.
    assert (forall pid0 p0, s_procs s !! pid0 = Some p0 -> p_fds p0 !! fd = Some o ->
      n ∈ homes' <-> home CR q = true) as Hold.
    { intros pid0 p0 Hp0 Ho0. rewrite <- (I6 _ _ _ _ _ _ Hp0 Ho0 Hq). split; [|by apply Hhs]. intros Hn.
      destruct (decide (n ∈ homes)) as [|Hno]; [done|]. specialize (Hhn _ Hn Hno).
      pose proof (co_fds _ _ _ I3 _ _ _ _ Hp0 Ho0) as H1. destruct o; simplify_eq/=; destruct H1 as [_ [? ?]]; congruence. }
    apply lookup_insert_Some in H as [[<- <-]|[_ H]]; [|eauto].
    destruct (fifo_gains _ _ _ _ _ _ _ _ _ _ _ _ Hl Hch Ho Hq) as [Ho0|[Hq0 _]]; [by eapply Hold|].
    rewrite <- (I5 _ _ Hq0). split; [|by apply Hhs]. intros Hn. destruct (decide (n ∈ homes)) as [|Hno]; [done|].
    specialize (Hhn _ Hn Hno). destruct (co_fifos _ _ _ I3 _ _ Hq0) as [_ [? ?]]. congruence.
  - intros pid1 p1 fd o pid2 p2 fd' o' n H1 Ho Hn Hin H2 Ho' Hn'. destruct (k_chans (s_kernel s) !! n) eqn:Hch0.
    + destruct (pipe_back _ _ _ _ _ _ _ _ _ _ _ _ _ Hp Hl Hch (ltac:(eauto)) H1 Ho Hn) as (p0 & Hp0 & Ho0).
      destruct (pipe_back _ _ _ _ _ _ _ _ _ _ _ _ _ Hp Hl Hch (ltac:(eauto)) H2 Ho' Hn') as (p0' & Hp0' & Ho0').
      exact (I7 _ _ _ _ _ _ _ _ _ Hp0 Ho0 Hn Hin Hp0' Ho0' Hn').
    + assert (forall pid' p' fd o, <[pid := Process (k r) T']> (s_procs s) !! pid' = Some p' ->
        p_fds p' !! fd = Some o -> pipe_end n o -> pid' = pid) as Hself.
      { intros pid' p' fd0 o0 [[<- _]|[_ H]]%lookup_insert_Some H0 He; [done|].
        pose proof (co_fds _ _ _ I3 _ _ _ _ H H0) as Hobj.
        assert (n ∈ pipes) as [? ?]%(co_pipes _ _ _ I3) by (by destruct He; subst o0). congruence. }
      rewrite (Hself _ _ _ _ H2 Ho' Hn'). by rewrite <- (Hself _ _ _ _ H1 Ho Hn).
  - intros pid' p' fd q n [[<- <-]|[_ H]]%lookup_insert_Some Hin Ho; [|eauto].
    destruct (fifo_gains _ _ _ _ _ _ _ _ _ _ _ _ Hl Hch Ho eq_refl) as [Ho0|(_ & flags & -> & Hfl)]; [by eapply I8|].
    destruct (sp_next _ _ _ _ _ (I2 _ _ Hp Hin)) as [[_ Hoff] _]. by apply Hoff, Hfl.
Qed.

(** So does a step after which every process has the descriptors of one that was there. *)
Lemma apart_same O O' s s' pipes homes :
  apart_inv O s pipes homes -> k_fifos (s_kernel s') = k_fifos (s_kernel s) ->
  k_chans (s_kernel s') = k_chans (s_kernel s) -> O' ⊆ dom (s_procs s') ->
  (forall pid' p', s_procs s' !! pid' = Some p' -> exists pid p, s_procs s !! pid = Some p /\
     p_fds p' = p_fds p /\ (pid' ∈ O' <-> pid ∈ O) /\ (pid' ∉ O' -> SP (p_fds p') (p_prog p'))) ->
  apart_inv O' s' pipes homes.
Proof.
  intros [I1 I2 I3 I4 I5 I6 I7 I8] Hfi Hch HO Hback. split; rewrite ?Hfi, ?Hch; auto.
  - intros pid' p' Hp'. by destruct (Hback _ _ Hp') as (pid & p & _ & _ & _ & ?).
  - destruct I3 as [Hfds Hpi Hf]. split; rewrite ?Hfi, ?Hch; auto.
    intros pid' p' fd o Hp' Ho. destruct (Hback _ _ Hp') as (pid & p & Hp & Heq & _). rewrite Heq in Ho. eauto.
  - intros pid' p' fd o q n Hp' Ho. destruct (Hback _ _ Hp') as (pid & p & Hp & Heq & _). rewrite Heq in Ho. eauto.
  - intros pid1 p1 fd o pid2 p2 fd' o' n H1 Ho Hn Hin H2 Ho' Hn'.
    destruct (Hback _ _ H1) as (x1 & y1 & Hy1 & Heq1 & Hi1 & _), (Hback _ _ H2) as (x2 & y2 & Hy2 & Heq2 & Hi2 & _).
    rewrite Heq1 in Ho. rewrite Heq2 in Ho'. apply Hi2. apply Hi1 in Hin. eapply I7; [exact Hy1|exact Ho|exact Hn|..]; eauto.
  - intros pid' p' fd q n Hp' Hno Ho. destruct (Hback _ _ Hp') as (pid & p & Hp & Heq & Hi & _). rewrite Heq in Ho.
    eapply I8; [exact Hp| |exact Ho]. by rewrite <- Hi.
Qed.

Lemma apart_files O s pipes homes f' :
  apart_inv O s pipes homes -> apart_inv O (System (with_files (s_kernel s) f') (s_procs s)) pipes homes.
Proof.
  intros Hi. eapply apart_same; [exact Hi|done|done|apply (ai_here _ _ _ _ Hi)|].
  intros pid p Hp. exists pid, p. split_and!; [done..|]. by eapply ai_off.
Qed.

Lemma apart_move O s pipes homes pid p q :
  apart_inv O s pipes homes -> s_procs s !! pid = Some p -> (pid ∉ O -> SP (p_fds p) q) ->
  apart_inv O (System (s_kernel s) (<[pid := Process q (p_fds p)]> (s_procs s))) pipes homes.
Proof.
  intros Hi Hp Hq. eapply apart_same; [exact Hi|done|done|..]; cbn [s_procs].
  - rewrite dom_insert. pose proof (ai_here _ _ _ _ Hi). set_solver.
  - intros pid' p' [[<- <-]|[_ H]]%lookup_insert_Some; [by exists pid, p|]. exists pid', p'. split_and!; [done..|].
    by eapply ai_off.
Qed.

Lemma apart_fork O O' s pipes homes pid p child q :
  apart_inv O s pipes homes -> s_procs s !! pid = Some p -> s_procs s !! child = None -> (pid ∉ O -> SP (p_fds p) q) ->
  O' = (if decide (pid ∈ O) then {[child]} ∪ O else O) ->
  apart_inv O' (System (s_kernel s) (<[child := Process q (p_fds p)]> (s_procs s))) pipes homes.
Proof.
  intros Hi Hp Hc Hq ->. pose proof (ai_here _ _ _ _ Hi) as Hdom.
  assert (child ∉ O) as Hno by (intros Hin%Hdom; by apply not_elem_of_dom in Hc).
  eapply apart_same; [exact Hi|done|done|..]; cbn [s_procs].
  - rewrite dom_insert. case_decide; set_solver.
  - intros pid' p' [[<- <-]|[Hne H]]%lookup_insert_Some.
    + exists pid, p. split_and!; [done|done|case_decide; set_solver|]. case_decide; [set_solver|auto].
    + exists pid', p'. split_and!; [done|done|case_decide; set_solver|]. intros Hin.
      apply (ai_off _ _ _ _ Hi _ _ H). case_decide; set_solver.
Qed.

Lemma apart_others O s pipes homes k' :
  apart_inv O s pipes homes -> others_answer CR s k' -> apart_inv O (System k' (s_procs s)) pipes homes.
Proof.
  intros [I1 I2 I3 I4 I5 I6 I7 I8] Hoth. pose proof Hoth as [_ Hfi Hmade Hch].
  assert (forall n, is_Some (k_chans (s_kernel s) !! n) -> is_Some (k_chans k' !! n)) as Hdom.
  { intros n [ch Hn]. destruct (Hch n ch Hn) as (ch' & ? & _). eauto. }
  split; cbn [s_kernel s_procs]; eauto using others_chans_ok.
  - intros n Hn. destruct (I4 n Hn). auto.
  - intros q n Hq. destruct (Hmade q n Hq) as [Hold|[Hnone _]]; [auto|].
    assert (n ∉ homes) as Hno by (intros [_ [ch Hn]]%I4; congruence). split; [done|]. intros Hh.
    rewrite Hfi in Hq by done. destruct (co_fifos _ _ _ I3 _ _ Hq) as [_ [ch Hn]]. congruence.
Qed.

(** ** Steps *)

Lemma only_writer O s n : has_writer (s_procs (only_family O s)) n -> has_writer (s_procs s) n.
Proof. intros (pid & p & fd & [Hp _]%only_lookup & Hr & Hw). by exists pid, p, fd. Qed.

Lemma chans_answer_mono pid (w w' : nat -> Prop) T k c r T' k' :
  (forall n, w' n -> w n) -> chans_answer pid w T k c r T' k' -> chans_answer pid w' T k c r T' k'.
Proof.
  intros Hw. destruct c as [|[]| | |]; try done; cbn.
  - destruct r as [r data]. intros [Hf H]. split; [done|]. destruct (rd_chan _); [|done]. destruct (0 <? ret r); [done|].
    naive_solver.
  - naive_solver.
Qed.

Lemma idle_others s : others_answer CR s (s_kernel s).
Proof. by apply others_same. Qed.

Lemma descend_same O l : (forall x, forked l <> Some x) -> descend O l = O.
Proof. intros H. unfold descend. destruct (forked l) as [x|]; [by destruct (H x)|done]. Qed.

Lemma simple_not_forked pid c r : simple_call c = true -> forall x, forked (LCall pid (existT (P := resp) c r)) <> Some x.
Proof. by destruct c as [|[]| | |]. Qed.

(** A call of the family is a call of the family alone. *)
Lemma own_call O s pid c k T r T' k' :
  pid ∈ O -> s_procs s !! pid = Some (Process (Call c k) T) -> simple_call c = true ->
  local_answer CR T c r T' -> files_answer CR c (k_files (s_kernel s)) r (k_files k') ->
  chans_answer pid (has_writer (s_procs s)) T (s_kernel s) c r T' k' ->
  sys_step CR (only_family O s) (LCall pid (existT (P := resp) c r))
    (only_family O (System k' (<[pid := Process (k r) T']> (s_procs s)))).
Proof.
  intros Hin Hp Hc Hl Hf Hch. rewrite only_insert by done.
  eapply (step_call _ (only_family O s)); [by apply only_lookup|done|done|done|].
  eapply chans_answer_mono; [|exact Hch]. apply only_writer.
Qed.

(** A step of another process is a step of another program. *)
Lemma foreign_step O s pid p k' :
  pid ∉ O -> others_answer CR (only_family O s) k' ->
  sys_step CR (only_family O s) LSilent (only_family O (System k' (<[pid := p]> (s_procs s)))).
Proof. intros Hin Hoth. rewrite only_insert_other by done. by apply (step_others _ (only_family O s)). Qed.

(** A step that changes the program of one process, and maybe files. *)
Lemma family_move O s pid p q k' :
  s_procs s !! pid = Some p ->
  (forall x, x ∉ O -> x = pid -> forall h, home CR h = true -> k_files k' !! h = k_files (s_kernel s) !! h) ->
  k_fifos k' = k_fifos (s_kernel s) -> k_chans k' = k_chans (s_kernel s) ->
  forall l, (pid ∈ O -> sys_step CR (only_family O s) l
      (System k' (<[pid := Process q (p_fds p)]> (filter (λ x, x.1 ∈ O) (s_procs s))))) ->
  sys_step CR (only_family O s) (if decide (pid ∈ O) then l else LSilent)
    (only_family O (System k' (<[pid := Process q (p_fds p)]> (s_procs s)))).
Proof.
  intros Hp Hf Hfi Hch l Hown. case_decide as Hin; [rewrite only_insert by done; auto|].
  apply foreign_step; [done|]. apply others_same; [|done|done]. by eapply Hf.
Qed.

Lemma only_others O s k' : others_answer CR s k' -> others_answer CR (only_family O s) k'.
Proof.
  intros [H1 H2 H3 H4]. split; [done..|]. intros n ch Hn. destruct (H4 n ch Hn) as (ch' & ? & ? & H). exists ch'.
  split_and!; [done..|]. intros [(pid & p & fd & o & [Hp _]%only_lookup & Ho)|Hq]; apply H; [left; eauto 10|by right].
Qed.

Lemma fork_family_step O s pid k T (r : sysret) :
  O ⊆ dom (s_procs s) -> s_procs s !! pid = Some (Process (Call (Px Fork) k) T) -> 0 < ret r ->
  in_type Int32 (ret r) -> s_procs s !! ret r = None ->
  let l := LCall pid (existT (P := resp) (Px Fork) r) in
  sys_step CR (only_family O s) (own_label O l) (only_family (descend O l)
    (System (s_kernel s) (<[ret r := Process (k (SysRet 0 0)) T]> (<[pid := Process (k r) T]> (s_procs s))))).
Proof.
  intros Hi Hp Hr Hty Hnone l. unfold l, descend, own_label. cbn [forked]. rewrite (proj2 (Z.ltb_lt _ _) Hr).
  case_decide as Hin.
  - rewrite only_insert by set_solver. rewrite map_filter_insert_True by set_solver.
    replace (filter (λ x, x.1 ∈ {[ret r]} ∪ O) (s_procs s)) with (filter (λ x, x.1 ∈ O) (s_procs s)).
    + eapply (step_fork _ (only_family O s)); [by apply only_lookup|done..|]. cbn. by rewrite map_lookup_filter_None; left.
    + apply map_filter_ext. intros x p Hx. assert (x <> ret r) by congruence. cbn. set_solver.
  - assert (ret r ∉ O) as Hno by (intros H%Hi; by apply not_elem_of_dom in Hnone).
    rewrite only_insert_other by done. rewrite map_filter_insert_not by (by intros y).
    apply (step_others _ (only_family O s)), (idle_others (only_family O s)).
Qed.

Lemma family_step O s pipes homes l s' :
  apart_inv O s pipes homes -> sys_step CR s l s' ->
  (exists pipes' homes', apart_inv (descend O l) s' pipes' homes') /\
  sys_step CR (only_family O s) (own_label O l) (only_family (descend O l) s').
Proof.
  intros Hi Hstep.
  assert (forall pid c (k : resp c -> prog Z) T r, s_procs s !! pid = Some (Process (Call c k) T) -> local_answer CR T c r T ->
    pid ∉ O -> SP T (k r)) as Hsp.
  { intros pid c k T r Hp Hr Hin. destruct (sp_next _ _ _ _ _ (ai_off _ _ _ _ Hi _ _ Hp Hin)) as [_ H]. auto. }
  destruct Hstep as [s pid c k T r T' k' Hp Hc Hl Hf Hch|s pid k T r ? Hp Hr Hty -> Hnone|s pid k T r Hp Hr
    |s pid p k T q ? Hp Hu Hq -> Hrt|s pid p k T ? Hp Hnone -> Hrt|s pid p k T err Hp Herr|s pid p status Hp|s k' Hoth].
  - rewrite descend_same by (by apply simple_not_forked). split; [by eapply apart_call|]. cbn.
    case_decide as Hin; [by eapply own_call|]. apply foreign_step; [done|]. by eapply foreign_others.
  - split; [|by eapply fork_family_step; [apply (ai_here _ _ _ _ Hi)|..]].
    exists pipes, homes. pose proof (apart_move _ _ _ _ _ _ (k r) Hi Hp (Hsp _ _ _ _ _ Hp eq_refl)) as Hi1.
    eapply (apart_fork _ _ _ _ _ pid (Process (k r) T) (ret r) _ Hi1); [apply lookup_insert_eq|..].
    + cbn [s_procs]. rewrite lookup_insert_ne; [done|congruence].
    + by apply (Hsp _ (Px Fork) _ _ (SysRet 0 0) Hp).
    + unfold descend. cbn. by rewrite (proj2 (Z.ltb_lt _ _) Hr).
  - rewrite descend_same by (cbn; destruct (Z.ltb_spec 0 (ret r)); [lia|done]).
    split; [exists pipes, homes; apply (apart_move _ _ _ _ _ _ _ Hi Hp); by apply (Hsp _ _ _ _ _ Hp)|].
    apply (family_move O s pid _ _ _ Hp); [done..|]. intros Hin.
    apply (step_fork_fails _ (only_family O s)); [by apply only_lookup|done].
  - split; [exists pipes, homes; by apply apart_files|]. cbn [own_label]. destruct (decide (pid ∈ O)) as [Hin|Hin].
    + eapply (step_remove_entry _ (only_family O s)); [by apply only_lookup|done..].
    + apply (step_others _ (only_family O s)), others_same; [|done|done]. intros h Hh. cbn. apply lookup_delete_ne.
      intros ->. destruct (sp_next _ _ _ _ _ (ai_off _ _ _ _ Hi _ _ Hp Hin)) as [[H _] _]. specialize (H _ Hh). cbn in H. congruence.
  - rewrite descend_same by done. split.
    { exists pipes, homes. refine (apart_files O (System (s_kernel s) (<[pid := Process (k 0) T]> (s_procs s))) pipes homes
        (delete p (k_files (s_kernel s))) _).
      apply (apart_move _ _ _ _ _ _ _ Hi Hp). by apply (Hsp _ _ _ _ _ Hp). }
    apply (family_move O s pid _ _ _ Hp); [|done|done|].
    + intros x Hin -> h Hh. cbn. apply lookup_delete_ne. intros ->.
      destruct (sp_next _ _ _ _ _ (ai_off _ _ _ _ Hi _ _ Hp Hin)) as [[H _] _]. specialize (H _ Hh). cbn in H.
      by rewrite under_refl in H.
    + intros Hin. by eapply (step_remove_done _ (only_family O s)); [by apply only_lookup|..].
  - rewrite descend_same by done.
    split; [exists pipes, homes; apply (apart_move _ _ _ _ _ _ _ Hi Hp); by apply (Hsp _ _ _ _ _ Hp)|].
    apply (family_move O s pid _ _ _ Hp); [done..|]. intros Hin.
    eapply (step_remove_fails _ (only_family O s)); [by apply only_lookup|done].
  - split; [exists pipes, homes; by apply apart_move|]. cbn [own_label]. destruct (decide (pid ∈ O)) as [Hin|Hin].
    + unfold descend. cbn [forked]. rewrite only_insert by done.
      by eapply (step_killed _ (only_family O s)), only_lookup.
    + apply foreign_step; [done|]. exact (idle_others (only_family O s)).
  - split; [exists pipes, homes; by apply apart_others|]. apply (step_others _ (only_family O s)). by apply only_others.
Qed.

End Apart.

(** ** Systems of several containers *)

Section Several.
Context `{SJ : Simdjson} (Root Id : string) (f : files) (cmds : gmap Z (string * any_command)).

Local Abbreviation CR := (container_dir Root Id).
Local Abbreviation SF := (state_file Root Id).

(** The commands about the container. *)
Definition mine : gmap Z any_command := omap (λ x, if decide (x.1 = Id) then Some x.2 else None) cmds.

(** The container does not exist yet, the ids of all commands are single path
    components, and the pid files are elsewhere. *)
Record several_ok : Prop := {
  so_plain : plain_name Id = true;
  so_ids pid Id' c : cmds !! pid = Some (Id', c) -> plain_name Id' = true /\ in_type Int32 pid;
  so_free q : home CR q = true -> f !! q = None;
  so_apart pid Id' fuel Systemd Cfg Path Console PidFile :
    cmds !! pid = Some (Id', Some_command (CmdCreate fuel Systemd Cfg Path Console PidFile)) -> apart Root Id PidFile;
}.

Lemma mine_lookup pid c : mine !! pid = Some c <-> cmds !! pid = Some (Id, c).
Proof.
  unfold mine. rewrite lookup_omap_Some. split.
  - intros ([Id' c'] & Hx & Hc). case_decide; [|done]. by simplify_eq/=.
  - intros Hc. eexists. split; [|exact Hc]. cbn. by rewrite decide_True.
Qed.

Lemma several_apart : several_ok -> apart_inv Root Id (dom mine) (boot_all Root f cmds) ∅ ∅.
Proof.
  intros [H1 H2 H3 H4].
  assert (forall pid p, s_procs (boot_all Root f cmds) !! pid = Some p -> p_fds p = std_fds) as Hstd.
  { intros pid p (x & <- & _)%lookup_fmap_Some. done. }
  assert (forall pid p fd o, s_procs (boot_all Root f cmds) !! pid = Some p -> p_fds p !! fd = Some o -> o = OtherFd) as Hfds.
  { intros pid p fd o Hp. rewrite (Hstd _ _ Hp). apply std_fds_other. }
  split.
  - intros pid [c Hc%mine_lookup]%elem_of_dom. apply elem_of_dom. cbn. by rewrite lookup_fmap, Hc.
  - intros pid p Hp Hin. cbn in Hp. apply lookup_fmap_Some in Hp as ([Id' c] & <- & Hc). cbn [p_fds p_prog fst snd].
    apply any_sp; [by apply (H2 _ _ _ Hc)|done| |].
    + intros ->. apply Hin, elem_of_dom. exists c. by apply mine_lookup.
    + intros fuel Systemd Cfg Path Console PidFile ->. by eapply H4.
  - split; [|set_solver|done]. intros pid p fd o Hp Ho. by rewrite (Hfds _ _ _ _ Hp Ho).
  - set_solver.
  - done.
  - intros pid p fd o q n Hp Ho. by rewrite (Hfds _ _ _ _ Hp Ho).
  - intros pid p fd o pid' p' fd' o' n Hp Ho Hn. rewrite (Hfds _ _ _ _ Hp Ho) in Hn. by destruct Hn.
  - intros pid p fd q n Hp _ Ho. by pose proof (Hfds _ _ _ _ Hp Ho).
Qed.

Lemma several_boot : only_family (dom mine) (boot_all Root f cmds) = boot_any Root Id f mine.
Proof.
  unfold only_family, boot_any. cbn [boot_all s_kernel s_procs]. f_equal. apply map_eq. intros pid. apply option_eq. intros p.
  rewrite map_lookup_filter_Some, !lookup_fmap_Some, elem_of_dom. split.
  - intros [(x & <- & Hx) [c Hc]]. exists c. split; [|done]. apply mine_lookup in Hc. by simplify_eq/=.
  - intros (c & <- & Hc). split; [|by exists c]. apply mine_lookup in Hc. by exists (Id, c).
Qed.

Lemma family_execution O s pipes homes tr :
  apart_inv Root Id O s pipes homes -> execution CR s tr -> execution CR (only_family O s) (family_trace O tr).
Proof.
  intros Hi Hex. revert O pipes homes Hi. induction Hex as [s|s l s1 tr Hstep Hex IH]; intros O pipes homes Hi; [constructor|].
  destruct (family_step _ _ _ _ _ _ _ _ Hi Hstep) as [(pipes' & homes' & Hi') Hstep']. cbn [family_trace].
  econstructor; [exact Hstep'|]. by eapply IH.
Qed.

Lemma family_kernels O tr : s_kernel <$> (family_trace O tr).*2 = s_kernel <$> tr.*2.
Proof. revert O. induction tr as [|[l s] tr IH]; intros O; [done|]. cbn. f_equal. apply IH. Qed.

Lemma several_execution tr :
  several_ok -> execution CR (boot_all Root f cmds) tr ->
  execution CR (boot_any Root Id f mine) (family_trace (dom mine) tr).
Proof. intros Hok Hex. rewrite <- several_boot. by eapply family_execution; [apply several_apart|]. Qed.

(** C4: the containers do not disturb each other: in every execution of commands,
    delete included, about any number of containers of one root directory, what the
    processes of one of them do, whatever the others do in between, is an execution
    of its commands alone. All ids are single path components, which the program
    does not check; the pid files are not in the directory of the container, which
    does not exist at the beginning. *)
Theorem several_containers tr :
  several_ok -> execution CR (boot_all Root f cmds) tr ->
  execution CR (boot_any Root Id f mine) (family_trace (dom mine) tr).
Proof. apply several_execution. Qed.

End Several.
