(* ===== verification/Deletes.v ===== *)
(** Delete commands.

    A delete command does not take part in the protocol of the other commands:
    it removes the directory whoever owns it, which mixes up containers when the
    old one is still there ([Races.delete_mixes_containers]).  Here delete
    commands run among the others in an orderly way: while one of them removes
    the directory, no process of a create command that has begun is running.
    Then the state file still goes through the life cycle, of one container
    after the other, and so does that of each of several containers. *)
From S2P Require Import Prelude Cpp Signals Path Json JsonRef Prog Logic FileOps Loader Bundle Time State.
From S2P Require Import StateProps SDBus CGroup Container Lifecycle Commands Kernel.
From S2P Require Import Roles RolesInv RolesStep RolesProg Concurrent Isolation Several.

(** ** Containers without an owner *)

Section Abandon.
Context `{SJ : Simdjson} (Root Id : string) (Bundles : string -> Prop) (starters guests : Z -> Prop).

Local Abbreviation CR := (container_dir Root Id).
Local Abbreviation SF := (state_file Root Id).
Local Abbreviation FF := (exec_fifo Root Id).
Local Abbreviation wpr := (wp (seen Root Id) (rok Root Id Bundles)).
Local Abbreviation INV := (inv Root Id Bundles starters guests).
Local Abbreviation SAFE := (safe Root Id Bundles starters guests).

(** The role of a process that no longer matters. *)
Definition retire (ro : role) : role := if guest ro then ro else Outsider.

Definition unowned (tok : token) : token := match tok with TkFree => TkFree | _ => TkLost end.

(** When no process of the owner is going to act, there is no owner. *)
Lemma inv_abandon t s a tok roles pipes :
  INV t s a tok roles pipes ->
  (forall pid p ro, s_procs s !! pid = Some p -> roles !! pid = Some ro ->
     guest ro = true \/ wpr Outsider (p_fds p) (p_prog p) (λ _ _ _, True)) ->
  INV t s a (unowned tok) (retire <$> roles) pipes.
Proof.
  intros [I1 I2 I3 I4 I5 I6 I7 I8 I9 I10 I11 I12 I13 I14 I15 I16 I17 I18 I19 I20] Hw.
  assert (forall pid ro, (retire <$> roles) !! pid = Some ro -> ro = Outsider \/ (guest ro = true /\ roles !! pid = Some ro)) as Hr.
  { intros pid ro (ro0 & <- & H0)%lookup_fmap_Some. unfold retire. destruct (guest ro0) eqn:E; auto. }
  assert (forall pid o, (retire <$> roles) !! pid <> Some (Owner o)) as Ho by (by intros pid o [|[? _]]%Hr).
  assert (forall pid n, (retire <$> roles) !! pid <> Some (Waiter n)) as Hwt by (by intros pid n [|[? _]]%Hr).
  split; try done; try (intros; exfalso; match goal with
    | H : _ !! _ = Some (Owner _) |- _ => exact (Ho _ _ H)
    | H : _ !! _ = Some (Waiter _) |- _ => exact (Hwt _ _ H)
    end).
  - rewrite I4. by destruct tok.
  - intros pid p Hp. destruct (I6 pid p Hp) as (ro & Hro & Hwp). exists (retire ro). rewrite lookup_fmap, Hro.
    split; [done|]. unfold retire. destruct (guest ro) eqn:E; [done|]. destruct (Hw pid p ro Hp Hro); [congruence|done].
  - intros pid H%I7. by rewrite lookup_fmap, H.
  - intros pid [|[_ H]]%Hr; [done|auto].
  - intros pid e [|[_ H]]%Hr; [done|eauto].
  - intros pid (ro & Hro & Hg)%I20. exists ro. rewrite lookup_fmap, Hro. cbn. unfold retire. by rewrite Hg.
Qed.

(** Then removing files of the container does no harm. *)
Lemma inv_removed t s a tok roles pipes q :
  INV t s a tok roles pipes -> (forall pid o, roles !! pid <> Some (Owner o)) ->
  (forall pid n, roles !! pid <> Some (Waiter n)) -> rooted CR (delete q (k_files (s_kernel s))) ->
  INV t (System (with_files (s_kernel s) (delete q (k_files (s_kernel s)))) (s_procs s))
    (if String.eqb q SF then None else a) (if String.eqb q CR then TkFree else tok) roles pipes.
Proof.
  intros [I1 I2 I3 I4 I5 I6 I7 I8 I9 I10 I11 I12 I13 I14 I15 I16 I17 I18 I19 I20] Ho Hw Hrt.
  split; cbn [s_kernel s_procs with_files k_files k_chans]; try done; try (intros; exfalso; match goal with
    | H : _ !! _ = Some (Owner _) |- _ => exact (Ho _ _ H)
    | H : _ !! _ = Some (Waiter _) |- _ => exact (Hw _ _ H)
    end).
  - destruct (String.eqb_spec q SF) as [->|Hne]; [apply lookup_delete_eq|by rewrite lookup_delete_ne].
  - intros q' Hq'. destruct (decide (q = q')) as [->|]; [left; apply lookup_delete_eq|].
    rewrite lookup_delete_ne by done. auto.
  - destruct (String.eqb_spec q CR) as [->|Hne]; [by rewrite lookup_delete_eq|by rewrite lookup_delete_ne].
  - intros st. destruct (String.eqb q SF); [done|]. auto.
  - destruct I16. by split.
Qed.

Lemma safe_removed t s a q :
  SAFE t s a -> rooted CR (delete q (k_files (s_kernel s))) ->
  (forall pid p ro, s_procs s !! pid = Some p -> (guests pid -> guest ro = true) ->
     guest ro = true \/ wpr Outsider (p_fds p) (p_prog p) (λ _ _ _, True)) ->
  exists a', SAFE (t ++ [LSilent]) (System (with_files (s_kernel s) (delete q (k_files (s_kernel s)))) (s_procs s)) a' /\
    (a' = a \/ life_edge Id a a').
Proof.
  intros [(tok & roles & pipes & Hinv) Hff] Hrt Hw.
  exists (if String.eqb q SF then None else a). split; cycle 1.
  { destruct (String.eqb q SF); [|by left]. destruct a; [right; constructor|by left]. }
  split; cycle 1.
  { unfold fifo_ok in *. cbn. destruct (decide (q = FF)) as [->|]; [left; apply lookup_delete_eq|].
    by rewrite lookup_delete_ne. }
  do 3 eexists. apply inv_label, inv_removed; [eapply inv_abandon; [exact Hinv|]|..|done].
  - intros pid p ro Hp Hro. eapply Hw; [exact Hp|]. intros (ro' & Hro' & ?)%(iv_guest _ _ _ _ _ _ _ _ _ _ _ Hinv).
    congruence.
  - intros pid o (ro & Hro & _)%lookup_fmap_Some. unfold retire in Hro. by destruct (guest ro) eqn:E; destruct ro.
  - intros pid n (ro & Hro & _)%lookup_fmap_Some. unfold retire in Hro. by destruct (guest ro) eqn:E; destruct ro.
Qed.

End Abandon.

(** ** Commands about one container, with delete *)

Section Deletes.
Context `{SJ : Simdjson} (Root Id : string) (f : files) (cmds : gmap Z any_command).

Local Abbreviation CR := (container_dir Root Id).
Local Abbreviation SF := (state_file Root Id).

(** The commands other than delete. *)
Definition others : gmap Z command :=
  omap (λ c, match c with Some_command c => Some c | CmdDelete _ => None end) cmds.

Record deletes_ok : Prop := {
  dk_free q : home CR q = true -> f !! q = None;
  dk_apart pid fuel Systemd Cfg Path Console PidFile :
    cmds !! pid = Some (Some_command (CmdCreate fuel Systemd Cfg Path Console PidFile)) -> apart Root Id PidFile;
  dk_pids pid : is_Some (cmds !! pid) -> in_type Int32 pid;
}.

(** A process is removing the directory. *)
Definition removing (p : process) : Prop :=
  exists k T, p = Process (Call (Fs (FsRemoveAll CR)) k) T.

(** A process of a command that never owns the container, or of one that has not
    begun. *)
Definition bystander (pid : Z) (p : process) : Prop :=
  exists c, cmds !! pid = Some c /\
    (p = Process (any_prog Root Id c) std_fds \/
     match c with Some_command (CmdCreate _ _ _ _ _ _) => False | _ => True end).

(** While a delete command removes the directory, the other processes that run
    are bystanders. *)
Definition orderly (s : system) : Prop :=
  forall pid Force p, cmds !! pid = Some (CmdDelete Force) -> s_procs s !! pid = Some p -> removing p ->
    forall pid' p', s_procs s !! pid' = Some p' -> running p' = true -> bystander pid' p'.

Lemma others_lookup pid c : others !! pid = Some c <-> cmds !! pid = Some (Some_command c).
Proof.
  unfold others. rewrite lookup_omap_Some. split.
  - intros ([c'|] & Hx & Hc); simplify_eq/=; done.
  - intros Hc. by exists (Some_command c).
Qed.

Lemma deletes_boot_ok : deletes_ok -> boot_ok Root Id f others.
Proof.
  intros [H1 H2 H3]. split; [done|..].
  - intros pid fuel Systemd Cfg Path Console PidFile Hc%others_lookup. by eapply H2.
  - intros pid [c Hc%others_lookup]. apply H3. eauto.
Qed.

Lemma deletes_boot : only_family (dom others) (boot_any Root Id f cmds) = boot Root Id f others.
Proof.
  unfold only_family, boot. cbn [boot_any s_kernel s_procs]. f_equal. apply map_eq. intros pid. apply option_eq. intros p.
  rewrite map_lookup_filter_Some, !lookup_fmap_Some, elem_of_dom. split.
  - intros [(x & <- & Hx) [c Hc]]. exists c. split; [|done]. apply others_lookup in Hc. by simplify_eq/=.
  - intros (c & <- & Hc). split; [|by exists c]. apply others_lookup in Hc. by exists (Some_command c).
Qed.

(** The calls of a delete command: it looks for the directory, removes it and
    clears the cache, which is elsewhere. *)
Definition delete_call (c : call) : Prop :=
  match c with
  | Fs (FsStatus _) | Wm (CacheClear _) => True
  | Fs (FsRemoveAll p) => p = CR
  | _ => False
  end.

Lemma doDelete_calls Force : all_calls delete_call (doDelete Root Id Force).
Proof. unfold doDelete, is_directory, ensure. calls_walk; done. Qed.

Local Abbreviation SAFE := (safe Root Id (is_bundle others) (is_start others) (is_guest others)).

(** The processes outside of the family [O] are delete commands. *)
Record deletes_inv (t : list label) (O : gset Z) (s : system) (a : option State) : Prop := {
  di_safe : SAFE t (only_family O s) a;
  di_here : O ⊆ dom (s_procs s);
  di_delete pid p : s_procs s !! pid = Some p -> pid ∉ O ->
    all_calls delete_call (p_prog p) /\ exists Force, cmds !! pid = Some (CmdDelete Force);
  di_there pid Force : cmds !! pid = Some (CmdDelete Force) -> pid ∈ dom (s_procs s) ∖ O;
}.

Lemma deletes_inv_boot : deletes_ok -> deletes_inv [] (dom others) (boot_any Root Id f cmds) None.
Proof.
  intros Hok. split.
  - rewrite deletes_boot. by apply boot_safe, deletes_boot_ok.
  - intros pid [c Hc%others_lookup]%elem_of_dom. apply elem_of_dom. cbn. by rewrite lookup_fmap, Hc.
  - intros pid p (c & <- & Hc)%lookup_fmap_Some Hin. destruct c as [c|Force].
    + destruct Hin. apply elem_of_dom. exists c. by apply others_lookup.
    + split; [apply doDelete_calls|by exists Force].
  - intros pid Force Hc. apply elem_of_difference. split; [apply elem_of_dom; cbn; by rewrite lookup_fmap, Hc|].
    intros [c Hc'%others_lookup]%elem_of_dom. congruence.
Qed.

(** What a delete command removes in an orderly state. *)
Lemma orderly_removed t O s a pid p q :
  deletes_ok -> deletes_inv t O s a -> orderly s -> s_procs s !! pid = Some p -> pid ∉ O -> removing p ->
  rooted CR (delete q (k_files (s_kernel s))) ->
  exists a', SAFE (t ++ [LSilent])
    (only_family O (System (with_files (s_kernel s) (delete q (k_files (s_kernel s)))) (s_procs s))) a' /\
    (a' = a \/ life_edge Id a a').
Proof.
  intros Hok [Hs Hh Hd Ht] Hord Hp Hin Hrm Hrt. destruct (Hd _ _ Hp Hin) as (_ & Force & Hc).
  apply (safe_removed _ _ _ _ _ _ _ _ q Hs Hrt). intros pid' p' ro [Hp' Hin']%only_lookup Hg.
  destruct (running p') eqn:Hrun; [|right; destruct p' as [[] T']; done].
  destruct (Hord _ _ _ Hc Hp Hrm _ _ Hp' Hrun) as (c & Hc' & Hby).
  destruct c as [c|Force']; [|apply Ht in Hc'; set_solver]. apply others_lookup in Hc'.
  destruct (first_role c) eqn:Hfirst; [|destruct c; done|left; apply Hg; exists c; by destruct c..|by destruct c|by destruct c].
  right. destruct c; try done. destruct Hby as [->|[]]. cbn [any_prog p_fds p_prog].
  exact (command_wp Root Id f others pid' _ (deletes_boot_ok Hok) Hc').
Qed.

(** A step of one process, or of none, that keeps the family. *)
Lemma deletes_move t O s a t' k' a' pid p p' :
  deletes_inv t O s a -> s_procs s !! pid = Some p ->
  (pid ∉ O -> all_calls delete_call (p_prog p) -> all_calls delete_call (p_prog p')) ->
  SAFE t' (only_family O (System k' (<[pid := p']> (s_procs s)))) a' ->
  deletes_inv t' O (System k' (<[pid := p']> (s_procs s))) a'.
Proof.
  intros [Hs Hh Hd Ht] Hp Hp' Hs'. split; [done|..]; cbn [s_procs].
  - rewrite dom_insert. set_solver.
  - intros pid1 p1 [[<- <-]|[_ H]]%lookup_insert_Some Hin; [|by apply Hd].
    destruct (Hd _ _ Hp Hin) as [H1 H2]. auto.
  - intros pid1 Force H%Ht. rewrite dom_insert. set_solver.
Qed.

Lemma deletes_still t O s a t' k' a' :
  deletes_inv t O s a -> SAFE t' (only_family O (System k' (s_procs s))) a' -> deletes_inv t' O (System k' (s_procs s)) a'.
Proof. intros [Hs Hh Hd Ht] Hs'. by split. Qed.

(** A step of the family, or one that the family does not notice. *)
Lemma deletes_own t O s a l k' pid p p' :
  deletes_inv t O s a -> s_procs s !! pid = Some p -> (forall x, forked l <> Some x) ->
  (pid ∉ O -> all_calls delete_call (p_prog p) -> all_calls delete_call (p_prog p')) ->
  sys_step CR (only_family O s) (own_label O l) (only_family O (System k' (<[pid := p']> (s_procs s)))) ->
  exists a', deletes_inv (t ++ [own_label O l]) (descend O l) (System k' (<[pid := p']> (s_procs s))) a' /\
    (a' = a \/ life_edge Id a a').
Proof.
  intros Hi Hp Hl Hp' Hstep. rewrite descend_same by done.
  destruct (safe_step _ _ _ _ _ _ _ _ _ _ (di_safe _ _ _ _ Hi) Hstep) as (a' & Ha & Hedge).
  exists a'. split; [by eapply deletes_move|done].
Qed.

Lemma deletes_silent t O s a k' :
  deletes_inv t O s a -> sys_step CR (only_family O s) LSilent (only_family O (System k' (s_procs s))) ->
  exists a', deletes_inv (t ++ [LSilent]) O (System k' (s_procs s)) a' /\ (a' = a \/ life_edge Id a a').
Proof.
  intros Hi Hstep. destruct (safe_step _ _ _ _ _ _ _ _ _ _ (di_safe _ _ _ _ Hi) Hstep) as (a' & Ha & Hedge).
  exists a'. split; [by eapply deletes_still|done].
Qed.

(** A call of a delete command other than removing the directory. *)
Lemma deletes_foreign O s pid c k' w T r T' p :
  pid ∉ O -> delete_call c -> simple_call c = true -> files_answer CR c (k_files (s_kernel s)) r (k_files k') ->
  chans_answer pid w T (s_kernel s) c r T' k' ->
  sys_step CR (only_family O s) LSilent (only_family O (System k' (<[pid := p]> (s_procs s)))).
Proof.
  intros Hin Hc Hs (_ & Hframe & _) Hch. apply foreign_step; [done|]. destruct c as [[]|[]|[]|[]|]; try done.
  all: apply others_same; [|apply Hch..]; intros q Hq; apply Hframe; cbn; by rewrite ?Hq.
Qed.

(** A fork of a process of the family. *)
Lemma deletes_fork t O s a pid k T (r : sysret) :
  deletes_inv t O s a -> s_procs s !! pid = Some (Process (Call (Px Fork) k) T) -> 0 < ret r ->
  in_type Int32 (ret r) -> s_procs s !! ret r = None ->
  let l := LCall pid (existT (P := resp) (Px Fork) r) in
  exists a', deletes_inv (t ++ [own_label O l]) (descend O l) (System (s_kernel s)
    (<[ret r := Process (k (SysRet 0 0)) T]> (<[pid := Process (k r) T]> (s_procs s)))) a' /\ (a' = a \/ life_edge Id a a').
Proof.
  intros Hi Hp Hr Hty Hnone l. pose proof Hi as [Hs Hh Hd Ht].
  destruct (decide (pid ∈ O)) as [Hin|Hin]; [|by destruct (Hd _ _ Hp Hin) as [[[] _] _]].
  destruct (safe_step _ _ _ _ _ _ _ _ _ _ Hs (fork_family_step Root Id _ _ _ _ _ _ Hh Hp Hr Hty Hnone)) as (a' & Ha & Hedge).
  exists a'. split; [|done]. assert (descend O l = {[ret r]} ∪ O) as Hl.
  { unfold l, descend. cbn. rewrite (proj2 (Z.ltb_lt _ _) Hr). by rewrite decide_True. }
  apply not_elem_of_dom in Hnone.
  split; [done|..]; rewrite Hl; cbn [s_procs]; rewrite ?dom_insert_L.
  - set_solver.
  - intros pid1 p1 [[<- _]|[_ [[<- _]|[_ H]]%lookup_insert_Some]]%lookup_insert_Some Hno; [set_solver..|].
    apply Hd; [done|set_solver].
  - intros pid1 Force H%Ht. set_solver.
Qed.

(** Every step of an orderly state is a step of the life cycle. *)
Lemma deletes_step t O s a l s' :
  deletes_ok -> deletes_inv t O s a -> orderly s -> sys_step CR s l s' ->
  exists a', deletes_inv (t ++ [own_label O l]) (descend O l) s' a' /\ (a' = a \/ life_edge Id a a').
Proof.
  intros Hok Hi Hord Hstep. pose proof Hi as [Hs Hh Hd Ht].
  destruct Hstep as [s pid c k T r T' k' Hp Hc Hl Hf Hch|s pid k T r ? Hp Hr Hty -> Hnone|s pid k T r Hp Hr
    |s pid p k T q ? Hp Hu Hq -> Hrt|s pid p k T ? Hp Hnone -> Hrt|s pid p k T err Hp Herr|s pid p status Hp|s k' Hoth].
  - eapply deletes_own; [done|exact Hp|by apply simple_not_forked|intros _ [_ H]; apply H|].
    cbn [own_label]. case_decide as Hin; [by eapply own_call|].
    destruct (Hd _ _ Hp Hin) as [[Hcall _] _]. by eapply deletes_foreign.
  - by apply deletes_fork.
  - eapply deletes_own; [done|exact Hp| |intros _ [_ H]; apply H|].
    + cbn. destruct (Z.ltb_spec 0 (ret r)); [lia|done].
    + apply (family_move Root Id O s pid _ _ _ Hp); [done..|]. intros Hin.
      apply (step_fork_fails _ (only_family O s)); [by apply only_lookup|done].
  - cbn [own_label]. rewrite descend_same by done. destruct (decide (pid ∈ O)) as [Hin|Hin].
    + eapply deletes_silent; [done|].
      eapply (step_remove_entry _ (only_family O s)); [by apply only_lookup|done..].
    + destruct (Hd _ _ Hp Hin) as [[-> _] _].
      destruct (orderly_removed _ _ _ _ _ _ q Hok Hi Hord Hp Hin) as (a' & Ha & Hedge); [by repeat eexists|done|].
      exists a'. split; [|done]. by eapply deletes_still.
  - destruct (decide (pid ∈ O)) as [Hin|Hin].
    + eapply deletes_own; [done|exact Hp|done|done|]. cbn [own_label]. rewrite decide_True, only_insert by done.
      by eapply (step_remove_done _ (only_family O s)); [by apply only_lookup|..].
    + destruct (Hd _ _ Hp Hin) as [[-> Hk] _]. cbn [own_label]. rewrite decide_False, descend_same by done.
      destruct (orderly_removed _ _ _ _ _ _ CR Hok Hi Hord Hp Hin) as (a' & Ha & Hedge); [by repeat eexists|done|].
      exists a'. split; [|done]. eapply deletes_move; [done|exact Hp|intros _ _; apply Hk|].
      by rewrite only_insert_other.
  - eapply deletes_own; [done|exact Hp|done|intros _ [_ H]; apply H|].
    apply (family_move Root Id O s pid _ _ _ Hp); [done..|]. intros Hin.
    eapply (step_remove_fails _ (only_family O s)); [by apply only_lookup|done].
  - eapply deletes_own; [done|exact Hp|done|done|]. cbn [own_label]. destruct (decide (pid ∈ O)) as [Hin|Hin].
    + rewrite only_insert by done. by eapply (step_killed _ (only_family O s)), only_lookup.
    + apply foreign_step; [done|]. exact (idle_others Root Id (only_family O s)).
  - cbn [own_label]. rewrite descend_same by done.
    eapply deletes_silent; [done|]. apply (step_others _ (only_family O s)). by apply (only_others Root Id).
Qed.

Lemma deletes_path t O s a tr :
  deletes_ok -> deletes_inv t O s a -> execution CR s tr -> Forall orderly (s :: tr.*2) ->
  exists path, life_path Id a path /\
    Forall2 (λ s' b, k_files (s_kernel s') !! SF = (λ st, Reg (State_print st)) <$> b) (tr.*2) path.
Proof.
  intros Hok Hi Hex. revert t O a Hi. induction Hex as [s|s l s1 tr Hstep Hex IH]; intros t O a Hi Hord.
  { by exists []. }
  apply Forall_cons in Hord as [Hs Hord]. destruct (deletes_step _ _ _ _ _ _ Hok Hi Hs Hstep) as (b & Hb & Hab).
  destruct (IH _ _ _ Hb Hord) as (path & Hpath & Hview). exists (b :: path). split; [done|].
  constructor; [|done]. destruct (di_safe _ _ _ _ Hb) as [(tok & roles & pipes & Hinv) _].
  exact (iv_view _ _ _ _ _ _ _ _ _ _ _ Hinv).
Qed.

(** C3: The life cycle with delete: in every orderly execution of any number of create,
    start, kill, state and delete commands about a container, the state file goes
    through the life cycles of one container after the other; at every moment it
    holds exactly one of the states, or there is none.  Orderly means that no
    delete removes the directory while a process of a create command that has
    begun still runs; the container does not exist at the beginning, and the pid
    files are not in its directory. *)
Theorem orderly_lifecycle tr :
  deletes_ok -> execution CR (boot_any Root Id f cmds) tr -> Forall orderly (boot_any Root Id f cmds :: tr.*2) ->
  exists path, life_path Id None path /\
    Forall2 (λ s a, k_files (s_kernel s) !! SF = (λ st, Reg (State_print st)) <$> a) (tr.*2) path.
Proof. intros Hok. by eapply deletes_path, deletes_inv_boot. Qed.

(** ** Checking that an execution is orderly *)

(** The processes that have made a call. *)
Definition begun (B : gset Z) (l : label) : gset Z := match l with LCall pid _ => {[pid]} ∪ B | LSilent => B end.

Definition is_removing (p : process) : bool :=
  match p_prog p with Call (Fs (FsRemoveAll q)) _ => String.eqb q CR | _ => false end.

Definition stands_by (B : gset Z) (pid : Z) : bool :=
  match cmds !! pid with
  | Some (Some_command (CmdCreate _ _ _ _ _ _)) => bool_decide (pid ∉ B)
  | Some _ => true
  | None => false
  end.

Definition orderly_now (B : gset Z) (s : system) : bool :=
  let ps := map_to_list (s_procs s) in
  forallb (λ kv, negb (is_removing kv.2) || forallb (λ kv, negb (running kv.2) || stands_by B kv.1) ps) ps.

Fixpoint orderly_run (B : gset Z) (tr : list (label * system)) : bool :=
  match tr with
  | [] => true
  | (l, s) :: tr => orderly_now (begun B l) s && orderly_run (begun B l) tr
  end.

(** A process that has made no call is as it was, or killed. *)
Definition unbegun (B : gset Z) (s : system) : Prop :=
  forall pid c p, cmds !! pid = Some c -> pid ∉ B -> s_procs s !! pid = Some p ->
    p = Process (any_prog Root Id c) std_fds \/ running p = false.

Lemma orderly_now_sound B s : unbegun B s -> orderly_now B s = true -> orderly s.
Proof.
  intros Hun Hnow pid Force p Hc Hp (k & T & ->) pid' p' Hp' Hrun. unfold orderly_now in Hnow.
  rewrite forallb_forall in Hnow. specialize (Hnow (pid, _) (proj1 (list_elem_of_In _ _) (proj2 (elem_of_map_to_list _ _ _) Hp))).
  cbn in Hnow. rewrite String.eqb_refl in Hnow. cbn in Hnow. rewrite forallb_forall in Hnow.
  specialize (Hnow (pid', _) (proj1 (list_elem_of_In _ _) (proj2 (elem_of_map_to_list _ _ _) Hp'))). cbn in Hnow.
  rewrite Hrun in Hnow. cbn in Hnow. unfold stands_by in Hnow. destruct (cmds !! pid') as [c|] eqn:Hc'; [|done].
  exists c. split; [done|]. destruct c as [[]|]; auto. apply bool_decide_eq_true in Hnow.
  destruct (Hun _ _ _ Hc' Hnow Hp'); [by left|congruence].
Qed.

Lemma unbegun_step B s l s' :
  sys_step CR s l s' -> dom cmds ⊆ dom (s_procs s) -> unbegun B s ->
  dom cmds ⊆ dom (s_procs s') /\ unbegun (begun B l) s'.
Proof.
  intros Hstep Hdom Hun. split.
  { destruct Hstep; cbn [s_procs]; rewrite ?dom_insert; set_solver. }
  intros pid' c p' Hc Hin Hp'.
  assert (forall B', B ⊆ B' -> pid' ∉ B' -> s_procs s !! pid' = Some p' ->
    p' = Process (any_prog Root Id c) std_fds \/ running p' = false) as Hold.
  { intros B' HB Hin' H. apply (Hun pid' c p' Hc); [set_solver|done]. }
  destruct Hstep; cbn [s_procs begun] in *; try (by eapply (Hold B));
    try (by apply lookup_insert_Some in Hp' as [[<- _]|[_ Hp']]; [set_solver|eapply Hold; [|exact Hin|]; [set_solver|]]).
  - subst child. apply lookup_insert_Some in Hp' as [[<- _]|[_ [[<- _]|[_ Hp']]%lookup_insert_Some]];
      [|set_solver|by eapply Hold; [|exact Hin|]; [set_solver|]].
    assert (ret r ∈ dom (s_procs s)) as [? ?]%elem_of_dom by (by apply Hdom, elem_of_dom; eauto). congruence.
  - apply lookup_insert_Some in Hp' as [[<- <-]|[_ Hp']]; [by right|by eapply (Hold B)].
Qed.

Lemma orderly_run_sound B s tr :
  execution CR s tr -> dom cmds ⊆ dom (s_procs s) -> unbegun B s -> orderly_run B tr = true -> Forall orderly (tr.*2).
Proof.
  intros Hex. revert B. induction Hex as [s|s l s1 tr Hstep Hex IH]; intros B Hdom Hun Hrun; [constructor|].
  cbn in Hrun. apply andb_true_iff in Hrun as [Hnow Hrun]. destruct (unbegun_step _ _ _ _ Hstep Hdom Hun) as [Hdom' Hun'].
  cbn. constructor; [by eapply orderly_now_sound|by eapply IH].
Qed.

(** An execution from the start that passes the check is orderly. *)
Lemma orderly_checked tr :
  execution CR (boot_any Root Id f cmds) tr -> orderly_run ∅ tr = true ->
  Forall orderly (boot_any Root Id f cmds :: tr.*2).
Proof.
  intros Hex Hrun.
  assert (unbegun ∅ (boot_any Root Id f cmds)) as Hun.
  { intros pid c p Hc _ (c' & <- & Hc')%lookup_fmap_Some. left. by simplify_eq. }
  constructor.
  - intros pid Force p Hc (c & <- & _)%lookup_fmap_Some (k & T & Hrm) pid' p' (c' & <- & Hc')%lookup_fmap_Some _.
    exists c'. split; [done|by left].
  - eapply orderly_run_sound; [done| |exact Hun|done]. cbn. by rewrite dom_fmap_L.
Qed.

End Deletes.

(** ** Several containers *)

Section SeveralLives.
Context `{SJ : Simdjson} (Root Id : string) (f : files) (cmds : gmap Z (string * any_command)).

Local Abbreviation CR := (container_dir Root Id).
Local Abbreviation SF := (state_file Root Id).
Local Abbreviation own := (mine Id cmds).

Lemma several_deletes_ok : several_ok Root Id f cmds -> deletes_ok Root Id f own.
Proof.
  intros [H1 H2 H3 H4]. split; [done|..].
  - intros pid fuel Systemd Cfg Path Console PidFile Hc%mine_lookup. by eapply H4.
  - intros pid [c Hc%mine_lookup]. by apply (H2 _ _ _ Hc).
Qed.

(** The state file of a container goes through its life cycle in every execution
    of commands about any number of containers, as if the others were not there,
    when its own delete commands run in an orderly way. *)
Lemma several_lifecycles tr :
  several_ok Root Id f cmds -> execution CR (boot_all Root f cmds) tr ->
  Forall (orderly Root Id own) (boot_any Root Id f own :: (family_trace (dom own) tr).*2) ->
  exists path, life_path Id None path /\
    Forall2 (λ s a, k_files (s_kernel s) !! SF = (λ st, Reg (State_print st)) <$> a) (tr.*2) path.
Proof.
  intros Hok Hex Hord. pose proof (several_execution _ _ _ _ _ Hok Hex) as Hex'.
  destruct (deletes_path _ _ _ _ _ _ _ _ _ (several_deletes_ok Hok)
    (deletes_inv_boot _ _ _ _ (several_deletes_ok Hok)) Hex' Hord) as (path & Hpath & Hview).
  exists path. split; [done|].
  apply (Forall2_fmap_l s_kernel (λ k a, k_files k !! SF = (λ st, Reg (State_print st)) <$> a)).
  rewrite <- (family_kernels (dom own)). by apply Forall2_fmap_l.
Qed.

End SeveralLives.
