(* ===== verification/Programs.v ===== *)
(** The whole program, several times at once.

    The theorems about concurrent processes start with the commands.  A process
    starts with the static initialisation of the cgroup mode and the entry point:
    what processes that are started from command lines do is an execution of the
    commands that the command lines name. *)
From S2P Require Import Prelude Cpp Signals Path Json JsonRef Prog Logic Sim FileOps Loader Bundle Time State.
From S2P Require Import StateProps SDBus CGroup Container Descriptors Lifecycle Commands Kernel.
From S2P Require Import Roles RolesInv RolesStep RolesProg Concurrent Isolation Several Deletes.

(** ** Calls of the commands *)

(** Only the static initialisation asks for the type of a file system. *)
Definition no_statfs (c : call) : bool := match c with Px (Statfs _) => false | _ => true end.

Section NoStatfs.
Context `{SJ : Simdjson}.
Local Abbreviation commanded := (all_calls (λ c, no_statfs c = true)).

Lemma ordinary_commanded {A} (p : prog A) : all_calls (λ c, ordinary c = true) p -> commanded p.
Proof. apply all_calls_mono. by intros [|[]| | |]. Qed.

Lemma doCreate_commanded fuel Root Systemd Cfg Cid Path Console PidFile :
  commanded (doCreate fuel Root Systemd Cfg Cid Path Console PidFile).
Proof.
  unfold doCreate, create_body, create_fork, create_parent, create_daemon, connect_console, close_fd, scope_exit,
    ensure, lift_cpp. cbv zeta. calls_walk; try done.
  - unfold loadBundle, Bundle_load. calls_walk; done.
  - by apply ordinary_commanded, atomicCreate_ordinary.
  - eapply all_calls_mono; [|apply doRunInternal_contained]. by intros [|[]| | |].
Qed.

Lemma any_commanded Root Id c : commanded (any_prog Root Id c).
Proof.
  destruct c as [[]|]; [apply doCreate_commanded|..]; cbn [any_prog command_prog];
    unfold doStart, doKill, doState, doDelete, FileOps.readAll, is_regular_file, is_directory, State_load, loadBundle,
      Bundle_load, close_fd, scope_exit, ensure, lift_cpp; cbv zeta; calls_walk; done.
Qed.

End NoStatfs.

(** ** Command lines *)

(** The programs that become another one by asking for types of file systems. *)
Inductive leads `{SJ : Simdjson} (q : prog Z) : prog Z -> Prop :=
| leads_done : leads q q
| leads_statfs p k : (forall r, leads q (k r)) -> leads q (Call (Px (Statfs p)) k).

Lemma leads_inv `{SJ : Simdjson} q p :
  leads q p ->
  match p with
  | Call c k => q = p \/ no_statfs c = false /\ forall r, leads q (k r)
  | _ => q = p
  end.
Proof. intros [|path k Hk]; [by destruct q; auto|by right]. Qed.

(** Calls that no other process notices. *)
Definition quiet (c : call) : bool :=
  match c with Px (Statfs _) | Fs (Cout _) => true | _ => false end.

Section Lines.
Context `{SJ : Simdjson}.
Context (basic_logger_mt : string -> bool) (parse : list parser_decl -> list string -> option Options).
Context (default_argument : option_decl -> string) (Version StateDir : string) (fuel : nat).

Local Abbreviation Main := (main basic_logger_mt parse default_argument Version StateDir fuel).
Local Abbreviation Program := (program basic_logger_mt parse default_argument Version StateDir fuel).

(** The command that is selected, if one is. *)
Definition selected (o : Options) : option any_command :=
  let Cfg := if is_empty (opt_ConfigFileName o) then default_argument opt_decl_ConfigFileName
             else opt_ConfigFileName o in
  if isVersion o then None
  else if Start_selected o then Some (Some_command (CmdStart Cfg))
  else if Create_selected o then
    Some (Some_command (CmdCreate fuel (opt_SystemdCgroup o) Cfg (opt_Path o) (opt_ConsoleSocket o) (opt_PidFile o)))
  else if Delete_selected o then Some (CmdDelete (opt_Force o))
  else if Kill_selected o then Some (Some_command (CmdKill Cfg (opt_Signal o)))
  else if State_selected o then Some (Some_command CmdState)
  else None.

(** The root directory, the container and the command of a command line. *)
Definition line_command (Argv : list string) : option (string * string * any_command) :=
  if basic_logger_mt "/tmp/runw.log" then
    o ← parse (Parser StateDir) Argv; c ← selected o; Some (opt_Root o, opt_ContainerId o, c)
  else None.

(** [main] runs the command; without one it makes no call that matters. *)
Lemma main_line Argv :
  match line_command Argv with
  | Some (Root, Id, c) => Main Argv = any_prog Root Id c
  | None => all_calls (λ c, quiet c = true) (Main Argv)
  end.
Proof.
  unfold line_command, main, selected. destruct (basic_logger_mt _); [|done]. cbn.
  destruct (parse _ _) as [o|]; [|done]. cbn.
  repeat match goal with |- context [if ?b then _ else _] => destruct b; [done|] end. done.
Qed.

Lemma checkMode_leads q : leads q (checkMode ≫= λ _, q).
Proof.
  unfold checkMode. cbn. apply leads_statfs. intros [r t]. cbn.
  repeat match goal with |- context [if ?b then _ else _] => destruct b; cbn end; try apply leads_done;
    apply leads_statfs; intros [r' t']; cbn;
    repeat match goal with |- context [if ?b then _ else _] => destruct b; cbn end; apply leads_done.
Qed.

Lemma leads_quiet q p : leads q p -> all_calls (λ c, quiet c = true) q -> all_calls (λ c, quiet c = true) p.
Proof. induction 1 as [|path k _ IH]; [done|]. intros Hq. split; [done|]. auto. Qed.

(** *** The system *)

Context (Root : string) (f : files) (lines : gmap Z (list string)).

(** Processes are started, each with its command line. *)
Definition boot_lines : system :=
  System (Kernel f ∅ ∅) ((λ Argv, Process (Program Argv) std_fds) <$> lines).

(** The commands of the command lines. *)
Definition line_commands : gmap Z (string * any_command) :=
  omap (λ Argv, (λ x, (x.1.2, x.2)) <$> line_command Argv) lines.

(** All commands are about containers of one root directory. *)
Definition one_root : Prop :=
  forall pid Argv R Id c, lines !! pid = Some Argv -> line_command Argv = Some (R, Id, c) -> R = Root.

(** A process as one that starts with its command: during the initialisation, the
    command is about to start; a process without a command is left out. *)
Definition settle_process (pid : Z) (p : process) : option process :=
  match lines !! pid with
  | None => Some p
  | Some Argv =>
      '(_, Id, c) ← line_command Argv;
      Some match p_prog p with
           | Call (Px (Statfs _)) _ => Process (any_prog Root Id c) (p_fds p)
           | _ => p
           end
  end.

Definition settle (s : system) : system := System (s_kernel s) (map_imap settle_process (s_procs s)).

Definition settle_label (l : label) : label :=
  match l with
  | LCall pid e =>
      match lines !! pid with
      | Some Argv => if line_command Argv then if no_statfs (projT1 e) then l else LSilent else LSilent
      | None => l
      end
  | LSilent => LSilent
  end.

Definition settle_trace (tr : list (label * system)) : list (label * system) :=
  (λ x, (settle_label x.1, settle x.2)) <$> tr.

(** How far a process has come. *)
Definition stage (Argv : list string) (p : process) : Prop :=
  match line_command Argv with
  | None => p_fds p = std_fds /\ all_calls (λ c, quiet c = true) (p_prog p)
  | Some (_, Id, c) =>
      (p_fds p = std_fds /\ leads (any_prog Root Id c) (p_prog p)) \/
      all_calls (λ c, no_statfs c = true) (p_prog p)
  end.

Record lines_inv (s : system) : Prop := {
  li_here : dom lines ⊆ dom (s_procs s);
  li_stage pid Argv p : lines !! pid = Some Argv -> s_procs s !! pid = Some p -> stage Argv p;
}.

Lemma lines_boot : one_root -> lines_inv boot_lines.
Proof.
  intros Hroot. split; [by cbn; rewrite dom_fmap_L|].
  intros pid Argv p HA (Argv' & <- & HA')%lookup_fmap_Some. simplify_eq. unfold stage. cbn [p_fds p_prog].
  pose proof (main_line Argv) as Hmain. pose proof (checkMode_leads (Main Argv)) as Hlead.
  destruct (line_command Argv) as [[[R Id] c]|] eqn:Hc.
  - left. split; [done|]. rewrite <- (Hroot _ _ _ _ _ HA Hc). by rewrite <- Hmain.
  - split; [done|]. by eapply leads_quiet.
Qed.

Lemma boot_settled : one_root -> settle boot_lines = boot_all Root f line_commands.
Proof.
  intros Hroot. unfold settle, boot_lines, boot_all. cbn [s_kernel s_procs]. f_equal. apply map_eq. intros pid.
  unfold line_commands. rewrite map_lookup_imap, !lookup_fmap, lookup_omap. destruct (lines !! pid) as [Argv|] eqn:HA; [|done]. cbn.
  unfold settle_process. rewrite HA. by destruct (line_command Argv) as [[[R Id] c]|].
Qed.

(** *** Steps *)

(** The next process is seen in the same way: the call was made on the way to the
    command, or there is no command. *)
Definition unseen (pid : Z) (c : call) (k : resp c -> prog Z) (T : fds) : Prop :=
  quiet c = true /\ forall r,
    settle_process pid (Process (k r) T) = settle_process pid (Process (Call c k) T) /\
    settle_label (LCall pid (existT (P := resp) c r)) = LSilent /\
    forall Argv, lines !! pid = Some Argv -> stage Argv (Process (k r) T).

(** The process is seen as it is. *)
Definition plain (pid : Z) (c : call) (k : resp c -> prog Z) (T : fds) : Prop :=
  settle_process pid (Process (Call c k) T) = Some (Process (Call c k) T) /\ forall r T',
    settle_process pid (Process (k r) T') = Some (Process (k r) T') /\
    settle_label (LCall pid (existT (P := resp) c r)) = LCall pid (existT (P := resp) c r) /\
    forall Argv, lines !! pid = Some Argv -> stage Argv (Process (k r) T').

Lemma settle_commanded pid Argv R Id c p :
  lines !! pid = Some Argv -> line_command Argv = Some (R, Id, c) ->
  all_calls (λ c, no_statfs c = true) (p_prog p) -> settle_process pid p = Some p.
Proof.
  intros HA Hc Hp. unfold settle_process. rewrite HA, Hc. cbn. destruct p as [[a|c0 k| | | |] T]; try done.
  destruct Hp as [Hc0 _]. by destruct c0 as [|[]| | |].
Qed.

Lemma leads_settle Id c p T :
  leads (any_prog Root Id c) p ->
  match p with Call (Px (Statfs _)) _ => Process (any_prog Root Id c) T | _ => Process p T end =
  Process (any_prog Root Id c) T.
Proof.
  intros Hl. pose proof (leads_inv _ _ Hl) as Hp. destruct p as [a|c0 k| | | |]; try by rewrite Hp.
  destruct Hp as [Hp|[Hc _]]; [by rewrite Hp; destruct c0 as [|[]| | |]; rewrite ?Hp|by destruct c0 as [|[]| | |]].
Qed.

Lemma call_seen s pid c k T :
  lines_inv s -> s_procs s !! pid = Some (Process (Call c k) T) -> unseen pid c k T \/ plain pid c k T.
Proof.
  intros Hi Hp. destruct (lines !! pid) as [Argv|] eqn:HA; cycle 1.
  { right. unfold plain, settle_process, settle_label. rewrite HA. naive_solver. }
  pose proof (li_stage _ Hi _ _ _ HA Hp) as Hst. unfold stage in Hst.
  destruct (line_command Argv) as [[[R Id] cmd]|] eqn:Hcmd; cycle 1.
  { destruct Hst as [HT [Hq Hk]]. left. split; [done|]. intros r. unfold settle_process, settle_label. rewrite HA, Hcmd.
    split_and!; [done..|]. intros ? [= <-]. unfold stage. rewrite Hcmd. split; [done|apply Hk]. }
  assert (all_calls (λ c, no_statfs c = true) (Call c k) -> plain pid c k T) as Hplain.
  { intros Hall. pose proof Hall as [Hc Hk]. split; [by eapply settle_commanded|]. intros r T'.
    split_and!; [eapply settle_commanded; [done..|apply Hk]|by unfold settle_label; rewrite HA, Hcmd; cbn; rewrite Hc|].
    intros Argv' HA'. simplify_eq. unfold stage. rewrite Hcmd. right. apply Hk. }
  destruct Hst as [[HT Hl]|Hall]; [|by right; apply Hplain]. cbn in HT, Hl.
  destruct (leads_inv _ _ Hl) as [Heq|[Hc Hk]]; [right; apply Hplain; rewrite <- Heq; apply any_commanded|].
  left. split; [by destruct c as [|[]| | |]|]. intros r. unfold settle_label. rewrite HA, Hcmd. cbn. rewrite Hc.
  split_and!; [|done|intros ? [= <-]; unfold stage; rewrite Hcmd; left; split; [done|apply Hk]].
  unfold settle_process. rewrite HA, Hcmd. cbn. destruct c as [|[]| | |]; try done. f_equal.
  by apply leads_settle.
Qed.

Lemma settle_lookup s pid p :
  s_procs (settle s) !! pid = Some p ->
  lines_inv s -> exists p0, s_procs s !! pid = Some p0 /\ p_fds p = p_fds p0 /\ (p = p0 \/ p_fds p0 = std_fds).
Proof.
  cbn. rewrite map_lookup_imap. intros (p0 & Hp0 & Hs)%bind_Some Hi. exists p0. split; [done|].
  unfold settle_process in Hs. destruct (lines !! pid) as [Argv|] eqn:HA; [|by simplify_eq; auto].
  pose proof (li_stage _ Hi _ _ _ HA Hp0) as Hst. unfold stage in Hst.
  destruct (line_command Argv) as [[[R Id] c]|]; [|done]. cbn in Hs.
  destruct p0 as [[a|c0 k| | | |] T]; try (by simplify_eq/=; auto).
  destruct c0 as [|[]| | |]; try (by simplify_eq/=; auto). simplify_eq/=. destruct Hst as [[HT _]|[? _]]; [auto|done].
Qed.

Lemma settle_insert k ps pid p q :
  settle_process pid p = Some q ->
  settle (System k (<[pid := p]> ps)) = System k (<[pid := q]> (map_imap settle_process ps)).
Proof. intros Hp. unfold settle. cbn. f_equal. by apply map_imap_insert_Some. Qed.

Lemma settle_insert_same k ps pid p p' :
  ps !! pid = Some p -> settle_process pid p' = settle_process pid p ->
  settle (System k (<[pid := p']> ps)) = settle (System k ps).
Proof.
  intros Hp Heq. unfold settle. cbn. f_equal. apply map_eq. intros i. rewrite !map_lookup_imap.
  destruct (decide (i = pid)) as [->|Hne]; [|by rewrite lookup_insert_ne].
  rewrite lookup_insert_eq, Hp. cbn. by rewrite Heq.
Qed.

Context (Home : string).

Lemma settle_writer s n : lines_inv s -> has_writer (s_procs (settle s)) n -> has_writer (s_procs s) n.
Proof.
  intros Hi (pid & p & fd & Hp & Hr & Hw). destruct (settle_lookup _ _ _ Hp Hi) as (p0 & Hp0 & Hfd & [->|Hstd]).
  - by exists pid, p0, fd.
  - rewrite Hfd, Hstd in Hw. destruct (std_fds !! fd) as [o|] eqn:Ho; [|done]. by rewrite (std_fds_other _ _ Ho) in Hw.
Qed.

Lemma settle_others s k' : lines_inv s -> others_answer Home s k' -> others_answer Home (settle s) k'.
Proof.
  intros Hi [H1 H2 H3 H4]. split; [done..|]. intros n ch Hn. destruct (H4 n ch Hn) as (ch' & ? & ? & H). exists ch'.
  split_and!; [done..|]. intros [(pid & p & fd & o & Hp & Ho)|Hq]; apply H; [left|by right].
  destruct (settle_lookup _ _ _ Hp Hi) as (p0 & Hp0 & Hfd & _). rewrite Hfd in Ho. by exists pid, p0, fd, o.
Qed.

Lemma silent_step s : sys_step Home s LSilent s.
Proof. destruct s as [k ps]. apply (step_others Home (System k ps)). split; eauto. Qed.

(** A call that no process notices does not change the kernel. *)
Lemma quiet_kernel pid w T k c r T' k' :
  quiet c = true -> local_answer Home T c r T' -> files_answer Home c (k_files k) r (k_files k') ->
  chans_answer pid w T k c r T' k' -> T' = T /\ k' = k.
Proof.
  intros Hc Hl (_ & Hf & _) Hch.
  assert (k_files k' = k_files k) as Hfiles by (apply map_eq; intros q; apply Hf; by destruct c as [[]|[]| | |]).
  destruct c as [[]|[]| | |]; try done; cbn in Hl, Hch; destruct Hch, k, k'; by simplify_eq/=.
Qed.

Lemma lines_insert s k' pid p p' :
  lines_inv s -> s_procs s !! pid = Some p -> (forall Argv, lines !! pid = Some Argv -> stage Argv p') ->
  lines_inv (System k' (<[pid := p']> (s_procs s))).
Proof.
  intros [H1 H2] Hp Hst. split; cbn; [rewrite dom_insert; set_solver|].
  intros pid' Argv q HA [[<- <-]|[_ Hq]]%lookup_insert_Some; eauto.
Qed.

Lemma lines_fork s pid p :
  lines_inv s -> s_procs s !! pid = None -> lines_inv (System (s_kernel s) (<[pid := p]> (s_procs s))) /\
    settle_process pid p = Some p.
Proof.
  intros [H1 H2] Hp. assert (lines !! pid = None) as Hno.
  { apply not_elem_of_dom. intros ?%H1. by apply not_elem_of_dom in Hp. }
  split; [|by unfold settle_process; rewrite Hno]. split; cbn; [rewrite dom_insert; set_solver|].
  intros pid' Argv q HA [[<- <-]|[_ Hq]]%lookup_insert_Some; [congruence|eauto].
Qed.

Lemma plain_lookup s pid c k T :
  plain pid c k T -> s_procs s !! pid = Some (Process (Call c k) T) ->
  s_procs (settle s) !! pid = Some (Process (Call c k) T).
Proof. intros [Hpl _] Hp. cbn. rewrite map_lookup_imap, Hp. exact Hpl. Qed.

(** A call that makes one step. *)
Lemma settle_call s pid c k T r T' k' :
  lines_inv s -> s_procs s !! pid = Some (Process (Call c k) T) ->
  local_answer Home T c r T' -> files_answer Home c (k_files (s_kernel s)) r (k_files k') ->
  chans_answer pid (has_writer (s_procs s)) T (s_kernel s) c r T' k' -> simple_call c = true ->
  let s' := System k' (<[pid := Process (k r) T']> (s_procs s)) in
  lines_inv s' /\ sys_step Home (settle s) (settle_label (LCall pid (existT (P := resp) c r))) (settle s').
Proof.
  intros Hi Hp Hl Hf Hch Hc s'. destruct (call_seen _ _ _ _ _ Hi Hp) as [[Hq Hun]|Hpl].
  - destruct (quiet_kernel _ _ _ _ _ _ _ _ Hq Hl Hf Hch) as [-> ->], (Hun r) as (Hs & -> & Hst).
    split; [by eapply lines_insert|]. unfold s'. rewrite (settle_insert_same _ _ _ _ _ Hp Hs). apply silent_step.
  - destruct (proj2 Hpl r T') as (Hs & -> & Hst). split; [by eapply lines_insert|]. unfold s'.
    rewrite (settle_insert _ _ _ _ _ Hs). eapply (step_call _ (settle s)); [by apply plain_lookup|done..|].
    eapply chans_answer_mono; [|exact Hch]. intros n. by apply settle_writer.
Qed.

(** A call that is not quiet and changes no descriptor. *)
Lemma settle_other s pid c k T r k' :
  lines_inv s -> s_procs s !! pid = Some (Process (Call c k) T) -> quiet c = false ->
  s_procs (settle s) !! pid = Some (Process (Call c k) T) /\
  lines_inv (System k' (<[pid := Process (k r) T]> (s_procs s))) /\
  settle_label (LCall pid (existT (P := resp) c r)) = LCall pid (existT (P := resp) c r) /\
  settle (System k' (<[pid := Process (k r) T]> (s_procs s))) =
    System k' (<[pid := Process (k r) T]> (s_procs (settle s))).
Proof.
  intros Hi Hp Hq. destruct (call_seen _ _ _ _ _ Hi Hp) as [[? _]|Hpl]; [congruence|].
  destruct (proj2 Hpl r T) as (Hs & Hlab & Hst). split_and!; [by apply plain_lookup|by eapply lines_insert|done|].
  by apply settle_insert.
Qed.

Lemma settle_fork s pid k T (r : sysret) :
  lines_inv s -> s_procs s !! pid = Some (Process (Call (Px Fork) k) T) -> 0 < ret r -> in_type Int32 (ret r) ->
  s_procs s !! ret r = None ->
  let s' := System (s_kernel s) (<[ret r := Process (k (SysRet 0 0)) T]> (<[pid := Process (k r) T]> (s_procs s))) in
  lines_inv s' /\ sys_step Home (settle s) (settle_label (LCall pid (existT (P := resp) (Px Fork) r))) (settle s').
Proof.
  intros Hi Hp Hr Hty Hnone s'.
  destruct (settle_other s pid (Px Fork) k T r (s_kernel s) Hi Hp eq_refl) as (Hp' & Hi1 & -> & Heq).
  destruct (lines_fork _ (ret r) (Process (k (SysRet 0 0)) T) Hi1) as [Hi2 Hs].
  { cbn. rewrite lookup_insert_ne; [done|congruence]. }
  split; [exact Hi2|]. unfold s'. rewrite (settle_insert _ _ _ _ _ Hs). injection Heq as ->.
  eapply (step_fork _ (settle s)); [done..|]. cbn. by rewrite map_lookup_imap, Hnone.
Qed.

Lemma settle_killed s pid p status :
  lines_inv s -> s_procs s !! pid = Some p ->
  let s' := System (s_kernel s) (<[pid := Process (Exit status) (p_fds p)]> (s_procs s)) in
  lines_inv s' /\ sys_step Home (settle s) LSilent (settle s').
Proof.
  intros Hi Hp s'. split.
  - eapply lines_insert; [done..|]. intros Argv HA. pose proof (li_stage _ Hi _ _ _ HA Hp) as Hst. unfold stage in *.
    destruct (line_command Argv) as [[[R Id] c]|]; [by right|]. by destruct Hst.
  - destruct (settle_process pid p) as [q|] eqn:Hq.
    + destruct (settle_lookup s pid q) as (p0 & Hp0 & Hfd & _); [by cbn; rewrite map_lookup_imap, Hp|done|]. simplify_eq.
      unfold s'. rewrite (settle_insert _ _ _ _ (Process (Exit status) (p_fds q))).
      * apply (step_killed _ (settle s)). cbn. by rewrite map_lookup_imap, Hp.
      * unfold settle_process in *. rewrite Hfd. destruct (lines !! pid); [|done].
        by destruct (line_command _) as [[[R Id] c]|].
    + unfold s'. rewrite (settle_insert_same _ _ _ _ _ Hp); [apply silent_step|]. rewrite Hq.
      unfold settle_process in *. destruct (lines !! pid); [|done]. by destruct (line_command _) as [[[R Id] c]|].
Qed.

Lemma settle_step s l s' :
  lines_inv s -> sys_step Home s l s' -> lines_inv s' /\ sys_step Home (settle s) (settle_label l) (settle s').
Proof.
  intros Hi Hstep.
  destruct Hstep as [s pid c k T r T' k' Hp Hc Hl Hf Hch|s pid k T r ? Hp Hr Hty -> Hnone|s pid k T r Hp Hr
    |s pid p k T q ? Hp Hu Hq -> Hrt|s pid p k T ? Hp Hnone -> Hrt|s pid p k T err Hp Herr|s pid p status Hp|s k' Hoth].
  - by eapply settle_call.
  - by apply settle_fork.
  - destruct (settle_other s pid (Px Fork) k T r (s_kernel s) Hi Hp eq_refl) as (Hp' & Hi1 & -> & ->). split; [done|].
    by eapply (step_fork_fails _ (settle s)).
  - split; [by split; apply Hi|].
    destruct (settle_other s pid (Fs (FsRemoveAll p)) k T 0 (s_kernel s) Hi Hp eq_refl) as (Hp' & _).
    by eapply (step_remove_entry _ (settle s)).
  - destruct (settle_other s pid (Fs (FsRemoveAll p)) k T 0 (with_files (s_kernel s) (delete p (k_files (s_kernel s))))
      Hi Hp eq_refl) as (Hp' & Hi1 & -> & ->). split; [done|]. by eapply (step_remove_done _ (settle s)).
  - destruct (settle_other s pid (Fs (FsRemoveAll p)) k T err (s_kernel s) Hi Hp eq_refl) as (Hp' & Hi1 & -> & ->).
    split; [done|]. by eapply (step_remove_fails _ (settle s)).
  - by apply settle_killed.
  - split; [by split; apply Hi|]. by apply (step_others _ (settle s)), settle_others.
Qed.

Lemma settle_execution s tr :
  lines_inv s -> execution Home s tr -> execution Home (settle s) (settle_trace tr).
Proof.
  intros Hi Hex. induction Hex as [s|s l s1 tr Hstep Hex IH]; [constructor|].
  destruct (settle_step _ _ _ Hi Hstep) as [Hi1 Hstep1]. by constructor; [|apply IH].
Qed.

Lemma settle_kernels tr : s_kernel <$> (settle_trace tr).*2 = s_kernel <$> tr.*2.
Proof. induction tr as [|[l s] tr IH]; [done|]. cbn in *. by f_equal. Qed.

(** C5: processes that are started from command lines do what the commands of these
    command lines do: without the initialisation and the entry point, every
    execution of the whole programs is an execution of the commands. *)
Theorem programs_run_commands tr :
  one_root -> execution Home boot_lines tr ->
  execution Home (boot_all Root f line_commands) (settle_trace tr) /\
  s_kernel <$> (settle_trace tr).*2 = s_kernel <$> tr.*2.
Proof.
  intros Hroot Hex. split; [|apply settle_kernels]. rewrite <- boot_settled by done.
  by apply settle_execution; [apply lines_boot|].
Qed.

End Lines.

(** ** The life cycles of the containers *)

Section Lives.
Context `{SJ : Simdjson}.
Context (basic_logger_mt : string -> bool) (parse : list parser_decl -> list string -> option Options).
Context (default_argument : option_decl -> string) (Version StateDir : string) (fuel : nat).
Context (Root Id : string) (f : files) (lines : gmap Z (list string)).

Local Abbreviation CR := (container_dir Root Id).
Local Abbreviation SF := (state_file Root Id).
Local Abbreviation boot := (boot_lines basic_logger_mt parse default_argument Version StateDir fuel f lines).
Local Abbreviation cmds := (line_commands basic_logger_mt parse default_argument StateDir fuel lines).
Local Abbreviation commands_of :=
  (settle_trace basic_logger_mt parse default_argument StateDir fuel Root lines).

(** C2: the state file of a container goes through its life cycle, however many
    processes of the program are started with command lines and however their calls
    mix. The command lines name one root directory and container ids that are single
    path components (the program does not check this: an absolute id names any
    directory), the pid files are not in the directory of the container, which does
    not exist at the beginning, and the delete commands about it run in an orderly
    way: none removes the directory while a process of a create command that has
    begun still runs. *)
Theorem programs_lifecycles tr :
  one_root basic_logger_mt parse default_argument StateDir fuel Root lines -> several_ok Root Id f cmds ->
  execution CR boot tr ->
  Forall (orderly Root Id (mine Id cmds))
    (boot_any Root Id f (mine Id cmds) :: (family_trace (dom (mine Id cmds)) (commands_of tr)).*2) ->
  exists path, life_path Id None path /\
    Forall2 (λ s a, k_files (s_kernel s) !! SF = (λ st, Reg (State_print st)) <$> a) (tr.*2) path.
Proof.
  intros Hroot Hok Hex Hord.
  pose proof (settle_execution _ _ _ _ _ _ _ _ _ _ (lines_boot _ _ _ Version _ _ _ f _ Hroot) Hex) as Hex'.
  rewrite boot_settled in Hex' by done.
  destruct (several_lifecycles _ _ _ _ _ Hok Hex' Hord) as (path & Hpath & Hview). exists path. split; [done|].
  apply (Forall2_fmap_l s_kernel (λ k a, k_files k !! SF = (λ st, Reg (State_print st)) <$> a)).
  rewrite <- (settle_kernels basic_logger_mt parse default_argument StateDir fuel Root lines). by apply Forall2_fmap_l.
Qed.

End Lives.
