(* ===== verification/Liveness.v ===== *)
(** A start is never lost.

    Infinite executions, in which processes that can go on do so in the end:
    when a start command has opened the FIFO of a container, the process of the
    container that waits for it does not wait for ever.  The start command ends,
    so that nothing holds the FIFO open for writing; from then on the FIFO stays
    ready, and [select] returns. *)
From S2P Require Import Prelude Cpp Signals Path Json JsonRef Prog Logic FileOps Loader Bundle Time State.
From S2P Require Import StateProps SDBus CGroup Container Lifecycle Commands Kernel.
From S2P Require Import Roles RolesInv RolesStep RolesProg Concurrent Fair.

(** ** Start commands end *)

Section Wake.
Context `{SJ : Simdjson} (Root Id : string) (f : files) (cmds : gmap Z command).
Context (st : nat -> system) (lb : nat -> label).

Local Abbreviation CR := (container_dir Root Id).
Local Abbreviation FF := (exec_fifo Root Id).

Context (Hok : boot_ok Root Id f cmds) (Hrun : fair_run CR (boot Root Id f cmds) st lb).

Lemma doStart_quiet Cfg : quiet (doStart Root Cfg Id).
Proof.
  unfold doStart, is_regular_file, State_load, loadBundle, Bundle_load, scope_exit, close_fd, ensure.
  quiet_walk.
Qed.

Lemma boot_lookup pid c : cmds !! pid = Some c ->
  s_procs (st 0) !! pid = Some (Process (command_prog Root Id c) std_fds).
Proof. intros Hc. rewrite (fr_start _ _ _ _ Hrun). cbn. by rewrite lookup_fmap, Hc. Qed.

Lemma starts_end : exists J, forall pid, is_start cmds pid -> forall j, (J <= j)%nat -> over st pid j.
Proof.
  enough (forall X : gset Z, exists J, forall pid, pid ∈ X -> is_start cmds pid ->
    forall j, (J <= j)%nat -> over st pid j) as H.
  { destruct (H (dom cmds)) as [J HJ]. exists J. intros pid Hs. apply HJ; [|done].
    destruct Hs as [Cfg Hc]. apply elem_of_dom. eauto. }
  induction X as [|pid X _ [J IH]] using set_ind_L; [exists 0%nat; set_solver|].
  destruct (cmds !! pid) as [[| Cfg| |]|] eqn:Hc.
  2:{ destruct (quiet_ends _ _ _ _ Hrun pid _ _ _ (doStart_quiet Cfg) (boot_lookup _ _ Hc)) as [J' HJ'].
      exists (J + J')%nat. intros pid' [->%elem_of_singleton|Hin]%elem_of_union Hs j Hj; [|apply IH; auto; lia].
      by eapply over_stays; [exact Hrun|exact HJ'|lia]. }
  all: exists J; intros pid' [->%elem_of_singleton|Hin]%elem_of_union Hs j Hj;
    [destruct Hs as [? Hs]; by rewrite Hc in Hs|by apply IH].
Qed.

(** ** Only start commands hold a FIFO open for writing *)

Record writers_ok (s : system) : Prop := {
  wo_here pid : is_Some (cmds !! pid) -> is_Some (s_procs s !! pid);
  wo_quiet pid p : is_start cmds pid -> s_procs s !! pid = Some p -> quiet (p_prog p);
  wo_fds pid p fd q n : s_procs s !! pid = Some p -> p_fds p !! fd = Some (FifoWr q n) -> is_start cmds pid;
}.

Lemma new_writer T c r T' fd q n :
  local_answer CR T c r T' -> T' !! fd = Some (FifoWr q n) ->
  T !! fd = Some (FifoWr q n) \/ exists flags, c = Px (Open q flags) /\ opens_write flags = true.
Proof.
  intros Hl HT. assert (T' = T -> T !! fd = Some (FifoWr q n)) as Hsame by (by intros <-).
  destruct c as [[]|c|[]|[]|]; cbn in Hl; try (left; apply Hsame; by destruct_and?).
  destruct c; cbn in Hl; try (left; apply Hsame; by destruct_and?).
  - destruct r as [r [a b]]. destruct (0 <=? ret r); [|by left; apply Hsame].
    destruct Hl as (_ & _ & _ & m & ->). left.
    by apply lookup_insert_Some in HT as [[_ ?]|[_ [[_ ?]|[_ ?]]%lookup_insert_Some]].
  - destruct (0 <=? ret r); [|by left; apply Hsame]. destruct Hl as [_ ->]. left.
    by apply lookup_insert_Some in HT as [[_ ?]|[_ ?]].
  - subst T'. left. by apply lookup_delete_Some in HT as [_ ?].
  - destruct (0 <=? ret r); [|by left; apply Hsame]. destruct Hl as (_ & o & -> & Ho).
    apply lookup_insert_Some in HT as [[_ ->]|[_ ?]]; [right|by left]. exists flags.
    destruct Ho as [|[m Ho]]; [done|]. destruct (opens_write flags); by simplify_eq.
  - destruct r as [r data]. left. apply Hsame, Hl.
Qed.

Lemma rok_open_inv ro T q flags (F : sysret -> role) :
  rok Root Id (is_bundle cmds) ro T (Px (Open q flags)) F -> opens_write flags = true -> ro = Starter.
Proof.
  enough (forall c F, rok Root Id (is_bundle cmds) ro T c F ->
    match c with Px (Open q flags) => opens_write flags = true -> ro = Starter | _ => True end) as H
    by exact (H (Px (Open q flags)) F).
  intros c F' Hrok. destruct Hrok as [? ? c [_ Hc]| | | | | | | | | | | | | | | | | | | |]; try done.
  destruct c as [|[]| | |]; try done. congruence.
Qed.

(** A process goes on with other descriptors. *)
Lemma writers_move s pid p0 p k' :
  writers_ok s -> s_procs s !! pid = Some p0 ->
  (quiet (p_prog p0) -> quiet (p_prog p)) ->
  (forall fd q n, p_fds p !! fd = Some (FifoWr q n) -> p_fds p0 !! fd = Some (FifoWr q n) \/ is_start cmds pid) ->
  writers_ok (System k' (<[pid := p]> (s_procs s))).
Proof.
  intros [H1 H2 H3] Hp Hq Hw. split; cbn [s_procs].
  - intros pid' Hc. destruct (decide (pid' = pid)) as [->|]; [by rewrite lookup_insert_eq|].
    rewrite lookup_insert_ne; auto.
  - intros pid' p' Hs [[<- <-]|[_ H]]%lookup_insert_Some; eauto.
  - intros pid' p' fd q n [[<- <-]|[_ H]]%lookup_insert_Some Hfd; [|by eapply H3].
    destruct (Hw _ _ _ Hfd); [by eapply H3|done].
Qed.

Lemma writers_step t a s l s' :
  safe Root Id (is_bundle cmds) (is_start cmds) (is_guest cmds) t s a -> writers_ok s -> sys_step CR s l s' -> writers_ok s'.
Proof.
  intros Hs Hw Hstep. pose proof Hw as [H1 H2 H3].
  destruct Hstep as [s pid c k T r T' k' Hp Hc Hl Hf Hch|s pid k T r ? Hp Hr _ -> Hnone|s pid k T r Hp Hr
    |s pid p k T q ? Hp Hu Hq -> Hrt|s pid p k T ? Hp Hnone -> Hrt|s pid p k T err Hp Herr|s pid p status Hp|s f' Hf].
  - eapply writers_move; [done|exact Hp|intros [_ Hk]; apply Hk|]. cbn [p_fds]. intros fd q n HT.
    destruct (new_writer _ _ _ _ _ _ _ Hl HT) as [|(flags & -> & Hfl)]; [by left|right].
    destruct Hs as [(tok & roles & pipes & Hinv) _].
    destruct (iv_wp _ _ _ _ _ _ _ _ _ _ _ Hinv _ _ Hp) as (ro & Hro & F & Hok' & _).
    rewrite (rok_open_inv _ _ _ _ _ Hok' Hfl) in Hro. by eapply iv_starter.
  - assert (writers_ok (System (s_kernel s) (<[pid := Process (k r) T]> (s_procs s)))) as [G1 G2 G3].
    { eapply writers_move; [done|exact Hp|intros [_ Hk]; apply Hk|]. by left. }
    cbn [s_procs] in *. split; cbn [s_procs].
    + intros pid' Hc. destruct (decide (pid' = ret r)) as [->|]; [by rewrite lookup_insert_eq|].
      rewrite lookup_insert_ne; auto.
    + intros pid' p' [Cfg Hst] [[<- <-]|[_ H]]%lookup_insert_Some; [|eapply G2; [by exists Cfg|done]].
      destruct (H1 (ret r)) as [p0 Hp0]; [eauto|congruence].
    + intros pid' p' fd q n [[<- <-]|[_ H]]%lookup_insert_Some Hfd; [|by eapply G3]. exfalso.
      by destruct (H2 _ _ (H3 _ _ _ _ _ Hp Hfd) Hp).
  - eapply writers_move; [done|exact Hp|intros [_ Hk]; apply Hk|by left].
  - by split.
  - eapply writers_move; [done|exact Hp|intros [_ Hk]; apply Hk|by left].
  - eapply writers_move; [done|exact Hp|intros [_ Hk]; apply Hk|by left].
  - eapply writers_move; [done|exact Hp|done|by left].
  - by split.
Qed.

Lemma run_ok i : writers_ok (st i) /\ exists t a, safe Root Id (is_bundle cmds) (is_start cmds) (is_guest cmds) t (st i) a.
Proof.
  induction i as [|i [Hw (t & a & Hs)]].
  - rewrite (fr_start _ _ _ _ Hrun). split; [|by exists [], None; apply boot_safe].
    split; cbn [boot s_procs].
    + intros pid [c Hc]. rewrite lookup_fmap, Hc. done.
    + intros pid p [Cfg Hc]. rewrite lookup_fmap, Hc. intros [= <-]. apply doStart_quiet.
    + intros pid p fd q n (c & <- & Hc)%lookup_fmap_Some Hfd. by apply std_fds_other in Hfd.
  - pose proof (fr_step _ _ _ _ Hrun i) as Hstep. split; [by eapply writers_step|].
    destruct (safe_step _ _ _ _ _ _ _ _ _ _ Hs Hstep) as (a' & Hs' & _). eauto.
Qed.

(** ** The container wakes up *)

(** C7: A start is not lost: when the process of the container waits for the FIFO
    and some start command has opened it, then the call returns in the end, or
    the process is killed. *)
Theorem start_not_lost pid fd q n k T ch i :
  s_procs (st i) !! pid = Some (Process (Call (Px (Select fd)) k) T) -> T !! fd = Some (FifoRd q n) ->
  k_chans (s_kernel (st i)) !! n = Some ch -> ch_opened ch = true ->
  exists m, (i <= m)%nat /\
    ((exists r, lb m = LCall pid (existT (P := resp) (Px (Select fd)) r)) \/
     (exists status, s_procs (st (S m)) !! pid = Some (Process (Exit status) T))).
Proof.
  intros Hp HT Hch Hopen. destruct starts_end as [J HJ].
  assert (forall d, exists ch', k_chans (s_kernel (st (i + d))) !! n = Some ch' /\ ch_opened ch' = true) as Hopened.
  { induction d as [|d (ch' & Hn & Ho)]; [rewrite Nat.add_0_r; eauto|]. rewrite Nat.add_succ_r.
    exact (step_opened CR _ _ _ _ _ (fr_step _ _ _ _ Hrun _) Hn Ho). }
  destruct (eventually_leaves _ _ _ _ Hrun pid _ k T i (i + J) Hp) as (m & Hm & _ & Hmv).
  { intros j Hj Hij [Hst _]. pose proof (Hst j ltac:(lia)) as Hpj. unfold can_go. rewrite Hpj, HT. intros n' [= <-].
    destruct (Hopened (j - i)%nat) as (ch' & Hn & Ho). replace (i + (j - i))%nat with j in Hn by lia.
    exists ch'. split_and!; [done|done|right]. intros (pid' & p' & fd' & Hp' & Hr' & Hw').
    destruct (run_ok j) as [[_ _ Hfds] (t & a & (tok & roles & pipes & Hinv) & _)].
    destruct (iv_chans _ _ _ _ _ _ _ _ _ _ _ Hinv) as [Hobj _ _].
    pose proof (Hobj _ _ _ _ Hpj HT) as [Hnp _].
    destruct (p_fds p' !! fd') as [[]|] eqn:Ho'; cbn in Hw'; simplify_eq.
    - by pose proof (Hobj _ _ _ _ Hp' Ho').
    - destruct (HJ pid' (Hfds _ _ _ _ _ Hp' Ho') j) as (p2 & Hp2 & Hr2); [lia|]. congruence. }
  exists m. split; [done|]. destruct Hmv as [(r & T' & Hl & _)|(status & _ & Hst)]; eauto.
Qed.

End Wake.
