(* ===== verification/CreateStages.v ===== *)
(** The stages of a create command and of the processes it forks.

    A create command waits twice: for its child, and for the exit code that the
    daemon writes to a pipe.  The other end of the pipe is also held by the
    child, by the compiler and by the process of the container, which may wait
    for its start for ever; so it matters that the daemon writes whenever there
    is such a process.  [lok] is the protocol that the processes keep to. *)
From S2P Require Import Prelude Cpp Signals Path Json JsonRef Prog Logic FileOps Loader Bundle Time State.
From S2P Require Import StateProps SDBus CGroup Container Lifecycle Commands Kernel.
From S2P Require Import Fair.

(** ** The protocol *)

(** What a process of a create command is about to do.  [a] and [b] are its
    descriptors of the two ends of the pipe. *)
Inductive stage : Type :=
| SPrepare                          (* before the pipe *)
| SPiped (a b : Z)
| SChild (a b : Z)                  (* the child, before it closes the end it does not use *)
| SSession (b : Z)                  (* the child, before it forks the daemon *)
| SParent (z a b : Z)               (* the command; [z] is the child *)
| SWait (z a : Z)
| SRead (a : Z)
| SDaemon (b : Z) (W : gset Z)      (* the daemon, with its compilers *)
| SMust (b : Z)                     (* the daemon, after it has forked the container *)
| STail                             (* nothing to wait for any more *)
| SFree.                            (* the container *)

(** Stages at which a process may stop taking part. *)
Definition settled (g : stage) : Prop :=
  match g with SPrepare | SSession _ | SDaemon _ _ | STail => True | _ => False end.

Section Protocol.
Context `{SJ : Simdjson}.

Inductive lok : stage -> forall c : call, (resp c -> stage) -> Prop :=
| lk_free c : lok SFree c (λ _, SFree)
| lk_settle g c : settled g -> quiet_call c = true -> lok g c (λ _, STail)
| lk_prepare c : quiet_call c = true -> c <> Px Pipe -> lok SPrepare c (λ _, SPrepare)
| lk_pipe : lok SPrepare (Px Pipe) (λ r : sysret * (Z * Z), if ret r.1 <? 0 then STail else SPiped r.2.1 r.2.2)
| lk_fork a b :
    lok (SPiped a b) (Px Fork) (λ r, if ret r <? 0 then STail else if ret r =? 0 then SChild a b else SParent (ret r) a b)
| lk_child a b : lok (SChild a b) (Px (Close a)) (λ _, SSession b)
| lk_session b c : quiet_call c = true -> c <> Px (Close b) -> lok (SSession b) c (λ _, SSession b)
| lk_daemonize b :
    lok (SSession b) (Px Fork) (λ r, if ret r <? 0 then STail else if ret r =? 0 then SDaemon b ∅ else STail)
| lk_parent z a b : lok (SParent z a b) (Px (Close b)) (λ _, SWait z a)
| lk_wait z a : lok (SWait z a) (Px (Waitpid z)) (λ _, SRead a)
| lk_read a n : lok (SRead a) (Px (Read a n)) (λ _, STail)
| lk_daemon b W c :
    quiet_call c = true -> c <> Px (Close b) -> lok (SDaemon b W) c (λ _, SDaemon b W)
| lk_compiler b W :
    lok (SDaemon b W) (Px Fork) (λ r, if ret r <? 0 then SDaemon b W else if ret r =? 0 then STail
                                      else SDaemon b ({[ret r]} ∪ W))
| lk_container b W :
    lok (SDaemon b W) (Px Fork) (λ r, if ret r <? 0 then SDaemon b W else if ret r =? 0 then SFree else SMust b)
| lk_compiled b W z : z ∈ W -> lok (SDaemon b W) (Px (Waitpid z)) (λ _, SDaemon b W)
| lk_report b W s : s <> EmptyString -> lok (SDaemon b W) (Px (Write b s)) (λ _, STail)
| lk_must b s : s <> EmptyString -> lok (SMust b) (Px (Write b s)) (λ _, STail).

Lemma tail_lok c F : lok STail c F -> quiet_call c = true /\ forall r, F r = STail.
Proof. remember STail as g eqn:Hg. by destruct 1. Qed.

Lemma piped_lok a b c F : lok (SPiped a b) c F ->
  match c return (resp c -> stage) -> Prop with
  | Px Fork => λ F, forall r, F r = if ret r <? 0 then STail else if ret r =? 0 then SChild a b else SParent (ret r) a b
  | _ => λ _, False
  end F.
Proof. remember (SPiped a b) as g eqn:Hg. destruct 1; by simplify_eq/=. Qed.

Lemma prepare_lok c F : lok SPrepare c F ->
  quiet_call c = true /\
  ((forall r, F r = STail) \/ (forall r, F r = SPrepare) \/
   match c return (resp c -> stage) -> Prop with
   | Px Pipe => λ F, forall r : sysret * (Z * Z), F r = if ret r.1 <? 0 then STail else SPiped r.2.1 r.2.2
   | _ => λ _, False
   end F).
Proof. remember SPrepare as g eqn:Hg. destruct 1; simplify_eq/=; auto. Qed.

(** A process may end at any other stage, and loop at some. *)
Definition may_end (g : stage) : Prop := match g with SMust _ => False | _ => True end.
Definition may_loop (g : stage) : Prop := match g with SPrepare | SFree => True | _ => False end.

Fixpoint lwp {A} (g : stage) (p : prog A) (Q : A -> stage -> Prop) : Prop :=
  match p with
  | Ret a => Q a g
  | Call c k => exists F, lok g c F /\ forall r, lwp (F r) (k r) Q
  | Fuel => may_loop g
  | _ => may_end g
  end.

Lemma lwp_mono {A} g (p : prog A) (Q Q' : A -> stage -> Prop) :
  (forall a g', Q a g' -> Q' a g') -> lwp g p Q -> lwp g p Q'.
Proof.
  intros HQ. revert g. induction p as [a|c k IH| | | |]; intros g Hp; cbn in *; auto.
  destruct Hp as (F & Hok & Hk). eauto.
Qed.

Lemma lwp_bind {A B} g (p : prog A) (f : A -> prog B) Q :
  lwp g p (λ a g', lwp g' (f a) Q) -> lwp g (p ≫= f) Q.
Proof.
  revert g. induction p as [a|c k IH| | | |]; intros g Hp; try done.
  cbn in *. destruct Hp as (F & Hok & Hk). exists F. split; [done|]. intros r. by apply IH, Hk.
Qed.

Lemma lwp_seq {A B} g (p : prog A) (f : A -> prog B) P Q :
  lwp g p P -> (forall a g', P a g' -> lwp g' (f a) Q) -> lwp g (p ≫= f) Q.
Proof. intros Hp Hf. apply lwp_bind. by eapply lwp_mono. Qed.

Lemma lwp_call {A} g c F (f : resp c -> prog A) Q :
  lok g c F -> (forall r, lwp (F r) (f r) Q) -> lwp g (do_call c ≫= f) Q.
Proof. intros Hok Hf. by exists F. Qed.

(** Programs that stay at their stage. *)
Fixpoint steady {A} (g : stage) (p : prog A) : Prop :=
  match p with
  | Ret _ => True
  | Call c k => lok g c (λ _, g) /\ forall r, steady g (k r)
  | Fuel => may_loop g
  | _ => may_end g
  end.

Lemma steady_bind {A B} g (p : prog A) (f : A -> prog B) :
  steady g p -> (forall a, steady g (f a)) -> steady g (p ≫= f).
Proof. intros Hp Hf. induction p as [a|c k IH| | | |]; cbn in *; try done. destruct Hp. auto. Qed.

Lemma steady_lwp {A} g (p : prog A) : steady g p -> lwp g p (λ _ g', g' = g).
Proof.
  induction p as [a|c k IH| | | |]; cbn; try done. intros [Hc Hk]. exists (λ _, g). auto.
Qed.

Lemma steady_seq {A B} g (p : prog A) (f : A -> prog B) Q :
  steady g p -> (forall a, lwp g (f a) Q) -> lwp g (p ≫= f) Q.
Proof. intros Hp Hf. eapply lwp_seq; [by apply steady_lwp|]. by intros a ? ->. Qed.

Lemma free_lwp {A} (p : prog A) : lwp SFree p (λ _ g, g = SFree).
Proof. apply steady_lwp. induction p; cbn; auto using lk_free. Qed.

(** A program that does not wait can be run when a process has stopped taking
    part. *)
Definition out (g : stage) : Prop := settled g \/ g = SFree.

Lemma out_may_end g : out g -> may_end g.
Proof. intros [Hg| ->]; [by destruct g|done]. Qed.

Lemma quiet_out {A} g (p : prog A) : out g -> quiet p -> lwp g p (λ _ g', out g').
Proof.
  revert g. induction p as [a|c k IH| | | |]; intros g Hg Hq; try done; try (by apply out_may_end).
  destruct Hq as [Hc Hk]. destruct Hg as [Hg| ->].
  - exists (λ _, STail). split; [by constructor|]. intros r. apply IH; [by left|done].
  - exists (λ _, SFree). split; [by constructor|]. intros r. apply IH; [by right|done].
Qed.

End Protocol.

Ltac steady_walk :=
  repeat first [apply steady_bind; [|intros ?] | match goal with
    | |- steady _ (do_call _) => split; [constructor; done|done]
    | |- steady _ (mret _) => exact I
    | |- steady _ (Ret _) => exact I
    | |- steady _ Undef => exact I
    | |- steady _ Terminate => exact I
    | |- steady _ Fuel => exact I
    | |- steady _ (match ?x with _ => _ end) => destruct x
    end].

(** ** The programs *)

Section Programs.
Context `{SJ : Simdjson}.

Lemma getTempFilename_steady fuel Path : steady SPrepare (getTempFilename fuel Path).
Proof.
  induction fuel as [|fuel IH]; [exact I|]. cbn [getTempFilename]. apply steady_bind.
  - generalize 6%nat as n. induction n as [|n IHn]; cbn [random_suffix]; steady_walk. apply IHn.
  - intros s. steady_walk. apply IH.
Qed.

Lemma doRunInternal_lwp fuel Id PidFile s SF fd b W :
  lwp (SDaemon b W) (doRunInternal fuel Id PidFile s SF fd)
    (λ _ g, (exists W', g = SDaemon b W') \/ g = SMust b \/ g = SFree).
Proof.
  unfold doRunInternal. apply steady_seq.
  { unfold prepare_wasi. steady_walk; try done; [by destruct (Args _)|].
    induction (Cmds _) as [|c l IH]; cbn [for_each_call]; steady_walk. apply IH. }
  intros WasmPath. eapply lwp_seq with (P := λ _ g, exists W', g = SDaemon b W').
  - unfold compile_module. apply steady_seq; [by steady_walk|]. intros [Data|]; [|by exists W].
    apply steady_seq; [by steady_walk|]. intros [p|]; [|by exists W].
    apply steady_seq; [by steady_walk|]. intros [ty err].
    destruct (bool_decide _); [done|]. destruct (bool_decide _); [by exists W|].
    apply steady_seq; [by steady_walk|]. intros _. eapply lwp_call; [apply lk_compiler|]. intros r. cbv beta.
    destruct (ret r <? 0); [by exists W|]. destruct (ret r =? 0).
    + unfold compile_child.
      repeat (eapply lwp_call; [by apply lk_settle|]; intros []; cbn [negb]; [|exact I]). exact I.
    + unfold wait_compiler. eapply lwp_call; [apply lk_compiled; set_solver|]. intros [r2 Status]. cbv beta.
      destruct (ret r2 <? 0); [done|]. destruct (negb _); by eexists.
  - intros [SoPath|] ? [W' ->]; [|by left; exists W'].
    apply steady_seq; [by steady_walk|]. intros []; [|by left; exists W']. cbn [ensure].
    apply steady_seq; [by steady_walk|]. intros []; [|by left; exists W']. cbn [ensure].
    apply steady_seq; [by steady_walk|]. intros []; [|by left; exists W']. cbn [ensure].
    eapply lwp_call; [apply lk_container|]. intros r. cbv beta.
    destruct (Z.ltb_spec (ret r) 0); [by left; exists W'|].
    destruct (Z.eqb_spec (ret r) 0), (Z.ltb_spec 0 (ret r)); try lia; [|by right; left].
    eapply lwp_mono; [|apply free_lwp]. by right; right.
Qed.

Lemma create_daemon_lwp fuel Id PidFile Console s SF fd b :
  lwp (SDaemon b ∅) (create_daemon fuel Id PidFile Console s SF fd b) (λ _ g, out g).
Proof.
  unfold create_daemon. apply steady_seq; [unfold connect_console; by steady_walk|]. intros [sock ok].
  unfold scope_exit. eapply lwp_seq with (P := λ _ g, out g).
  - destruct ok; cbn [negb]; [|by left; exact I].
    eapply lwp_seq; [apply doRunInternal_lwp|]. intros code g Hg.
    assert (exists F, lok g (Px (Write b (int_bytes code))) F /\ forall r, out (F r)) as (F & HF & Hout).
    { destruct Hg as [[W ->]|[-> | ->]]; eexists.
      - split; [by apply (lk_report b W)|]. by left.
      - split; [by apply lk_must|]. by left.
      - split; [by apply lk_free|]. by right. }
    eapply lwp_call; [exact HF|]. intros r. apply quiet_out; [apply Hout|]. by quiet_walk.
  - intros r g Hg. apply quiet_out; [done|]. unfold close_fd. by quiet_walk.
Qed.

Lemma create_parent_lwp z a b : lwp (SParent z a b) (create_parent z a b) (λ _ g, out g).
Proof.
  unfold create_parent. eapply lwp_call; [apply lk_parent|]. intros r0. cbv beta. clear r0.
  eapply lwp_call; [apply lk_wait|]. intros r0. cbv beta. clear r0.
  eapply lwp_call; [apply lk_read|]. intros [r data]. cbv beta. apply quiet_out; [by left|].
  quiet_walk; try done. unfold lift_cpp. by destruct (bytes_int data).
Qed.

Lemma create_fork_lwp fuel Id PidFile Console s SF fd :
  lwp SPrepare (create_fork fuel Id PidFile Console s SF fd) (λ _ g, out g).
Proof.
  unfold create_fork. eapply lwp_call; [apply lk_pipe|]. intros [r [a b]]. cbn [fst snd].
  destruct (ret r <? 0); [by left|]. eapply lwp_call; [apply lk_fork|]. intros r2. cbv beta.
  destruct (Z.ltb_spec (ret r2) 0); [by left|].
  destruct (Z.eqb_spec (ret r2) 0), (Z.ltb_spec 0 (ret r2)); try lia; [|apply create_parent_lwp].
  eapply lwp_call; [apply lk_child|]. intros ?. cbv beta. apply steady_seq; [by steady_walk|]. intros r3.
  destruct (ret r3 <? 0); [by left|]. eapply lwp_call; [apply lk_daemonize|]. intros r4. cbv beta.
  destruct (Z.ltb_spec (ret r4) 0); [by left|].
  destruct (Z.eqb_spec (ret r4) 0), (Z.ltb_spec 0 (ret r4)); try lia; [|done].
  apply create_daemon_lwp.
Qed.

Lemma doCreate_lwp fuel Root Systemd Cfg Id Path Console PidFile :
  lwp SPrepare (doCreate fuel Root Systemd Cfg Id Path Console PidFile) (λ _ g, may_end g).
Proof.
  unfold doCreate. apply steady_seq; [by steady_walk|]. intros [created err].
  destruct created; [|done]. cbn [ensure]. eapply lwp_seq with (P := λ _ g, out g);
    [|intros [code ok] g; apply out_may_end].
  unfold scope_exit. eapply lwp_seq with (P := λ _ g, out g).
  - unfold create_body. apply steady_seq; [unfold loadBundle, Bundle_load; by steady_walk|].
    intros [s []]; [|by left]. cbn [negb]. apply steady_seq.
    { unfold atomicCreateAndWriteFile, is_regular_file, writeTempAndRename. steady_walk; try done.
      apply getTempFilename_steady. }
    intros []; [|by left]. cbn [negb]. apply steady_seq; [by steady_walk|]. intros r.
    destruct (ret r <? 0); [by left|]. apply steady_seq; [by steady_walk|]. intros r2.
    unfold scope_exit. eapply lwp_seq with (P := λ _ g, out g).
    + destruct (ret r2 <? 0); [by left|]. apply create_fork_lwp.
    + intros x g Hg. apply quiet_out; [done|]. unfold close_fd. by quiet_walk.
  - intros [code ok] g Hg. apply quiet_out; [done|]. by quiet_walk.
Qed.

End Programs.
