(* ===== verification/Tries.v ===== *)
(** How often a command looks for the name of a temporary file.

    The loop of [getTempFilename] is the only one that a command itself makes (the
    loop over the events of the bus is in the process of the container).  A command
    comes to the bound of the loop only after that many tries in vain. *)
From S2P Require Import Prelude Cpp Signals Path Json JsonRef Prog Logic FileOps Loader Bundle Time State.
From S2P Require Import SDBus CGroup Container Kernel.

(** A name that was tried in vain. *)
Definition in_vain `{SJ : Simdjson} (e : event) : bool :=
  match projT1 e as c return resp c -> bool with
  | Fs (OfstreamAppendTellp _) => λ pos, negb (pos =? 0)
  | _ => λ _, false
  end (projT2 e).

Section Tries.
Context `{SJ : Simdjson}.

(** The answers a process gets itself: 0 is the answer of fork to the child. *)
Definition own_answer (c : call) : resp c -> Prop :=
  match c with Px Fork => λ r, ret r <> 0 | _ => λ _, True end.

(** The program does not come to the bound of a loop as long as at most [b] names
    are tried in vain. *)
Fixpoint within {A} (p : prog A) (b : nat) : Prop :=
  match p with
  | Fuel => False
  | Call c k => forall r, own_answer c r ->
      if in_vain (existT (P := resp) c r) then match b with O => True | S b => within (k r) b end else within (k r) b
  | _ => True
  end.

Lemma within_le {A} (p : prog A) b b' : (b' <= b)%nat -> within p b -> within p b'.
Proof.
  revert b b'. induction p as [a|c k IH| | | |]; intros b b' Hb Hp; try done. intros r Hr. specialize (Hp r Hr).
  destruct (in_vain _); [|by eapply IH]. destruct b' as [|b']; [done|]. destruct b as [|b]; [lia|].
  eapply IH; [|exact Hp]. lia.
Qed.

Lemma within_bind {A B} (p : prog A) (f : A -> prog B) b :
  within p b -> (forall a, within (f a) b) -> within (p ≫= f) b.
Proof.
  revert b. induction p as [a|c k IH| | | |]; intros b Hp Hf; try done; [apply Hf|]. intros r Hr. specialize (Hp r Hr).
  destruct (in_vain _); [|by apply IH]. destruct b as [|b]; [done|]. apply IH; [done|]. intros a.
  eapply within_le; [|apply Hf]. lia.
Qed.

Lemma within_do c b : within (do_call c) b.
Proof. intros r _. destruct (in_vain _); [by destruct b|done]. Qed.

Lemma within_fork {A} (f : sysret -> prog A) b :
  (forall r, ret r <> 0 -> within (f r) b) -> within (do_call (Px Fork) ≫= f) b.
Proof. intros Hf r Hr. by apply Hf. Qed.

Ltac within_walk :=
  repeat match goal with
    | |- within (do_call (Px Fork) ≫= _) _ => apply within_fork; intros ? ?
    | |- within (_ ≫= _) _ => apply within_bind; [|intros ?]
    | |- within (do_call _) _ => apply within_do
    | |- within (mret _) _ => exact I
    | |- within (Ret _) _ => exact I
    | |- within Undef _ => exact I
    | |- within (Exit _) _ => exact I
    | |- within (match ?x with _ => _ end) _ => destruct x eqn:?
    end.

Lemma getTempFilename_within fuel P b : (b < fuel)%nat -> within (getTempFilename fuel P) b.
Proof.
  assert (forall n b, within (random_suffix n) b) as Hr by (induction n; intros; cbn [random_suffix]; within_walk; auto).
  revert b. induction fuel as [|fuel IH]; intros b Hb; [lia|]. cbn [getTempFilename]. apply within_bind; [apply Hr|].
  intros u. intros pos _. change (in_vain (existT (P := resp) (Fs (OfstreamAppendTellp (path_concat P u))) pos))
    with (negb (pos =? 0)).
  destruct (pos =? 0) eqn:Hpos; cbn [negb]; [|destruct b as [|b]; [done|]]; cbn; rewrite Hpos; [done|]. apply IH. lia.
Qed.

(** A create command, in its own process. *)
Lemma doCreate_within fuel Root Systemd Cfg Cid Path Console PidFile b :
  (b < fuel)%nat -> within (doCreate fuel Root Systemd Cfg Cid Path Console PidFile) b.
Proof.
  intros Hb. unfold doCreate, create_body, loadBundle, Bundle_load, atomicCreateAndWriteFile, writeTempAndRename,
    is_regular_file, create_fork, create_parent, close_fd, scope_exit, ensure, lift_cpp. cbv zeta.
  within_walk; [by apply getTempFilename_within|]. exfalso. bool_lia.
Qed.

(** *** In an execution *)

(** What becomes of a process in a step. *)
Lemma next_program Home s l s' pid p :
  sys_step Home s l s' -> s_procs s !! pid = Some p ->
  exists p', s_procs s' !! pid = Some p' /\
    ((events_of pid [l] = [] /\ (p' = p \/ exists status, p_prog p' = Exit status)) \/
     exists c k r, p_prog p = Call c k /\ p_prog p' = k r /\ own_answer c r /\
       events_of pid [l] = [existT (P := resp) c r]).
Proof.
  intros Hstep Hp.
  assert (forall pid' c (k : resp c -> prog Z) T r T' (ps : gmap Z process),
    s_procs s !! pid' = Some (Process (Call c k) T) -> s_procs s !! pid = ps !! pid -> own_answer c r ->
    exists p', <[pid' := Process (k r) T']> ps !! pid = Some p' /\
      ((events_of pid [LCall pid' (existT (P := resp) c r)] = [] /\ (p' = p \/ exists status, p_prog p' = Exit status)) \/
       exists c0 k0 r0, p_prog p = Call c0 k0 /\ p_prog p' = k0 r0 /\ own_answer c0 r0 /\
         events_of pid [LCall pid' (existT (P := resp) c r)] = [existT (P := resp) c0 r0])) as Hmove.
  { intros pid' c k T r T' ps Hp' Hps Hr. unfold events_of. cbn. destruct (decide (pid' = pid)) as [->|Hne].
    - rewrite lookup_insert_eq. rewrite Hp in Hp'. injection Hp' as ->. eexists. split; [done|]. right. by exists c, k, r.
    - rewrite lookup_insert_ne, <- Hps by done. exists p. auto. }
  destruct Hstep; cbn [s_procs] in *; try (by exists p; auto).
  - eapply Hmove; [done|done|]. by destruct c as [|[]| | |].
  - subst child. rewrite insert_insert_ne by congruence. eapply Hmove; [done| |cbn; lia].
    by rewrite lookup_insert_ne by congruence.
  - eapply Hmove; [done|done|cbn; lia].
  - by eapply Hmove.
  - by eapply Hmove.
  - destruct (decide (pid0 = pid)) as [->|Hne].
    + rewrite lookup_insert_eq. eexists. split; [done|]. left. split; [done|]. right. by exists status.
    + rewrite lookup_insert_ne by done. exists p. auto.
Qed.

(** The names that a process has tried in vain up to a time. *)
Definition vain_tries (lb : nat -> label) (pid : Z) (t : nat) : nat :=
  length (filter (λ e, in_vain e = true) (events_of pid (lb <$> seq 0 t))).

Lemma vain_tries_S lb pid t :
  vain_tries lb pid (S t) =
    (vain_tries lb pid t + length (filter (λ e, in_vain e = true) (events_of pid [lb t])))%nat.
Proof.
  unfold vain_tries, events_of. rewrite seq_S, fmap_app, omap_app, filter_app, length_app. done.
Qed.

(** A process that starts within a bound never comes to it. *)
Lemma within_run Home st lb pid p b :
  (forall i, sys_step Home (st i) (lb i) (st (S i))) -> s_procs (st 0%nat) !! pid = Some p -> within (p_prog p) b ->
  (forall t, (vain_tries lb pid t <= b)%nat) ->
  forall t, exists q, s_procs (st t) !! pid = Some q /\ within (p_prog q) (b - vain_tries lb pid t).
Proof.
  intros Hstep Hp Hw Hv. induction t as [|t (q & Hq & IH)].
  { exists p. split; [done|]. eapply within_le; [|exact Hw]. lia. }
  specialize (Hv (S t)). rewrite vain_tries_S in Hv |- *.
  destruct (next_program _ _ _ _ _ _ (Hstep t) Hq) as (q' & Hq' & Hcase). exists q'. split; [done|].
  destruct Hcase as [[-> [->|[status ->]]]|(c & k & r & Hc & -> & Hr & Hev)].
  - cbn. by rewrite Nat.add_0_r.
  - done.
  - rewrite Hc in IH. specialize (IH r Hr). rewrite Hev, filter_cons in Hv |- *.
    destruct (in_vain (existT c r)) eqn:Hvain.
    2:{ rewrite decide_False by congruence. cbn. by rewrite Nat.add_0_r. }
    rewrite decide_True in Hv |- * by congruence. cbn in Hv |- *.
    destruct (b - vain_tries lb pid t)%nat as [|b'] eqn:Hb; [lia|].
    replace (b - (vain_tries lb pid t + 1))%nat with b' by lia. exact IH.
Qed.

End Tries.
