(* ===== verification/Ends.v ===== *)
(** Every command ends.

    In a fair execution in which no process is killed and no write to a pipe
    fails, every command comes to its end.  A create command must find a name for
    its temporary file ([Tries]); for the rest of it this is the
    protocol of [CreateStages]: the processes that hold the writing end of its
    pipe end in time, or the daemon writes to it. *)
From S2P Require Import Prelude Cpp Signals Path Json JsonRef Prog Logic FileOps Loader Bundle Time State.
From S2P Require Import StateProps SDBus CGroup Container Lifecycle Commands Kernel Tries.
From S2P Require Import Roles RolesInv RolesStep RolesProg Concurrent Fair Liveness CreateStages.

(** No process is killed, and no write to a pipe fails. *)
Record undisturbed `{SJ : Simdjson} (st : nat -> system) (lb : nat -> label) : Prop := {
  ud_kill i : lb i = LSilent -> s_procs (st (S i)) = s_procs (st i);
  ud_write i pid p fd n s r :
    s_procs (st i) !! pid = Some p -> p_fds p !! fd = Some (PipeWr n) ->
    lb i = LCall pid (existT (P := resp) (Px (Write fd s)) r) -> 0 <= ret r;
}.

Section Ends.
Context `{SJ : Simdjson} (Root Id : string) (f : files) (cmds : gmap Z command).
Context (st : nat -> system) (lb : nat -> label).

Local Abbreviation CR := (container_dir Root Id).

Context (Hok : boot_ok Root Id f cmds) (Hrun : fair_run CR (boot Root Id f cmds) st lb).
Context (Hud : undisturbed st lb).

Local Abbreviation leaves := (leaves st lb).
Local Abbreviation over := (over st).

(** ** Steps of the processes *)

(** A process that makes no call stays as it is. *)
Lemma unmoved i pid p :
  s_procs (st i) !! pid = Some p -> (forall e, lb i <> LCall pid e) -> s_procs (st (S i)) !! pid = Some p.
Proof.
  intros Hp Hl. destruct (lb i) as [pid' e|] eqn:Hlb; [|by rewrite (ud_kill _ _ Hud _ Hlb)].
  assert (pid <> pid') as Hne by (intros ->; by apply (Hl e)).
  pose proof (fr_step _ _ _ _ Hrun i) as Hstep. rewrite Hlb in Hstep.
  inversion Hstep; subst; cbn [s_procs]; rewrite ?lookup_insert_ne by congruence; done.
Qed.

Lemma caller i pid c r :
  lb i = LCall pid (existT (P := resp) c r) -> exists k T, at_call st i pid c k T.
Proof.
  intros Hl. pose proof (fr_step _ _ _ _ Hrun i) as Hstep. rewrite Hl in Hstep.
  remember (LCall pid (existT (P := resp) c r)) as l eqn:Heq.
  unfold at_call. destruct Hstep; try done; injection Heq as -> Hc; subst c; eauto.
Qed.

(** A process at a stage of the protocol. *)
Definition here (i : nat) (pid : Z) (g : stage) (p : prog Z) (T : fds) : Prop :=
  s_procs (st i) !! pid = Some (Process p T) /\ lwp g p (λ _ g, may_end g).

Lemma here_next i pid g c k T m :
  here i pid g (Call c k) T -> leaves i pid c k T m ->
  exists r T' F, lok g c F /\ (forall r', lwp (F r') (k r') (λ _ g, may_end g)) /\
    lb m = LCall pid (existT (P := resp) c r) /\ here (S m) pid (F r) (k r) T' /\
    (forall fd o, c <> Px (Close fd) -> T !! fd = Some o -> T' !! fd = Some o).
Proof.
  intros [_ (F & HF & Hk)] (Him & [Hstay _] & Hm). pose proof (Hstay m ltac:(lia)) as Hat.
  destruct Hm as [(r & T' & Hl & Hp)|(status & Hl & Hp)].
  2:{ rewrite (ud_kill _ _ Hud _ Hl), Hat in Hp. done. }
  exists r, T', F. split_and!; [done..|by split|].
  intros fd o Hc HT. pose proof (fr_step _ _ _ _ Hrun m) as Hstep. rewrite Hl in Hstep.
  destruct (own_fds _ _ _ _ _ _ _ _ Hstep Hat) as (T1 & Hp1 & HT1). rewrite Hp in Hp1.
  injection Hp1 as <-. destruct HT1 as [HT1| ->]; [|done]. rewrite <- map_singleton_subseteq_l in HT |- *.
  eapply local_keeps; [|exact HT|exact HT1]. destruct c as [|[]| | |]; try done.
  cbn. apply lookup_singleton_ne. congruence.
Qed.

Lemma here_move i pid g p T c r :
  here i pid g p T -> lb i = LCall pid (existT (P := resp) c r) ->
  exists k F T', p = Call c k /\ lok g c F /\ here (S i) pid (F r) (k r) T'.
Proof.
  intros [Hp Hwp] Hl. destruct (caller _ _ _ _ Hl) as (k & T1 & Hat). unfold at_call in Hat.
  rewrite Hp in Hat. injection Hat as -> ->. destruct Hwp as (F & HF & Hk).
  pose proof (fr_step _ _ _ _ Hrun i) as Hstep. rewrite Hl in Hstep.
  destruct (own_fds _ _ _ _ _ _ _ _ Hstep Hp) as (T' & Hp' & _). exists k, F, T'. split_and!; [done..|by split].
Qed.

(** *** Processes that fork no more *)

Definition calm (g : stage) : Prop :=
  match g with SParent _ _ _ | SWait _ _ | SRead _ | STail => True | _ => False end.

Lemma calm_lok g c F : calm g -> lok g c F -> c <> Px Fork /\ forall r, calm (F r).
Proof.
  intros Hg Hc. destruct Hc as [|g c Hs Hq| | | | | | | | | | | | | | |]; try done.
  split; [by intros ->; discriminate Hq|done].
Qed.

Lemma calm_stays i pid g p T j :
  here i pid g p T -> calm g -> (i <= j)%nat -> exists g' p' T', calm g' /\ here j pid g' p' T'.
Proof.
  intros Hh Hg Hj. replace j with (i + (j - i))%nat by lia.
  induction (j - i)%nat as [|d (g' & p' & T' & Hg' & Hh')]; [rewrite Nat.add_0_r; eauto|].
  rewrite Nat.add_succ_r. destruct (lb (i + d)) as [pid' [c r]|] eqn:Hl.
  2:{ exists g', p', T'. destruct Hh' as [Hp Hwp]. split; [done|]. split; [|done].
      apply unmoved; [done|]. by rewrite Hl. }
  destruct (decide (pid' = pid)) as [->|Hne].
  - destruct (here_move _ _ _ _ _ _ _ Hh' Hl) as (k & F & T1 & -> & HF & H1).
    exists (F r), (k r), T1. split; [|done]. by apply (calm_lok _ _ _ Hg' HF).
  - exists g', p', T'. destruct Hh' as [Hp Hwp]. split; [done|]. split; [|done].
    apply unmoved; [done|]. rewrite Hl. congruence.
Qed.

Definition no_fork (pid : Z) (i j : nat) : Prop :=
  forall j' r, (i <= j' < j)%nat -> lb j' <> LCall pid (existT (P := resp) (Px Fork) r).

Lemma calm_no_fork i pid g p T j : here i pid g p T -> calm g -> no_fork pid i j.
Proof.
  intros Hh Hg j' r Hj Hl. destruct (calm_stays _ _ _ _ _ j' Hh Hg) as (g' & p' & T' & Hg' & Hh'); [lia|].
  destruct (here_move _ _ _ _ _ _ _ Hh' Hl) as (k & F & T1 & _ & HF & _).
  by destruct (calm_lok _ _ _ Hg' HF).
Qed.

Lemma tail_ends i pid p T : here i pid STail p T -> exists j, over pid j.
Proof.
  revert i T. induction p as [a|c k IH| | | |]; intros i T [Hp Hwp]; try done; try (by exists i; eexists).
  assert (quiet_call c = true) as Hc by (destruct Hwp as (F & HF & _); by apply (tail_lok _ _ HF)).
  destruct (quiet_leaves _ _ _ _ Hrun pid c k T i (or_introl Hc) Hp) as (m & Hm).
  destruct (here_next i pid STail c k T m) as (r & T' & F & HF & _ & _ & Hh & _); [by split|done|].
  apply (IH r (S m) T'). by rewrite <- (proj2 (tail_lok _ _ HF) r).
Qed.

(** Stages at which there is one call to make. *)
Definition only_call (g : stage) : option (call * stage) :=
  match g with
  | SChild a b => Some (Px (Close a), SSession b)
  | SParent z a b => Some (Px (Close b), SWait z a)
  | SWait z a => Some (Px (Waitpid z), SRead a)
  | _ => None
  end.

Lemma here_only i pid g p T c g' :
  here i pid g p T -> only_call g = Some (c, g') ->
  over pid i \/ exists k, p = Call c k /\ forall m, leaves i pid c k T m ->
    exists p' T', here (S m) pid g' p' T' /\ (forall fd o, c <> Px (Close fd) -> T !! fd = Some o -> T' !! fd = Some o).
Proof.
  intros Hh Hg.
  destruct p as [a|c' k| | | |]; try (left; by eexists; split; [apply Hh|]); [right|destruct g; by destruct Hh].
  assert (forall c' F, lok g c' F -> c' = c /\ forall r, F r = g') as Honly
    by (intros c1 F HF; destruct HF as [|g| | | | | | | | | | | | | | |]; try (by simplify_eq/=); by destruct g).
  assert (c' = c) as ->. { destruct Hh as [_ (F & HF & _)]. by apply Honly in HF as [? _]. }
  exists k. split; [done|]. intros m Hm.
  destruct (here_next _ _ _ _ _ _ _ Hh Hm) as (r & T' & F & HF & _ & _ & Hh' & Hkeep).
  apply Honly in HF as [_ HF]. rewrite HF in Hh'. eauto.
Qed.

(** ** Who holds an end of a pipe *)

Definition alloc (n : nat) (i : nat) : Prop :=
  exists ch, k_chans (s_kernel (st i)) !! n = Some ch /\ ch_opened ch = true.

Lemma alloc_stays n i j : alloc n i -> (i <= j)%nat -> alloc n j.
Proof.
  intros Ha Hj. replace j with (i + (j - i))%nat by lia.
  induction (j - i)%nat as [|d (ch & Hn & Ho)]; [by rewrite Nat.add_0_r|]. rewrite Nat.add_succ_r.
  exact (step_opened CR _ _ _ _ _ (fr_step _ _ _ _ Hrun _) Hn Ho).
Qed.

Definition holds (o : fd_obj) (i : nat) (pid : Z) : Prop :=
  exists p fd, s_procs (st i) !! pid = Some p /\ running p = true /\ p_fds p !! fd = Some o.

(** A process that holds an end of a pipe has held it before, or has been forked
    by one that does. *)
Lemma hold_step n o i pid :
  alloc n i -> pipe_end n o -> holds o (S i) pid ->
  holds o i pid \/ exists par r, holds o i par /\ lb i = LCall par (existT (P := resp) (Px Fork) r) /\
    0 < ret r /\ ret r = pid /\ s_procs (st i) !! pid = None.
Proof.
  intros (ch & Hn & _) Ho (p & fd & Hp & Hr & Hfd). pose proof (fr_step _ _ _ _ Hrun i) as Hstep.
  destruct (lb i) as [pid' [c r]|] eqn:Hl.
  2:{ left. exists p, fd. by rewrite <- (ud_kill _ _ Hud _ Hl). }
  destruct (caller _ _ _ _ Hl) as (k & T & Hat).
  pose proof (own_step _ _ _ _ _ _ _ _ Hstep Hat) as Hown.
  assert (forall (q : prog Z) T', <[pid' := Process q T']> (s_procs (st i)) !! pid = Some p ->
    (T' !! fd = Some o -> T !! fd = Some o) -> holds o i pid) as Hmove.
  { intros q T' Hq HT. apply lookup_insert_Some in Hq as [[<- <-]|[_ Hq]]; [|by exists p, fd].
    exists (Process (Call c k) T), fd. split_and!; [done|done|by apply HT]. }
  assert ((exists T' k', local_answer CR T c r T' /\
      chans_answer pid' (has_writer (s_procs (st i))) T (s_kernel (st i)) c r T' k' /\
      st (S i) = System k' (<[pid' := Process (k r) T']> (s_procs (st i)))) -> holds o i pid) as Hsimple.
  { intros (T' & k' & HT & Hch & Heq). rewrite Heq in Hp. eapply Hmove; [exact Hp|].
    intros Hfd'. by eapply own_gains. }
  destruct c as [[]|[]| | |]; try (left; exact (Hsimple Hown)); clear Hsimple.
  - destruct Hown as [_ Heq]. rewrite Heq in Hp. left. by eapply Hmove.
  - destruct Hown as [_ [[_ Heq]|(Hpos & Hnone & Heq)]]; rewrite Heq in Hp; [left; by eapply Hmove|].
    apply lookup_insert_Some in Hp as [[Hpid <-]|[_ Hp]]; [|left; by eapply Hmove].
    right. exists pid', r. rewrite <- Hpid. split_and!; [|done..]. by exists (Process (Call (Px Fork) k) T), fd.
Qed.

(** When none of the holders forks, there are no others. *)
Lemma holders_same n o i j (S : gset Z) :
  (i <= j)%nat -> alloc n i -> pipe_end n o ->
  (forall pid, holds o i pid -> pid ∈ S) -> (forall pid, pid ∈ S -> no_fork pid i j) ->
  forall pid, holds o j pid -> pid ∈ S /\ holds o i pid.
Proof.
  intros Hij Ha Ho HS Hno. assert (j = i + (j - i))%nat as Hj by lia. revert Hno. rewrite Hj. clear Hj Hij.
  induction (j - i)%nat as [|d IH]; intros Hno pid Hh; [rewrite Nat.add_0_r in Hh; auto|].
  rewrite Nat.add_succ_r in Hh.
  assert (forall pid, holds o (i + d) pid -> pid ∈ S /\ holds o i pid) as IH'.
  { apply IH. intros pid' Hp j' r Hj'. apply Hno; [done|lia]. }
  destruct (hold_step n o (i + d) pid) as [H|(par & r & Hpar & Hl & _)]; [eapply alloc_stays; [done|lia]|done..|auto|].
  exfalso. apply IH' in Hpar as [Hpar _]. apply (Hno par Hpar (i + d)%nat r); [lia|done].
Qed.

(** A process that holds an end of a pipe no more does not get it back. *)
Lemma dropped n o i j pid p :
  (i <= j)%nat -> alloc n i -> pipe_end n o -> s_procs (st i) !! pid = Some p -> ~ holds o i pid -> ~ holds o j pid.
Proof.
  intros Hij Ha Ho Hp Hno. assert (j = i + (j - i))%nat as Hj by lia. rewrite Hj. clear Hj Hij.
  assert (forall d, is_Some (s_procs (st (i + d)) !! pid)) as Hsome.
  { intros d. induction d as [|d [q IH]]; [rewrite Nat.add_0_r; eauto|]. rewrite Nat.add_succ_r.
    pose proof (fr_step _ _ _ _ Hrun (i + d)%nat) as Hstep.
    inversion Hstep; cbn [s_procs]; rewrite ?lookup_insert_is_Some'; eauto. }
  induction (j - i)%nat as [|d IH]; [by rewrite Nat.add_0_r|]. rewrite Nat.add_succ_r. intros Hh.
  destruct (hold_step n o (i + d) pid) as [H|(par & r & _ & _ & _ & _ & H)]; [eapply alloc_stays; [done|lia]|done..|].
  destruct (Hsome d). congruence.
Qed.

(** ** The writers of a pipe *)

Section Pipe.
Context (n : nat).

(** The process forks no more, and holds the writing end no more in the end. *)
Definition drops (x : Z) (i : nat) : Prop :=
  (forall j, no_fork x i j) /\ exists J, forall j, (J <= j)%nat -> ~ holds (PipeWr n) j x.

(** Every process but [x] that holds the writing end gives it up. *)
Definition writers (i : nat) (x : Z) (X : gset Z) : Prop :=
  alloc n i /\ (forall pid, holds (PipeWr n) i pid -> pid = x \/ pid ∈ X) /\ (forall y, y ∈ X -> drops y i).

Definition filled (i : nat) : Prop :=
  exists ch, k_chans (s_kernel (st i)) !! n = Some ch /\ ch_data ch <> EmptyString.

(** A read from the pipe will not have to wait. *)
Definition delivered (i : nat) : Prop :=
  exists J, (i <= J)%nat /\ (filled J \/ forall j pid, (J <= j)%nat -> ~ holds (PipeWr n) j pid).

Lemma delivered_before i j : delivered j -> (i <= j)%nat -> delivered i.
Proof. intros (J & HJ & H) Hij. exists J. split; [lia|done]. Qed.

Lemma no_fork_later x i i' j : no_fork x i j -> (i <= i')%nat -> no_fork x i' j.
Proof. intros H Hi j' r Hj. apply H. lia. Qed.

Lemma drops_later x i j : drops x i -> (i <= j)%nat -> drops x j.
Proof. intros [Hf HJ] Hj. split; [|done]. intros j'. by eapply no_fork_later. Qed.

Lemma writers_later i j x X : writers i x X -> (i <= j)%nat -> no_fork x i j -> writers j x X.
Proof.
  intros (Ha & Hh & HX) Hij Hx. split_and!; [by eapply alloc_stays| |eauto using drops_later].
  intros pid Hp. destruct (holders_same n (PipeWr n) i j ({[x]} ∪ X)) with pid as [H _]; [done|done|by right| | |done|].
  - intros y [->|]%Hh; set_solver.
  - intros y [->%elem_of_singleton|Hy]%elem_of_union; [done|]. by apply HX.
  - set_solver.
Qed.

Lemma writers_fork i x X r :
  writers i x X -> lb i = LCall x (existT (P := resp) (Px Fork) r) ->
  (ret r < 0 -> writers (S i) x X) /\
  (drops (ret r) (S i) -> writers (S i) x ({[ret r]} ∪ X)) /\
  (drops x (S i) -> writers (S i) (ret r) ({[x]} ∪ X)).
Proof.
  intros (Ha & Hh & HX) Hl.
  assert (alloc n (S i)) as Ha' by (eapply alloc_stays; [done|lia]).
  assert (forall pid, holds (PipeWr n) (S i) pid -> pid = x \/ (pid = ret r /\ 0 < ret r) \/ pid ∈ X) as H.
  { intros pid [Hp|(par & r' & Hp & Hl' & Hr & <- & _)]%(hold_step n); [by destruct (Hh _ Hp); auto| |done|by right].
    rewrite Hl in Hl'. apply label_inj in Hl' as [<- Hl']. apply answer_inj in Hl' as <-. auto. }
  assert (forall y, y ∈ X -> drops y (S i)) as HX' by (intros; eapply drops_later; [auto|lia]).
  split_and!; intros Hd; split_and!; try done; intros y.
  1: intros [->|[[-> ?]|?]]%H; [auto|lia|auto].
  1, 3: intros [->|[[-> _]|?]]%H; set_solver.
  all: intros [->%elem_of_singleton|?]%elem_of_union; auto.
Qed.

Lemma all_drop i x X : writers i x X -> drops x i -> delivered i.
Proof.
  intros Hw Hx. pose proof Hw as (Ha & Hh & HX).
  assert (exists J, forall y j, y = x \/ y ∈ X -> (J <= j)%nat -> ~ holds (PipeWr n) j y) as [J HJ].
  { clear Hh Hw. induction X as [|y X _ IH] using set_ind_L.
    - destruct Hx as [_ [J HJ]]. exists J. intros y j [->|]; [apply HJ|set_solver].
    - destruct IH as [J HJ]; [set_solver|]. destruct (HX y ltac:(set_solver)) as [_ [J' HJ']].
      exists (J + J')%nat. intros z j Hz Hj. destruct (decide (z = y)) as [->|]; [apply HJ'; lia|].
      apply HJ; [set_solver|lia]. }
  exists (i + J)%nat. split; [lia|]. right. intros j pid Hj Hp.
  destruct (writers_later i j x X Hw) as (_ & H & _); [lia|apply Hx|].
  eapply (HJ pid j); [by apply H|lia|done].
Qed.

Lemma over_drops x i : over x i -> drops x i.
Proof.
  intros Ho. split.
  - intros j j' r Hj Hl. destruct (caller _ _ _ _ Hl) as (k & T & Hat).
    destruct (over_stays _ _ _ _ Hrun x i j' Ho) as (p & Hp & Hr); [lia|]. unfold at_call in Hat. by simplify_eq.
  - exists i. intros j Hj (p & fd & Hp & Hr & _).
    destruct (over_stays _ _ _ _ Hrun x i j Ho Hj) as (p' & Hp' & Hr'). congruence.
Qed.

Lemma tail_drops x i p T : here i x STail p T -> drops x i.
Proof.
  intros Hh. split; [intros j; by eapply calm_no_fork|].
  destruct (tail_ends _ _ _ _ Hh) as [J HJ]. destruct (over_drops x J HJ) as [_ Hd]. done.
Qed.

(** ** The daemon delivers *)

Lemma leaves_no_fork i x c k T m : leaves i x c k T m -> c <> Px Fork -> no_fork x i (S m).
Proof.
  intros (Him & [Hat Hno] & _) Hc j r Hj Hl. destruct (decide (j = m)) as [->|]; [|by apply (Hno j _ ltac:(lia)) in Hl].
  destruct (caller _ _ _ _ Hl) as (k' & T' & Hat'). pose proof (Hat m ltac:(lia)) as H. unfold at_call in *. congruence.
Qed.

Lemma leaves_writers i x c k T m X : leaves i x c k T m -> writers i x X -> writers m x X.
Proof.
  intros (Him & [_ Hno] & _) Hw. eapply writers_later; [done|done|]. intros j r Hj. by apply Hno.
Qed.

Lemma fork_child i x k T m r F :
  leaves i x (Px Fork) k T m -> lb m = LCall x (existT (P := resp) (Px Fork) r) ->
  (forall r', lwp (F r') (k r') (λ _ g, may_end g)) ->
  ret r < 0 \/ (0 < ret r /\ here (S m) (ret r) (F (SysRet 0 0)) (k (SysRet 0 0)) T /\ here (S m) x (F r) (k r) T).
Proof.
  intros (Him & [Hat _] & _) Hl Hk. pose proof (fr_step _ _ _ _ Hrun m) as Hstep. rewrite Hl in Hstep.
  destruct (own_step _ _ _ _ _ _ _ _ Hstep (Hat m ltac:(lia))) as [_ [[Hr _]|(Hr & Hnone & Heq)]]; [by left|right].
  split; [done|]. unfold here. rewrite Heq, lookup_insert_eq, lookup_insert_ne, lookup_insert_eq; [done|].
  intros Hx. rewrite Hx, (Hat m) in Hnone by lia. done.
Qed.

Lemma write_fills i x b s k T m :
  leaves i x (Px (Write b s)) k T m -> T !! b = Some (PipeWr n) -> s <> EmptyString -> filled (S m).
Proof.
  intros (Him & [Hat _] & Hm) HT Hs. pose proof (Hat m ltac:(lia)) as Hp.
  destruct Hm as [(r & T' & Hl & _)|(status & Hl & Hp')].
  2:{ by rewrite (ud_kill _ _ Hud _ Hl), Hp in Hp'. }
  pose proof (ud_write _ _ Hud m x _ b n s r Hp HT Hl) as Hr.
  pose proof (fr_step _ _ _ _ Hrun m) as Hstep. rewrite Hl in Hstep.
  destruct (own_step _ _ _ _ _ _ _ _ Hstep Hp) as (T1 & k' & _ & [_ Hch] & Heq). rewrite HT in Hch. cbn in Hch.
  rewrite (proj2 (Z.leb_le _ _) Hr) in Hch. destruct Hch as (data & op & _ & Hch). unfold filled.
  rewrite Heq. cbn [s_kernel]. rewrite Hch, lookup_insert_eq. eexists. split; [done|]. cbn.
  destruct data; [by destruct s|done].
Qed.

Lemma must_delivers i x b p T : here i x (SMust b) p T -> T !! b = Some (PipeWr n) -> delivered i.
Proof.
  intros [Hp Hwp] HT. destruct p as [a|c k| | | |]; try done. destruct Hwp as (F & HF & _).
  assert (exists s, c = Px (Write b s) /\ s <> EmptyString) as (s & -> & Hs).
  { clear Hp. remember (SMust b) as g eqn:Hg. destruct HF; try done; simplify_eq; eauto. by subst. }
  destruct (quiet_leaves _ _ _ _ Hrun x _ k T i (or_introl eq_refl) Hp) as [m Hm]. exists (S m).
  split; [destruct Hm; lia|left]. by eapply write_fills.
Qed.

Lemma daemon_leaves i x b W c k T :
  here i x (SDaemon b W) (Call c k) T -> (forall z, z ∈ W -> exists J, over z J) -> exists m, leaves i x c k T m.
Proof.
  intros [Hp (F & HF & _)] HW.
  assert (quiet_call c = true \/ c = Px Fork \/ exists z, c = Px (Waitpid z) /\ z ∈ W) as Hc.
  { clear Hp. remember (SDaemon b W) as g eqn:Hg. destruct HF; simplify_eq; auto. right; right; eauto. }
  destruct Hc as [Hc|[Hc|(z & -> & Hz)]]; [eapply quiet_leaves; eauto..|].
  destruct (HW z Hz) as [J HJ]. eapply (eventually_leaves _ _ _ _ Hrun _ _ _ _ _ J); [done|].
  intros j Hj Hij [Hat _]. unfold can_go. rewrite (Hat j) by lia. by eapply over_stays.
Qed.

Lemma daemon_delivers x b p : forall i T W X,
  here i x (SDaemon b W) p T -> T !! b = Some (PipeWr n) -> writers i x X ->
  (forall z, z ∈ W -> exists J, over z J) -> delivered i.
Proof.
  induction p as [a|c k IH| | | |]; intros i T W X Hh HT Hw HW;
    try (eapply all_drop; [done|]; apply over_drops; by eexists; split; [apply Hh|]).
  2: by destruct Hh.
  destruct (daemon_leaves _ _ _ _ _ _ _ Hh HW) as [m Hm]. pose proof Hm as (Him & _).
  apply (delivered_before i (S m)); [|lia].
  destruct (here_next _ _ _ _ _ _ _ Hh Hm) as (r & T' & F & HF & Hk & Hl & Hh' & Hkeep).
  assert (c <> Px Fork -> writers (S m) x X) as Hsame.
  { intros Hc. eapply writers_later; [done|lia|by eapply leaves_no_fork]. }
  assert (writers m x X) as Hwm by (by eapply leaves_writers).
  clear Hh. remember (SDaemon b W) as g eqn:Hg.
  destruct HF as [|g c Hs Hq| | | | | | | | | |b' W' c Hq Hb|b' W'|b' W'|b' W' z Hz|b' W' s Hs|]; try done; simplify_eq.
  - eapply all_drop; [|by eapply tail_drops]. apply Hsame. by intros ->.
  - eapply IH; [exact Hh'|by apply Hkeep|apply Hsame; by intros ->|done].
  - destruct (writers_fork _ _ _ _ Hwm Hl) as (Hfail & Hin & _).
    destruct (fork_child _ _ _ _ _ _ _ Hm Hl Hk) as [Hr|(Hr & Hch & _)]; cbv beta in Hh'.
    + rewrite (proj2 (Z.ltb_lt _ _) Hr) in Hh'. eapply IH; [exact Hh'|by apply Hkeep|by apply Hfail|done].
    + rewrite (proj2 (Z.ltb_ge _ _)), (proj2 (Z.eqb_neq _ _)) in Hh' by lia.
      eapply IH; [exact Hh'|by apply Hkeep|apply Hin; by eapply tail_drops|].
      intros z [->%elem_of_singleton|Hz]%elem_of_union; [by eapply tail_ends|auto].
  - destruct (writers_fork _ _ _ _ Hwm Hl) as (Hfail & _ & _). cbv beta in Hh'.
    destruct (Z.ltb_spec (ret r) 0); [eapply IH; [exact Hh'|by apply Hkeep|by apply Hfail|done]|].
    destruct (fork_child _ _ _ _ _ _ _ Hm Hl Hk) as [Hr|(Hr & _)]; [lia|].
    rewrite (proj2 (Z.eqb_neq _ _)) in Hh' by lia. eapply must_delivers; [exact Hh'|by apply Hkeep].
  - eapply IH; [exact Hh'|by apply Hkeep|by apply Hsame|done].
  - exists (S m). split; [done|left]. by eapply write_fills.
Qed.

(** ** The child ends, and leaves the rest to the daemon *)

Lemma session_delivers x b p : forall i T X,
  here i x (SSession b) p T -> T !! b = Some (PipeWr n) -> writers i x X ->
  delivered i /\ exists J, over x J.
Proof.
  assert (forall i T (q : prog Z) X, here i x STail q T -> writers i x X -> delivered i /\ exists J, over x J) as Htail.
  { intros i T q X Hh Hw. split; [|by eapply tail_ends]. eapply all_drop; [done|by eapply tail_drops]. }
  induction p as [a|c k IH| | | |]; intros i T X Hh HT Hw;
    try (assert (over x i) as Ho by (by eexists; split; [apply Hh|]); split; [|by exists i];
         eapply all_drop; [done|by apply over_drops]).
  2: by destruct Hh.
  assert (exists m, leaves i x c k T m) as [m Hm].
  { destruct Hh as [Hp (F & HF & _)]. eapply quiet_leaves; [done| |exact Hp]. clear Hp.
    remember (SSession b) as g eqn:Hg. destruct HF; simplify_eq; auto. }
  pose proof Hm as (Him & _). enough (delivered (S m) /\ exists J, over x J) as [? ?].
  { split; [|done]. eapply delivered_before; [done|lia]. }
  destruct (here_next _ _ _ _ _ _ _ Hh Hm) as (r & T' & F & HF & Hk & Hl & Hh' & Hkeep).
  assert (c <> Px Fork -> writers (S m) x X) as Hsame.
  { intros Hc. eapply writers_later; [done|lia|by eapply leaves_no_fork]. }
  assert (writers m x X) as Hwm by (by eapply leaves_writers).
  clear Hh. remember (SSession b) as g eqn:Hg.
  destruct HF as [|g c Hs Hq| | | | |b' c Hq Hb|b'| | | | | | | | |]; try done; simplify_eq.
  - eapply Htail; [exact Hh'|]. apply Hsame. by intros ->.
  - eapply IH; [exact Hh'|by apply Hkeep|apply Hsame; by intros ->].
  - destruct (writers_fork _ _ _ _ Hwm Hl) as (Hfail & _ & Hin). cbv beta in Hh'.
    destruct (fork_child _ _ _ _ _ _ _ Hm Hl Hk) as [Hr|(Hr & Hch & _)].
    + rewrite (proj2 (Z.ltb_lt _ _) Hr) in Hh'. eapply Htail; [exact Hh'|by apply Hfail].
    + rewrite (proj2 (Z.ltb_ge _ _)), (proj2 (Z.eqb_neq _ _)) in Hh' by lia.
      split; [|by eapply tail_ends]. eapply daemon_delivers; [exact Hch|done|apply Hin; by eapply tail_drops|set_solver].
Qed.

(** ** The reader *)

Definition readers (i : nat) (x : Z) : Prop := forall pid, holds (PipeRd n) i pid -> pid = x.

Definition both_ends (a b : Z) (T : fds) : Prop :=
  T !! a = Some (PipeRd n) /\ T !! b = Some (PipeWr n) /\
  (forall fd, T !! fd = Some (PipeRd n) -> fd = a) /\ (forall fd, T !! fd = Some (PipeWr n) -> fd = b).

(** The process closes the only descriptor of an end. *)
Lemma closes i x fd o k T m :
  leaves i x (Px (Close fd)) k T m -> (forall fd', T !! fd' = Some o -> fd' = fd) -> ~ holds o (S m) x.
Proof.
  intros (Him & [Hat _] & Hm) HT (p & fd' & Hp & _ & Hfd). pose proof (Hat m ltac:(lia)) as Hpm.
  destruct Hm as [(r & T' & Hl & Hp')|(status & Hl & Hp')].
  2:{ by rewrite (ud_kill _ _ Hud _ Hl), Hpm in Hp'. }
  pose proof (fr_step _ _ _ _ Hrun m) as Hstep. rewrite Hl in Hstep.
  destruct (own_step _ _ _ _ _ _ _ _ Hstep Hpm) as (T1 & k' & HT1 & _ & Heq). cbn in HT1.
  rewrite Heq in Hp. cbn [s_procs] in Hp. rewrite lookup_insert_eq in Hp. injection Hp as <-. cbn in Hfd. subst T1.
  apply lookup_delete_Some in Hfd as [Hne Hfd]. by apply HT in Hfd.
Qed.

Lemma child_delivers i x y a b p T :
  here i x (SChild a b) p T -> both_ends a b T -> alloc n i ->
  (forall pid, holds (PipeRd n) i pid -> pid = y \/ pid = x) -> (forall j, no_fork y i j) ->
  writers i x {[y]} -> exists i', (i <= i')%nat /\ readers i' y /\ delivered i' /\ exists J, over x J.
Proof.
  intros Hh (Ha & Hb & Hra & _) Hal Hrd Hy Hw.
  assert (over x i -> exists i', (i <= i')%nat /\ readers i' y /\ delivered i' /\ exists J, over x J) as Hover.
  { intros Ho. exists i. split_and!; [done| |eapply all_drop; [done|by apply over_drops]|by exists i].
    intros pid Hp. destruct (Hrd _ Hp) as [| ->]; [done|]. destruct Ho as (q & Hq & Hr), Hp as (q' & fd & ? & ? & _).
    congruence. }
  destruct (here_only _ _ _ _ _ _ _ Hh eq_refl) as [|(k & -> & Hnext)]; [by apply Hover|].
  destruct (quiet_leaves _ _ _ _ Hrun x _ k T i (or_introl eq_refl) (proj1 Hh)) as [m Hm].
  destruct (Hnext m Hm) as (p' & T' & Hh' & Hkeep). pose proof Hm as (Him & _).
  assert (no_fork x i (S m)) as Hno by (by eapply leaves_no_fork).
  exists (S m). split; [lia|]. split.
  - intros pid Hp. destruct (holders_same n (PipeRd n) i (S m) {[y; x]}) with pid as [Hin _]; [lia|done|by left| | |done|].
    + intros pid' []%Hrd; set_solver.
    + intros pid' Hp'. assert (pid' = y \/ pid' = x) as [->| ->] by set_solver; [apply Hy|done].
    + assert (pid = y \/ pid = x) as [->| ->] by set_solver; [done|]. by destruct (closes _ _ _ _ _ _ _ Hm Hra).
  - eapply session_delivers; [exact Hh'|apply Hkeep; [|done]|eapply writers_later; [done|lia|done]].
    intros [= <-]. congruence.
Qed.

Lemma filled_step i y :
  holds (PipeRd n) i y -> filled i -> filled (S i) \/ exists pid fd sz r k T, lb i = LCall pid (existT (P := resp) (Px (Read fd sz)) r) /\
    at_call st i pid (Px (Read fd sz)) k T /\ rd_chan (T !! fd) = Some n.
Proof.
  intros (py & fdy & Hpy & _ & Hfdy) (ch & Hn & Hd).
  pose proof (fr_step _ _ _ _ Hrun i) as Hstep. unfold filled, at_call.
  destruct Hstep as [s pid c k T r T' k' Hp Hc Hl Hf Hch| | | | | | |s k' Hf]; try (left; by eauto).
  - destruct (chan_step _ _ _ _ _ _ _ _ _ _ Hch Hn) as (ch' & Hn' & _ & H).
    destruct (H Hd) as [|(fd & sz & -> & Hfd)]; [left; eauto|right]. by repeat eexists.
  - left. destruct (oa_chans _ _ _ Hf n ch Hn) as (ch' & ? & _ & Heq). rewrite Heq in *; [eauto|].
    left. by exists y, py, fdy, (PipeRd n).
Qed.

(** The process holds the reading end, and does not read. *)
Definition waits (y : Z) (i j : nat) : Prop :=
  forall j', (i <= j' < j)%nat ->
    holds (PipeRd n) j' y /\ forall fd sz r, lb j' <> LCall y (existT (P := resp) (Px (Read fd sz)) r).

Lemma waits_app y i j k : waits y i j -> waits y j k -> waits y i k.
Proof. intros H1 H2 l Hl. destruct (decide (l < j)%nat); [apply H1|apply H2]; lia. Qed.

Lemma waits_sub y i j i' j' : waits y i j -> (i <= i')%nat -> (j' <= j)%nat -> waits y i' j'.
Proof. intros H Hi Hj l Hl. apply H. lia. Qed.

Lemma stays_waits i y c k T m fd :
  stays st lb i y c k T m -> T !! fd = Some (PipeRd n) -> waits y i m.
Proof.
  intros [Hat Hno] HT j Hj. pose proof (Hat j ltac:(lia)) as Hp. split; [by repeat eexists|]. intros fd' sz r. by apply Hno.
Qed.

Lemma leaves_waits i y c k T m fd :
  leaves i y c k T m -> T !! fd = Some (PipeRd n) -> (forall fd sz, c <> Px (Read fd sz)) -> waits y i (S m).
Proof.
  intros (Him & [Hat Hno] & _) HT Hc. eapply (waits_app _ _ m); [by eapply stays_waits|].
  intros j Hj. assert (j = m) as -> by lia. pose proof (Hat m ltac:(lia)) as Hp. split; [by repeat eexists|].
  intros fd' sz r Hl. destruct (caller _ _ _ _ Hl) as (k' & T' & Hat'). unfold at_call in *. rewrite Hp in Hat'.
  injection Hat' as Hc' _ _. by apply Hc in Hc'.
Qed.

Lemma filled_stays y i j :
  filled i -> (i <= j)%nat -> (forall j', (i <= j' < j)%nat -> readers j' y) -> waits y i j -> filled j.
Proof.
  intros Hfl Hij Hrd Hy. induction Hij as [|j Hij IH]; [done|].
  destruct (Hy j ltac:(lia)) as [Hhold Hno].
  destruct (filled_step j y Hhold) as [|(pid & fd & sz & r & k & T & Hl & Hat & Hch)]; [|done|exfalso].
  { apply IH; [intros; apply Hrd; lia|]. eapply waits_sub; [done|lia..]. }
  destruct Hhold as (p' & fd' & Hp' & _ & HT').
  destruct (T !! fd) as [[| |q m| |]|] eqn:HT; try done; cbn in Hch; simplify_eq.
  - apply (Hno fd sz r). rewrite Hl. f_equal. apply (Hrd j); [lia|]. by repeat eexists.
  - destruct (run_ok _ _ _ _ _ _ Hok Hrun j) as [_ (t & a & (tok & roles & pipes & Hinv) & _)].
    destruct (iv_chans _ _ _ _ _ _ _ _ _ _ _ Hinv) as [Hobj _ _].
    destruct (Hobj _ _ _ _ Hat HT) as [Hn _]. exact (Hn (Hobj _ _ _ _ Hp' HT')).
Qed.

Lemma read_returns i y a sz k T i0 i' :
  at_call st i y (Px (Read a sz)) k T -> T !! a = Some (PipeRd n) -> alloc n i0 -> waits y i0 i ->
  (forall j, no_fork y i0 j) -> (i0 <= i')%nat -> readers i' y -> delivered i' ->
  exists m, leaves i y (Px (Read a sz)) k T m.
Proof.
  intros Hat HT Hal Hw Hno Hi Hrd (J & HJ & Hdel). eapply (eventually_leaves _ _ _ _ Hrun _ _ _ _ _ J Hat).
  intros j Hj Hij Hst. unfold can_go. rewrite (proj1 Hst j) by lia. rewrite HT. intros n' [= <-].
  destruct (alloc_stays _ _ j Hal) as (ch & Hn & _); [lia|]. exists ch. split; [done|].
  destruct Hdel as [Hfl|Hnone].
  - left. destruct (filled_stays y J j Hfl Hj) as (ch' & Hn' & Hd); [| |by simplify_eq].
    + intros j' Hj' pid Hp. destruct (holders_same n (PipeRd n) i' j' {[y]}) with pid as [Hin _];
        [lia|by eapply alloc_stays|by left| | |done|].
      * intros pid' ->%Hrd. set_solver.
      * intros pid' ->%elem_of_singleton. by eapply no_fork_later.
      * set_solver.
    + eapply (waits_sub _ i0); [|lia|reflexivity]. eapply waits_app; [done|by eapply stays_waits].
  - right. intros (pid & p & fd & Hp & Hr & Hwr). apply (Hnone j pid Hj). exists p, fd. split_and!; [done..|].
    destruct (p_fds p !! fd) as [[| | |q m|]|] eqn:Hfd; try done; cbn in Hwr; simplify_eq; [done|exfalso].
    destruct (run_ok _ _ _ _ _ _ Hok Hrun j) as [_ (t & b & (tok & roles & pipes & Hinv) & _)].
    destruct (iv_chans _ _ _ _ _ _ _ _ _ _ _ Hinv) as [Hobj _ _].
    destruct (Hobj _ _ _ _ Hp Hfd) as [Hm _]. exact (Hm (Hobj _ _ _ _ (proj1 Hst j ltac:(lia)) HT)).
Qed.

(** ** The command *)

Lemma parent_drops i y z a b p T :
  here i y (SParent z a b) p T -> both_ends a b T -> alloc n i -> drops y i.
Proof.
  intros Hh (_ & _ & _ & Hb) Ha.
  destruct (here_only _ _ _ _ _ _ _ Hh eq_refl) as [|(k & -> & Hnext)]; [by apply over_drops|].
  split; [intros j; by eapply calm_no_fork|].
  destruct (quiet_leaves _ _ _ _ Hrun y _ k T i (or_introl eq_refl) (proj1 Hh)) as [m Hm].
  destruct (Hnext m Hm) as (p' & T' & [Hp _] & _).
  exists (S m). intros j Hj. eapply (dropped n); [exact Hj| |by right|exact Hp|by eapply closes].
  eapply alloc_stays; [done|]. destruct Hm. lia.
Qed.

Lemma parent_ends i y z a b p T i' :
  here i y (SParent z a b) p T -> both_ends a b T -> alloc n i -> (i <= i')%nat -> readers i' y -> delivered i' ->
  (exists J, over z J) -> exists J, over y J.
Proof.
  intros Hh (HTa & HTb & _) Hal Hi Hrd Hdel [Jz Hz].
  pose proof (λ j, calm_no_fork _ _ _ _ _ j Hh I) as Hno.
  destruct (here_only _ _ _ _ _ _ _ Hh eq_refl) as [|(k & -> & Hnext)]; [by exists i|].
  destruct (quiet_leaves _ _ _ _ Hrun y _ k T i (or_introl eq_refl) (proj1 Hh)) as [m Hm].
  pose proof (leaves_waits _ _ _ _ _ _ _ Hm HTa ltac:(done)) as Hw1.
  destruct (Hnext m Hm) as (p1 & T1 & Hh1 & Hkeep1). clear Hnext.
  assert (T1 !! a = Some (PipeRd n)) as HT1 by (apply Hkeep1; [|done]; intros [= ->]; congruence).
  destruct (here_only _ _ _ _ _ _ _ Hh1 eq_refl) as [|(k1 & -> & Hnext)]; [by exists (S m)|].
  destruct (eventually_leaves _ _ _ _ Hrun y _ k1 T1 (S m) Jz (proj1 Hh1)) as [m1 Hm1].
  { intros j Hj Hij [Hat _]. unfold can_go. rewrite (Hat j) by lia. by eapply over_stays. }
  pose proof (leaves_waits _ _ _ _ _ _ _ Hm1 HT1 ltac:(done)) as Hw2.
  destruct (Hnext m1 Hm1) as (p2 & T2 & Hh2 & Hkeep2). clear Hnext.
  pose proof (Hkeep2 a _ ltac:(done) HT1) as HT2.
  destruct p2 as [e|c k2| | | |]; try (exists (S m1); by eexists; split; [apply Hh2|]); [|by destruct Hh2].
  assert (exists sz, c = Px (Read a sz)) as [sz ->].
  { destruct Hh2 as [_ (F & HF & _)]. remember (SRead a) as g eqn:Hg. by destruct HF; simplify_eq/=; eauto. }
  destruct (read_returns _ _ _ _ _ _ i i' (proj1 Hh2) HT2 Hal) as [m2 Hm2]; [|done..|].
  { by eapply waits_app. }
  destruct (here_next _ _ _ _ _ _ _ Hh2 Hm2) as (r & T3 & F & HF & _ & _ & Hh3 & _).
  eapply tail_ends. enough (F r = STail) as <- by exact Hh3.
  remember (SRead a) as g eqn:Hg. destruct HF; by simplify_eq/=.
Qed.

Lemma piped_ends i y a b p T :
  here i y (SPiped a b) p T -> both_ends a b T -> alloc n i ->
  (forall o pid, pipe_end n o -> holds o i pid -> pid = y) -> exists J, over y J.
Proof.
  intros Hh HT Hal Hhold.
  destruct p as [e|c k| | | |]; try (exists i; by eexists; split; [apply Hh|]); [|by destruct Hh].
  assert (c = Px Fork) as ->.
  { destruct Hh as [_ (F & HF & _)]. apply piped_lok in HF. by destruct c as [|[]| | |]. }
  destruct (quiet_leaves _ _ _ _ Hrun y _ k T i (or_intror eq_refl) (proj1 Hh)) as [m Hm].
  destruct (here_next _ _ _ _ _ _ _ Hh Hm) as (r & T' & F & HF & Hk & Hl & Hh' & _).
  apply piped_lok in HF. cbn beta in HF.
  destruct (fork_child _ _ _ _ _ _ _ Hm Hl Hk) as [Hr|(Hr & Hch & Hpar)].
  { rewrite HF, (proj2 (Z.ltb_lt _ _) Hr) in Hh'. by eapply tail_ends. }
  rewrite HF in Hch, Hpar. rewrite (proj2 (Z.ltb_ge _ _)), (proj2 (Z.eqb_neq _ _)) in Hpar by lia.
  pose proof Hm as (Him & [_ Hno] & _).
  assert (no_fork y i m) as Hnof by (intros j r' Hj; by apply Hno).
  assert (alloc n m) as Halm by (by eapply alloc_stays).
  assert (alloc n (S m)) as HalS by (eapply alloc_stays; [done|lia]).
  pose proof (parent_drops _ _ _ _ _ _ _ Hpar HT HalS) as Hd.
  assert (writers i y ∅) as Hw by (split_and!; [done|intros pid Hp; left; by eapply Hhold; [by right|]|set_solver]).
  destruct (writers_fork _ _ _ _ (writers_later _ _ _ _ Hw Him Hnof) Hl) as (_ & _ & Hwc).
  destruct (child_delivers _ _ y _ _ _ _ Hch HT HalS) as (i' & Hi' & Hrd & Hdel & Hz).
  - intros pid [Hp|(par & r' & _ & Hl' & _ & <- & _)]%(hold_step n); [|right|done|by left].
    + left. destruct (holders_same n (PipeRd n) i m {[y]}) with pid as [Hin _];
        [done|done|by left| | |done|set_solver].
      * intros pid' Hp'. rewrite (Hhold (PipeRd n) pid'); [set_solver|by left|done].
      * by intros pid' ->%elem_of_singleton.
    + rewrite Hl in Hl'. apply label_inj in Hl' as [_ Hl']. by apply answer_inj in Hl' as <-.
  - apply Hd.
  - rewrite <- (right_id_L ∅ (∪) {[y]}). auto.
  - by eapply parent_ends.
Qed.

End Pipe.

(** The two ends of a new pipe are held by the process that made it. *)
Lemma pipe_made m y k T r a b :
  at_call st m y (Px Pipe) k T -> lb m = LCall y (existT (P := resp) (Px Pipe) (r, (a, b))) -> 0 <= ret r ->
  exists n T', s_procs (st (S m)) !! y = Some (Process (k (r, (a, b))) T') /\ both_ends n a b T' /\ alloc n (S m) /\
    forall o pid, pipe_end n o -> holds o (S m) pid -> pid = y.
Proof.
  intros Hat Hl Hr. pose proof (fr_step _ _ _ _ Hrun m) as Hstep. rewrite Hl in Hstep.
  destruct (own_step _ _ _ _ _ _ _ _ Hstep Hat) as (T' & k' & HT & Hch & Heq). cbn in HT, Hch.
  rewrite (proj2 (Z.leb_le _ _) Hr) in HT, Hch. destruct HT as (Hab & Ha & Hb & n & HT).
  destruct Hch as (n' & Hn' & Hnone & _ & Hch). rewrite HT, lookup_insert_eq in Hn'. injection Hn' as <-.
  assert (forall pid p fd o, s_procs (st m) !! pid = Some p -> p_fds p !! fd = Some o -> pipe_end n o -> False) as Hfresh.
  { intros pid p fd o Hp Hfd Ho. destruct (run_ok _ _ _ _ _ _ Hok Hrun m) as [_ (t & c & (tok & roles & pipes & Hinv) & _)].
    destruct (iv_chans _ _ _ _ _ _ _ _ _ _ _ Hinv) as [Hobj Hpipes _].
    assert (n ∈ pipes) as [ch Hn]%Hpipes by (pose proof (Hobj _ _ _ _ Hp Hfd); by destruct Ho; subst o). congruence. }
  exists n, T'. rewrite Heq. cbn [s_procs]. rewrite lookup_insert_eq. split_and!; [done|..].
  - subst T'. split_and!; [by rewrite lookup_insert_eq|by rewrite lookup_insert_ne, lookup_insert_eq| |]; intros fd;
      rewrite !lookup_insert_Some; intros [[]|[_ [[]|[_ Hfd]]]]; try done; exfalso;
      (eapply (Hfresh y); [exact Hat|exact Hfd|]); [by left|by right].
  - unfold alloc. rewrite Heq. cbn [s_kernel]. rewrite Hch, lookup_insert_eq. by eexists.
  - intros o pid Ho (p & fd & Hp & _ & Hfd). rewrite Heq in Hp. cbn [s_procs] in Hp.
    apply lookup_insert_Some in Hp as [[<- _]|[_ Hp]]; [done|]. by destruct (Hfresh _ _ _ _ Hp Hfd Ho).
Qed.

Lemma prepare_ends y p : forall i T, here i y SPrepare p T ->
  exists j q, s_procs (st j) !! y = Some q /\ (running q = false \/ p_prog q = Fuel).
Proof.
  assert ((exists J, over y J) ->
    exists j q, s_procs (st j) !! y = Some q /\ (running q = false \/ p_prog q = Fuel)) as Hover.
  { intros (J & q & Hq & Hr). eauto. }
  induction p as [a|c k IH| | | |]; intros i T Hh;
    try (apply Hover; exists i; by eexists; split; [apply Hh|]);
    [|exists i, (Process Fuel T); split; [apply Hh|by right]].
  assert (quiet_call c = true) as Hq by (destruct Hh as [_ (F & HF & _)]; by apply prepare_lok in HF as [? _]).
  destruct (quiet_leaves _ _ _ _ Hrun y _ k T i (or_introl Hq) (proj1 Hh)) as [m Hm].
  destruct (here_next _ _ _ _ _ _ _ Hh Hm) as (r & T' & F & HF & _ & Hl & Hh' & _).
  apply prepare_lok in HF as [_ [HF|[HF|HF]]]; [rewrite HF in Hh'..|].
  - apply Hover. by eapply tail_ends.
  - by eapply IH.
  - destruct c as [|[]| | |]; try done. destruct r as [r [a b]]. rewrite HF in Hh'. cbn [fst snd] in Hh'. apply Hover.
    destruct (Z.ltb_spec (ret r) 0) as [Hr|Hr]; [by eapply tail_ends|].
    destruct (pipe_made m y k T r a b) as (n & T1 & Hp1 & HT & Hal & Hhold); [|done..|].
    { destruct Hm as (Him & [Hat _] & _). apply Hat. lia. }
    destruct Hh' as [Hp' Hwp]. rewrite Hp' in Hp1. injection Hp1 as <-. by eapply (piped_ends n).
Qed.

Lemma command_quiet c : match c with CmdCreate _ _ _ _ _ _ => True | _ => quiet (command_prog Root Id c) end.
Proof.
  destruct c; [done|apply doStart_quiet|..]; cbn [command_prog].
  all: unfold doKill, doState, is_regular_file, State_load, loadBundle, Bundle_load, ensure, lift_cpp; quiet_walk; exact I.
Qed.

(** A create command tries fewer names for its temporary file in vain than the bound
    of its loop; so the bound is not what ends it. *)
Definition finds_name (pid : Z) (c : command) : Prop :=
  match c with CmdCreate fuel _ _ _ _ _ => forall t, (vain_tries lb pid t < fuel)%nat | _ => True end.

(** C8: Every command comes to its end, in every execution in which each process
    goes on when it can, none is killed and no write to a pipe fails.  A create
    command must find a free name for the temporary file of its state after a
    finite number of tries, less than the bound of the loop: if every name is
    taken, or none can be opened, it tries for ever. *)
Theorem commands_end pid c :
  cmds !! pid = Some c -> finds_name pid c ->
  exists j p, s_procs (st j) !! pid = Some p /\ running p = false.
Proof.
  intros Hc Hname. pose proof (boot_lookup _ _ _ _ _ _ Hrun _ _ Hc) as Hp. pose proof (command_quiet c) as Hq.
  destruct c as [fuel Systemd Cfg Path Console PidFile| | |];
    try (destruct (quiet_ends _ _ _ _ Hrun _ _ _ _ Hq Hp) as (j & p & ? & ?); eauto; fail).
  destruct (prepare_ends pid _ 0 _ (conj Hp ltac:(apply doCreate_lwp))) as (j & p & Hj & [Hr|Hfuel]); [eauto|].
  cbn in Hname. pose proof (Hname 0%nat) as Hfuel0.
  destruct (within_run CR st lb pid _ (fuel - 1) (fr_step _ _ _ _ Hrun) Hp) with j as (q & Hq' & Hw).
  - apply doCreate_within. lia.
  - intros t. specialize (Hname t). lia.
  - rewrite Hj in Hq'. injection Hq' as <-. by rewrite Hfuel in Hw.
Qed.

End Ends.
