(* ===== verification/Schedule.v ===== *)
(** Executions that can be evaluated.

    [play] runs the processes of a system in the order a script says, with a
    concrete kernel; everything it does is a step of the semantics of
    [Kernel].  It is used to show that the hypotheses of the theorems about
    executions can hold, and what certain orders of calls lead to. *)
From S2P Require Import Prelude Cpp Path Json JsonRef Prog Logic Sim Kernel.

#[export] Instance node_eq_dec : EqDecision node.
Proof. solve_decision. Defined.

(** What the next step is: a process makes its next call, and [ActFork] gives
    the number of the new process; a call fails with an error number; a process
    is killed. *)
Inductive action : Set :=
| ActCall (pid : Z)
| ActFork (pid child : Z)
| ActFail (pid err : Z)
| ActKill (pid : Z).

Section Schedule.
Context `{SJ : Simdjson} (Home : string).

(** ** The concrete kernel *)

Definition only (P : Prop) `{!Decision P} {A} (x : A) : option A := if decide P then Some x else None.

Lemma only_Some P `{!Decision P} {A} (x y : A) : only P x = Some y -> P /\ y = x.
Proof. unfold only. case_decide; [|done]. by intros [= ->]. Qed.

Definition fresh_fd (T : fds) : Z :=
  default 0 (find (λ fd, bool_decide (T !! fd = None)) (seqZ 3 64)).

Definition writes (n : nat) (p : process) : bool :=
  running p && existsb (λ kv, bool_decide (wr_chan (Some kv.2) = Some n)) (map_to_list (p_fds p)).
Definition writer_b (ps : gmap Z process) (n : nat) : bool :=
  existsb (λ kv, writes n kv.2) (map_to_list ps).

Definition px_answer (pid : Z) (ps : gmap Z process) (T : fds) (k : kernel) (c : posix_call) :
    option (posix_resp c * fds * kernel) :=
  match c with
  | Pipe =>
      let n := size (k_chans k) in
      let a := fresh_fd T in let b := fresh_fd (<[a := OtherFd]> T) in
      only (a <> b /\ T !! a = None /\ T !! b = None /\ k_chans k !! n = None)
        ((SysRet 0 0, (a, b)), <[a := PipeRd n]> (<[b := PipeWr n]> T),
          with_chan k n (Channel EmptyString true))
  | Socket =>
      let fd := fresh_fd T in
      only (0 <= fd /\ T !! fd = None) (SysRet fd 0, <[fd := OtherFd]> T, k)
  | Open p flags =>
      let fd := fresh_fd T in
      match k_files k !! p with
      | None => Some (SysRet (-1) ENOENT, T, k)
      | Some Fifo =>
          match k_fifos k !! p with
          | Some n =>
              if opens_write flags then
                match k_chans k !! n with
                | Some ch =>
                    only (0 <= fd /\ T !! fd = None)
                      (SysRet fd 0, <[fd := FifoWr p n]> T, with_chan k n (Channel (ch_data ch) true))
                | None => None
                end
              else only (0 <= fd /\ T !! fd = None) (SysRet fd 0, <[fd := FifoRd p n]> T, k)
          | None => None
          end
      | Some _ => only (0 <= fd /\ T !! fd = None) (SysRet fd 0, <[fd := OtherFd]> T, k)
      end
  | Close fd => Some (SysRet 0 0, delete fd T, k)
  | Mkfifo p _ =>
      match k_files k !! p with
      | Some _ => Some (SysRet (-1) EEXIST, T, k)
      | None =>
          let n := size (k_chans k) in
          only (k_chans k !! n = None)
            (SysRet 0 0, T, Kernel (<[p := Fifo]> (k_files k)) (<[p := n]> (k_fifos k))
              (<[n := Channel EmptyString false]> (k_chans k)))
      end
  | Unlink p =>
      match k_files k !! p with
      | None => Some (SysRet (-1) ENOENT, T, k)
      | Some _ => Some (SysRet 0 0, T, with_files k (delete p (k_files k)))
      end
  | Read fd n =>
      match rd_chan (T !! fd) with
      | None => Some ((SysRet 0 0, EmptyString), T, k)
      | Some m =>
          match k_chans k !! m with
          | None => None
          | Some ch =>
              if is_empty (ch_data ch) then
                if writer_b ps m then None else Some ((SysRet 0 0, EmptyString), T, k)
              else
                let data := substr (ch_data ch) 0 (Z.to_nat n) in
                let rest := substr (ch_data ch) (Z.to_nat n) (String.length (ch_data ch)) in
                only (ch_data ch = data +:+ rest /\ data <> EmptyString /\
                    Z.of_nat (String.length data) <= n /\
                    (Z.of_nat (String.length data) = n \/ rest = EmptyString))
                  ((SysRet (Z.of_nat (String.length data)) 0, data), T,
                    with_chan k m (Channel rest (ch_opened ch)))
          end
      end
  | Write fd s =>
      match wr_chan (T !! fd) with
      | None => Some (SysRet (Z.of_nat (String.length s)) 0, T, k)
      | Some m =>
          match k_chans k !! m with
          | None => None
          | Some ch => Some (SysRet (Z.of_nat (String.length s)) 0, T,
              with_chan k m (Channel (ch_data ch +:+ s) (ch_opened ch)))
          end
      end
  | Select fd =>
      match rd_chan (T !! fd) with
      | None => None
      | Some m =>
          match k_chans k !! m with
          | None => None
          | Some ch =>
              if ch_opened ch && (negb (is_empty (ch_data ch)) || negb (writer_b ps m)) then
                Some (SysRet 1 0, T, k)
              else None
          end
      end
  | Getpid => Some (SysRet pid 0, T, k)
  | Fork => None
  | Waitpid p => Some ((SysRet p 0, 0), T, k)
  | Statfs _ => Some ((SysRet 0 0, 0), T, k)
  | _ => Some (SysRet 0 0, T, k)
  end.

(** A failed call. *)
Definition px_fails (err : Z) (c : posix_call) : option (posix_resp c) :=
  let r := SysRet (-1) err in
  match c with
  | Pipe => Some (r, (0, 0))
  | Waitpid _ => Some (r, 0)
  | Read _ _ => if err =? EINTR then Some (r, EmptyString) else None
  | Statfs _ => Some (r, 0)
  | Getpid | Fork | Close _ => None
  | _ => Some r
  end.

Lemma writer_sound ps n : writer_b ps n = false -> ~ has_writer ps n.
Proof.
  intros Hb (pid & p & fd & Hp & Hr & Hw).
  enough (writer_b ps n = true) by congruence. apply existsb_exists. exists (pid, p).
  split; [by apply list_elem_of_In, elem_of_map_to_list|]. cbn. unfold writes. rewrite Hr. cbn.
  apply existsb_exists. destruct (p_fds p !! fd) as [o|] eqn:Ho; [|done]. exists (fd, o).
  split; [by apply list_elem_of_In, elem_of_map_to_list|]. cbn. by apply bool_decide_eq_true.
Qed.

(** The parts of an answer to a system call. *)
Definition px_ok (pid : Z) (ps : gmap Z process) (T : fds) (k : kernel) (c : posix_call)
    (r : posix_resp c) (T' : fds) (k' : kernel) : Prop :=
  px_local T c r T' /\ px_chans pid (has_writer ps) T k c r T' k' /\
  posix_effect c (k_files k) r (k_files k').

Lemma px_open_sound pid ps T k p flags r T' k' :
  px_answer pid ps T k (Open p flags) = Some (r, T', k') -> px_ok pid ps T k (Open p flags) r T' k'.
Proof.
  unfold px_ok. cbn. destruct (k_files k !! p) as [n|] eqn:Hp; [|intros [= <- <- <-]; cbn; split_and!; [done..|lia]].
  destruct (decide (n = Fifo)) as [->|Hne].
  - destruct (k_fifos k !! p) as [m|] eqn:Hm; [|done]. destruct (opens_write flags).
    + destruct (k_chans k !! m) as [ch|] eqn:Hch; [|done].
      intros [[Hfd Hnone] [= -> -> ->]]%only_Some. cbn. apply Z.leb_le in Hfd. rewrite Hfd, lookup_insert_eq.
      split_and!; eauto 10.
    + intros [[Hfd Hnone] [= -> -> ->]]%only_Some. cbn. apply Z.leb_le in Hfd. rewrite Hfd, lookup_insert_eq.
      split_and!; eauto 10.
  - destruct n; try done.
    all: intros [[Hfd Hnone] [= -> -> ->]]%only_Some; cbn; apply Z.leb_le in Hfd; rewrite Hfd, lookup_insert_eq;
      split_and!; eauto 10; congruence.
Qed.

Lemma px_read_sound pid ps T k fd n r T' k' :
  px_answer pid ps T k (Read fd n) = Some (r, T', k') -> px_ok pid ps T k (Read fd n) r T' k'.
Proof.
  unfold px_ok. cbn. destruct (rd_chan (T !! fd)) as [m|] eqn:Hm.
  - destruct (k_chans k !! m) as [[data op]|] eqn:Hch; [|done]. cbn.
    destruct (is_empty data) eqn:He.
    + destruct (writer_b ps m) eqn:Hw; [done|]. intros [= <- <- <-]. cbn. split_and!; try done; try lia.
      intros _. split; [by apply writer_sound|]. destruct data; [eauto|done].
    + intros [(Hd & Hne & Hlen & Hrest) [= -> -> ->]]%only_Some. cbn. split_and!; try done; [lia|].
      destruct (Z.ltb_spec 0 (Z.of_nat (String.length (String.substring 0 (Z.to_nat n) data)))) as [|H0].
      * exists (String.substring (Z.to_nat n) (String.length data) data), op. split_and!; [done|done|by rewrite <- Hd|done|done].
      * destruct (String.substring 0 (Z.to_nat n) data); [done|cbn in H0; lia].
  - intros [= <- <- <-]. cbn. split_and!; done || lia.
Qed.

Lemma px_sound pid ps T k c r T' k' :
  px_answer pid ps T k c = Some (r, T', k') -> px_ok pid ps T k c r T' k'.
Proof.
  destruct c; try apply px_open_sound; try apply px_read_sound; unfold px_ok; cbn;
    try (by intros [= <- <- <-]).
  - intros [(? & ? & ? & ?) [= -> -> ->]]%only_Some. cbn. split_and!; eauto 10. 
    rewrite lookup_insert_eq. eauto 10.
  - intros [[Hfd ?] [= -> -> ->]]%only_Some. cbn. apply Z.leb_le in Hfd. by rewrite Hfd.
  - destruct (k_files k !! p) eqn:Hp; [intros [= <- <- <-]; cbn; split_and!; done || lia|].
    intros [? [= -> -> ->]]%only_Some. cbn. split_and!; eauto 10; lia.
  - destruct (k_files k !! p) eqn:Hp; intros [= <- <- <-]; cbn; split_and!; done || lia.
  - destruct (wr_chan _); [|by intros [= <- <- <-]].
    destruct (k_chans k !! _) as [[]|] eqn:Hch; [|done]. intros [= <- <- <-]. cbn. split_and!; try done.
    destruct (Z.leb_spec 0 (Z.of_nat (String.length s))); [eauto 10|lia].
  - destruct (rd_chan _) as [m|] eqn:Hm; [|done]. destruct (k_chans k !! m) as [[d op]|] eqn:Hch; [|done].
    cbn. destruct (op && _) eqn:Hr; [|done]. intros [= <- <- <-]. cbn. split_and!; try done.
    intros m' [= <-] _. exists (Channel d op). split; [done|]. cbn.
    apply andb_true_iff in Hr as [-> [Hd|Hw]%orb_true_iff]; split; auto.
    + left. by destruct d.
    + right. apply writer_sound. by apply negb_true_iff.
Qed.

(** ** Steps *)

Definition letter_of (pid : Z) : ascii := Ascii.ascii_of_N (Z.to_N (97 + pid mod 26)).

Definition answer (pid : Z) (s : system) (T : fds) (c : call) : option (resp c * fds * kernel) :=
  let k := s_kernel s in
  match c with
  | Px c => px_answer pid (s_procs s) T k c
  | c =>
      let w : sim plain_fs := Sim (k_files k) 0 (λ _, letter_of pid) sim_px_ok sim_sd_ok sim_wm_ok in
      Some ((os_call c w).1, T, with_files k (files_of (os_call c w).2))
  end.

(** What is left to check: what the process learns, and that the files stay in
    place. *)
Definition local_b (c : call) : resp c -> bool :=
  match c with
  | Fs (OfstreamWrite _ s) => λ ok : bool, ok && (Z.of_nat (String.length s) <? 2 ^ 32)
  | Fs RandomLetter => λ c : ascii, (97 <=? code c) && (code c <=? 122)
  | Wm (CacheGetPath _ _) => λ o : option string,
      match o with
      | Some p => negb (home Home (parent_path (replace_extension p ".so")))
      | None => true
      end
  | _ => λ _, true
  end.

Definition rooted_b (f : files) : bool :=
  bool_decide (f !! Home = Some Dir) || forallb (λ kv, negb (home Home kv.1)) (map_to_list f).
Definition frame_b (c : call) (f f' : files) : bool :=
  forallb (λ kv, touches Home c kv.1 || bool_decide (f' !! kv.1 = f !! kv.1)) (map_to_list f ++ map_to_list f').

Lemma rooted_sound f : rooted_b f = true -> rooted Home f.
Proof.
  intros [H|H]%orb_true_iff q Hq Hne; [by apply bool_decide_eq_true in H|].
  destruct (f !! q) as [n|] eqn:Hn; [|done]. rewrite forallb_forall in H.
  specialize (H (q, n)). cbn in H. rewrite Hq in H. discriminate H.
  by apply list_elem_of_In, elem_of_map_to_list.
Qed.

Lemma frame_sound c f f' : frame_b c f f' = true -> forall q, touches Home c q = false -> f' !! q = f !! q.
Proof.
  unfold frame_b. rewrite forallb_forall. intros H q Hq.
  assert (forall n, f !! q = Some n \/ f' !! q = Some n -> f' !! q = f !! q) as Hn.
  { intros n Hn. specialize (H (q, n)). cbn in H. rewrite Hq in H. cbn in H. apply (proj1 (bool_decide_eq_true _)), H.
    apply list_elem_of_In, elem_of_app. rewrite !elem_of_map_to_list. done. }
  destruct (f !! q) eqn:E; [eauto|]. destruct (f' !! q) eqn:E'; [eauto|done].
Qed.

Definition checked (c : call) (f : files) (x : resp c * fds * kernel) : bool :=
  local_b c x.1.1 && rooted_b (k_files x.2) && frame_b c f (k_files x.2).

Lemma answer_sound pid s T c r T' k' :
  answer pid s T c = Some (r, T', k') -> checked c (k_files (s_kernel s)) (r, T', k') = true ->
  local_answer Home T c r T' /\ files_answer Home c (k_files (s_kernel s)) r (k_files k') /\
  chans_answer pid (has_writer (s_procs s)) T (s_kernel s) c r T' k'.
Proof.
  intros Ha [[Hl Hr%rooted_sound]%andb_true_iff Hf]%andb_true_iff. cbn [fst snd] in *.
  pose proof (frame_sound _ _ _ Hf) as Hframe.
  destruct c as [c|c|c|c|p].
  2:{ destruct (px_sound _ _ _ _ _ _ _ _ Ha) as (H1 & H2 & H3). done. }
  all: injection Ha as <- <- <-; split; [|split; [|done]].
  - destruct c; try done; cbn in Hl |- *.
    + apply andb_true_iff in Hl as [-> Hl%Z.ltb_lt]. done.
    + split; [done|]. bool_lia.
  - split_and!; [|done|done].
    exact (os_effect (Fs c) (Sim (k_files (s_kernel s)) 0 (λ _, letter_of pid) sim_px_ok sim_sd_ok sim_wm_ok : sim plain_fs)).
  - done.
  - by split_and!.
  - destruct c; try done. cbn in Hl |- *. split; [done|]. intros p [= <-]. by apply negb_true_iff.
  - by split_and!.
  - done.
  - split_and!; [|done|done].
    exact (os_effect (JsonLoad p) (Sim (k_files (s_kernel s)) 0 (λ _, letter_of pid) sim_px_ok sim_sd_ok sim_wm_ok : sim plain_fs)).
Qed.

(** A process makes a call; removing a directory takes one of its entries. *)
Definition do_simple (s : system) (pid : Z) (T : fds) (c : call) (k : resp c -> prog Z) :
    option (label * system) :=
  match answer pid s T c with
  | Some (r, T', k') =>
      if simple_call c && checked c (k_files (s_kernel s)) (r, T', k') then
        Some (LCall pid (existT (P := resp) c r), System k' (<[pid := Process (k r) T']> (s_procs s)))
      else None
  | None => None
  end.

Definition do_remove (s : system) (pid : Z) (T : fds) (p : string) (k : Z -> prog Z) :
    option (label * system) :=
  let f := k_files (s_kernel s) in
  match find (λ kv, under p kv.1 && negb (String.eqb kv.1 p)) (map_to_list f) with
  | Some (q, _) =>
      let f' := delete q f in
      if rooted_b f' then Some (LSilent, System (with_files (s_kernel s) f') (s_procs s)) else None
  | None =>
      let f' := delete p f in
      if rooted_b f' then
        Some (LCall pid (existT (P := resp) (Fs (FsRemoveAll p)) 0),
          System (with_files (s_kernel s) f') (<[pid := Process (k 0) T]> (s_procs s)))
      else None
  end.

Definition do_fork (s : system) (pid child : Z) (T : fds) (k : sysret -> prog Z) : option (label * system) :=
  let r := SysRet child 0 in
  if bool_decide (0 < child /\ type_min Int32 <= child <= type_max Int32 /\ s_procs s !! child = None) then
    Some (LCall pid (existT (P := resp) (Px Fork) r),
      System (s_kernel s) (<[child := Process (k (SysRet 0 0)) T]> (<[pid := Process (k r) T]> (s_procs s))))
  else None.

Definition do_fail (s : system) (pid err : Z) (T : fds) (c : posix_call) (k : posix_resp c -> prog Z) :
    option (label * system) :=
  match px_fails err c with
  | Some r =>
      if rooted_b (k_files (s_kernel s)) then
        Some (LCall pid (existT (P := resp) (Px c) r),
          System (s_kernel s) (<[pid := Process (k r) T]> (s_procs s)))
      else None
  | None => None
  end.

Definition act (a : action) (s : system) : option (label * system) :=
  let on pid (g : fds -> forall c : call, (resp c -> prog Z) -> option (label * system)) :=
    match s_procs s !! pid with
    | Some (Process (Call c k) T) => g T c k
    | _ => None
    end in
  match a with
  | ActCall pid => on pid (λ T c,
      match c as c return (resp c -> prog Z) -> _ with
      | Fs (FsRemoveAll p) => do_remove s pid T p
      | c => do_simple s pid T c
      end)
  | ActFork pid child => on pid (λ T c,
      match c as c return (resp c -> prog Z) -> _ with
      | Px Fork => do_fork s pid child T
      | _ => λ _, None
      end)
  | ActFail pid err => on pid (λ T c,
      match c as c return (resp c -> prog Z) -> _ with
      | Px c => do_fail s pid err T c
      | _ => λ _, None
      end)
  | ActKill pid =>
      match s_procs s !! pid with
      | Some p => Some (LSilent, System (s_kernel s) (<[pid := Process (Exit 137) (p_fds p)]> (s_procs s)))
      | None => None
      end
  end.

Lemma do_simple_sound s pid T c k l s' :
  s_procs s !! pid = Some (Process (Call c k) T) -> do_simple s pid T c k = Some (l, s') ->
  sys_step Home s l s'.
Proof.
  intros Hp. unfold do_simple. destruct (answer pid s T c) as [[[r T'] k']|] eqn:Ha; [|done].
  destruct (simple_call c && _) eqn:Hc; [|done]. apply andb_true_iff in Hc as [Hc Hok]. intros [= <- <-].
  destruct (answer_sound _ _ _ _ _ _ _ Ha Hok) as (H1 & H2 & H3). by eapply step_call.
Qed.

Lemma do_remove_sound s pid T p k l s' :
  s_procs s !! pid = Some (Process (Call (Fs (FsRemoveAll p)) k) T) ->
  do_remove s pid T p k = Some (l, s') -> sys_step Home s l s'.
Proof.
  intros Hp. unfold do_remove. destruct (find _ _) as [[q n]|] eqn:Hfind.
  - apply find_some in Hfind as [_ [Hu Hq%negb_true_iff%String.eqb_neq]%andb_true_iff].
    destruct (rooted_b _) eqn:Hr; [|done]. intros [= <- <-]. apply rooted_sound in Hr.
    by eapply step_remove_entry.
  - destruct (rooted_b _) eqn:Hr; [|done]. intros [= <- <-]. apply rooted_sound in Hr.
    eapply step_remove_done; [done| |done|done]. intros q Hu Hq.
    destruct (k_files (s_kernel s) !! q) as [n|] eqn:Hn; [|done].
    apply find_none with (x := (q, n)) in Hfind; [|by apply list_elem_of_In, elem_of_map_to_list].
    cbn in Hfind. rewrite Hu in Hfind. apply String.eqb_neq in Hq. by rewrite Hq in Hfind.
Qed.

Lemma do_fail_sound s pid err T c k l s' :
  s_procs s !! pid = Some (Process (Call (Px c) k) T) -> do_fail s pid err T c k = Some (l, s') ->
  sys_step Home s l s'.
Proof.
  intros Hp. unfold do_fail. destruct (px_fails err c) as [r|] eqn:Hr; [|done].
  destruct (rooted_b _) eqn:Hroot; [|done]. intros [= <- <-]. apply rooted_sound in Hroot.
  apply (step_call _ s pid (Px c) k T r T (s_kernel s)); [done|by destruct c| | |].
  - destruct c; cbn in Hr |- *; simplify_eq; try done. destruct (Z.eqb_spec err EINTR); [|done].
    by simplify_eq.
  - split_and!; [|done|done]. destruct c; cbn in Hr |- *; simplify_eq; cbn; try done; split; done || lia.
  - destruct c; cbn in Hr |- *; simplify_eq; cbn; try done.
    + destruct (err =? EINTR); simplify_eq. cbn. split; [done|]. destruct (rd_chan _); done.
    + by destruct (wr_chan _).
Qed.

Lemma act_sound a s l s' : act a s = Some (l, s') -> sys_step Home s l s'.
Proof.
  destruct a as [pid|pid child|pid err|pid]; cbn [act]; destruct (s_procs s !! pid) as [[p T]|] eqn:Hp; try done.
  - destruct p as [|c k| | | |]; try done.
    destruct c as [[]|c|c|c|q]; first [by apply do_remove_sound | by apply do_simple_sound].
  - destruct p as [|[|[]| | |] k| | | |]; try done. unfold do_fork.
    destruct (bool_decide _) eqn:Hb; [|done]. apply bool_decide_eq_true in Hb as (? & ? & ?).
    intros [= <- <-]. by apply (step_fork _ s pid k T (SysRet child 0)).
  - destruct p as [|[|c| | |] k| | | |]; try done. apply do_fail_sound. done.
  - intros [= <- <-]. by eapply (step_killed _ s pid (Process p T)).
Qed.

(** ** Scripts *)

Fixpoint play (script : list action) (s : system) : option (list (label * system)) :=
  match script with
  | [] => Some []
  | a :: script =>
      match act a s with
      | Some (l, s1) =>
          match play script s1 with Some tr => Some ((l, s1) :: tr) | None => None end
      | None => None
      end
  end.

Lemma play_sound script s tr : play script s = Some tr -> execution Home s tr.
Proof.
  revert s tr. induction script as [|a script IH]; intros s tr; cbn.
  - intros [= <-]. constructor.
  - destruct (act a s) as [[l s1]|] eqn:Ha; [|done]. destruct (play script s1) as [tr1|] eqn:Hp; [|done].
    intros [= <-]. econstructor; [by eapply act_sound|auto].
Qed.

(** Evaluate a script and what it leads to. *)
Lemma play_reaches (P : system -> list (label * system) -> Prop) `{!forall s tr, Decision (P s tr)} script s :
  match play script s with Some tr => bool_decide (P (final s tr) tr) | None => false end = true ->
  exists tr, execution Home s tr /\ P (final s tr) tr.
Proof.
  destruct (play script s) as [tr|] eqn:Hp; [|done]. intros Hb%bool_decide_eq_true.
  exists tr. split; [by eapply play_sound|done].
Qed.

(** What can be observed: what a process has returned, whether all of them have
    ended, and what the state commands have printed. *)
Definition result (s : system) (pid : Z) : option Z :=
  match s_procs s !! pid with Some (Process (Ret z) _) => Some z | _ => None end.
Definition ended (s : system) : bool := forallb (λ kv, negb (running kv.2)) (map_to_list (s_procs s)).
Definition outputs (tr : list (label * system)) : list string :=
  omap (λ l, match l with
             | LCall _ (existT c r) => match c with Fs (Cout t) => Some t | _ => None end
             | LSilent => None
             end) (labels tr).
(** The module ran in process [pid]. *)
Definition executed (pid : Z) (tr : list (label * system)) : bool :=
  existsb (λ l, match l with
                | LCall pid' (existT c r) =>
                    match c with Wm (VmExecute _) => bool_decide (pid' = pid) | _ => false end
                | LSilent => false
                end) (labels tr).

End Schedule.
