(* ===== verification/Races.v ===== *)
(** What the order of calls can lead to.

    Executions of the commands, found by evaluating scripts with [Schedule], in
    which a command reports something that is not so: [create] succeeds for a
    container that is never created, [start] fails and starts the container,
    and [state] prints half a state. *)
From S2P Require Import Prelude Cpp Signals Path Json JsonRef Prog Logic Sim FileOps Loader Bundle Time State.
From S2P Require Import StateProps SDBus CGroup Container Lifecycle Commands Kernel.
From S2P Require Import Roles RolesInv RolesStep RolesProg Concurrent Schedule.

#[local] Existing Instance ref_simdjson.

Definition demo_create (PidFile : string) : command :=
  CmdCreate 1 false "config.json" "/bundle" EmptyString PidFile.

(** The process 100 creates the container: 101 is its child, 102 the daemon and
    103 the process of the container. *)
Definition create_script : list action :=
  replicate 16 (ActCall 100) ++ [ActFork 100 101] ++
  replicate 2 (ActCall 101) ++ [ActFork 101 102] ++
  replicate 8 (ActCall 102) ++ [ActFork 102 103].

(** The state that is published first. *)
Definition creating_state : State := setCreating (new_State "c1" "/bundle").

(** ** [create] *)

(** A creation can succeed although the container is never created: the pid
    file exists, so the process of the container gives up; but the daemon has
    already reported success, and the state file says [creating] for ever. *)
Theorem create_reports_early :
  exists tr,
    let s := boot "/run" "c1" (<["/run/c1.pid" := Reg "1"]> create_files) {[ 100 := demo_create "/run/c1.pid" ]} in
    execution "/run/c1" s tr /\
    result (final s tr) 100 = Some EXIT_SUCCESS /\ ended (final s tr) = true /\
    k_files (s_kernel (final s tr)) !! state_file "/run" "c1" = Some (Reg (State_print creating_state)).
Proof.
  apply (play_reaches "/run/c1" (λ s _, result s 100 = Some EXIT_SUCCESS /\ ended s = true /\
    k_files (s_kernel s) !! state_file "/run" "c1" = Some (Reg (State_print creating_state)))
    (create_script ++ replicate 3 (ActCall 102) ++ replicate 5 (ActCall 100) ++ replicate 4 (ActCall 103))).
  vm_compute. reflexivity.
Qed.

(** ** [start] *)

(** A start command that reports failure can have started the container: when
    the name of the FIFO cannot be removed it gives up, but it has opened the
    FIFO, and closing it wakes the container up. *)
Theorem failed_start_runs :
  exists tr,
    let s := boot "/run" "c1" create_files {[ 100 := demo_create "/run/c1.pid"; 200 := CmdStart "config.json" ]} in
    execution "/run/c1" s tr /\
    result (final s tr) 200 = Some EXIT_FAILURE /\ executed 103 tr = true.
Proof.
  apply (play_reaches "/run/c1" (λ s tr, result s 200 = Some EXIT_FAILURE /\ executed 103 tr = true)
    (create_script ++ replicate 51 (ActCall 103) ++
     replicate 4 (ActCall 200) ++ [ActFail 200 EROFS; ActCall 200] ++ replicate 15 (ActCall 103))).
  vm_compute. reflexivity.
Qed.

(** ** [state] *)

Definition unreadable (text : string) : bool := match parse text with inl _ => true | inr _ => false end.

(** The state command can print a part of a state, and report success: the file
    is replaced by a longer one between the calls that find its size and read
    it. *)
Theorem state_prints_part :
  exists tr,
    let s := boot "/run" "c1" create_files {[ 100 := demo_create "/run/c1.pid"; 300 := CmdState ]} in
    execution "/run/c1" s tr /\ result (final s tr) 300 = Some EXIT_SUCCESS /\
    exists text, outputs tr = [text] /\ exists err, parse text = inl err.
Proof.
  destruct (play_reaches "/run/c1" (λ s tr, result s 300 = Some EXIT_SUCCESS /\
    match outputs tr with [text] => unreadable text | _ => false end = true)
    (create_script ++ replicate 3 (ActCall 300) ++ replicate 51 (ActCall 103) ++ replicate 2 (ActCall 300))
    (boot "/run" "c1" create_files {[ 100 := demo_create "/run/c1.pid"; 300 := CmdState ]})) as (tr & Hex & Hres & Hout).
  { vm_compute. reflexivity. }
  exists tr. split_and!; [done|done|]. destruct (outputs tr) as [|text []]; try done.
  exists text. split; [done|]. unfold unreadable in Hout. destruct (parse text) as [err|]; [eauto|done].
Qed.

(** ** [delete] *)

(** The contents of a file, each time it changes. *)
Fixpoint history (p : string) (now : option node) (l : list system) : list (option node) :=
  match l with
  | [] => []
  | s :: l =>
      let next := k_files (s_kernel s) !! p in
      if bool_decide (next = now) then history p now l else next :: history p next l
  end.

(** A second bundle, and two commands for the same id: the container that was
    created first has been started when it is deleted. *)
Definition reuse_files : files := <["/bundle2/config.json" := Reg demo_config]> create_files.
Definition reuse : system :=
  let s := boot "/run" "c1" reuse_files
    {[ 100 := demo_create "/run/c1.pid"; 200 := CmdStart "config.json";
       500 := CmdCreate 1 false "config.json" "/bundle2" EmptyString "/run/c2.pid" ]} in
  System (s_kernel s) (<[400 := Process (doDelete "/run" "c1" false) std_fds]> (s_procs s)).

Definition epoch : string := "1970-01-01T00:00:00Z".
Definition created_state : State := to_created creating_state epoch 103.

(** [delete] does not wait for the container: it can remove a container that is
    about to run, and when the id is used again, the first container replaces
    the state of the second one by its own.  The state file goes through the
    states [creating] and [created] of the first container, is removed, then
    holds the state [creating] of the second container, and then the state
    [running] of the first one. *)
Theorem delete_mixes_containers :
  exists tr, execution "/run/c1" reuse tr /\
    result (final reuse tr) 400 = Some EXIT_SUCCESS /\
    history (state_file "/run" "c1") None tr.*2 =
      [Some (Reg (State_print creating_state)); Some (Reg (State_print created_state)); None;
       Some (Reg (State_print (setCreating (new_State "c1" "/bundle2"))));
       Some (Reg (State_print (to_running created_state epoch)))].
Proof.
  apply (play_reaches "/run/c1" (λ s tr, result s 400 = Some EXIT_SUCCESS /\
    history (state_file "/run" "c1") None tr.*2 =
      [Some (Reg (State_print creating_state)); Some (Reg (State_print created_state)); None;
       Some (Reg (State_print (setCreating (new_State "c1" "/bundle2"))));
       Some (Reg (State_print (to_running created_state epoch)))])
    (create_script ++ replicate 51 (ActCall 103) ++ replicate 8 (ActCall 200) ++ [ActCall 103] ++
     replicate 4 (ActCall 400) ++ replicate 13 (ActCall 500) ++ replicate 13 (ActCall 103))).
  vm_compute. reflexivity.
Qed.
