(* ===== verification/Examples.v ===== *)
(** Executions that satisfy the hypotheses of the theorems about concurrent
    commands: one container that is created, started, sent a signal and runs to
    its end, with two start commands. *)
From S2P Require Import Prelude Cpp Signals Path Json JsonRef Prog Logic Sim FileOps Loader Bundle Time State.
From S2P Require Import StateProps SDBus CGroup Container Lifecycle Commands Kernel Tries.
From S2P Require Import Roles RolesInv RolesStep RolesProg Concurrent Observe Starts Isolation Several Deletes Programs Fair Liveness CreateStages Ends Schedule Races.

#[local] Existing Instance ref_simdjson.

Definition demo_cmds : gmap Z command :=
  {[ 100 := demo_create "/run/c1.pid"; 200 := CmdStart "config.json"; 201 := CmdStart "config.json";
     600 := CmdKill "config.json" "TERM"; 700 := CmdState ]}.
Definition demo : system := boot "/run" "c1" create_files demo_cmds.

Lemma demo_apart Id P : Id = "c1" \/ Id = "c2" -> P = "/run/c1.pid" \/ P = "/run/c2.pid" -> apart "/run" Id P.
Proof.
  intros HI HP q h Hq Hh. destruct (under q h) eqn:Hu; [|done]. exfalso.
  apply under_starts in Hu as [v ->].
  assert (exists w, q +:+ v = P +:+ w) as [w Hw].
  { destruct Hq as [->|(u & -> & _)]; [eauto|]. rewrite sapp_assoc. eauto. }
  rewrite Hw in Hh. by destruct HI as [-> | ->], HP as [-> | ->]; apply under_inv in Hh as [|[t Ht]].
Qed.

Lemma demo_cmds_inv pid c :
  demo_cmds !! pid = Some c ->
  in_type Int32 pid /\ match c with CmdCreate _ _ _ _ _ _ => c = demo_create "/run/c1.pid" | _ => True end.
Proof.
  unfold demo_cmds. rewrite !lookup_insert_Some, lookup_singleton_Some.
  intros [[<- <-]|[_ [[<- <-]|[_ [[<- <-]|[_ [[<- <-]|[_ [<- <-]]]]]]]]]; by split.
Qed.

Lemma demo_boot_ok : boot_ok "/run" "c1" create_files demo_cmds.
Proof.
  split.
  - intros q Hq. unfold create_files.
    rewrite !lookup_insert_ne, lookup_singleton_ne; [done|..]; by intros <-.
  - intros pid fuel Systemd Cfg Path Console PidFile [_ [=]]%demo_cmds_inv. subst. apply demo_apart; by left.
  - by intros pid [c [? _]%demo_cmds_inv].
Qed.

(** The container runs to its end; 201 opens the FIFO too, but 200 removes its
    name first. *)
Definition demo_script : list action :=
  create_script ++ replicate 3 (ActCall 102) ++ replicate 5 (ActCall 100) ++ replicate 51 (ActCall 103) ++
  replicate 4 (ActCall 200) ++ replicate 4 (ActCall 201) ++ replicate 4 (ActCall 200) ++
  replicate 2 (ActCall 201) ++ replicate 4 (ActCall 600) ++ replicate 5 (ActCall 700) ++ replicate 31 (ActCall 103).

(** A step of a kind that occurs. *)
Lemma label_split (P : label -> bool) tr :
  existsb P (labels tr) = true -> exists tr1 l s tr2, tr = tr1 ++ (l, s) :: tr2 /\ P l = true.
Proof.
  unfold labels. induction tr as [|[l s] tr IH]; [done|]. cbn [fmap list_fmap existsb fst].
  intros [H|H]%orb_true_iff; [by exists [], l, s, tr|].
  destruct (IH H) as (tr1 & l' & s' & tr2 & -> & ?). by exists ((l, s) :: tr1), l', s', tr2.
Qed.

Lemma executed_split pid tr :
  executed pid tr = true -> exists tr1 fn r s tr2,
    tr = tr1 ++ (LCall pid (existT (P := resp) (Wm (VmExecute fn)) r), s) :: tr2.
Proof.
  intros (tr1 & l & s & tr2 & -> & H)%label_split. destruct l as [pid' [c r]|]; [|done].
  destruct c as [|[]| |[]|]; try done. apply bool_decide_eq_true in H as ->. by eexists tr1, _, r, s, tr2.
Qed.

Definition signalled (target : Z) (tr : list (label * system)) : bool :=
  existsb (λ l, match l with
                | LCall pid' (existT c r) =>
                    match c with Px (Kill t _) => bool_decide (t = target) | _ => false end
                | LSilent => false
                end) (labels tr).

Lemma signalled_split target tr :
  signalled target tr = true -> exists tr1 pid sig r s tr2,
    tr = tr1 ++ (LCall pid (existT (P := resp) (Px (Kill target sig)) r), s) :: tr2.
Proof.
  intros (tr1 & l & s & tr2 & -> & H)%label_split. destruct l as [pid [c r]|]; [|done].
  destruct c as [|[]| |[]|]; try done. apply bool_decide_eq_true in H as ->. by eexists tr1, pid, _, r, s, tr2.
Qed.

Definition printed (pid : Z) (tr : list (label * system)) : bool :=
  existsb (λ l, match l with
                | LCall pid' (existT c r) =>
                    match c with Fs (Cout _) => bool_decide (pid' = pid) | _ => false end
                | LSilent => false
                end) (labels tr).

Lemma printed_split pid tr :
  printed pid tr = true -> exists tr1 text r s tr2,
    tr = tr1 ++ (LCall pid (existT (P := resp) (Fs (Cout text)) r), s) :: tr2.
Proof.
  intros (tr1 & l & s & tr2 & -> & H)%label_split. destruct l as [pid' [c r]|]; [|done].
  destruct c as [[]| | | |]; try done. apply bool_decide_eq_true in H as ->. by eexists tr1, _, r, s, tr2.
Qed.

(** A call, and no write that fails. *)
Definition untroubled (l : label) : bool :=
  match l with
  | LCall _ (existT c r) => match c return resp c -> bool with Px (Write _ _) => λ r, 0 <=? ret r | _ => λ _, true end r
  | LSilent => false
  end.

(** No name is tried in vain. *)
Definition in_luck (l : label) : bool := match l with LCall _ e => negb (in_vain e) | LSilent => true end.

Lemma demo_runs : exists tr, execution "/run/c1" demo tr /\
  length (history (state_file "/run" "c1") None tr.*2) = 4%nat /\ ended (final demo tr) = true /\
  executed 103 tr = true /\ signalled 103 tr = true /\ printed 700 tr = true /\
  forallb untroubled (labels tr) = true /\
  result (final demo tr) 200 = Some EXIT_SUCCESS /\ result (final demo tr) 201 = Some EXIT_FAILURE /\
  forallb in_luck (labels tr) = true.
Proof.
  apply (play_reaches "/run/c1" (λ s tr, length (history (state_file "/run" "c1") None tr.*2) = 4%nat /\
    ended s = true /\ executed 103 tr = true /\ signalled 103 tr = true /\ printed 700 tr = true /\
    forallb untroubled (labels tr) = true /\ result s 200 = Some EXIT_SUCCESS /\ result s 201 = Some EXIT_FAILURE /\
    forallb in_luck (labels tr) = true) demo_script).
  vm_compute. reflexivity.
Qed.

Lemma concurrent_lifecycle_witness :
  exists (tr : list (label * system)) path, length (history (state_file "/run" "c1") None tr.*2) = 4%nat /\
    life_path "c1" None path /\
    Forall2 (λ s a, k_files (s_kernel s) !! state_file "/run" "c1" = (λ st, Reg (State_print st)) <$> a) tr.*2 path.
Proof.
  destruct demo_runs as (tr & Hex & Hlen & _). exists tr.
  destruct (concurrent_lifecycle "/run" "c1" create_files demo_cmds tr demo_boot_ok Hex) as (path & H1 & H2).
  by exists path.
Defined.

Lemma concurrent_start_witness :
  exists (tr1 : list (label * system)) pid Cfg flags r, demo_cmds !! pid = Some (CmdStart Cfg) /\
    LCall pid (existT (P := resp) (Px (Open (exec_fifo "/run" "c1") flags)) r) ∈ labels tr1.
Proof.
  destruct demo_runs as (tr & Hex & _ & _ & (tr1 & fn & r & s & tr2 & ->)%executed_split & _).
  destruct (concurrent_start "/run" "c1" create_files demo_cmds tr1 103 fn r s tr2 demo_boot_ok Hex)
    as (pid & Cfg & flags & r' & Hc & _ & _ & Hin).
  by exists tr1, pid, Cfg, flags, r'.
Defined.

Lemma demo_bundles b : is_bundle demo_cmds b -> text_ok b = true.
Proof.
  intros (pid & fuel & Systemd & Cfg & Console & PidFile & [_ [=]]%demo_cmds_inv). by subst.
Qed.

Lemma concurrent_kill_witness :
  exists (tr1 : list (label * system)) tmp, LCall 103 (existT (P := resp) (Fs (FsRename tmp (state_file "/run" "c1"))) 0) ∈ labels tr1.
Proof.
  destruct demo_runs as (tr & Hex & _ & _ & _ & (tr1 & pid & sig & r & s & tr2 & ->)%signalled_split & _).
  exists tr1.
  exact (concurrent_kill "/run" "c1" create_files demo_cmds tr1 pid 103 sig r s tr2 demo_boot_ok eq_refl
    demo_bundles Hex).
Defined.

Lemma concurrent_state_witness :
  exists (tr1 : list (label * system)) text u st s1, text = u +:+ chr "010" /\ u <> EmptyString /\
    initial_part u (State_print st) /\ ContainerId st = "c1" /\ s1 ∈ tr1.*2 /\
    k_files (s_kernel s1) !! state_file "/run" "c1" = Some (Reg (State_print st)).
Proof.
  destruct demo_runs as (tr & Hex & _ & _ & _ & _ & (tr1 & text & r & s & tr2 & ->)%printed_split & _).
  exists tr1, text. exact (concurrent_state "/run" "c1" create_files demo_cmds tr1 700 text r s tr2 demo_boot_ok
    eq_refl Hex).
Defined.

Lemma concurrent_start_once_witness : (length [200%Z] <= size (creates demo_cmds))%nat.
Proof.
  destruct demo_runs as (tr & Hex & _ & _ & _ & _ & _ & _ & Hwin & _).
  apply (concurrent_start_once "/run" "c1" create_files demo_cmds tr [200]); [exact demo_boot_ok|exact Hex| |].
  - apply NoDup_singleton.
  - intros pid ->%list_elem_of_singleton. split; [by exists "config.json"|].
    unfold result in Hwin. destruct (s_procs (final demo tr) !! 200) as [[[] T]|] eqn:Hp; try done.
    injection Hwin as ->. by exists T.
Defined.

(** ** A fair execution *)

(** An execution that is over goes on without a change. *)
Definition state_at (s : system) (tr : list (label * system)) (i : nat) : system := final s (take i tr).
Definition label_at (tr : list (label * system)) (i : nat) : label :=
  match tr !! i with Some (l, _) => l | None => LSilent end.

Lemma idle_step Home s : sys_step Home s LSilent s.
Proof.
  assert (s = System (s_kernel s) (s_procs s)) as Heq by (by destruct s).
  rewrite Heq at 2. apply step_others. split; eauto.
Qed.

Lemma state_at_step Home s tr i :
  execution Home s tr -> sys_step Home (state_at s tr i) (label_at tr i) (state_at s tr (S i)).
Proof.
  intros Hex. revert i. induction Hex as [s|s l s1 tr Hstep Hex IH]; intros i.
  { unfold state_at, label_at. rewrite !take_nil. apply idle_step. }
  destruct i as [|i]; [|apply IH]. unfold state_at, label_at. cbn. by rewrite take_0.
Qed.

Lemma ended_stuck s pid : ended s = true -> ~ can_go s pid.
Proof.
  unfold ended, can_go. rewrite forallb_forall. intros He Hgo.
  destruct (s_procs s !! pid) as [p|] eqn:Hp; [|done].
  specialize (He (pid, p)). cbn in He. destruct p as [[]]; try done.
  by discriminate He; apply list_elem_of_In, elem_of_map_to_list.
Qed.

Lemma ended_fair Home s tr :
  execution Home s tr -> ended (final s tr) = true -> fair_run Home s (state_at s tr) (label_at tr).
Proof.
  intros Hex Hend. split.
  - unfold state_at. by rewrite take_0.
  - intros i. by apply state_at_step.
  - intros pid i. exists (Nat.max i (length tr)). split; [lia|]. left. unfold state_at.
    rewrite take_ge by lia. by apply ended_stuck.
Qed.

Lemma untroubled_undisturbed s tr : forallb untroubled (labels tr) = true -> undisturbed (state_at s tr) (label_at tr).
Proof.
  rewrite forallb_forall. intros Hall.
  assert (forall i, tr !! i = None \/ untroubled (label_at tr i) = true) as Hi.
  { intros i. destruct (tr !! i) as [[l s1]|] eqn:Hl; [right|by left]. unfold label_at. rewrite Hl.
    apply Hall, list_elem_of_In, list_elem_of_fmap. exists (l, s1). split; [done|]. by eapply list_elem_of_lookup_2. }
  split.
  - intros i Hl. destruct (Hi i) as [Hn|Hn]; [|by rewrite Hl in Hn]. apply lookup_ge_None in Hn.
    unfold state_at. by rewrite !take_ge by lia.
  - intros i pid p fd n t r _ _ Hl. destruct (Hi i) as [Hn|Hn]; [unfold label_at in Hl; by rewrite Hn in Hl|].
    rewrite Hl in Hn. by apply Z.leb_le.
Qed.

Lemma lucky_tries tr pid t : forallb in_luck (labels tr) = true -> vain_tries (label_at tr) pid t = 0%nat.
Proof.
  rewrite forallb_forall. intros Hall. induction t as [|t IH]; [done|]. rewrite vain_tries_S, IH.
  unfold label_at. destruct (tr !! t) as [[l s1]|] eqn:Hl; [|done].
  assert (in_luck l = true) as Hluck.
  { apply Hall, list_elem_of_In, list_elem_of_fmap. exists (l, s1). split; [done|]. by eapply list_elem_of_lookup_2. }
  destruct l as [pid' e|]; [|done]. unfold events_of. cbn. case_decide; [|done]. cbn in Hluck |- *.
  by destruct (in_vain e).
Qed.

Lemma commands_end_witness :
  exists (tr : list (label * system)) j p, s_procs (state_at demo tr j) !! 100 = Some p /\ running p = false.
Proof.
  destruct demo_runs as (tr & Hex & _ & Hend & _ & _ & _ & Hun & _ & _ & Hluck). exists tr.
  refine (commands_end "/run" "c1" create_files demo_cmds (state_at demo tr) (label_at tr) demo_boot_ok
    (ended_fair _ _ _ Hex Hend) (untroubled_undisturbed _ _ Hun) 100 _ eq_refl _).
  intros t. rewrite lucky_tries; [lia|exact Hluck].
Defined.

(** The process waits for a FIFO that was opened. *)
Definition woken_up (pid : Z) (s : system) : bool :=
  match s_procs s !! pid with
  | Some (Process (Call (Px (Select fd)) _) T) =>
      match T !! fd with
      | Some (FifoRd _ n) => match k_chans (s_kernel s) !! n with Some ch => ch_opened ch | None => false end
      | _ => false
      end
  | _ => false
  end.

Lemma demo_waits : exists tr i, execution "/run/c1" demo tr /\ ended (final demo tr) = true /\
  woken_up 103 (state_at demo tr i) = true.
Proof.
  destruct (play_reaches "/run/c1" (λ s tr, ended s = true /\
    existsb (λ i, woken_up 103 (state_at demo tr i)) (seq 0 (length tr)) = true) demo_script demo)
    as (tr & Hex & Hend & (i & _ & Hi)%existsb_exists).
  { vm_compute. reflexivity. }
  exists tr, i. done.
Qed.

Lemma start_not_lost_witness :
  exists (tr : list (label * system)) i fd m, (i <= m)%nat /\
    ((exists r, label_at tr m = LCall 103 (existT (P := resp) (Px (Select fd)) r)) \/
     (exists status T, s_procs (state_at demo tr (S m)) !! 103 = Some (Process (Exit status) T))).
Proof.
  destruct demo_waits as (tr & i & Hex & Hend & Hw). unfold woken_up in Hw.
  destruct (s_procs (state_at demo tr i) !! 103) as [[p T]|] eqn:Hp; [|done].
  destruct p as [|[|[]| | |] k| | | |]; try done. destruct (T !! fd) as [[]|] eqn:HT; try done.
  destruct (k_chans (s_kernel (state_at demo tr i)) !! n) as [ch|] eqn:Hch; [|done].
  exists tr, i, fd.
  destruct (start_not_lost "/run" "c1" create_files demo_cmds (state_at demo tr) (label_at tr) demo_boot_ok
    (ended_fair _ _ _ Hex Hend) 103 fd p n k T ch i Hp HT Hch Hw) as (m & Hm & [[r Hr]|[status Hs]]);
    exists m; split; eauto.
Defined.

(** ** A container next to others *)

Definition neighbours : gmap Z (string * any_command) :=
  {[ 100 := ("c1", Some_command (demo_create "/run/c1.pid")); 200 := ("c1", Some_command (CmdStart "config.json"));
     400 := ("c1", CmdDelete false) ]}.
Definition neighbour_files : files := <["/run/c2" := Dir]> (<["/run/c2/state.json" := Reg "{}"]> create_files).

Lemma neighbours_elsewhere : elsewhere "/run" "c2" neighbours.
Proof.
  assert (forall pid x, neighbours !! pid = Some x -> x.1 = "c1" /\
    match x.2 with Some_command (CmdCreate _ _ _ _ _ P) => P = "/run/c1.pid" | _ => True end) as Hinv.
  { intros pid x. unfold neighbours. rewrite !lookup_insert_Some, lookup_singleton_Some.
    intros [[_ <-]|[_ [[_ <-]|[_ [_ <-]]]]]; done. }
  split; [done|..].
  - intros pid Id c Hc%Hinv. destruct Hc as [Hc _]. cbn in Hc. by subst Id.
  - intros pid Id fuel Systemd Cfg Path Console PidFile Hc%Hinv. destruct Hc as [_ Hc]. cbn in Hc. subst.
    apply demo_apart; [by right|by left].
Qed.

Lemma isolation_witness :
  exists tr : list (label * system), k_files (s_kernel (final (boot_all "/run" neighbour_files neighbours) tr)) !! "/run/c1" = None /\
    (0 < length tr)%nat /\
    Forall (λ s, forall q, home "/run/c2" q = true -> k_files (s_kernel s) !! q = neighbour_files !! q) tr.*2.
Proof.
  destruct (play_reaches "/run/c2" (λ s tr, k_files (s_kernel s) !! "/run/c1" = None /\ (0 < length tr)%nat)
    (create_script ++ replicate 3 (ActCall 102) ++ replicate 5 (ActCall 100) ++ replicate 51 (ActCall 103) ++
     replicate 8 (ActCall 200) ++ replicate 31 (ActCall 103) ++ replicate 4 (ActCall 400))
    (boot_all "/run" neighbour_files neighbours)) as (tr & Hex & Hgone & Hlen).
  { vm_compute. reflexivity. }
  exists tr. split_and!; [done|done|]. exact (isolation "/run" "c2" neighbour_files neighbours tr neighbours_elsewhere Hex).
Defined.

(** ** Two containers at once *)

Definition pair : gmap Z (string * any_command) :=
  {[ 100 := ("c1", Some_command (demo_create "/run/c1.pid")); 200 := ("c1", Some_command (CmdStart "config.json"));
     110 := ("c2", Some_command (demo_create "/run/c2.pid")); 210 := ("c2", Some_command (CmdStart "config.json"));
     410 := ("c2", CmdDelete false) ]}.

(** The container [c2] is created, runs and is deleted while [c1] is created and runs. *)
Definition pair_script : list action :=
  replicate 16 (ActCall 110) ++ [ActFork 110 111] ++ create_script ++
  replicate 2 (ActCall 111) ++ [ActFork 111 112] ++ replicate 3 (ActCall 102) ++
  replicate 8 (ActCall 112) ++ [ActFork 112 113] ++ replicate 51 (ActCall 103) ++ replicate 51 (ActCall 113) ++
  replicate 8 (ActCall 200) ++ replicate 8 (ActCall 210) ++ replicate 10 (ActCall 103) ++ replicate 31 (ActCall 113) ++
  replicate 3 (ActCall 112) ++ replicate 5 (ActCall 110) ++ replicate 4 (ActCall 410) ++ replicate 21 (ActCall 103).

Lemma pair_ok Id : Id = "c1" \/ Id = "c2" -> several_ok "/run" Id create_files pair.
Proof.
  intros HId.
  assert (forall pid x, pair !! pid = Some x -> in_type Int32 pid /\ (x.1 = "c1" \/ x.1 = "c2") /\
    match x.2 with
    | Some_command (CmdCreate _ _ _ _ _ P) => P = "/run/c1.pid" \/ P = "/run/c2.pid"
    | _ => True
    end) as Hinv.
  { intros pid x. unfold pair. rewrite !lookup_insert_Some, lookup_singleton_Some.
    intros [[<- <-]|[_ [[<- <-]|[_ [[<- <-]|[_ [[<- <-]|[_ [<- <-]]]]]]]]]; (split; [done|]); cbn; auto. }
  split; [by destruct HId as [-> | ->]|..].
  - intros pid Id' c (Hpid & Hc & _)%Hinv. cbn in Hc. split; [by destruct Hc as [-> | ->]|done].
  - intros q Hq. unfold create_files.
    rewrite !lookup_insert_ne, lookup_singleton_ne; [done|..]; intros <-; by destruct HId as [-> | ->].
  - intros pid Id' fuel Systemd Cfg Path Console PidFile (_ & _ & Hc)%Hinv. cbn in Hc. by apply demo_apart.
Qed.

Lemma pair_runs : exists tr, execution "/run/c2" (boot_all "/run" create_files pair) tr /\
  length (history (state_file "/run" "c1") None tr.*2) = 4%nat /\
  length (history (state_file "/run" "c2") None tr.*2) = 5%nat /\
  orderly_run "/run" "c2" (mine "c2" pair) ∅ (family_trace (dom (mine "c2" pair)) tr) = true.
Proof.
  apply (play_reaches "/run/c2" (λ s tr, length (history (state_file "/run" "c1") None tr.*2) = 4%nat /\
    length (history (state_file "/run" "c2") None tr.*2) = 5%nat /\
    orderly_run "/run" "c2" (mine "c2" pair) ∅ (family_trace (dom (mine "c2" pair)) tr) = true) pair_script).
  vm_compute. reflexivity.
Qed.

Lemma several_containers_witness :
  exists tr : list (label * system), length (history (state_file "/run" "c1") None tr.*2) = 4%nat /\
    execution "/run/c2" (boot_any "/run" "c2" create_files (mine "c2" pair)) (family_trace (dom (mine "c2" pair)) tr).
Proof.
  destruct pair_runs as (tr & Hex & Hlen & _). exists tr. split; [exact Hlen|].
  exact (several_containers "/run" "c2" create_files pair tr (pair_ok "c2" (or_intror eq_refl)) Hex).
Defined.

(** ** Whole programs *)

(** A parser for the command lines of the example. *)
Definition line_options (_ : list parser_decl) (Argv : list string) : option Options :=
  match Argv with
  | [_; cmd; Id] =>
      let named name := String.eqb cmd name in
      Some (Build_Options false "/run" false EmptyString Id "/bundle" EmptyString (path_append "/run" (Id +:+ ".pid"))
        false EmptyString (named "start") (named "create") (named "delete") (named "kill")
        (named "state"))
  | [_; _] => Some (Build_Options true "/run" false EmptyString EmptyString EmptyString EmptyString EmptyString
      false EmptyString false false false false false)
  | _ => None
  end.

(** The commands of [pair], a process that prints the version, and one with a wrong
    command line. *)
Definition pair_lines : gmap Z (list string) :=
  {[ 100 := ["runw"; "create"; "c1"]; 200 := ["runw"; "start"; "c1"]; 110 := ["runw"; "create"; "c2"];
     210 := ["runw"; "start"; "c2"]; 410 := ["runw"; "delete"; "c2"]; 800 := ["runw"; "--version"]; 900 := ["runw"] ]}.

Local Abbreviation with_lines F := (F (λ _ : string, true) line_options (λ _ : option_decl, "config.json")).
Local Abbreviation pair_boot := (with_lines boot_lines "0.1" "/var" 1%nat create_files pair_lines).
Local Abbreviation pair_commands := (with_lines line_commands "/var" 1%nat pair_lines).
Local Abbreviation pair_settle := (with_lines settle_trace "/var" 1%nat "/run" pair_lines).

Lemma pair_lines_commands : pair_commands = pair.
Proof. vm_compute. reflexivity. Qed.

Lemma pair_one_root : with_lines one_root "/var" 1%nat "/run" pair_lines.
Proof.
  intros pid Argv R Id c _ (o & Ho & (c' & _ & [= <- _ _])%bind_Some)%bind_Some.
  unfold line_options in Ho. by destruct Argv as [|a [|b [|d [|]]]]; simplify_eq/=.
Qed.

Lemma pair_programs_run : exists tr, execution "/run/c2" pair_boot tr /\
  length (history (state_file "/run" "c1") None tr.*2) = 4%nat /\
  length (history (state_file "/run" "c2") None tr.*2) = 5%nat /\
  orderly_run "/run" "c2" (mine "c2" pair) ∅ (family_trace (dom (mine "c2" pair)) (pair_settle tr)) = true.
Proof.
  apply (play_reaches "/run/c2" (λ s tr, length (history (state_file "/run" "c1") None tr.*2) = 4%nat /\
    length (history (state_file "/run" "c2") None tr.*2) = 5%nat /\
    orderly_run "/run" "c2" (mine "c2" pair) ∅ (family_trace (dom (mine "c2" pair)) (pair_settle tr)) = true)
    (ActCall 410 :: ActCall 100 :: ActCall 110 :: ActCall 200 :: ActCall 800 :: ActCall 210 :: ActCall 800 ::
     ActCall 900 :: pair_script)).
  vm_compute. reflexivity.
Qed.

Lemma programs_run_commands_witness :
  exists tr : list (label * system), length (history (state_file "/run" "c1") None tr.*2) = 4%nat /\
    execution "/run/c2" (boot_all "/run" create_files pair) (pair_settle tr).
Proof.
  destruct pair_programs_run as (tr & Hex & Hlen & _). exists tr. split; [exact Hlen|].
  rewrite <- pair_lines_commands.
  exact (proj1 (with_lines programs_run_commands "0.1" "/var" 1%nat "/run" create_files pair_lines "/run/c2" tr
    pair_one_root Hex)).
Defined.

Lemma programs_lifecycles_witness :
  exists (tr : list (label * system)) path, length (history (state_file "/run" "c1") None tr.*2) = 4%nat /\
    length (history (state_file "/run" "c2") None tr.*2) = 5%nat /\ life_path "c2" None path /\
    Forall2 (λ s a, k_files (s_kernel s) !! state_file "/run" "c2" = (λ st, Reg (State_print st)) <$> a) tr.*2 path.
Proof.
  destruct pair_programs_run as (tr & Hex & Hlen1 & Hlen2 & Hord). exists tr.
  pose proof (pair_ok "c2" (or_intror eq_refl)) as Hok. rewrite <- pair_lines_commands in Hok, Hord.
  pose proof (settle_execution _ _ _ _ _ _ _ _ _ _
    (with_lines lines_boot "0.1" "/var" 1%nat "/run" create_files pair_lines pair_one_root) Hex) as Hex'.
  rewrite boot_settled in Hex' by exact pair_one_root.
  destruct (with_lines programs_lifecycles "0.1" "/var" 1%nat "/run" "c2" create_files pair_lines tr pair_one_root Hok Hex
    (orderly_checked "/run" "c2" create_files (mine "c2" pair_commands) _ (several_execution _ _ _ _ _ Hok Hex') Hord))
    as (path & H1 & H2).
  exists path. split; [exact Hlen1|]. split; [exact Hlen2|]. split; [exact H1|exact H2].
Defined.

(** ** A container that is deleted and created again *)

Definition again : gmap Z any_command :=
  {[ 100 := Some_command (demo_create "/run/c1.pid"); 200 := Some_command (CmdStart "config.json"); 400 := CmdDelete false;
     500 := Some_command (CmdCreate 1 false "config.json" "/bundle2" EmptyString "/run/c2.pid") ]}.

Lemma again_ok : deletes_ok "/run" "c1" reuse_files again.
Proof.
  assert (forall pid c, again !! pid = Some c -> in_type Int32 pid /\
    match c with Some_command (CmdCreate _ _ _ _ _ P) => P = "/run/c1.pid" \/ P = "/run/c2.pid" | _ => True end) as Hinv.
  { intros pid c. unfold again. rewrite !lookup_insert_Some, lookup_singleton_Some.
    intros [[<- <-]|[_ [[<- <-]|[_ [[<- <-]|[_ [<- <-]]]]]]]; (split; [done|]); cbn; auto. }
  split.
  - intros q Hq. unfold reuse_files, create_files. rewrite !lookup_insert_ne, lookup_singleton_ne; [done|..]; by intros <-.
  - intros pid fuel Systemd Cfg Path Console PidFile [_ Hc]%Hinv. apply demo_apart; [by left|done].
  - by intros pid [c [? _]%Hinv].
Qed.

(** Its six changes: the four states of the first container, its removal, and the
    first state of the second one. *)
Lemma again_runs : exists tr, execution "/run/c1" (boot_any "/run" "c1" reuse_files again) tr /\
  length (history (state_file "/run" "c1") None tr.*2) = 6%nat /\ orderly_run "/run" "c1" again ∅ tr = true.
Proof.
  apply (play_reaches "/run/c1" (λ s tr, length (history (state_file "/run" "c1") None tr.*2) = 6%nat /\
    orderly_run "/run" "c1" again ∅ tr = true)
    (create_script ++ replicate 3 (ActCall 102) ++ replicate 5 (ActCall 100) ++ replicate 51 (ActCall 103) ++
     replicate 8 (ActCall 200) ++ replicate 31 (ActCall 103) ++ replicate 4 (ActCall 400) ++ replicate 13 (ActCall 500))).
  vm_compute. reflexivity.
Qed.

Lemma orderly_lifecycle_witness :
  exists (tr : list (label * system)) path, length (history (state_file "/run" "c1") None tr.*2) = 6%nat /\
    life_path "c1" None path /\
    Forall2 (λ s a, k_files (s_kernel s) !! state_file "/run" "c1" = (λ st, Reg (State_print st)) <$> a) tr.*2 path.
Proof.
  destruct again_runs as (tr & Hex & Hlen & Hord). exists tr.
  destruct (orderly_lifecycle "/run" "c1" reuse_files again tr again_ok Hex (orderly_checked "/run" "c1" reuse_files again tr Hex Hord))
    as (path & H1 & H2).
  exists path. split; [exact Hlen|]. split; [exact H1|exact H2].
Defined.
